(* ===== verification/_CoqProject ===== *)
-Q . S2P
Prelude.v
Trace.v
GoStr.v
GoErr.v
GoTime.v
GoPath.v
GoFloat.v
GoUrl.v
GoJson.v
JsonText.v
Config.v
Breaker.v
Retry.v
ScanJob.v
Redis.v
Wp.v
Cache.v
Queue.v
QueueSpec.v
JobLife.v
Reaper.v
Worker.v
WorkerSpec.v
Drain.v
Storage.v
Artifact.v
Archive.v
Pool.v
Detect.v
DetectSpec.v
Command.v
Precision.v
Crypto.v
Gate.v
Auth.v
Compare.v
Sbom.v
Sigv4.v
S3.v
Verify.v
Osv.v
Report.v
Export.v
Manifest.v
MachO.v
Plist.v
Ipa.v
Webhook.v
Ingest.v
Apk.v
Lockfiles.v
Badging.v
Response.v
Hash.v
Pipeline.v
PipelineSpec.v
Backup.v
Cli.v
CliSpec.v
Patterns.v
Mcp.v
McpSpec.v
Benchmark.v
Router.v
Notify.v
NotifySpec.v
RateLimit.v
Upload.v
Apikey.v
Columns.v
Db.v
DbSpec.v
Migrate.v
Api.v
Routes.v
Main.v
