(* ===== verification/Prelude.v ===== *)
(** * MORF: a verification library

    MORF is a mobile-application secret scanner.  An HTTP server accepts an APK or
    IPA, stores the artifact, and publishes a job in Redis; worker processes pop
    jobs, run the scan (decompilation, a ripgrep pass over the result, attribution
    and filtering of the hits), store the result in the job's record and notify
    webhooks; a reaper recovers the jobs of dead workers; a command line and a CI
    gate consume the findings.  This library models the parts of the Go program
    that carry its own logic, one file per component, as executable functions, and
    proves what makes each of them correct.  All paths below are under src/morf/.

    ** Structure

    Foundations (no code of the program, only what Go and its standard library
    give it):
    - [Prelude]: 64-bit wrap-around, durations, lists with multiplicities.
    - [Trace]: computations over a state that emit events and may stop the process,
      with contracts on their events and on the order of the events.
    - [GoStr] strings, UTF-8, strconv and fmt; [GoErr] error values, wrapping,
      [errors.Is] and [errors.As]; [GoTime] time.Time and RFC 3339; [GoPath]
      filepath.Clean and Join; [GoFloat] IEEE doubles; [GoUrl] percent-encoding;
      [GoJson] decoded JSON values; [JsonText] what encoding/json keeps of a value, and
      how it fills a struct.
    - [Redis]: the database, the commands the program sends with their documented
      effects and replies, and the connection.  The server is a parameter (class
      [RedisServer], laws [RedisLaws]); the network decides for every round trip
      whether the request or the reply is lost; [M] is the monad of the client
      code, with errors, and [redisDo] is the breaker-guarded call of
      queue/queue.go.  An in-memory server shows the laws satisfiable.
    - [Wp]: the rules with which client code is stepped through on a reachable and
      on an unreachable server.

    The job pipeline:
    - [Breaker] (utils/circuitbreaker.go), [Retry] (utils/retry.go and the failure
      policy of worker/worker.go), [ScanJob] (models/ScanJob.go): the breaker with a
      step relation in which goroutines interleave inside [Call], the retry loop, and
      the job record with its Redis hash.
    - [Queue] (queue/queue.go): every operation of [JobQueue] and its Lua scripts;
      [QueueSpec]: the abstract reliable queue, the refinement of the operations and
      conservation of jobs on an unreliable network; [JobLife]: admission, status
      bookkeeping, cancellation, dead-letter retry.
    - [Reaper] (queue/reaper.go), [Worker] (worker/worker.go), [WorkerSpec], [Drain]:
      the sweep and its races, one delivery from pop to acknowledgement, its outcome,
      fencing and persistence, and progress of the whole pipeline.  The scan is a
      parameter here, together with what other processes do meanwhile.
    - [Pool] (worker/pool.go, utils/cpu.go), [Config] (config/config.go): sizing and
      life cycle of the pool; environment readers, validation, masking.

    Artifacts:
    - [Storage] (storage/storage.go, storage/local.go): the store interface and the
      local back end over a file system whose operations can fail; [Sigv4]
      (storage/sigv4.go) and [S3] (storage/s3.go): request signing and the remote
      back end, with the byte budget of concurrent uploads as a step relation.
    - [Artifact] (utils/jobcontext.go and worker/worker.go): workspaces, disk
      admission, resolution of a job's artifact; [Archive] (utils/zipbomb.go): the
      guard on archives; [Ingest] (ingest/, cmd/fetch.go): the adapters that fetch an
      artifact by reference.

    Scanning:
    - [Command] (utils/command.go): running tools; a child's output line by line.
    - [Detect], [DetectSpec] (detect/detect.go): pattern loading and scoping, the
      combined expression and its group map, findings of a line, the ripgrep pass,
      de-duplication.  [Precision] (detect/precision.go): the false-positive filter.
    - [Hash] (utils/hash.go): the memo of file digests.
    - [Manifest], [Apk], [Badging] (apk/): the manifest parser and exposure findings,
      native libraries, runtimes and Firebase, package data.  [MachO], [Plist], [Ipa]
      (ios/): strings of binaries, property lists, unpacking, the corpus, frameworks.
    - [Lockfiles] (apk/lockfiles.go, ios/lockfiles.go): the lock-file parsers and the
      enrichment of a bill of materials through pointers.  Nothing calls them yet.
    - [Sbom] (models/): components and package URLs.  [Osv] (osv/): lookups and the
      concurrent fetch as a step relation.  [Verify] (verify/): live verification.
    - [Cache] (utils/cache.go), [Response] (response/): cached metadata with versions;
      the envelopes of results.
    - [Pipeline], [PipelineSpec] (worker/worker.go, apk/): both scans of the worker, the
      synchronous and the command-line extraction, composed from the above.  [Backup]
      (utils/report.go, backup/): the report files.
    - [Benchmark] (benchmark/, cmd/bench.go): corpus, scores and reports.

    Findings and who sees them:
    - [Crypto] (crypto/), [Gate] (gate/), [Compare] (utils/comparison.go): protection at
      rest, baselines and the build gate, the difference of two scans.
    - [Report] (report/), [Export] (utils/export.go): masking, SARIF, CSV, PDF,
      CycloneDX.
    - [Cli], [CliSpec] (cmd/scan.go, cmd/gate.go); [Mcp], [McpSpec] (mcp/server.go);
      [Notify], [NotifySpec] (utils/slack.go, the Jira half of utils/database.go);
      [Webhook] (utils/webhook.go): the commands, the tools for assistants, the two
      services, and outgoing notifications.

    The server:
    - [Auth] (auth/, models/APIKey.go), [RateLimit] (router/middleware.go), [Router],
      [Upload] (router/routers.go, router/bodylimit.go), [Patterns] (utils/pattern.go,
      utils/directory_parser.go), [Api]: keys, limits, every handler, and the chain of
      middlewares in front of them; [Routes]: the route table, whose chains are that
      chain.  [Apikey] (cmd/apikey.go): creating, listing and revoking keys.
    - [Db], [DbSpec], [Migrate] (db/, utils/database.go): storing and reading scans over
      tables with transactions, the connection, migrations and the back-fill.  [Columns]
      (models/manifest_types.go, db/db.go): JSON columns and the repair of legacy rows.
    - [Main] (main.go): the start-up and shutdown of the three long-running modes.

    ** How the parts meet

    [Queue] runs its calls through [Breaker]; its records are [ScanJob]'s; [Reaper]
    and [Worker] are clients of [Queue] and are verified against the abstract queue
    of [QueueSpec] and the status invariant of [JobLife].  [Worker] uses the
    classification of [Retry].  [Artifact] is written against the interface
    [StorageOps], whose laws the local back end of [Storage] satisfies; [S3] is the
    other back end.  [Pipeline] composes [Artifact], [Archive], [Detect], [Precision],
    [Verify], [Manifest], [Apk], [Badging], [Ipa] and [Response], and discharges what
    [Worker] assumes of a scan; [Command] gives the run of ripgrep that [Detect] takes.
    [Db.CheckDuplicateInDB] is what [Pipeline]'s stored row of the same file stands for.
    [Cli] and [Mcp] compose [Pipeline] with [Precision], [Verify], [Report], [Export]
    and [Gate]; [Notify] composes [Pipeline] with the address predicates of [Webhook]
    and the routes of [Router].  [Upload] composes [Router], the URL check of
    [Webhook], [Storage], [Queue] and [JobLife], and its theorem ends in the worker's
    resolution of the artifact.  [Patterns] composes [Detect] and [Cache].  [Api]
    composes [RateLimit], [Auth], [Router] and [Upload].  [Main] composes [Config],
    [Storage], [Migrate] and [Pool].

    ** What the theorems show

    - Jobs are neither lost nor duplicated: refinement of the abstract queue,
      conservation under faults, recovery by the reaper, racing reapers, and what a
      worker acknowledges; a running worker empties the queue.  The windows the code
      leaves open are theorems too ([JobLife.requeue_can_lose_job],
      [JobLife.retry_can_lose_job], [Reaper.reaper_can_orphan_job],
      [WorkerSpec.lookup_error_drops_job], [WorkerSpec.push_error_drops_job],
      [WorkerSpec.cancel_can_be_overwritten]).
    - Bookkeeping is truthful: admission bound, status sets, cancellation, retry,
      round trip of the record; an accepted upload is a job whose artifact is found.
    - Failure handling is bounded: breaker invariants and trip count, retry loop,
      backoff without overflow, every run of the reaper and of a reader ends.
    - Untrusted input is confined: storage keys, archive names and sizes, extraction,
      fetched artifacts, uploads, bodies, file names of patterns, messages and reports.
    - Detection is faithful: scoping, attribution, recall of hits, errors of the
      scanner, de-duplication, the precision filter; a scan hands over exactly what its
      passes found and runs a tool only behind the guard.
    - Extraction is faithful: the components of a manifest, the strings of a binary,
      package data, lock files and bills of materials.
    - Outbound requests are confined: webhooks, downloads and comments reach no
      internal address; a verdict is grounded in a provider's answer; a signed request
      verifies.
    - Secrets are protected: encryption round trip, tables that hold protected values
      only, reports, tools and read routes that do not depend on a value beyond its
      mask (non-interference, as equality of two runs).
    - The gate is exact: decision, exit codes, the baseline file as a set.
    - The server is guarded and the database sound: middlewares before handlers, one
      bucket per address, all-or-nothing storage, reported migrations; a revoked key is
      refused after one cache lifetime.
    - A process starts and stops in order, and exits at start-up exactly when it must.

    ** Bounds and fuel

    [Retry.retry_loop] is given [MaxRetries + 1] units, the loop's own bound;
    [Retry.backoff_loop] its iteration count.  [Reaper.reap_loop] takes fuel
    because SCAN's cursor is the server's: [None] is "still scanning", and
    [Drain.reapOnce_terminates] gives enough of it.  [Command.read_loop] is given one
    unit more than the length of the output, which [Command.stream_delivers] shows to
    be enough.  Printing a number ([GoStr.digits_go]) is given its bit length,
    [GoFloat.pow_loop] 64 units for an exponent that is halved in every turn.
    [Pipeline.replace_all], the matchers of [Badging] and the loops that strip text are
    given the length of the text, of which every turn uses a character;
    [Manifest.line_loop] twice the number of lines, since a line is looked at twice at
    most; [Db.groups] the number of rows.  All other recursion is structural.  [int],
    [int64] and [time.Duration] are integers with the wrap-around written out where the
    code computes with them; a float converted to an integer out of range gives what the
    target (amd64 or arm64) gives.

    ** Not modelled

    Metrics and tracing (metrics/, telemetry/, utils/error.go) only
    observe.  The parsing of flags (cmd/root.go, cmd/cli.go),
    the routing of the web framework, the protocol of the MCP library,
    and starting, waiting for and killing processes belong to libraries and to the
    operating system.  Inside the worker, the heartbeat and cancellation-poll goroutines are not
    separate processes: what they and other workers do during a scan is part of the
    arbitrary world transformation the scan is.  Database sessions run one after the
    other, and a limiter's bucket is not reaped between its lookup and its use. *)
From stdpp Require Export base tactics list gmap strings sorting.
From Stdlib Require Export ZArith Lia.

(** ** Scopes and notations *)

Declare Scope go_scope.
Delimit Scope go_scope with go.

(** ** Machine integers

    [int], [int64] and [time.Duration] are two's-complement 64-bit integers in
    the builds the program targets (linux/amd64 and arm64); [uint64] is
    unsigned.  A value is a [Z] kept in range by the wrap functions. *)

Definition int64_min : Z := -9223372036854775808.
Definition int64_max : Z := 9223372036854775807.
Definition two64 : Z := 18446744073709551616.

Definition wrap64 (z : Z) : Z :=
  (z + 9223372036854775808) mod two64 - 9223372036854775808.

Definition uwrap64 (z : Z) : Z := z mod two64.

Definition in_int64 (z : Z) : Prop := (int64_min ≤ z ≤ int64_max)%Z.

Lemma wrap64_id z : in_int64 z → wrap64 z = z.
Proof.
  unfold in_int64, int64_min, int64_max, wrap64, two64. intros H.
  rewrite Z.mod_small; lia.
Qed.

Lemma wrap64_range z : in_int64 (wrap64 z).
Proof.
  unfold in_int64, int64_min, int64_max, wrap64, two64.
  pose proof (Z.mod_pos_bound (z + 9223372036854775808) 18446744073709551616).
  lia.
Qed.

Lemma uwrap64_id z : (0 ≤ z < two64)%Z → uwrap64 z = z.
Proof. intros. unfold uwrap64. by apply Z.mod_small. Qed.

(** ** Durations, in nanoseconds *)

Definition ns_per_sec : Z := 1000000000.
Definition seconds (n : Z) : Z := (n * ns_per_sec)%Z.
Definition minutes (n : Z) : Z := seconds (n * 60).
Definition hours (n : Z) : Z := seconds (n * 3600).

(** ** Lists *)

Lemma filter_ext_in {A} (P Q : A → Prop) `{!∀ x, Decision (P x), !∀ x, Decision (Q x)} (l : list A) :
  (∀ x, x ∈ l → P x ↔ Q x) → filter P l = filter Q l.
Proof.
  induction l as [|x l IH]; intros HPQ; [done|]. rewrite !filter_cons, IH by (intros y Hy; apply HPQ; by right).
  specialize (HPQ x (list_elem_of_here _ _)). do 2 case_decide; tauto.
Qed.

Section lists.
Context {A : Type}.
Implicit Types l : list A.

Definition count_occ_dec `{EqDecision A} (x : A) l : nat :=
  length (filter (x =.) l).

Lemma count_occ_nil `{EqDecision A} (x : A) : count_occ_dec x [] = 0.
Proof. reflexivity. Qed.

Lemma count_occ_cons `{EqDecision A} (x y : A) l :
  count_occ_dec x (y :: l) = (if decide (x = y) then 1 else 0) + count_occ_dec x l.
Proof.
  unfold count_occ_dec. rewrite filter_cons. by case_decide.
Qed.

Lemma count_occ_app `{EqDecision A} (x : A) l k :
  count_occ_dec x (l ++ k) = count_occ_dec x l + count_occ_dec x k.
Proof. unfold count_occ_dec. by rewrite filter_app, length_app. Qed.

Lemma count_occ_pos `{EqDecision A} (x : A) l :
  x ∈ l ↔ 0 < count_occ_dec x l.
Proof.
  induction l as [|y l IH].
  - rewrite count_occ_nil. split; [intros ?%elem_of_nil; done | lia].
  - rewrite count_occ_cons, elem_of_cons. case_decide; [split; [lia|auto]|]. rewrite IH. split; [intros [?|?]; [done|lia] | intros; right; lia].
Qed.

Lemma count_occ_zero `{EqDecision A} (x : A) l :
  x ∉ l ↔ count_occ_dec x l = 0.
Proof. rewrite count_occ_pos. lia. Qed.

(** First-occurrence removal, the effect of [LREM key 1 x]. *)
Fixpoint remove_first `{EqDecision A} (x : A) l : list A :=
  match l with
  | [] => []
  | y :: l' => if decide (x = y) then l' else y :: remove_first x l'
  end.

Lemma remove_first_count `{EqDecision A} (x y : A) l :
  count_occ_dec y (remove_first x l) =
  count_occ_dec y l - (if decide (x = y) then 1 else 0).
Proof.
  induction l as [|z l IH]; simpl; [by case_decide|].
  destruct (decide (x = z)) as [->|Hxz]; rewrite !count_occ_cons.
  - destruct (decide (z = y)), (decide (y = z)); subst; try done; lia.
  - rewrite IH. destruct (decide (x = y)), (decide (y = z)); subst; try done; lia.
Qed.

Lemma remove_first_notin `{EqDecision A} (x : A) l : x ∉ l → remove_first x l = l.
Proof.
  induction l as [|y l IH]; simpl; [done|].
  rewrite not_elem_of_cons. intros [??]. case_decide; [done|]. by rewrite IH.
Qed.

Lemma remove_first_perm `{EqDecision A} (x : A) l :
  x ∈ l → l ≡ₚ x :: remove_first x l.
Proof.
  induction l as [|y l IH]; simpl; [by intros ?%elem_of_nil|].
  rewrite elem_of_cons. case_decide as Hd; [by subst|].
  intros [?|Hin]; [done|]. rewrite (IH Hin) at 1. constructor.
Qed.

Lemma remove_first_sublist `{EqDecision A} (x : A) l : remove_first x l `sublist_of` l.
Proof.
  induction l as [|y l IH]; simpl; [done|].
  case_decide; [by apply sublist_cons | by apply sublist_skip].
Qed.

Lemma count_occ_perm `{EqDecision A} (x : A) l k :
  l ≡ₚ k → count_occ_dec x l = count_occ_dec x k.
Proof.
  intros Hp. unfold count_occ_dec. by rewrite Hp.
Qed.

(** The distinct elements of a list in the order of their first occurrences. *)
Definition first_seen `{EqDecision A} l : list A :=
  foldl (λ acc x, if decide (x ∈ acc) then acc else acc ++ [x]) [] l.

Lemma first_seen_snoc `{EqDecision A} l x :
  first_seen (l ++ [x]) = if decide (x ∈ first_seen l) then first_seen l else first_seen l ++ [x].
Proof. unfold first_seen. by rewrite foldl_app. Qed.

Lemma elem_of_first_seen `{EqDecision A} l x : x ∈ first_seen l ↔ x ∈ l.
Proof.
  induction l as [|y l IH] using rev_ind; [done|]. rewrite first_seen_snoc.
  case_decide; rewrite ?elem_of_app, ?list_elem_of_singleton; naive_solver.
Qed.

Lemma NoDup_first_seen `{EqDecision A} l : NoDup (first_seen l).
Proof.
  induction l as [|y l IH] using rev_ind; [constructor|]. rewrite first_seen_snoc.
  case_decide; [done|]. apply NoDup_app. split_and!; [done| |apply NoDup_singleton].
  intros z Hz ->%list_elem_of_singleton. done.
Qed.

Lemma first_seen_subseq `{EqDecision A} l : first_seen l `sublist_of` l.
Proof.
  induction l as [|y l IH] using rev_ind; [done|]. rewrite first_seen_snoc.
  case_decide; [by apply sublist_inserts_r|]. by apply sublist_app.
Qed.

End lists.

#[export] Instance count_occ_Proper {A} `{EqDecision A} (x : A) :
  Proper ((≡ₚ) ==> (=)) (count_occ_dec x).
Proof. intros l k. apply count_occ_perm. Qed.

(** ** Automation *)

Create HintDb morf.
Create Rewrite HintDb count.
#[export] Hint Rewrite @count_occ_nil @count_occ_cons @count_occ_app
  @remove_first_count : count.

(** Solve goals about numbers of occurrences. *)
Ltac count_solve :=
  autorewrite with count; repeat case_decide; subst; try done; try lia.

(** Split every [if]/[match] on a scrutinee that is not a variable and clean up. *)
Ltac destruct_all_matches :=
  repeat (case_match; simplify_eq/=).

Ltac bdestruct_Z :=
  repeat match goal with
  | |- context [Z.ltb ?a ?b] => destruct (Z.ltb_spec a b)
  | |- context [Z.leb ?a ?b] => destruct (Z.leb_spec a b)
  | |- context [Z.eqb ?a ?b] => destruct (Z.eqb_spec a b)
  | H : context [Z.ltb ?a ?b] |- _ => destruct (Z.ltb_spec a b)
  | H : context [Z.leb ?a ?b] |- _ => destruct (Z.leb_spec a b)
  | H : context [Z.eqb ?a ?b] |- _ => destruct (Z.eqb_spec a b)
  end.
