(* ===== verification/Trace.v ===== *)
(** * Computations with a trace

    A computation over a state that emits events and may stop the process or the
    goroutine it runs in ([None]: a panic, or the exit of a fatal log line).  A contract
    [obeys P Q] bounds its events and its result; [ordered] the order of its events. *)
From S2P Require Import Prelude.

Definition Trace (E S A : Type) : Type := S → option A * list E * S.

Section trace.
Context {E S : Type}.

#[export] Instance Trace_ret : MRet (Trace E S) := λ A a s, (Some a, [], s).
#[export] Instance Trace_bind : MBind (Trace E S) := λ A B f m s,
  let '(a, tr, s1) := m s in
  match a with
  | None => (None, tr, s1)
  | Some a => let '(b, tr', s2) := f a s1 in (b, tr ++ tr', s2)
  end.

Definition emit (l : list E) : Trace E S unit := λ s, (Some tt, l, s).
Definition stop {A} (l : list E) : Trace E S A := λ s, (None, l, s).
Definition outside {A} (f : S → A * S) : Trace E S A := λ s, let '(a, s') := f s in (Some a, [], s').

Definition events {A} (m : Trace E S A) (s : S) : list E := (m s).1.2.
Definition result {A} (m : Trace E S A) (s : S) : option A := (m s).1.1.

Lemma bind_cases {A B} (m : Trace E S A) (f : A → Trace E S B) s :
  (∃ tr s1, m s = (None, tr, s1) ∧ (m ≫= f) s = (None, tr, s1)) ∨
  (∃ a tr s1, m s = (Some a, tr, s1) ∧
     result (m ≫= f) s = result (f a) s1 ∧ events (m ≫= f) s = tr ++ events (f a) s1).
Proof.
  unfold mbind, Trace_bind, result, events. destruct (m s) as [[[a|] tr] s1]; [right|left; eauto].
  exists a, tr, s1. by destruct (f a s1) as [[b tr'] s2].
Qed.

(** ** Contracts *)

(** Every event of [m] satisfies [P], and what it returns satisfies [Q]. *)
Definition obeys {A} (P : E → Prop) (Q : A → Prop) (m : Trace E S A) : Prop :=
  ∀ s, Forall P (events m s) ∧ ∀ a, result m s = Some a → Q a.

Lemma obeys_ret {A} P (Q : A → Prop) a : Q a → obeys P Q (mret a).
Proof. intros HQ s. split; [constructor|]. intros b [= <-]. done. Qed.

Lemma obeys_bind {A B} P (Q : A → Prop) (R : B → Prop) (m : Trace E S A) (f : A → Trace E S B) :
  obeys P Q m → (∀ a, Q a → obeys P R (f a)) → obeys P R (m ≫= f).
Proof.
  intros Hm Hf s. destruct (Hm s) as [Ht Ha]. unfold result in Ha. unfold events in Ht.
  destruct (bind_cases m f s) as [(tr & s1 & Em & Eb)|(a & tr & s1 & Em & Er & Ee)]; rewrite Em in *.
  - unfold events, result. rewrite Eb. by split.
  - rewrite Er, Ee. destruct (Hf a (Ha a eq_refl) s1). split; [by apply Forall_app|done].
Qed.

Lemma obeys_emit P l : Forall P l → obeys P (λ _, True) (emit l).
Proof. intros Hl s. done. Qed.

Lemma obeys_stop {A} P (Q : A → Prop) l : Forall P l → obeys P Q (stop l).
Proof. intros Hl s. done. Qed.

Lemma obeys_outside {A} P (f : S → A * S) : obeys P (λ a, ∃ s, a = (f s).1) (outside f).
Proof. intros s. unfold outside, events, result. destruct (f s) as [a s'] eqn:Ef. cbn. split; [done|]. intros ? [= <-]. exists s. by rewrite Ef. Qed.

Lemma obeys_weaken {A} P (Q R : A → Prop) (m : Trace E S A) : (∀ a, Q a → R a) → obeys P Q m → obeys P R m.
Proof. intros HQ Hm s. destruct (Hm s). eauto. Qed.

(** ** What a run shows *)

(** A computation that never stops early. *)
Definition completes {A} (m : Trace E S A) : Prop := ∀ s, is_Some (result m s).

Lemma completes_ret {A} (a : A) : completes (mret a). Proof. intros s. by eexists. Qed.
Lemma completes_emit l : completes (emit l). Proof. intros s. by eexists. Qed.
Lemma completes_outside {A} (f : S → A * S) : completes (outside f).
Proof. intros s. unfold result, outside. destruct (f s). by eexists. Qed.
Lemma completes_bind {A B} (m : Trace E S A) (f : A → Trace E S B) : completes m → (∀ a, completes (f a)) → completes (m ≫= f).
Proof.
  intros Hm Hf s. destruct (Hm s) as [a Ha]. unfold result in Ha.
  destruct (bind_cases m f s) as [(tr & s1 & Em & Eb)|(a' & tr & s1 & Em & Er & Ee)]; [by rewrite Em in Ha|].
  rewrite Er. apply Hf.
Qed.

Lemma stopped_by_first {A B} (m : Trace E S A) (f : A → Trace E S B) s : (∀ a, completes (f a)) →
  (result (m ≫= f) s = None ↔ result m s = None) ∧ (result (m ≫= f) s = None → events (m ≫= f) s = events m s).
Proof.
  intros Hf. destruct (bind_cases m f s) as [(tr & s1 & Em & Eb)|(a & tr & s1 & Em & Er & Ee)].
  - unfold result, events. by rewrite Em, Eb.
  - destruct (Hf a s1) as [b Hb]. rewrite Er, Hb. unfold result at 1. rewrite Em. done.
Qed.

(** A run that is not stopped returns what satisfies [Q], and has an event of the kind
    [p] exactly when [v]. *)
Definition shows {A} (p : E → bool) (Q : A → Prop) (v : bool) (m : Trace E S A) : Prop :=
  ∀ s a, result m s = Some a → Q a ∧ existsb p (events m s) = v.

Lemma shows_bind {A B} p (Q : A → Prop) (R : B → Prop) v1 v2 (m : Trace E S A) (f : A → Trace E S B) :
  shows p Q v1 m → (∀ a, Q a → shows p R v2 (f a)) → shows p R (v1 || v2) (m ≫= f).
Proof.
  intros Hm Hf s b Hb. destruct (bind_cases m f s) as [(tr & s1 & Em & Eb)|(a & tr & s1 & Em & Er & Ee)].
  - unfold result in Hb. by rewrite Eb in Hb.
  - destruct (Hm s a) as [Ha Ht]; [unfold result; by rewrite Em|]. rewrite Er in Hb. destruct (Hf a Ha s1 b Hb) as [HR Ht'].
    split; [done|]. rewrite Ee, existsb_app, Ht'. unfold events in Ht. rewrite Em in Ht. cbn in Ht. by rewrite Ht.
Qed.

Lemma shows_cong {A} p (Q : A → Prop) v v' (m : Trace E S A) : v = v' → shows p Q v m → shows p Q v' m.
Proof. by intros ->. Qed.

Lemma shows_ret {A} p (Q : A → Prop) a : Q a → shows p Q false (mret a).
Proof. intros HQ s b [= <-]. done. Qed.

Lemma shows_emit p l : shows p (λ _, True) (existsb p l) (emit l).
Proof. intros s a _. done. Qed.

Lemma shows_outside {A} p (f : S → A * S) : shows p (λ _, True) false (outside f).
Proof. intros s a _. unfold events, outside. by destruct (f s). Qed.

Lemma shows_stop {A} p (Q : A → Prop) v l : shows p Q v (stop l).
Proof. intros s a Ha. discriminate Ha. Qed.

(** ** Order *)

(** The events of [m] come in the order of their rank, which stays within the bounds. *)
Definition ordered {A} (rank : E → nat) (lo hi : nat) (m : Trace E S A) : Prop :=
  (lo ≤ hi)%nat ∧ ∀ s, StronglySorted le (rank <$> events m s) ∧ Forall (λ n, lo ≤ n ≤ hi)%nat (rank <$> events m s).

Lemma sorted_app (l k : list nat) mid : StronglySorted le l → StronglySorted le k →
  Forall (λ n, n ≤ mid)%nat l → Forall (λ n, mid ≤ n)%nat k → StronglySorted le (l ++ k).
Proof.
  intros Hl Hk Fl Fk. induction Hl as [|x l Hl IH Hx]; [done|]. apply Forall_cons in Fl as [Hxm Fl'].
  cbn. constructor; [by apply IH|]. apply Forall_app. split; [done|].
  eapply Forall_impl; [exact Fk|]. cbn. lia.
Qed.

Lemma ordered_bind {A B} rank lo mid hi (m : Trace E S A) (f : A → Trace E S B) :
  ordered rank lo mid m → (∀ a, ordered rank mid hi (f a)) → (mid ≤ hi)%nat → ordered rank lo hi (m ≫= f).
Proof.
  intros [H1 Hm] Hf H2. split; [lia|]. intros s. destruct (Hm s) as [Hs Hb]. unfold events in Hs, Hb.
  destruct (bind_cases m f s) as [(tr & s1 & Em & Eb)|(a & tr & s1 & Em & Er & Ee)]; rewrite Em in *.
  - unfold events. rewrite Eb. split; [done|]. eapply Forall_impl; [exact Hb|]. cbn. lia.
  - rewrite Ee, fmap_app. destruct (Hf a) as [_ Hfa]. destruct (Hfa s1) as [Hs' Hb']. split.
    + eapply sorted_app; [done|done| |].
      * eapply Forall_impl; [exact Hb|]. cbn. intros n Hn. exact (proj2 Hn).
      * eapply Forall_impl; [exact Hb'|]. cbn. intros n Hn. exact (proj1 Hn).
    + apply Forall_app. split; (eapply Forall_impl; [eassumption|]); cbn; lia.
Qed.

Lemma ordered_ret {A} rank lo hi (a : A) : (lo ≤ hi)%nat → ordered rank lo hi (mret a).
Proof. intros Hl. split; [done|]. intros s. split; constructor. Qed.

Lemma ordered_outside {A} rank lo hi (f : S → A * S) : (lo ≤ hi)%nat → ordered rank lo hi (outside f).
Proof. intros Hl. split; [done|]. intros s. unfold events, outside. destruct (f s). cbn. split; constructor. Qed.

Lemma ordered_emit rank lo hi l : (lo ≤ hi)%nat →
  StronglySorted le (rank <$> l) → Forall (λ n, lo ≤ n ≤ hi)%nat (rank <$> l) → ordered rank lo hi (emit l).
Proof. intros Hl Hs Hb. by split. Qed.

Lemma ordered_stop {A} rank lo hi l : (lo ≤ hi)%nat →
  StronglySorted le (rank <$> l) → Forall (λ n, lo ≤ n ≤ hi)%nat (rank <$> l) → ordered (A := A) rank lo hi (stop l).
Proof. intros Hl Hs Hb. by split. Qed.

Lemma ordered_weaken {A} rank lo hi lo' hi' (m : Trace E S A) :
  ordered rank lo hi m → (lo' ≤ lo)%nat → (hi ≤ hi')%nat → ordered rank lo' hi' m.
Proof.
  intros [H1 Hm] H2 H3. split; [lia|]. intros s. destruct (Hm s) as [Hs Hb]. split; [done|].
  eapply Forall_impl; [exact Hb|]. cbn. lia.
Qed.
End trace.

Arguments emit {E S} l.
Arguments stop {E S A} l.
