(* ===== verification/GoStr.v ===== *)
(** * Go strings

    The fragment of Go's [strings], [strconv], [unicode/utf8] and [fmt]
    packages the modelled code uses.  A Go string is a sequence of bytes,
    represented by Stdlib's [string] of 8-bit [ascii] characters. *)
From S2P Require Import Prelude.
From Stdlib Require Import Ascii.

Local Open Scope Z_scope.

(** ** Bytes *)

Definition byte (c : ascii) : Z := Z.of_N (N_of_ascii c).

Definition byte_of (z : Z) : ascii := ascii_of_N (Z.to_N z).

Lemma byte_range c : 0 ≤ byte c < 256.
Proof.
  unfold byte. destruct c as [[] [] [] [] [] [] [] []]; vm_compute; split; congruence.
Qed.

Lemma byte_of_byte c : byte_of (byte c) = c.
Proof. unfold byte_of, byte. by rewrite N2Z.id, ascii_N_embedding. Qed.

Lemma byte_byte_of z : 0 ≤ z < 256 → byte (byte_of z) = z.
Proof. intros. unfold byte, byte_of. rewrite N_ascii_embedding; lia. Qed.

Definition is_digit (c : ascii) : bool := (48 <=? byte c) && (byte c <=? 57).

Definition is_alpha (c : ascii) : bool :=
  ((97 <=? byte c) && (byte c <=? 122)) || ((65 <=? byte c) && (byte c <=? 90)).

Definition is_upper (c : ascii) : bool := (65 <=? byte c) && (byte c <=? 90).

(** ** Concatenation *)

#[global] Arguments String.append _ _ : simpl nomatch.

Definition concat_str (l : list string) : string := foldr String.append "" l.

Lemma string_app_nil_r s : s +:+ "" = s.
Proof. induction s as [|c s IH]; [done|]. simpl. by f_equal. Qed.

Lemma string_app_assoc a b c : (a +:+ b) +:+ c = a +:+ (b +:+ c).
Proof. induction a as [|x a IH]; [done|]. simpl. by f_equal. Qed.

Lemma string_length_app a b :
  String.length (a +:+ b) = (String.length a + String.length b)%nat.
Proof. induction a as [|x a IH]; [done|]. simpl. by rewrite IH. Qed.

Lemma string_app_inj_r a b c : a +:+ c = b +:+ c → a = b.
Proof.
  revert b. induction a as [|x a IH]; intros [|y b]; simpl; [done| | |].
  - intros H. apply (f_equal String.length) in H. simpl in H.
    rewrite string_length_app in H. lia.
  - intros H. apply (f_equal String.length) in H. simpl in H.
    rewrite string_length_app in H. lia.
  - intros [= -> H]. f_equal. by apply IH.
Qed.

(** [len(s)] as a Go [int]. *)
Definition len (s : string) : Z := Z.of_nat (String.length s).

(** ** Prefixes, suffixes and substrings *)

Fixpoint strip_prefix (p s : string) : option string :=
  match p, s with
  | EmptyString, _ => Some s
  | String a p', String b s' =>
      if decide (a = b) then strip_prefix p' s' else None
  | String _ _, EmptyString => None
  end.

Lemma strip_prefix_Some p s r : strip_prefix p s = Some r ↔ s = p +:+ r.
Proof.
  revert s. induction p as [|a p IH]; intros s; simpl.
  - split; congruence.
  - destruct s as [|b s]; [split; intros; simplify_eq|].
    case_decide; subst.
    + rewrite IH. split; [by intros -> | by intros [= ->]].
    + split; intros; simplify_eq.
Qed.

Lemma strip_prefix_app p r : strip_prefix p (p +:+ r) = Some r.
Proof. by apply strip_prefix_Some. Qed.

Definition HasPrefix (s p : string) : bool := bool_decide (is_Some (strip_prefix p s)).

Lemma HasPrefix_spec s p : HasPrefix s p = true ↔ ∃ r, s = p +:+ r.
Proof.
  unfold HasPrefix. rewrite bool_decide_eq_true. split.
  - intros [r H%strip_prefix_Some]. eauto.
  - intros [r ->]. rewrite strip_prefix_app. eauto.
Qed.

Lemma HasPrefix_app a b : HasPrefix (a +:+ b) a = true.
Proof. apply HasPrefix_spec. eauto. Qed.

Definition TrimPrefix (s p : string) : string := default s (strip_prefix p s).

Definition HasSuffix (s p : string) : bool :=
  HasPrefix (String.rev s) (String.rev p).

(** [strings.Index]: byte offset of the first occurrence. *)
Fixpoint Index (s sub : string) : option nat :=
  match strip_prefix sub s with
  | Some _ => Some O
  | None => match s with
            | EmptyString => None
            | String _ s' => S <$> Index s' sub
            end
  end.

Definition Contains (s sub : string) : bool := bool_decide (is_Some (Index s sub)).

Lemma Index_Some s sub n :
  Index s sub = Some n → ∃ a b, s = a +:+ sub +:+ b ∧ String.length a = n.
Proof.
  revert n. induction s as [|c s IH]; intros n; simpl.
  - destruct (strip_prefix sub "") eqn:E; [|done]. apply strip_prefix_Some in E.
    intros [= <-]. by exists "", s.
  - destruct (strip_prefix sub (String c s)) eqn:E.
    + apply strip_prefix_Some in E. intros [= <-]. by exists "", s0.
    + destruct (Index s sub) as [m|]; [|done]. intros [= <-].
      destruct (IH m eq_refl) as (a & b & -> & <-).
      by exists (String c a), b.
Qed.

Lemma Index_is_Some s sub a b : s = a +:+ sub +:+ b → is_Some (Index s sub).
Proof.
  revert s. induction a as [|c a IH]; intros s ->.
  - simpl. destruct (sub +:+ b) eqn:E; simpl.
    + destruct sub; simplify_eq/=. eauto.
    + rewrite <-E, strip_prefix_app. eauto.
  - simpl. destruct (strip_prefix sub (String c (a +:+ sub +:+ b))); [eauto|].
    destruct (IH _ eq_refl) as [n ->]. eauto.
Qed.

Lemma Contains_spec s sub : Contains s sub = true ↔ ∃ a b, s = a +:+ sub +:+ b.
Proof.
  unfold Contains. rewrite bool_decide_eq_true. split.
  - intros [n (a & b & -> & _)%Index_Some]. eauto.
  - intros (a & b & ->). by eapply Index_is_Some.
Qed.

Definition Any_contains (s : string) (subs : list string) : bool :=
  existsb (Contains s) subs.

(** Byte offset of the last occurrence of one byte ([strings.LastIndex] with a
    one-byte pattern). *)
Fixpoint LastIndexByte (s : string) (c : ascii) : option nat :=
  match s with
  | EmptyString => None
  | String a s' =>
      match LastIndexByte s' c with
      | Some n => Some (S n)
      | None => if decide (a = c) then Some O else None
      end
  end.

Lemma LastIndexByte_app a s c : LastIndexByte s c = None →
  LastIndexByte (a +:+ String c s) c = Some (String.length a).
Proof.
  intros Hs. induction a as [|x a IH]; cbn; [|by rewrite IH].
  rewrite Hs. by rewrite decide_True.
Qed.

Fixpoint IndexByte (s : string) (c : ascii) : option nat :=
  match s with
  | EmptyString => None
  | String a s' => if decide (a = c) then Some O else S <$> IndexByte s' c
  end.

Fixpoint CountByte (s : string) (c : ascii) : nat :=
  match s with
  | EmptyString => O
  | String a s' => ((if decide (a = c) then 1 else 0) + CountByte s' c)%nat
  end.

(** Go slicing [s[i:j]]; total here, out-of-range indices are clipped. *)
Definition slice (s : string) (i j : nat) : string := String.substring i (j - i) s.

Definition slice_from (s : string) (i : nat) : string := slice s i (String.length s).

(** [strings.SplitN s sep 2] for a one-byte separator: head, and the rest when
    the separator occurs. *)
Fixpoint Cut (s : string) (c : ascii) : string * option string :=
  match s with
  | EmptyString => ("", None)
  | String a s' =>
      if decide (a = c) then ("", Some s')
      else let '(h, t) := Cut s' c in (String a h, t)
  end.

(** [strings.Split s sep] for a one-byte separator. *)
Fixpoint Split (s : string) (c : ascii) : list string :=
  match s with
  | EmptyString => [""]
  | String a s' =>
      if decide (a = c) then "" :: Split s' c
      else match Split s' c with
           | h :: t => String a h :: t
           | [] => [String a ""]
           end
  end.

(** [strings.Join] *)
Fixpoint Join (l : list string) (sep : string) : string :=
  match l with [] => "" | [s] => s | s :: l => s +:+ sep +:+ Join l sep end.

(** [strings.SplitN s sep n] for a one-byte separator and [n >= 1]. *)
Fixpoint SplitN (n : nat) (s : string) (c : ascii) : list string :=
  match n with
  | O => []
  | S O => [s]
  | S n' => match Cut s c with
            | (h, None) => [h]
            | (h, Some t) => h :: SplitN n' t c
            end
  end.

(** [strings.ReplaceAll s a b] for one-byte [a] and [b]. *)
Fixpoint ReplaceByte (s : string) (a b : ascii) : string :=
  match s with
  | EmptyString => ""
  | String c s' => String (if decide (c = a) then b else c) (ReplaceByte s' a b)
  end.

Lemma Cut_spec s c :
  match Cut s c with
  | (h, None) => s = h
  | (h, Some t) => s = h +:+ String c t
  end.
Proof.
  induction s as [|a s IH]; simpl; [done|]. case_decide; [by subst|].
  destruct (Cut s c) as [h [t|]]; simpl; by f_equal.
Qed.

(** ** UTF-8

    [range s] and [[]rune(s)] decode a string rune by rune; an invalid byte
    yields U+FFFD and advances by one byte.  [runes s] lists the code points
    with the bytes each one was decoded from. *)

Definition rune_error : Z := 65533.

Definition is_cont (b : Z) : bool := (128 <=? b) && (b <=? 191).

(** Admissible second bytes, by lead byte (table 3-7 of the Unicode standard). *)
Definition second3 (c0 c1 : Z) : bool :=
  if c0 =? 224 then (160 <=? c1) && (c1 <=? 191)
  else if c0 =? 237 then (128 <=? c1) && (c1 <=? 159)
  else is_cont c1.

Definition second4 (c0 c1 : Z) : bool :=
  if c0 =? 240 then (144 <=? c1) && (c1 <=? 191)
  else if c0 =? 244 then (128 <=? c1) && (c1 <=? 143)
  else is_cont c1.

Fixpoint take_str (n : nat) (s : string) : string :=
  match n, s with
  | S n', String c s' => String c (take_str n' s')
  | _, _ => ""
  end.

Fixpoint drop_str (n : nat) (s : string) : string :=
  match n, s with
  | S n', String _ s' => drop_str n' s'
  | O, _ => s
  | _, EmptyString => ""
  end.

Lemma take_drop_str n s : take_str n s +:+ drop_str n s = s.
Proof. revert n. induction s as [|c s IH]; intros [|n]; simpl; f_equal; auto. Qed.

Lemma take_str_app a b : take_str (String.length a) (a +:+ b) = a.
Proof. induction a as [|x a IH]; [by destruct b|]. cbn. by rewrite IH. Qed.

Lemma drop_str_app a b : drop_str (String.length a) (a +:+ b) = b.
Proof. by induction a as [|x a IH]; [destruct b|]. Qed.

Lemma take_str_all s : take_str (String.length s) s = s.
Proof. induction s as [|c s IH]; simpl; [done|]. by rewrite IH. Qed.

Lemma take_str_length n s : (n ≤ String.length s)%nat → String.length (take_str n s) = n.
Proof. revert s. induction n as [|n IH]; intros [|c s]; simpl; try lia. intros. rewrite IH; lia. Qed.

(** [utf8.DecodeRune] on the bytes [b0 s]: the code point and the number of
    bytes it takes after [b0]. *)
Definition decode_rune (b0 : ascii) (s : string) : Z * nat :=
  let c0 := byte b0 in
  if c0 <? 128 then (c0, 0%nat) else
  match s with
  | String b1 s2 =>
      let c1 := byte b1 in
      if ((194 <=? c0) && (c0 <=? 223)) && is_cont c1
      then ((c0 - 192) * 64 + (c1 - 128), 1%nat)
      else match s2 with
      | String b2 s3 =>
          let c2 := byte b2 in
          if ((224 <=? c0) && (c0 <=? 239)) && second3 c0 c1 && is_cont c2
          then ((c0 - 224) * 4096 + (c1 - 128) * 64 + (c2 - 128), 2%nat)
          else match s3 with
          | String b3 _ =>
              let c3 := byte b3 in
              if ((240 <=? c0) && (c0 <=? 244)) && second4 c0 c1
                 && is_cont c2 && is_cont c3
              then ((c0 - 240) * 262144 + (c1 - 128) * 4096
                    + (c2 - 128) * 64 + (c3 - 128), 3%nat)
              else (rune_error, 0%nat)
          | EmptyString => (rune_error, 0%nat)
          end
      | EmptyString => (rune_error, 0%nat)
      end
  | EmptyString => (rune_error, 0%nat)
  end.

(** [skip] counts the bytes already consumed by the current rune. *)
Fixpoint runes_go (skip : nat) (s : string) : list (Z * string) :=
  match s with
  | EmptyString => []
  | String b0 s1 =>
      match skip with
      | S k => runes_go k s1
      | O => let '(r, w) := decode_rune b0 s1 in
             (r, String b0 (take_str w s1)) :: runes_go w s1
      end
  end.

Definition runes (s : string) : list (Z * string) := runes_go 0 s.

Lemma runes_go_concat k s : concat_str (snd <$> runes_go k s) = drop_str k s.
Proof.
  revert k. induction s as [|b s IH]; intros [|k]; simpl; [done..| |done].
  destruct (decode_rune b s) as [r w]. simpl. by rewrite IH, take_drop_str.
Qed.

Lemma runes_concat s : concat_str (snd <$> runes s) = s.
Proof. apply runes_go_concat. Qed.

(** UTF-8 encoding of a code point; surrogates and out-of-range values are
    replaced by U+FFFD, as [string(rune)] does. *)
Definition encode_rune (r : Z) : string :=
  let r := if (r <? 0) || (1114111 <? r) || ((55296 <=? r) && (r <=? 57343))
           then rune_error else r in
  if r <? 128 then String (byte_of r) ""
  else if r <? 2048 then
    String (byte_of (192 + r / 64)) (String (byte_of (128 + r mod 64)) "")
  else if r <? 65536 then
    String (byte_of (224 + r / 4096))
      (String (byte_of (128 + (r / 64) mod 64)) (String (byte_of (128 + r mod 64)) ""))
  else
    String (byte_of (240 + r / 262144))
      (String (byte_of (128 + (r / 4096) mod 64))
        (String (byte_of (128 + (r / 64) mod 64)) (String (byte_of (128 + r mod 64)) ""))).

(** [[]rune(s)] and [string(rs)]. *)
Definition to_runes (s : string) : list Z := fst <$> runes s.
Definition of_runes (rs : list Z) : string := concat_str (encode_rune <$> rs).

(** ** White space: [unicode.IsSpace], [strings.TrimSpace], [strings.Fields] *)

Definition is_space (r : Z) : bool :=
  bool_decide (r ∈ [9; 10; 11; 12; 13; 32; 133; 160; 5760; 8232; 8233; 8239; 8287; 12288])
  || ((8192 <=? r) && (r <=? 8202)).

Fixpoint drop_spaces (l : list (Z * string)) : list (Z * string) :=
  match l with
  | [] => []
  | (r, b) :: l' => if is_space r then drop_spaces l' else l
  end.

Definition TrimSpace (s : string) : string :=
  concat_str (snd <$> reverse (drop_spaces (reverse (drop_spaces (runes s))))).

Fixpoint fields_go (cur : string) (l : list (Z * string)) : list string :=
  match l with
  | [] => if decide (cur = "") then [] else [cur]
  | (r, b) :: l' =>
      if is_space r
      then (if decide (cur = "") then [] else [cur]) ++ fields_go "" l'
      else fields_go (cur +:+ b) l'
  end.

Definition Fields (s : string) : list string := fields_go "" (runes s).

(** [strings.ToLower], for comparison with ASCII literals: ASCII letters are
    lowered, and so are the two non-ASCII code points whose lower case is ASCII
    (U+0130 and U+212A).  Other code points, whose lower case is never ASCII,
    are left as they are. *)
Definition lower_rune (p : Z * string) : string :=
  let '(r, b) := p in
  if (65 <=? r) && (r <=? 90) then String (byte_of (r + 32)) ""
  else if r =? 304 then "i"
  else if r =? 8490 then "k"
  else b.

Definition ToLower (s : string) : string := concat_str (lower_rune <$> runes s).

Definition lower_byte (c : ascii) : ascii :=
  if is_upper c then byte_of (byte c + 32) else c.

Fixpoint map_string (f : ascii → ascii) (s : string) : string :=
  match s with
  | EmptyString => ""
  | String c s' => String (f c) (map_string f s')
  end.

(** [strings.EqualFold] against an ASCII literal without [k] and [s] (the two
    letters whose fold orbit leaves ASCII). *)
Definition EqualFold (s t : string) : bool :=
  bool_decide (map_string lower_byte s = map_string lower_byte t).

(** ** Decimal integers: [strconv.Itoa], [strconv.Atoi], [fmt.Sscanf "%d"] *)

(** [strconv.Quote], which formats a string under the verb [%q].  Every rune from
    U+00A1 on but the soft hyphen counts as printable here. *)
Definition lower_hex (d : Z) : ascii := byte_of (if d <? 10 then 48 + d else 87 + d).
Definition hex_escape (b : Z) : string :=
  "\x" +:+ String (lower_hex (b / 16)) (String (lower_hex (b mod 16)) "").
Definition quote_rune (p : Z * string) : string :=
  let '(r, bytes) := p in
  match bytes with
  | String c "" =>
      let b := byte c in
      if 128 <=? b then hex_escape b
      else if (b =? 34) || (b =? 92) then String (byte_of 92) bytes
      else if b =? 7 then "\a" else if b =? 8 then "\b" else if b =? 12 then "\f" else if b =? 10 then "\n"
      else if b =? 13 then "\r" else if b =? 9 then "\t" else if b =? 11 then "\v"
      else if (b <? 32) || (b =? 127) then hex_escape b
      else bytes
  | _ => if (r <=? 160) || (r =? 173)
         then "\u00" +:+ String (lower_hex (r / 16)) (String (lower_hex (r mod 16)) "") else bytes
  end.
Definition Quote (s : string) : string :=
  String (byte_of 34) (concat_str (quote_rune <$> runes s) +:+ String (byte_of 34) "").

Definition digit (d : Z) : ascii := byte_of (48 + d).

Fixpoint digits_go (fuel : nat) (n : Z) (acc : string) : string :=
  match fuel with
  | O => acc
  | S f => if n <? 10 then String (digit n) acc
           else digits_go f (n / 10) (String (digit (n mod 10)) acc)
  end.

Definition utoa (n : Z) : string := digits_go (S (Z.to_nat (Z.log2 n))) n "".

Definition itoa (z : Z) : string :=
  if z <? 0 then String "-" (utoa (- z)) else utoa z.

(** Value of the longest prefix of digits, and what follows it. *)
Fixpoint scan_digits (acc : Z) (s : string) : Z * string :=
  match s with
  | EmptyString => (acc, "")
  | String c s' => if is_digit c then scan_digits (acc * 10 + (byte c - 48)) s'
                   else (acc, s)
  end.

Definition starts_digit (s : string) : bool :=
  match s with String c _ => is_digit c | EmptyString => false end.

Definition scan_unsigned (s : string) : option (Z * string) :=
  if starts_digit s then Some (scan_digits 0 s) else None.

(** Sign, digits, rest. *)
Definition scan_signed (s : string) : option (Z * string) :=
  match s with
  | String c s' =>
      if decide (c = "-"%char) then
        '(n, r) ← scan_unsigned s'; Some (- n, r)
      else if decide (c = "+"%char) then scan_unsigned s'
      else scan_unsigned s
  | EmptyString => None
  end.

Definition fits_int64 (z : Z) : bool := (int64_min <=? z) && (z <=? int64_max).

(** [strconv.Atoi] / [ParseInt(s, 10, 64)]: the whole string must be a number
    in range. *)
Definition Atoi (s : string) : option Z :=
  match scan_signed s with
  | Some (n, EmptyString) => if fits_int64 n then Some n else None
  | _ => None
  end.

Fixpoint skip_blanks (s : string) : string :=
  match s with
  | String c s' =>
      if decide (c = " "%char) then skip_blanks s'
      else if decide (c = "009"%char) then skip_blanks s'
      else if decide (c = "013"%char) then skip_blanks s'
      else s
  | EmptyString => ""
  end.

(** [fmt.Sscanf(s, "%d", &n)]: leading blanks are skipped, trailing input is
    left unread. *)
Definition Sscanf_d (s : string) : option Z :=
  '(n, _) ← scan_signed (skip_blanks s);
  if fits_int64 n then Some n else None.

(** ** Facts: white space *)

Lemma concat_str_app l k : concat_str (l ++ k) = concat_str l +:+ concat_str k.
Proof. induction l as [|x l IH]; simpl; [done|]. by rewrite IH, string_app_assoc. Qed.

Lemma drop_spaces_suffix l : ∃ k, l = k ++ drop_spaces l.
Proof.
  induction l as [|[r b] l [k IH]]; simpl; [by exists []|].
  case_match; [|by exists []]. exists ((r, b) :: k). simpl. by f_equal.
Qed.

(** The result of [TrimSpace] is a substring of its argument. *)
Lemma TrimSpace_infix s : ∃ a b, s = a +:+ TrimSpace s +:+ b.
Proof.
  unfold TrimSpace. destruct (drop_spaces_suffix (runes s)) as [k Hk].
  set (m := drop_spaces (runes s)) in *.
  destruct (drop_spaces_suffix (reverse m)) as [k' Hk'].
  set (m' := drop_spaces (reverse m)) in *.
  assert (Hm : m = reverse m' ++ reverse k').
  { by rewrite <-reverse_app, <-Hk', reverse_involutive. }
  exists (concat_str (snd <$> k)), (concat_str (snd <$> reverse k')).
  rewrite <-!concat_str_app, <-!fmap_app, <-Hm, <-Hk. by rewrite runes_concat.
Qed.

Lemma TrimSpace_nonempty s : TrimSpace s ≠ "" → s ≠ "".
Proof. intros H ->. by apply H. Qed.

(** ** Facts: decimal integers *)

Lemma is_digit_digit d : 0 ≤ d < 10 → is_digit (digit d) = true ∧ byte (digit d) = 48 + d.
Proof.
  intros Hd. unfold is_digit, digit. rewrite byte_byte_of by lia.
  split; [|done]. apply andb_true_iff; split; apply Z.leb_le; lia.
Qed.

Lemma scan_digits_digits_go fuel n acc :
  0 ≤ n < 10 ^ Z.of_nat fuel →
  scan_digits 0 (digits_go fuel n acc) = scan_digits n acc.
Proof.
  revert n acc. induction fuel as [|f IH]; intros n acc Hn.
  - simpl in *. by replace n with 0 by lia.
  - rewrite Nat2Z.inj_succ, Z.pow_succ_r in Hn by lia. simpl.
    destruct (Z.ltb_spec n 10).
    + simpl. destruct (is_digit_digit n) as [-> ->]; [lia|]. f_equal. lia.
    + rewrite IH by (split; [apply Z.div_pos; lia | apply Z.div_lt_upper_bound; lia]).
      simpl. destruct (is_digit_digit (n `mod` 10)) as [-> ->];
        [apply Z.mod_pos_bound; lia|].
      f_equal. pose proof (Z.div_mod n 10). lia.
Qed.

Lemma log2_fuel n : 0 ≤ n → n < 10 ^ Z.of_nat (S (Z.to_nat (Z.log2 n))).
Proof.
  intros Hn. destruct (Z.eq_dec n 0) as [->|]; [done|].
  pose proof (Z.log2_spec n ltac:(lia)) as [_ Hlog].
  pose proof (Z.log2_nonneg n).
  replace (Z.of_nat (S (Z.to_nat (Z.log2 n)))) with (Z.succ (Z.log2 n)) by lia.
  eapply Z.lt_le_trans; [exact Hlog|]. apply Z.pow_le_mono_l. lia.
Qed.

Lemma utoa_starts_digit n : 0 ≤ n → starts_digit (utoa n) = true.
Proof.
  intros Hn. unfold utoa.
  assert (∀ f m acc, 0 ≤ m → starts_digit acc = true →
    starts_digit (digits_go f m acc) = true) as Hgo.
  { intros f. induction f as [|f IH]; intros m acc Hm Hacc; simpl; [done|].
    destruct (Z.ltb_spec m 10); simpl; [by apply is_digit_digit|].
    apply IH; [apply Z.div_pos; lia|]. simpl. apply is_digit_digit.
    apply Z.mod_pos_bound. lia. }
  simpl. destruct (Z.ltb_spec n 10); simpl; [by apply is_digit_digit|].
  apply Hgo; [apply Z.div_pos; lia|]. simpl. apply is_digit_digit.
  apply Z.mod_pos_bound. lia.
Qed.

Lemma scan_unsigned_utoa n : 0 ≤ n → scan_unsigned (utoa n) = Some (n, "").
Proof.
  intros Hn. unfold scan_unsigned. rewrite utoa_starts_digit by done.
  unfold utoa. rewrite scan_digits_digits_go; [done|].
  split; [done|]. by apply log2_fuel.
Qed.

Lemma starts_digit_first c s : starts_digit (String c s) = true →
  c ≠ "-"%char ∧ c ≠ "+"%char ∧ c ≠ " "%char ∧ c ≠ "009"%char ∧ c ≠ "013"%char.
Proof. simpl. intros H. split_and!; intros ->; vm_compute in H; done. Qed.

Lemma scan_signed_itoa z : scan_signed (itoa z) = Some (z, "").
Proof.
  unfold itoa. destruct (Z.ltb_spec z 0).
  - simpl. rewrite scan_unsigned_utoa by lia. simpl. by rewrite Z.opp_involutive.
  - pose proof (utoa_starts_digit z ltac:(lia)) as Hd.
    pose proof (scan_unsigned_utoa z ltac:(lia)) as Hs.
    destruct (utoa z) as [|c s]; [done|].
    apply starts_digit_first in Hd as (? & ? & _). simpl.
    by rewrite !decide_False.
Qed.

(** A number ends where no digit follows. *)
Lemma scan_digits_sep s c r : is_digit c = false → ∀ acc n, scan_digits acc s = (n, "") →
  scan_digits acc (s +:+ String c r) = (n, String c r).
Proof.
  intros Hc. induction s as [|x s IH]; intros acc n; cbn [scan_digits String.append].
  - rewrite Hc. by intros [= <-].
  - destruct (is_digit x); [apply IH|done].
Qed.

Lemma scan_unsigned_sep n c r : is_digit c = false → 0 ≤ n →
  scan_unsigned (utoa n +:+ String c r) = Some (n, String c r).
Proof.
  intros Hc Hn. pose proof (scan_unsigned_utoa n Hn) as Hs. pose proof (utoa_starts_digit n Hn) as Hd.
  unfold scan_unsigned in *. rewrite Hd in Hs. injection Hs as Hs.
  assert (starts_digit (utoa n +:+ String c r) = true) as -> by (by destruct (utoa n)).
  by rewrite (scan_digits_sep _ _ _ Hc _ n).
Qed.

Lemma scan_signed_sep z c r : is_digit c = false → scan_signed (itoa z +:+ String c r) = Some (z, String c r).
Proof.
  intros Hc. unfold itoa. destruct (Z.ltb_spec z 0).
  - cbn -[scan_unsigned utoa]. rewrite scan_unsigned_sep by (done || lia). cbn. by rewrite Z.opp_involutive.
  - pose proof (utoa_starts_digit z ltac:(lia)) as Hd.
    pose proof (scan_unsigned_sep z c r Hc ltac:(lia)) as Hs.
    destruct (utoa z) as [|x s]; [done|].
    apply starts_digit_first in Hd as (? & ? & _). cbn -[scan_unsigned] in *.
    by rewrite !decide_False.
Qed.

Lemma skip_blanks_itoa z : skip_blanks (itoa z) = itoa z.
Proof.
  unfold itoa. destruct (Z.ltb_spec z 0); [done|].
  pose proof (utoa_starts_digit z ltac:(lia)) as Hd.
  destruct (utoa z) as [|c s]; [done|].
  apply starts_digit_first in Hd as (_ & _ & ? & ? & ?). simpl.
  by rewrite !decide_False.
Qed.

Lemma fits_int64_true z : in_int64 z → fits_int64 z = true.
Proof.
  unfold in_int64, fits_int64. intros. apply andb_true_iff. split; apply Z.leb_le; lia.
Qed.

Lemma Atoi_itoa z : in_int64 z → Atoi (itoa z) = Some z.
Proof. intros. unfold Atoi. by rewrite scan_signed_itoa, fits_int64_true. Qed.

Lemma Sscanf_d_itoa z : in_int64 z → Sscanf_d (itoa z) = Some z.
Proof.
  intros. unfold Sscanf_d. rewrite skip_blanks_itoa, scan_signed_itoa. simpl.
  by rewrite fits_int64_true.
Qed.

Lemma itoa_inj z1 z2 : itoa z1 = itoa z2 → z1 = z2.
Proof.
  intros H. apply (f_equal scan_signed) in H. rewrite !scan_signed_itoa in H. congruence.
Qed.

Lemma itoa_nonempty z : itoa z ≠ "".
Proof.
  intros H. pose proof (scan_signed_itoa z) as E. by rewrite H in E.
Qed.

#[export] Hint Resolve itoa_nonempty runes_concat : morf.

Definition nonempty (s : string) : bool := negb (bool_decide (s = "")).


(** ** Prefixes, delimiters and occurrences *)

(** [[^c]*], greedy: what precedes the first [c] or the end. *)
Fixpoint until (c : ascii) (s : string) : string * string :=
  match s with
  | "" => ("", "")
  | String a s' => if decide (a = c) then ("", s) else let '(h, t) := until c s' in (String a h, t)
  end.

Fixpoint forall_chars (f : ascii → bool) (s : string) : bool :=
  match s with "" => true | String c s' => f c && forall_chars f s' end.
Definition not_byte (a c : ascii) : bool := negb (bool_decide (c = a)).

Lemma not_byte_ne a c : not_byte a c = true → c ≠ a.
Proof. unfold not_byte. rewrite negb_true_iff, bool_decide_eq_false. done. Qed.

Lemma forall_chars_String f c s : forall_chars f (String c s) = true → f c = true ∧ forall_chars f s = true.
Proof. cbn. by rewrite andb_true_iff. Qed.

Lemma forall_chars_app f a b : forall_chars f (a +:+ b) = forall_chars f a && forall_chars f b.
Proof. induction a as [|c a IH]; [done|]. cbn. rewrite <- andb_assoc. by f_equal. Qed.

(** A prefix without [x] ends before [x]. *)
Lemma HasPrefix_sep p x s t : forall_chars (not_byte x) p = true →
  HasPrefix (s +:+ String x t) p = true → HasPrefix s p = true.
Proof.
  rewrite !HasPrefix_spec. revert s. induction p as [|c p IH]; intros s Hx [r Hr]; [by exists s|].
  apply forall_chars_String in Hx as [Hc Hp]. apply not_byte_ne in Hc.
  destruct s as [|c' s]; cbn in Hr; injection Hr as Ec Er; [congruence|].
  destruct (IH s Hp (ex_intro _ r Er)) as [r' ->]. exists r'. cbn. by rewrite Ec.
Qed.

Lemma Contains_tail c s p : Contains (String c s) p = false → Contains s p = false ∧ HasPrefix (String c s) p = false.
Proof.
  intros H. split; apply not_true_iff_false; intros E; apply not_true_iff_false in H; apply H.
  - apply Contains_spec in E as (a & b & ->). apply Contains_spec. by exists (String c a), b.
  - apply HasPrefix_spec in E as (r & ->). apply Contains_spec. by exists "", r.
Qed.

Lemma HasPrefix_None s p q : HasPrefix s p = false → strip_prefix (p +:+ q) s = None.
Proof.
  intros H. destruct (strip_prefix (p +:+ q) s) eqn:E; [|done]. apply strip_prefix_Some in E as ->.
  rewrite string_app_assoc, HasPrefix_app in H. done.
Qed.

Lemma Contains_app_r a b p : Contains (a +:+ b) p = false → Contains b p = false.
Proof.
  intros H. apply not_true_iff_false. intros E. apply not_true_iff_false in H. apply H.
  apply Contains_spec in E as (x & y & ->). apply Contains_spec. exists (a +:+ x), y. by rewrite string_app_assoc.
Qed.

Lemma until_app c v t : forall_chars (not_byte c) v = true → until c (v +:+ String c t) = (v, String c t).
Proof.
  induction v as [|x v IH]; intros H; [by cbn; rewrite decide_True|].
  apply forall_chars_String in H as [Hx H]. apply not_byte_ne in Hx. cbn.
  change (until c (v +:+ String c t)) with (until c (v +:+ String c t)). rewrite decide_False by done. by rewrite IH.
Qed.

Lemma nonempty_String s : nonempty s = true → ∃ c r, s = String c r.
Proof. destruct s; [done|eauto]. Qed.

Lemma bool_iff (a b : bool) : (a = true ↔ b = true) → a = b.
Proof. destruct a, b; intros [H1 H2]; naive_solver. Qed.

Lemma Contains_cons c s p : Contains (String c s) p = HasPrefix (String c s) p || Contains s p.
Proof.
  unfold Contains, HasPrefix. cbn [Index]. destruct (strip_prefix p (String c s)); [done|].
  change (bool_decide (is_Some (@None string))) with false. cbn [orb]. apply bool_decide_ext.
  destruct (Index s p); cbn; split; intros [? ?]; eauto; done.
Qed.

Lemma Contains_sub s p q : Contains s p = false → Contains s (p +:+ q) = false.
Proof.
  intros H. apply not_true_iff_false. intros E. apply not_true_iff_false in H. apply H.
  apply Contains_spec in E as (a & b & ->). apply Contains_spec. exists a, (q +:+ b). by rewrite string_app_assoc.
Qed.
