(* ===== verification/GoErr.v ===== *)
(** * Go errors

    Error values with their message, their identity and the errors they wrap,
    so that [errors.Is], [errors.As] and the type tests of the retry logic can
    be evaluated. *)
From S2P Require Import Prelude GoStr.

(** Package-level error values compared by identity. *)
Inductive sentinel :=
  | ErrNonRetryable
  | ErrRetryable
  | ErrNoJob
  | ErrQueueFull
  | ErrRecordNotFound
  | ErrNotExist
  | ErrAdapterNotConfigured
  | ContextCanceled
  | ContextDeadlineExceeded.

#[export] Instance sentinel_eq_dec : EqDecision sentinel.
Proof. solve_decision. Defined.

Definition sentinel_msg (s : sentinel) : string :=
  match s with
  | ErrNonRetryable => "non-retryable error"
  | ErrRetryable => "retryable error"
  | ErrNoJob => "no job available"
  | ErrQueueFull => "queue is full"
  | ErrRecordNotFound => "record not found"
  | ErrNotExist => "storage: object does not exist"
  | ErrAdapterNotConfigured => "ingest: adapter not configured"
  | ContextCanceled => "context canceled"
  | ContextDeadlineExceeded => "context deadline exceeded"
  end.

(** [ENew]: [errors.New] or [fmt.Errorf] without [%w]; [EWrap]: [fmt.Errorf]
    with its [%w] operands; [ERetryable]: a [*utils.RetryableError]; [ENet]: a
    value implementing [net.Error]; [EURL]: a [*url.Error]. *)
Inductive error :=
  | ENew (msg : string)
  | ESentinel (s : sentinel)
  | EWrap (msg : string) (wrapped : list error)
  | ERetryable (inner : error) (retryable : bool)
  | ENet (msg : string) (wrapped : list error)
  | EURL (msg : string) (inner : error).

(** The [Error() string] method. *)
Fixpoint Error (e : error) : string :=
  match e with
  | ENew m => m
  | ESentinel s => sentinel_msg s
  | EWrap m _ => m
  | ERetryable i _ => Error i
  | ENet m _ => m
  | EURL m _ => m
  end.

(** [errors.Is(e, target)] for a sentinel target. *)
Fixpoint errors_Is (e : error) (t : sentinel) : bool :=
  match e with
  | ENew _ => false
  | ESentinel s => bool_decide (s = t)
  | EWrap _ l | ENet _ l => existsb (λ e', errors_Is e' t) l
  | ERetryable i _ | EURL _ i => errors_Is i t
  end.

(** [errors.As(e, &retryableErr)]: the flag of the first [*RetryableError] in
    the pre-order, depth-first traversal of the tree of wrapped errors. *)
Fixpoint errors_As_Retryable (e : error) : option bool :=
  let fix first (l : list error) : option bool :=
    match l with
    | [] => None
    | x :: l' => match errors_As_Retryable x with
                 | Some b => Some b
                 | None => first l'
                 end
    end in
  match e with
  | ENew _ | ESentinel _ => None
  | EWrap _ l | ENet _ l => first l
  | ERetryable _ b => Some b
  | EURL _ i => errors_As_Retryable i
  end.

(** [_, ok := e.(net.Error)]: the dynamic type has [Timeout] and [Temporary]
    methods.  [*url.Error] and [context.DeadlineExceeded] have them too. *)
Definition is_net_Error (e : error) : bool :=
  match e with
  | ENet _ _ | EURL _ _ | ESentinel ContextDeadlineExceeded => true
  | _ => false
  end.

(** The type assertion of [e] to [*url.Error] succeeds. *)
Definition is_url_Error (e : error) : bool :=
  match e with EURL _ _ => true | _ => false end.

(** ** Results

    A Go function returning [(A, error)]; the value is meaningful only when the
    error is [nil]. *)
Inductive res (A : Type) :=
  | Ok (a : A)
  | Err (e : error).
Arguments Ok {A} _.
Arguments Err {A} _.

#[export] Instance res_ret : MRet res := λ A a, Ok a.
#[export] Instance res_bind : MBind res := λ A B f m,
  match m with Ok a => f a | Err e => Err e end.

Definition is_ok {A} (r : res A) : bool :=
  match r with Ok _ => true | Err _ => false end.
