(* ===== verification/GoTime.v ===== *)
(** * Go times

    [time.Time] values, and the RFC 3339 formatting and parsing through which
    job and worker timestamps are stored in Redis hashes. *)
From S2P Require Import Prelude GoStr.
From Stdlib Require Import Ascii.

Local Open Scope Z_scope.

(** An instant (nanoseconds since the Unix epoch) and the zone offset it is
    displayed in (minutes east of UTC). *)
Record gotime := mk_time { t_ns : Z; t_off : Z }.

#[export] Instance gotime_eq_dec : EqDecision gotime.
Proof. solve_decision. Defined.

(** The zero [time.Time]: January 1, year 1, 00:00:00 UTC. *)
Definition zero_time : gotime := mk_time (-62135596800 * ns_per_sec) 0.

Definition unix (t : gotime) : Z := t_ns t / ns_per_sec.

(** The instant to whole seconds, which is what RFC 3339 without fraction keeps. *)
Definition truncate_sec (t : gotime) : gotime := mk_time (unix t * ns_per_sec) (t_off t).

(** ** Proleptic Gregorian calendar *)

Record civil := mk_civil { c_year : Z; c_month : Z; c_day : Z }.

Definition is_leap (y : Z) : bool :=
  ((y mod 4 =? 0) && negb (y mod 100 =? 0)) || (y mod 400 =? 0).

Definition days_in (y m : Z) : Z :=
  if m =? 2 then (if is_leap y then 29 else 28)
  else if (m =? 4) || (m =? 6) || (m =? 9) || (m =? 11) then 30
  else 31.

(** Years are counted from March; an era is 400 years of 146097 days. *)
Definition civil_of_days (z : Z) : civil :=
  let z' := z + 719468 in
  let era := z' / 146097 in
  let doe := z' mod 146097 in
  let yoe := (doe - doe / 1460 + doe / 36524 - doe / 146096) / 365 in
  let doy := doe - (365 * yoe + yoe / 4 - yoe / 100) in
  let mp := (5 * doy + 2) / 153 in
  let d := doy - (153 * mp + 2) / 5 + 1 in
  let m := if mp <? 10 then mp + 3 else mp - 9 in
  mk_civil (yoe + era * 400 + (if m <=? 2 then 1 else 0)) m d.

Definition days_of_civil (c : civil) : Z :=
  let y := c_year c - (if c_month c <=? 2 then 1 else 0) in
  let era := y / 400 in
  let yoe := y mod 400 in
  let mp := if 2 <? c_month c then c_month c - 3 else c_month c + 9 in
  let doy := (153 * mp + 2) / 5 + c_day c - 1 in
  let doe := yoe * 365 + yoe / 4 - yoe / 100 + doy in
  era * 146097 + doe - 719468.

(** ** RFC 3339 *)

(** [n] in exactly [w] decimal digits (no more for the values used). *)
Definition pad2 (n : Z) : string := String (digit (n / 10)) (String (digit (n mod 10)) "").
Definition pad4 (n : Z) : string := pad2 (n / 100) +:+ pad2 (n mod 100).

Definition format_zone (off : Z) : string :=
  if off =? 0 then "Z"
  else (if off <? 0 then "-" else "+")
       +:+ pad2 (Z.abs off / 60) +:+ ":" +:+ pad2 (Z.abs off mod 60).

(** [t.Format(time.RFC3339)], for years 0 to 9999. *)
Definition Format (t : gotime) : string :=
  let secs := unix t + 60 * t_off t in
  let c := civil_of_days (secs / 86400) in
  let sod := secs mod 86400 in
  pad4 (c_year c) +:+ "-" +:+ pad2 (c_month c) +:+ "-" +:+ pad2 (c_day c) +:+ "T"
  +:+ pad2 (sod / 3600) +:+ ":" +:+ pad2 (sod / 60 mod 60) +:+ ":" +:+ pad2 (sod mod 60)
  +:+ format_zone (t_off t).

Definition digit_val (c : ascii) : option Z :=
  if is_digit c then Some (byte c - 48) else None.

(** Two digits and the rest of the input. *)
Definition get2 (s : string) : option (Z * string) :=
  match s with
  | String a (String b r) =>
      x ← digit_val a; y ← digit_val b; Some (10 * x + y, r)
  | _ => None
  end.

Definition get4 (s : string) : option (Z * string) :=
  '(h, r) ← get2 s; '(l, r') ← get2 r; Some (100 * h + l, r').

Definition expect (c : ascii) (s : string) : option string :=
  match s with
  | String a r => if decide (a = c) then Some r else None
  | EmptyString => None
  end.

(** Sign, hours and minutes of a zone, in minutes; nothing may follow. *)
Definition parse_zone (s : string) : option Z :=
  match s with
  | String c r =>
      if decide (c = "Z"%char) then (if decide (r = "") then Some 0 else None)
      else
        '(hh, r1) ← get2 r; r2 ← expect ":" r1; '(mm, r3) ← get2 r2;
        if bool_decide (r3 = "") && (hh <=? 24) && (mm <=? 60) then
          if decide (c = "+"%char) then Some (60 * hh + mm)
          else if decide (c = "-"%char) then Some (- (60 * hh + mm))
          else None
        else None
  | EmptyString => None
  end.

(** [time.Parse(time.RFC3339, s)] on the form [Format] writes.  The further
    spellings Go accepts (fractional seconds, a one-digit hour) are never
    written by the program and are rejected here. *)
Definition Parse (s : string) : option gotime :=
  '(y, s) ← get4 s; s ← expect "-" s;
  '(m, s) ← get2 s; s ← expect "-" s;
  '(d, s) ← get2 s; s ← expect "T" s;
  '(hh, s) ← get2 s; s ← expect ":" s;
  '(mi, s) ← get2 s; s ← expect ":" s;
  '(se, s) ← get2 s;
  off ← parse_zone s;
  if (1 <=? m) && (m <=? 12) && (1 <=? d) && (d <=? days_in y m)
     && (hh <=? 23) && (mi <=? 59) && (se <=? 59)
  then Some (mk_time
    ((days_of_civil (mk_civil y m d) * 86400 + hh * 3600 + mi * 60 + se - 60 * off)
     * ns_per_sec) off)
  else None.

(** ** Calendar facts *)

Lemma era_year_bounds doe : 0 ≤ doe < 146097 →
  let yoe := (doe - doe / 1460 + doe / 36524 - doe / 146096) / 365 in
  let doy := doe - (365 * yoe + yoe / 4 - yoe / 100) in
  0 ≤ yoe < 400 ∧ 0 ≤ doy ≤ 365 ∧
  (doy = 365 → (yoe mod 4 = 3 ∧ yoe mod 100 ≠ 99) ∨ yoe mod 400 = 399).
Proof.
  intros H yoe doy. subst yoe doy.
  assert (doe / 146096 = 0 ∨ doe / 146096 = 1) by (Z.to_euclidean_division_equations; lia).
  assert (0 ≤ doe / 36524 ≤ 4) by (Z.to_euclidean_division_equations; lia).
  Z.to_euclidean_division_equations; lia.
Qed.

Lemma month_bounds doy : 0 ≤ doy ≤ 365 →
  let mp := (5 * doy + 2) / 153 in
  0 ≤ mp ≤ 11 ∧ 1 ≤ doy - (153 * mp + 2) / 5 + 1.
Proof. intros. subst mp. Z.to_euclidean_division_equations; lia. Qed.

Lemma civil_of_days_valid z : let c := civil_of_days z in
  1 ≤ c_month c ≤ 12 ∧ 1 ≤ c_day c ≤ days_in (c_year c) (c_month c).
Proof.
  unfold civil_of_days. cbv zeta. cbn [c_year c_month c_day].
  pose proof (Z.mod_pos_bound (z + 719468) 146097 ltac:(lia)) as Hdoe.
  generalize ((z + 719468) / 146097) as era. intros era.
  set (doe := (z + 719468) mod 146097) in *.
  destruct (era_year_bounds doe Hdoe) as (Hyoe & Hdoy & Hleap).
  set (yoe := (doe - doe / 1460 + doe / 36524 - doe / 146096) / 365) in *.
  set (doy := doe - (365 * yoe + yoe / 4 - yoe / 100)) in *.
  destruct (month_bounds doy Hdoy) as [Hmp Hd].
  clearbody doy yoe. clear doe Hdoe.
  assert (Hfeb : doy = 365 → is_leap (yoe + era * 400 + 1) = true).
  { intros Hy%Hleap. unfold is_leap.
    replace ((yoe + era * 400 + 1) mod 4) with ((yoe + 1) mod 4)
      by (Z.to_euclidean_division_equations; lia).
    replace ((yoe + era * 400 + 1) mod 100) with ((yoe + 1) mod 100)
      by (Z.to_euclidean_division_equations; lia).
    replace ((yoe + era * 400 + 1) mod 400) with ((yoe + 1) mod 400)
      by (Z.to_euclidean_division_equations; lia).
    apply orb_true_iff. rewrite andb_true_iff, negb_true_iff, !Z.eqb_eq, Z.eqb_neq.
    Z.to_euclidean_division_equations; lia. }
  set (mp := (5 * doy + 2) / 153) in *.
  assert (Hval : mp = 0 ∨ mp = 1 ∨ mp = 2 ∨ mp = 3 ∨ mp = 4 ∨ mp = 5 ∨ mp = 6 ∨
    mp = 7 ∨ mp = 8 ∨ mp = 9 ∨ mp = 10 ∨ mp = 11) by lia.
  assert (Hrange : 153 * mp ≤ 5 * doy + 2 < 153 * mp + 153)
    by (unfold mp; Z.to_euclidean_division_equations; lia).
  clearbody mp. unfold days_in.
  destruct_or! Hval; subst mp; simpl in *;
    try (split; [lia|]; Z.to_euclidean_division_equations; lia).
  destruct (Z.eq_dec doy 365) as [->|]; [rewrite Hfeb by done|]; [done|].
  split; [lia|]. case_match; Z.to_euclidean_division_equations; lia.
Qed.

Lemma days_of_civil_of_days z : days_of_civil (civil_of_days z) = z.
Proof.
  unfold civil_of_days, days_of_civil. cbv zeta. cbn [c_year c_month c_day].
  pose proof (Z.mod_pos_bound (z + 719468) 146097 ltac:(lia)) as Hdoe.
  pose proof (Z.div_mod (z + 719468) 146097 ltac:(lia)) as Hz.
  set (era := (z + 719468) / 146097) in *.
  set (doe := (z + 719468) mod 146097) in *.
  destruct (era_year_bounds doe Hdoe) as (Hyoe & Hdoy & _).
  set (yoe := (doe - doe / 1460 + doe / 36524 - doe / 146096) / 365) in *.
  set (doy := doe - (365 * yoe + yoe / 4 - yoe / 100)) in *.
  destruct (month_bounds doy Hdoy) as [Hmp _].
  set (mp := (5 * doy + 2) / 153) in *.
  assert (Hy : (yoe + era * 400) / 400 = era) by (Z.to_euclidean_division_equations; lia).
  assert (Hm : (yoe + era * 400) mod 400 = yoe) by (Z.to_euclidean_division_equations; lia).
  destruct (Z.ltb_spec mp 10) as [Hlt|Hge].
  - replace (mp + 3 <=? 2) with false by (symmetry; apply Z.leb_gt; lia).
    replace (2 <? mp + 3) with true by (symmetry; apply Z.ltb_lt; lia).
    replace (mp + 3 - 3) with mp by lia.
    rewrite Z.sub_0_r, Z.add_0_r, Hy, Hm. subst doy. lia.
  - replace (mp - 9 <=? 2) with true by (symmetry; apply Z.leb_le; lia).
    replace (2 <? mp - 9) with false by (symmetry; apply Z.ltb_ge; lia).
    replace (mp - 9 + 9) with mp by lia.
    replace (yoe + era * 400 + 1 - 1) with (yoe + era * 400) by lia.
    rewrite Hy, Hm. subst doy. lia.
Qed.

(** ** The format round-trips *)

Definition time_ok (t : gotime) : Prop :=
  0 ≤ c_year (civil_of_days ((unix t + 60 * t_off t) / 86400)) ≤ 9999 ∧
  -1440 < t_off t < 1440.

Lemma get2_pad2 n r : 0 ≤ n < 100 → get2 (pad2 n +:+ r) = Some (n, r).
Proof.
  intros Hn. unfold pad2. simpl. unfold digit_val.
  destruct (is_digit_digit (n / 10)) as [-> ->];
    [split; [apply Z.div_pos; lia | apply Z.div_lt_upper_bound; lia]|].
  destruct (is_digit_digit (n mod 10)) as [-> ->]; [apply Z.mod_pos_bound; lia|].
  simpl. do 2 f_equal. pose proof (Z.div_mod n 10). lia.
Qed.

#[local] Opaque pad2 get2.
#[local] Arguments Z.add : simpl never.
#[local] Arguments Z.mul : simpl never.

Lemma get4_pad4 n r : 0 ≤ n < 10000 → get4 (pad4 n +:+ r) = Some (n, r).
Proof.
  intros Hn. unfold get4, pad4. rewrite string_app_assoc, get2_pad2.
  - simpl. rewrite get2_pad2 by (apply Z.mod_pos_bound; lia). simpl.
    do 2 f_equal. pose proof (Z.div_mod n 100). lia.
  - split; [apply Z.div_pos; lia | apply Z.div_lt_upper_bound; lia].
Qed.

#[local] Opaque pad4 get4.

Lemma parse_zone_format off : -1440 < off < 1440 →
  parse_zone (format_zone off) = Some off.
Proof.
  intros Hoff. unfold format_zone. destruct (Z.eqb_spec off 0) as [->|Hne]; [done|].
  assert (Hh : 0 ≤ Z.abs off / 60 < 24)
    by (split; [apply Z.div_pos; lia | apply Z.div_lt_upper_bound; lia]).
  pose proof (Z.mod_pos_bound (Z.abs off) 60 ltac:(lia)) as Hm.
  pose proof (Z.div_mod (Z.abs off) 60 ltac:(lia)) as Hdm.
  assert (Hgo : ∀ c, c ≠ "Z"%char →
    parse_zone (String c (pad2 (Z.abs off / 60) +:+ ":" +:+ pad2 (Z.abs off mod 60))) =
    if decide (c = "+"%char) then Some (Z.abs off)
    else if decide (c = "-"%char) then Some (- Z.abs off) else None).
  { intros c Hc. unfold parse_zone. rewrite decide_False by done.
    rewrite get2_pad2 by lia. simpl.
    rewrite <-(string_app_nil_r (pad2 (Z.abs off mod 60))), get2_pad2 by lia. simpl.
    replace (Z.abs off / 60 <=? 24) with true by (symmetry; apply Z.leb_le; lia).
    replace (Z.abs off mod 60 <=? 60) with true by (symmetry; apply Z.leb_le; lia).
    simpl. replace (60 * (Z.abs off / 60) + Z.abs off mod 60) with (Z.abs off) by lia.
    done. }
  destruct (Z.ltb_spec off 0).
  - etrans; [apply (Hgo "-"%char); done|]. simpl. f_equal. lia.
  - etrans; [apply (Hgo "+"%char); done|]. simpl. f_equal. lia.
Qed.

(** Parsing what [Format] wrote gives the instant back to the second. *)
Lemma Parse_Format t : time_ok t → Parse (Format t) = Some (truncate_sec t).
Proof.
  intros [Hy Hoff]. unfold Parse, Format.
  pose proof (civil_of_days_valid ((unix t + 60 * t_off t) / 86400)) as [Hm Hd].
  pose proof (days_of_civil_of_days ((unix t + 60 * t_off t) / 86400)) as Hdays.
  set (secs := unix t + 60 * t_off t) in *.
  set (c := civil_of_days (secs / 86400)) in *.
  pose proof (Z.mod_pos_bound secs 86400 ltac:(lia)) as Hsod.
  pose proof (Z.div_mod secs 86400 ltac:(lia)) as Hsecs.
  set (sod := secs mod 86400) in *.
  assert (Hd31 : days_in (c_year c) (c_month c) ≤ 31).
  { unfold days_in. repeat case_match; lia. }
  assert (Hhh : 0 ≤ sod / 3600 ≤ 23) by (Z.to_euclidean_division_equations; lia).
  assert (Hmi : 0 ≤ sod / 60 mod 60 ≤ 59) by (Z.to_euclidean_division_equations; lia).
  assert (Hse : 0 ≤ sod mod 60 ≤ 59) by (Z.to_euclidean_division_equations; lia).
  assert (Hsum : sod = sod / 3600 * 3600 + sod / 60 mod 60 * 60 + sod mod 60)
    by (Z.to_euclidean_division_equations; lia).
  clearbody c sod.
  rewrite get4_pad4 by lia. simpl.
  do 5 (rewrite get2_pad2 by lia; simpl).
  rewrite parse_zone_format by done. simpl.
  replace (_ && _) with true.
  - f_equal. unfold truncate_sec. f_equal. destruct c as [y m d]; simpl in *.
    rewrite Hdays. unfold secs in *. lia.
  - symmetry. rewrite !andb_true_iff, !Z.leb_le. lia.
Qed.

#[local] Transparent pad2 get2 pad4 get4.

Lemma Format_nonempty t : Format t ≠ "".
Proof. unfold Format, pad4, pad2. done. Qed.

#[export] Hint Resolve Format_nonempty : morf.
