(* ===== verification/GoPath.v ===== *)
(** * Lexical paths ([path/filepath] on Unix)

    [Clean], [Join], [Rel], [Base] and [Ext], when a relative path joined to a
    directory stays inside it, and cleaned absolute paths as lists of components. *)
From Stdlib Require Import Ascii.
From S2P Require Import Prelude GoStr GoErr.

Definition slash : ascii := "/".

Definition IsAbs (p : string) : bool := HasPrefix p "/".

(** One component against the stack of components kept so far, last on top. *)
Definition push_comp (rooted : bool) (st : list string) (c : string) : list string :=
  if decide (c = "" ∨ c = ".") then st
  else if decide (c = "..") then
    match st with
    | [] => if rooted then [] else [".."]
    | top :: st' => if decide (top = "..") then ".." :: st else st'
    end
  else c :: st.

Definition clean_comps (rooted : bool) (st cs : list string) : list string :=
  foldl (push_comp rooted) st cs.

Fixpoint join_slash (cs : list string) : string :=
  match cs with
  | [] => ""
  | [c] => c
  | c :: cs' => c +:+ "/" +:+ join_slash cs'
  end.

(** [filepath.Clean]: the shortest equivalent path, by lexical processing. *)
Definition Clean (p : string) : string :=
  let cs := rev (clean_comps (IsAbs p) [] (Split p slash)) in
  if IsAbs p then "/" +:+ join_slash cs
  else match cs with [] => "." | _ => join_slash cs end.

(** [filepath.Join] of non-empty elements. *)
Definition Join (a b : string) : string := Clean (a +:+ "/" +:+ b).

(** [path.Base], and [filepath.Base] *)
Fixpoint strip_slashes (s : string) : string :=
  match s with
  | "" => ""
  | String c s' => let t := strip_slashes s' in
                   if bool_decide (t = "") && bool_decide (c = "/"%char) then "" else String c t
  end.
Definition path_Base (p : string) : string :=
  if decide (p = "") then "."
  else
    let p := strip_slashes p in
    let b := match LastIndexByte p "/"%char with Some i => drop_str (S i) p | None => p end in
    if decide (b = "") then "/" else b.

(** [filepath.Rel] *)
Definition comps (p : string) : list string := filter (λ c, c ≠ "" ∧ c ≠ ".") (Split p slash).

Fixpoint drop_common (b t : list string) : list string * list string :=
  match b, t with
  | x :: b', y :: t' => if decide (x = y) then drop_common b' t' else (b, t)
  | _, _ => (b, t)
  end.

Definition Rel (basepath targpath : string) : res string :=
  let base := Clean basepath in
  let targ := Clean targpath in
  if decide (targ = base) then Ok "."
  else if bool_decide (IsAbs base ≠ IsAbs targ) then Err (ENew ("Rel: can't make " +:+ targpath +:+ " relative to " +:+ basepath))
  else
    match drop_common (comps base) (comps targ) with
    | (".." :: _, _) => Err (ENew ("Rel: can't make " +:+ targpath +:+ " relative to " +:+ basepath))
    | (b, t) => Ok (join_slash (((λ _, "..") <$> b) ++ t))
    end.

(** [filepath.Abs]; [wd] is the working directory, or why there is none. *)
Definition Abs (wd : res string) (p : string) : res string :=
  if IsAbs p then Ok (Clean p) else match wd with Ok d => Ok (Join d p) | Err e => Err e end.

(** [filepath.Ext]: from the last dot of the last component. *)
Fixpoint ext_go (best rest : string) : string :=
  match rest with
  | "" => best
  | String c rest' => ext_go (if decide (c = "/"%char) then "" else if decide (c = "."%char) then rest else best) rest'
  end.
Definition Ext (p : string) : string := ext_go "" p.

(** ** Lexical containment *)

Lemma Split_nonnil s c : Split s c ≠ [].
Proof. destruct s as [|a s]; simpl; [done|]. case_decide; [done|]. by destruct (Split s c). Qed.

Lemma Split_app a b c : Split (a +:+ String c b) c = Split a c ++ Split b c.
Proof.
  induction a as [|x a IH]; simpl; [by rewrite decide_True|].
  case_decide; [by rewrite IH|]. rewrite IH.
  pose proof (Split_nonnil a c). by destruct (Split a c).
Qed.

Lemma Split_none c s : forall_chars (not_byte c) s = true → Split s c = [s].
Proof.
  induction s as [|x s IH]; [done|]. intros [Hx Hs]%forall_chars_String. apply not_byte_ne in Hx.
  cbn. rewrite decide_False by done. by rewrite IH.
Qed.

Lemma clean_comps_app r st cs cs' :
  clean_comps r st (cs ++ cs') = clean_comps r (clean_comps r st cs) cs'.
Proof. apply foldl_app. Qed.

Lemma clean_comps_cons r st c cs :
  clean_comps r st (c :: cs) = clean_comps r (push_comp r st c) cs.
Proof. done. Qed.

(** A ".." at the bottom of a relative stack never goes away. *)
Lemma push_comp_dotdot st c : ".." ∈ st → ".." ∈ push_comp false st c.
Proof.
  unfold push_comp. intros H. repeat case_decide; try done; [|set_solver].
  destruct st as [|top st]; [by apply elem_of_nil in H|]. case_decide; [set_solver|].
  by apply elem_of_cons in H as [<-|H].
Qed.

Lemma clean_comps_dotdot st cs : ".." ∈ st → ".." ∈ clean_comps false st cs.
Proof. revert st. induction cs as [|c cs IH]; intros st H; [done|]. apply IH, push_comp_dotdot, H. Qed.

(** A relative path that never climbs out behaves the same under any root. *)
Lemma clean_comps_under root cs st :
  ".." ∉ clean_comps false st cs → ".." ∉ root →
  clean_comps true (st ++ root) cs = clean_comps false st cs ++ root.
Proof.
  revert st. induction cs as [|c cs IH]; intros st H Hr; [done|].
  rewrite !clean_comps_cons in *.
  assert (Hst : ".." ∉ push_comp false st c) by (intros Hin; apply H; by apply clean_comps_dotdot).
  rewrite <- IH by done. f_equal. unfold push_comp in *. repeat case_decide; try done.
  destruct st as [|top st]; cbn in *; [set_solver|]. by case_decide.
Qed.

(** Shape of a relative stack: ordinary components over a run of "..". *)
Lemma push_comp_shape st c :
  (∃ ns k, st = ns ++ replicate k ".." ∧ ".." ∉ ns) →
  (∃ ns k, push_comp false st c = ns ++ replicate k ".." ∧ ".." ∉ ns).
Proof.
  intros (ns & k & -> & Hns). unfold push_comp. repeat case_decide.
  - eauto.
  - destruct ns as [|n ns]; cbn.
    + destruct k as [|k]; cbn; [exists [], 1%nat; split; [done|apply not_elem_of_nil]|]. exists [], (S (S k)). split; [done|apply not_elem_of_nil].
    + rewrite decide_False by set_solver. exists ns, k. split; [done|set_solver].
  - exists (c :: ns), k. split; [done|]. rewrite not_elem_of_cons. done.
Qed.

Lemma clean_comps_shape cs st :
  (∃ ns k, st = ns ++ replicate k ".." ∧ ".." ∉ ns) →
  (∃ ns k, clean_comps false st cs = ns ++ replicate k ".." ∧ ".." ∉ ns).
Proof. revert st. induction cs as [|c cs IH]; intros st H; [done|]. apply IH, push_comp_shape, H. Qed.

Lemma join_slash_app cs ds :
  cs ≠ [] → ds ≠ [] → join_slash (cs ++ ds) = join_slash cs +:+ "/" +:+ join_slash ds.
Proof.
  intros Hc Hd. induction cs as [|c cs IH]; [done|]. destruct cs as [|c' cs].
  - cbn [app join_slash]. by destruct ds.
  - cbn [app join_slash] in *. rewrite IH by done. by rewrite !string_app_assoc.
Qed.

(** A rooted stack holds no "..". *)
Lemma rooted_no_dotdot cs st : ".." ∉ st → ".." ∉ clean_comps true st cs.
Proof.
  revert st. induction cs as [|c cs IH]; intros st H; [done|]. rewrite clean_comps_cons. apply IH.
  unfold push_comp. repeat case_decide; [done| |set_solver].
  destruct st as [|top st]; [done|]. case_decide; set_solver.
Qed.

(** Joining a non-climbing relative path to a cleaned directory stays inside. *)
Lemma clean_under root name :
  IsAbs root = true → root ≠ "/" → Clean root = root →
  ".." ∉ clean_comps false [] (Split name slash) →
  Clean (root +:+ "/" +:+ name) = root ∨
  HasPrefix (Clean (root +:+ "/" +:+ name)) (root +:+ "/") = true.
Proof.
  intros Habs Hne Hcl Hdd.
  assert (Habs' : IsAbs (root +:+ "/" +:+ name) = true).
  { apply HasPrefix_spec in Habs as [r ->]. apply HasPrefix_spec. eexists. by rewrite string_app_assoc. }
  unfold Clean in *. rewrite Habs in Hcl. rewrite Habs'.
  change ("/" +:+ name) with (String slash name). rewrite Split_app, clean_comps_app.
  set (st := clean_comps true [] (Split root slash)) in *.
  assert (Hst : ".." ∉ st) by (apply rooted_no_dotdot, not_elem_of_nil).
  pose proof (clean_comps_under st (Split name slash) [] Hdd Hst) as E. cbn [app] in E. rewrite E.
  rewrite rev_app_distr.
  assert (Hnil : rev st ≠ []) by (intros En; rewrite En in Hcl; by destruct Hne).
  destruct (rev (clean_comps false [] (Split name slash))) as [|d ds] eqn:Hd.
  - left. by rewrite app_nil_r.
  - right. rewrite join_slash_app by done. apply HasPrefix_spec. exists (join_slash (d :: ds)).
    rewrite <- !string_app_assoc. by rewrite Hcl.
Qed.

(** ** Absolute paths as lists of components *)

(** A component an absolute path keeps. *)
Definition plain_comp (c : string) : Prop :=
  c ≠ "" ∧ c ≠ "." ∧ c ≠ ".." ∧ forall_chars (not_byte slash) c = true.

Lemma Split_pieces s c : Forall (λ x, forall_chars (not_byte c) x = true) (Split s c).
Proof.
  induction s as [|a s IH]; cbn; [by constructor|].
  destruct (decide (a = c)) as [->|Hn]; [by constructor|].
  pose proof (Split_nonnil s c). destruct (Split s c) as [|x l]; [done|]. apply Forall_cons in IH as [Hx Hl].
  constructor; [|done]. cbn. rewrite Hx, andb_true_r. unfold not_byte. by rewrite bool_decide_eq_false_2.
Qed.

Lemma clean_comps_plain cs st : Forall (λ x, forall_chars (not_byte slash) x = true) cs →
  Forall plain_comp st → Forall plain_comp (clean_comps true st cs).
Proof.
  revert st. induction cs as [|c cs IH]; intros st Hc Hs; [done|]. apply Forall_cons in Hc as [Hx Hc].
  rewrite clean_comps_cons. apply IH; [done|]. unfold push_comp. repeat case_decide; [done| |].
  - destruct st; [done|]. apply Forall_cons in Hs as [Ht Hs]. case_decide; [|done]. by destruct Ht as (_ & _ & ? & _).
  - constructor; [|done]. unfold plain_comp. tauto.
Qed.

Lemma clean_comps_id st cs : Forall plain_comp cs → clean_comps true st cs = rev cs ++ st.
Proof.
  revert st. induction cs as [|c cs IH]; intros st Hc; [done|]. apply Forall_cons in Hc as [Hx Hc].
  rewrite clean_comps_cons, IH by done. cbn [rev]. rewrite <- app_assoc. f_equal.
  unfold push_comp. destruct Hx as (? & ? & ? & _). rewrite !decide_False by tauto. done.
Qed.

Lemma Split_join cs : Forall plain_comp cs → cs ≠ [] → Split (join_slash cs) slash = cs.
Proof.
  induction cs as [|c cs IH]; intros Hc Hn; [done|]. apply Forall_cons in Hc as [(_ & _ & _ & Hx) Hc].
  destruct cs as [|c' cs]; [by apply Split_none|].
  cbn [join_slash] in *. change ("/" +:+ ?x) with (String slash x). rewrite Split_app, Split_none, IH by done. done.
Qed.

(** An absolute cleaned path is its components. *)
Definition rooted (cs : list string) : string := "/" +:+ join_slash cs.

Lemma IsAbs_rooted cs : IsAbs (rooted cs) = true.
Proof. apply HasPrefix_spec. by eexists. Qed.

Lemma Split_rooted cs : Forall plain_comp cs → cs ≠ [] → Split (rooted cs) slash = "" :: cs.
Proof.
  intros Hc Hn. unfold rooted. change ("/" +:+ ?x) with ("" +:+ String slash x).
  by rewrite Split_app, Split_join by done.
Qed.

Lemma Clean_abs p : IsAbs p = true → ∃ cs, Clean p = rooted cs ∧ Forall plain_comp cs.
Proof.
  intros Ha. unfold Clean. rewrite Ha. eexists. split; [done|]. apply Forall_rev, clean_comps_plain; [|done].
  apply Split_pieces.
Qed.

Lemma Clean_rooted cs : Forall plain_comp cs → Clean (rooted cs) = rooted cs.
Proof.
  intros Hc. unfold Clean. rewrite IsAbs_rooted. destruct (decide (cs = [])) as [->|Hn]; [done|].
  rewrite Split_rooted by done. rewrite clean_comps_cons. cbn [push_comp]. rewrite clean_comps_id by done.
  rewrite app_nil_r, rev_involutive. done.
Qed.

Lemma Join_rooted cs b : Forall plain_comp cs → plain_comp b → Join (rooted cs) b = rooted (cs ++ [b]).
Proof.
  intros Hc Hb. unfold Join. destruct (decide (cs = [])) as [->|Hn].
  - unfold Clean. replace (rooted [] +:+ "/" +:+ b) with ("//" +:+ b) by done.
    replace (IsAbs ("//" +:+ b)) with true by (symmetry; apply HasPrefix_spec; by eexists).
    change ("//" +:+ b) with ("" +:+ String slash ("" +:+ String slash b)). rewrite !Split_app.
    rewrite (Split_none slash b) by apply Hb. cbn [Split app]. rewrite 2!clean_comps_cons.
    do 2 change (push_comp true [] "") with (@nil string). assert (Hs : Forall plain_comp [b]) by (repeat constructor; apply Hb). rewrite (clean_comps_id [] [b] Hs). done.
  - unfold Clean.
    replace (IsAbs (rooted cs +:+ "/" +:+ b)) with true by (symmetry; apply HasPrefix_spec; by eexists).
    change ("/" +:+ b) with (String slash b). rewrite Split_app, Split_rooted by done.
    rewrite (Split_none slash b) by apply Hb. cbn [app]. rewrite clean_comps_cons. cbn [push_comp].
    rewrite clean_comps_id by (apply Forall_app; by split; [|constructor]).
    by rewrite app_nil_r, rev_involutive.
Qed.

Lemma comps_rooted cs : Forall plain_comp cs → comps (rooted cs) = cs.
Proof.
  intros Hc. unfold comps. destruct (decide (cs = [])) as [->|Hn]; [done|]. rewrite Split_rooted by done.
  rewrite filter_cons_False by tauto. induction Hc as [|c cs (H1 & H2 & _) Hc IH]; [done|].
  rewrite filter_cons_True by done. destruct cs; [done|]. by rewrite IH.
Qed.

Lemma drop_common_prefix cs ds : drop_common cs (cs ++ ds) = ([], ds).
Proof. induction cs as [|c cs IH]; cbn; [by destruct ds|]. by rewrite decide_True. Qed.

Lemma rooted_inj cs ds : Forall plain_comp cs → Forall plain_comp ds → rooted cs = rooted ds → cs = ds.
Proof. intros Hc Hd E. by rewrite <- (comps_rooted cs), E, comps_rooted. Qed.

Lemma Rel_child cs b : Forall plain_comp cs → plain_comp b → Rel (rooted cs) (rooted (cs ++ [b])) = Ok b.
Proof.
  intros Hc Hb. assert (Hcb : Forall plain_comp (cs ++ [b])) by (apply Forall_app; by split; [|constructor]).
  unfold Rel. rewrite !Clean_rooted by done. rewrite decide_False.
  - rewrite !IsAbs_rooted, bool_decide_eq_false_2 by auto. by rewrite !comps_rooted, drop_common_prefix by done.
  - intros E%rooted_inj; [|done..]. apply (f_equal length) in E. rewrite length_app in E. cbn in E. lia.
Qed.

(** *** The last component *)

Lemma LastIndexByte_None_chars s c : LastIndexByte s c = None → forall_chars (not_byte c) s = true.
Proof.
  induction s as [|a s IH]; [done|]. cbn. destruct (LastIndexByte s c); [done|].
  case_decide; [done|]. intros _. rewrite IH by done. unfold not_byte. by rewrite bool_decide_eq_false_2.
Qed.

Lemma LastIndexByte_Some_chars s c n : LastIndexByte s c = Some n →
  forall_chars (not_byte c) (drop_str (S n) s) = true.
Proof.
  revert n. induction s as [|a s IH]; intros n; [done|]. cbn [LastIndexByte].
  destruct (LastIndexByte s c) as [m|] eqn:E.
  - intros [= <-]. exact (IH m eq_refl).
  - case_decide; [|done]. intros [= <-]. cbn. by apply LastIndexByte_None_chars.
Qed.

Lemma path_Base_plain p : path_Base p = "/" ∨ path_Base p ≠ "" ∧ forall_chars (not_byte slash) (path_Base p) = true.
Proof.
  unfold path_Base. case_decide; [by right|]. case_decide as Hb; [by left|]. right. split; [done|].
  destruct (LastIndexByte _ _) eqn:E; [by eapply LastIndexByte_Some_chars|by apply LastIndexByte_None_chars].
Qed.

Lemma Abs_rooted wd p dir : (∀ d, wd = Ok d → IsAbs d = true) → Abs wd p = Ok dir →
  ∃ cs, dir = rooted cs ∧ Forall plain_comp cs.
Proof.
  intros Hw. unfold Abs. destruct (IsAbs p) eqn:Ha.
  - intros [= <-]. by apply Clean_abs.
  - destruct wd as [d|]; [|done]. intros [= <-]. apply Clean_abs.
    specialize (Hw d eq_refl). apply HasPrefix_spec in Hw as [r ->]. apply HasPrefix_spec. eexists. by rewrite string_app_assoc.
Qed.
