(* ===== verification/GoFloat.v ===== *)
(** * IEEE doubles

    Go's [float64] arithmetic on the executable specification of IEEE 754
    binary64 ([SpecFloat]), and the conversions the program uses. *)
From Stdlib Require Export SpecFloat.
From S2P Require Import Prelude.

Local Open Scope Z_scope.

(** [float64(n)] of an integer. *)
Definition float_of_Z (z : Z) : spec_float := binary_normalize 53 1024 z 0 false.

Definition float_add (a b : spec_float) : spec_float := SFadd 53 1024 a b.
Definition float_sub (a b : spec_float) : spec_float := SFsub 53 1024 a b.
Definition float_mul (a b : spec_float) : spec_float := SFmul 53 1024 a b.
Definition float_div (a b : spec_float) : spec_float := SFdiv 53 1024 a b.

(** A decimal literal [n / d], correctly rounded (both are exact doubles). *)
Definition float_lit (n d : Z) : spec_float := float_div (float_of_Z n) (float_of_Z d).

(** ** Conversions to [int64]

    The result of an out-of-range conversion is the target's: amd64 gives the
    smallest integer, arm64 saturates (and sends NaN to zero). *)
Inductive arch := amd64 | arm64.

Definition convert_overflow (a : arch) (f : spec_float) : Z :=
  match a, f with
  | amd64, _ => int64_min
  | arm64, S754_infinity s | arm64, S754_finite s _ _ => if s then int64_min else int64_max
  | arm64, _ => 0
  end.

(** A finite value whose magnitude has been made an integer. *)
Definition int_of_magnitude (a : arch) (mag : positive → Z → Z) (f : spec_float) : Z :=
  match f with
  | S754_zero _ => 0
  | S754_finite s m e =>
      let z := if s then - mag m e else mag m e in
      if (int64_min <=? z) && (z <=? int64_max) then z else convert_overflow a f
  | _ => convert_overflow a f
  end.

(** [int64(f)]: towards zero. *)
Definition trunc_mantissa (m : positive) (e : Z) : Z :=
  if 0 <=? e then Z.pos m * 2 ^ e else Z.pos m / 2 ^ (- e).

Definition int_of_float (a : arch) : spec_float → Z := int_of_magnitude a trunc_mantissa.

(** [int(math.Round(f))]: half away from zero. *)
Definition round_mantissa (m : positive) (e : Z) : Z :=
  if 0 <=? e then Z.pos m * 2 ^ e
  else (Z.pos m + 2 ^ (- e - 1)) / 2 ^ (- e).

Definition int_of_round (a : arch) : spec_float → Z := int_of_magnitude a round_mantissa.

(** ** [math.Pow] for a non-negative integer exponent *)

Definition float_one : spec_float := float_of_Z 1.
Definition float_half : spec_float := float_lit 1 2.

(** The square-and-multiply loop on the mantissa [x1] and the exponent [xe]; the
    answer is [a1 * 2^ae].  The exponent [i] is halved every time. *)
Fixpoint pow_loop (fuel : nat) (i : Z) (x1 : spec_float) (xe : Z) (a1 : spec_float) (ae : Z)
    : spec_float * Z :=
  match fuel with
  | O => (a1, ae)
  | S fuel =>
      if i =? 0 then (a1, ae)
      else if (xe <? -4096) || (4096 <? xe) then (a1, ae + xe)
      else
        let '(a1, ae) := if Z.odd i then (float_mul a1 x1, ae + xe) else (a1, ae) in
        let x1 := float_mul x1 x1 in
        let xe := 2 * xe in
        if SFltb x1 float_half then pow_loop fuel (i / 2) (float_add x1 x1) (xe - 1) a1 ae
        else pow_loop fuel (i / 2) x1 xe a1 ae
  end.

Definition Pow (x : spec_float) (y : Z) : spec_float :=
  if (y =? 0) || SFeqb x float_one then float_one
  else if y =? 1 then x
  else match x with
  | S754_nan => S754_nan
  | S754_zero s => if s && Z.odd y then x else S754_zero false
  | S754_infinity s => S754_infinity (s && Z.odd y)
  | S754_finite _ _ _ =>
      let '(x1, xe) := SFfrexp 53 1024 x in
      let '(a1, ae) := pow_loop 64 y x1 xe float_one 0 in
      SFldexp 53 1024 a1 ae
  end.

(** ** Ranges and signs *)

Lemma convert_overflow_range a f : in_int64 (convert_overflow a f).
Proof.
  unfold in_int64, int64_min, int64_max. destruct a, f as [[]|[]| |[]]; cbn;
    unfold int64_min, int64_max; lia.
Qed.

Lemma int_of_magnitude_range a mag f : in_int64 (int_of_magnitude a mag f).
Proof.
  unfold int_of_magnitude. pose proof (convert_overflow_range a f) as Ho.
  destruct f as [s|s| |s m e]; [|done|done|].
  - unfold in_int64, int64_min, int64_max. lia.
  - set (z := if s then _ else _). destruct (Z.leb_spec int64_min z), (Z.leb_spec z int64_max);
      cbn; [split; lia|done..].
Qed.

Lemma int_of_round_range a f : in_int64 (int_of_round a f).
Proof. apply int_of_magnitude_range. Qed.

(** A value that is not a negative number. *)
Definition nonneg (f : spec_float) : Prop :=
  match f with S754_finite s _ _ | S754_infinity s => s = false | _ => True end.

Lemma nonneg_round m e l : nonneg (binary_round_aux 53 1024 false m e l).
Proof. unfold binary_round_aux. repeat case_match; done. Qed.

Lemma nonneg_binary_round m e : nonneg (binary_round 53 1024 false m e).
Proof. unfold binary_round. case_match. apply nonneg_round. Qed.

Lemma nonneg_of_Z z : 0 ≤ z → nonneg (float_of_Z z).
Proof. destruct z; intros; [done|apply nonneg_binary_round|lia]. Qed.

Lemma nonneg_mul a b : nonneg a → nonneg b → nonneg (float_mul a b).
Proof.
  destruct a as [?|?| |? m e], b as [?|?| |? m' e']; cbn -[binary_round_aux]; intros; subst; try done.
  apply nonneg_round.
Qed.

Lemma nonneg_double a : nonneg a → nonneg (float_add a a).
Proof.
  destruct a as [s|s| |s m e]; cbn -[binary_normalize shl_align]; intros; subst; try done.
  - by destruct s.
  - apply nonneg_binary_round.
Qed.

Lemma nonneg_ldexp a e : nonneg a → nonneg (SFldexp 53 1024 a e).
Proof. destruct a; cbn -[binary_round]; intros; subst; try done. apply nonneg_binary_round. Qed.

Lemma nonneg_pow_loop fuel i x1 xe a1 ae :
  nonneg x1 → nonneg a1 → nonneg (pow_loop fuel i x1 xe a1 ae).1.
Proof.
  revert i x1 xe a1 ae. induction fuel as [|fuel IH]; intros i x1 xe a1 ae Hx Ha; [done|].
  cbn [pow_loop]. destruct (i =? 0); [done|]. destruct (_ || _); [done|].
  assert (nonneg (float_mul x1 x1)) by by apply nonneg_mul.
  assert (nonneg (float_mul a1 x1)) by by apply nonneg_mul.
  destruct (Z.odd i); (destruct (SFltb _ _); apply IH; try done; by apply nonneg_double).
Qed.

Lemma nonneg_Pow x y : nonneg x → nonneg (Pow x y).
Proof.
  intros Hx. unfold Pow. destruct (_ || _); [done|]. destruct (y =? 1); [done|].
  destruct x as [s|s| |s m e]; [by destruct (s && _)|by cbn in *; subst|done|].
  destruct (SFfrexp _ _ _) as [x1 xe] eqn:Hf.
  assert (Hx1 : nonneg x1).
  { cbn -[Pos.iter Z.leb] in Hf. destruct (Z.leb _ _); by simplify_eq. }
  pose proof (nonneg_pow_loop 64 y x1 xe float_one 0 Hx1 eq_refl) as Hp.
  destruct (pow_loop _ _ _ _ _ _) as [a1 ae]. by apply nonneg_ldexp.
Qed.

Lemma int_of_float_nonneg a f :
  nonneg f → 0 ≤ int_of_float a f ∨ (a = amd64 ∧ int_of_float a f = int64_min).
Proof.
  unfold int_of_float, int_of_magnitude. intros Hf.
  assert (Ho : nonneg f → 0 ≤ convert_overflow a f ∨ (a = amd64 ∧ convert_overflow a f = int64_min)).
  { destruct a; [by right|]. destruct f; cbn; intros; subst; left; unfold int64_max; lia. }
  destruct f as [s|s| |s m e]; [left; lia|by apply Ho|by apply Ho|].
  destruct (_ && _); [|by apply Ho]. cbn in Hf. subst s. left. unfold trunc_mantissa.
  destruct (Z.leb_spec 0 e); [|apply Z.div_pos; [lia|]].
  - apply Z.mul_nonneg_nonneg; [lia|]. apply Z.pow_nonneg. lia.
  - apply Z.pow_pos_nonneg; lia.
Qed.
