(* ===== verification/GoUrl.v ===== *)
(** * URL escaping ([net/url]) and the digests of request signing

    Percent-encoding as the program and the standard library use it, the sorted
    query string, and the primitives of Signature Version 4 as parameters. *)
From Stdlib Require Import Ascii ZArith.
From S2P Require Import Prelude GoStr.

Local Open Scope Z_scope.

Definition upper_hex (d : Z) : ascii := byte_of (if d <? 10 then 48 + d else 55 + d).

(** A byte as a percent sign and two digits. *)
Definition percent (c : ascii) : string :=
  String "%"%char (String (upper_hex (byte c / 16)) (String (upper_hex (byte c mod 16)) "")).

(** Letters, digits and the four marks of RFC 3986. *)
Definition unreserved (c : ascii) : bool :=
  is_alpha c || is_digit c || bool_decide (c ∈ ["-"; "_"; "."; "~"]%char).

Fixpoint escape_with (enc : ascii → string) (s : string) : string :=
  match s with "" => "" | String c s => enc c +:+ escape_with enc s end.

(** [url.QueryEscape] and [url.PathEscape]. *)
Definition QueryEscape : string → string :=
  escape_with (λ c, if unreserved c then String c "" else if decide (c = " "%char) then "+" else percent c).
Definition PathEscape : string → string :=
  escape_with (λ c, if unreserved c || bool_decide (c ∈ ["$"; "&"; "+"; ":"; "="; "@"]%char)
                    then String c "" else percent c).

(** Percent-decoding; [None] for a malformed escape. *)
Definition hex_digit (c : ascii) : option Z :=
  let b := byte c in
  if (48 <=? b) && (b <=? 57) then Some (b - 48)
  else if (65 <=? b) && (b <=? 70) then Some (b - 55)
  else if (97 <=? b) && (b <=? 102) then Some (b - 87) else None.

Fixpoint unescape (s : string) : option string :=
  match s with
  | "" => Some ""
  | String c s =>
      if decide (c = "%"%char) then
        match s with
        | String a (String b s) =>
            x ← hex_digit a; y ← hex_digit b; String (byte_of (16 * x + y)) <$> unescape s
        | _ => None
        end
      else String c <$> unescape s
  end.

Lemma hex_digit_upper d : 0 ≤ d < 16 → hex_digit (upper_hex d) = Some d.
Proof.
  intros Hd. unfold upper_hex, hex_digit. destruct (Z.ltb_spec d 10); rewrite byte_byte_of by lia.
  - replace (48 <=? 48 + d) with true by lia. replace (48 + d <=? 57) with true by lia. cbn. f_equal. lia.
  - replace (48 <=? 55 + d) with true by lia. replace (55 + d <=? 57) with false by lia.
    replace (65 <=? 55 + d) with true by lia. replace (55 + d <=? 70) with true by lia. cbn. f_equal. lia.
Qed.

Lemma unescape_percent c rest : unescape (percent c +:+ rest) = String c <$> unescape rest.
Proof.
  pose proof (byte_range c) as Hc. unfold percent. cbn [String.append unescape].
  rewrite decide_True by done.
  rewrite !hex_digit_upper by (split; [apply Z.div_pos; lia|apply Z.div_lt_upper_bound; lia] ||
    (apply Z.mod_pos_bound; lia)). cbn [mbind option_bind].
  rewrite <- Z.div_mod by lia. by rewrite byte_of_byte.
Qed.

(** An encoding that leaves some bytes and percent-encodes the others decodes. *)
Lemma unescape_escape_with (keep : ascii → bool) s :
  keep "%"%char = false →
  unescape (escape_with (λ c, if keep c then String c "" else percent c) s) = Some s.
Proof.
  intros Hk. induction s as [|c s IH]; [done|]. cbn [escape_with]. destruct (keep c) eqn:E.
  - cbn [String.append unescape]. rewrite decide_False by congruence. by rewrite IH.
  - by rewrite unescape_percent, IH.
Qed.

(** [sort.Strings] *)
Definition sort_strings (l : list string) : list string := merge_sort String.le l.
