(* ===== verification/GoJson.v ===== *)
(** * Decoded JSON values ([interface{}] of [encoding/json])

    The text format is a parameter wherever it is used; the decoded values are
    trees, so an update of a nested map is an update of the tree. *)
From Stdlib Require Import ZArith.
From S2P Require Import Prelude GoStr GoErr GoFloat.

Inductive json :=
  | JNull
  | JBool (b : bool)
  | JNumber (f : spec_float)
  | JString (s : string)
  | JArray (l : list json)
  | JObject (l : list (string * json)).

(** [map[string]interface{}]: the keys of a decoded object are distinct. *)
Definition object : Type := list (string * json).

(** The value under a key; a missing key gives [nil]. *)
Fixpoint get (m : object) (k : string) : json :=
  match m with
  | [] => JNull
  | (k', v) :: m => if decide (k = k') then v else get m k
  end.

Fixpoint find_key (m : object) (k : string) : option json :=
  match m with
  | [] => None
  | (k', v) :: m => if decide (k = k') then Some v else find_key m k
  end.

(** The value under a key, if there is one, replaced by its image. *)
Fixpoint adjust (k : string) (f : json → json) (m : object) : object :=
  match m with
  | [] => []
  | (k', v) :: m => if decide (k = k') then (k', f v) :: m else (k', v) :: adjust k f m
  end.

Lemma get_find m k : get m k = default JNull (find_key m k).
Proof. induction m as [|[k' v] m IH]; [done|]. cbn. by case_decide. Qed.

Lemma find_adjust k f m : find_key (adjust k f m) k = f <$> find_key m k.
Proof.
  induction m as [|[k' v] m IH]; [done|]. cbn. destruct (decide (k = k')) as [->|H]; cbn.
  - by rewrite decide_True.
  - by rewrite decide_False.
Qed.

Lemma find_adjust_ne k k' f m : k' ≠ k → find_key (adjust k f m) k' = find_key m k'.
Proof.
  intros Hne. induction m as [|[k0 v] m IH]; [done|]. cbn. destruct (decide (k = k0)) as [->|H]; cbn.
  - by rewrite !decide_False.
  - by rewrite IH.
Qed.

Lemma keys_adjust k f m : (adjust k f m).*1 = m.*1.
Proof. induction m as [|[k' v] m IH]; [done|]. cbn. case_decide; cbn; by rewrite ?IH. Qed.

Lemma adjust_ext k f g m : (∀ v, find_key m k = Some v → f v = g v) → adjust k f m = adjust k g m.
Proof.
  induction m as [|[k' v] m IH]; [done|]. cbn. destruct (decide (k = k')) as [->|Hn]; intros H.
  - by rewrite H.
  - by rewrite IH.
Qed.

Lemma adjust_id k f m : (∀ v, find_key m k = Some v → f v = v) → adjust k f m = m.
Proof.
  induction m as [|[k' v] m IH]; [done|]. cbn. destruct (decide (k = k')) as [->|Hn]; intros H.
  - by rewrite H.
  - by rewrite IH.
Qed.

(** ** Positions *)

Inductive step := Key (k : string) | Idx (n : nat).
#[export] Instance step_eq_dec : EqDecision step.
Proof. solve_decision. Defined.

(** A node of the tree without its children. *)
Inductive node := NLeaf (v : json) | NArray (n : nat) | NObject (keys : list string).

Definition child (v : json) (s : step) : option json :=
  match v, s with
  | JObject m, Key k => find_key m k
  | JArray l, Idx n => l !! n
  | _, _ => None
  end.

Fixpoint at_path (v : json) (p : list step) : option json :=
  match p with
  | [] => Some v
  | s :: p => v' ← child v s; at_path v' p
  end.

Definition node_of (v : json) : node :=
  match v with
  | JArray l => NArray (length l)
  | JObject m => NObject m.*1
  | v => NLeaf v
  end.

(** What a value has at a position. *)
Definition node_at (v : json) (p : list step) : option node := node_of <$> at_path v p.
