(* ===== verification/JsonText.v ===== *)
(** * JSON texts ([encoding/json])

    What the program relies on when it encodes a value and decodes the text again: the
    text keeps the tree, with every string made valid UTF-8, and only a number that is
    not finite cannot be encoded.  An object is written in the order of its list; a map
    is decoded with its keys sorted, and of equal keys the last one counts. *)
From Stdlib Require Import ZArith Ascii.
From S2P Require Import Prelude GoStr GoErr GoFloat GoJson.

Local Open Scope Z_scope.

Class JsonText := {
  Marshal : json → res string;
  MarshalIndent : json → res string;
  (** The tree of a text, the members of its objects in order. *)
  parse : string → res json }.

(** Invalid bytes become U+FFFD. *)
Definition clean (s : string) : string := of_runes (to_runes s).

Fixpoint cleaned (v : json) : json :=
  match v with
  | JString s => JString (clean s)
  | JArray l => JArray (cleaned <$> l)
  | JObject l => JObject ((λ '(k, v), (clean k, cleaned v)) <$> l)
  | v => v
  end.

(** The tree without its texts. *)
Fixpoint erased (v : json) : json :=
  match v with
  | JString _ => JString ""
  | JArray l => JArray (erased <$> l)
  | JObject l => JObject (prod_map id erased <$> l)
  | v => v
  end.

Class JsonTextLaws (T : JsonText) : Prop := {
  parse_Marshal v text : Marshal v = Ok text → parse text = Ok (cleaned v);
  parse_MarshalIndent v text : MarshalIndent v = Ok text → parse text = Ok (cleaned v);
  Marshal_fails v v' e : erased v = erased v' → Marshal v = Err e → Marshal v' = Err e }.

(** ** Maps *)

Fixpoint insert_field {A} (k : string) (v : A) (m : list (string * A)) : list (string * A) :=
  match m with
  | [] => [(k, v)]
  | (k', v') :: m' =>
      if decide (k = k') then (k, v) :: m'
      else if decide (String.le k k') then (k, v) :: m else (k', v') :: insert_field k v m'
  end.

Definition as_map {A} (l : list (string * A)) : list (string * A) := foldl (λ m '(k, v), insert_field k v m) [] l.

(** A tree decoded into [interface{}]. *)
Fixpoint as_any (v : json) : json :=
  match v with
  | JArray l => JArray (as_any <$> l)
  | JObject l => JObject (as_map (prod_map id as_any <$> l))
  | v => v
  end.

Definition kind_of (v : json) : string :=
  match v with
  | JNull => "null" | JBool _ => "bool" | JNumber _ => "number" | JString _ => "string"
  | JArray _ => "array" | JObject _ => "object"
  end.

Definition type_mismatch (v : json) (type : string) : error :=
  ENew ("json: cannot unmarshal " +:+ kind_of v +:+ " into Go value of type " +:+ type).

(** A name with its letters folded, as it is compared with an ASCII name without regard
    to case: two runes outside ASCII fold to letters. *)
Definition fold_rune (r : Z) : Z :=
  if (65 <=? r) && (r <=? 90) then r + 32 else if r =? 383 then 115 else if r =? 8490 then 107 else r.
Definition folded (s : string) : list Z := fold_rune <$> to_runes s.

(** The field a member goes to: the one of its name, else one that folds to it. *)
Definition field_of (names : list string) (k : string) : option string :=
  if decide (k ∈ names) then Some k else head (filter (λ n, folded n = folded k) names).

Definition first_error (e e' : option error) : option error := match e with Some _ => e | None => e' end.

(** The members of an object, each into its field; decoding goes on after an error, and
    the first one is reported. *)
Definition decode_members {A} (names : list string) (set : string → json → A → A * option error) (l : object) (a : A)
    : A * option error :=
  foldl (λ '(a, err) '(k, v), match field_of names k with
                              | None => (a, err)
                              | Some n => let '(a, e) := set n v a in (a, first_error err e)
                              end) (a, None) l.

(** Fields of a struct: text, float, list of objects. *)
Definition text_field (k v : string) : string * json := (k, JString v).
Definition omit_empty (k v : string) : object := if decide (v = "") then [] else [(k, JString v)].
Definition list_field {A} (f : A → json) (k : string) (l : list A) : string * json := (k, JArray (f <$> l)).
Definition omit_nil {A} (f : A → json) (k : string) (l : list A) : object :=
  if decide (length l = 0%nat) then [] else [list_field f k l].

Section decoding.
Context `{JsonText}.

(** [json.Unmarshal] into [any], and into a [map[string]any] ([None]: the map stays nil). *)
Definition Unmarshal_any (text : string) : res json := match parse text with Ok v => Ok (as_any v) | Err e => Err e end.

Definition Unmarshal_map (text : string) : res (option object) :=
  match parse text with
  | Err e => Err e
  | Ok JNull => Ok None
  | Ok v => match as_any v with JObject m => Ok (Some m) | _ => Err (type_mismatch v "map[string]interface {}") end
  end.

Definition Marshal_map (m : option object) : res string := Marshal (match m with Some m => JObject m | None => JNull end).
End decoding.

(** The keys of a decoded map are sorted and distinct, and its values are decoded. *)
Definition before (a b : string) : Prop := String.le a b ∧ a ≠ b.

Lemma insert_field_elem {A} k (v : A) m x : x ∈ insert_field k v m → x = (k, v) ∨ x ∈ m.
Proof.
  induction m as [|[k' v'] m IH]; cbn; [intros [->|[]%elem_of_nil]%elem_of_cons; by left|].
  case_decide; [|case_decide]; rewrite !elem_of_cons; naive_solver.
Qed.

Lemma insert_field_sorted {A} k (v : A) m : StronglySorted before m.*1 → StronglySorted before (insert_field k v m).*1.
Proof.
  induction m as [|[k' v'] m IH]; cbn; intros Hs; [by repeat constructor|].
  inversion Hs as [|? ? Hm Hk]; subst. destruct (decide (k = k')) as [->|Hne]; [by constructor|].
  case_decide as Hle; cbn.
  - constructor; [done|]. constructor; [done|]. eapply Forall_impl; [exact Hk|]. intros y [Hy Hn]. split; [by trans k'|].
    intros ->. apply Hne. by apply (anti_symm String.le).
  - constructor; [by apply IH|]. apply Forall_forall. intros y Hy. apply list_elem_of_fmap in Hy as ([y' x] & -> & Hy).
    apply insert_field_elem in Hy as [[= -> ->]|Hy].
    + split; [destruct (total String.le k k'); [done|done]|done].
    + rewrite Forall_forall in Hk. apply Hk, list_elem_of_fmap. by exists (y', x).
Qed.

Lemma as_map_inv {A} (l : list (string * A)) : StronglySorted before (as_map l).*1 ∧ ∀ x, x ∈ as_map l → x ∈ l.
Proof.
  unfold as_map. assert (H : ∀ m, StronglySorted before m.*1 → let r := foldl (λ m '(k, v), insert_field k v m) m l in
    StronglySorted before r.*1 ∧ ∀ x, x ∈ r → x ∈ m ∨ x ∈ l).
  { induction l as [|[k v] l IH]; intros m Hm; cbn; [auto|].
    destruct (IH _ (insert_field_sorted k v m Hm)) as [H1 H2]. split; [done|]. intros x Hx.
    apply H2 in Hx as [Hx%insert_field_elem|Hx]; rewrite elem_of_cons; naive_solver. }
  destruct (H []) as [H1 H2]; [constructor|]. split; [done|]. intros x Hx. destruct (H2 x Hx) as [Hn|?]; [by apply elem_of_nil in Hn|done].
Qed.

Lemma sorted_NoDup l : StronglySorted before l → NoDup l.
Proof.
  induction 1 as [|x l _ IH Hx]; constructor; [|done]. intros Hin. rewrite Forall_forall in Hx. by destruct (Hx x Hin).
Qed.

Definition decoded (v : json) : Prop := ∃ y, v = as_any y.

Lemma decoded_object m : decoded (JObject m) → NoDup m.*1 ∧ ∀ k x, (k, x) ∈ m → decoded x.
Proof.
  intros [y Hy]. destruct y as [| | | | |l]; try done. cbn in Hy. injection Hy as ->.
  destruct (as_map_inv (prod_map id as_any <$> l)) as [H1 H2]. split; [by apply sorted_NoDup|]. intros k x Hx.
  apply H2, list_elem_of_fmap in Hx as ([k' y] & [= -> ->] & _). by exists y.
Qed.

Lemma decoded_array l x : decoded (JArray l) → x ∈ l → decoded x.
Proof.
  intros [y Hy] Hx. destruct y as [| | | |l'|]; try done. cbn in Hy. injection Hy as ->.
  apply list_elem_of_fmap in Hx as (y & -> & _). by exists y.
Qed.

(** ** Valid UTF-8 *)

Definition scalar (r : Z) : Prop := 0 ≤ r ≤ 1114111 ∧ ¬ 55296 ≤ r ≤ 57343.

Ltac decode_cases :=
  repeat match goal with
  | |- context [if ?b then _ else _] => destruct b eqn:?
  end.

Lemma decode_rune_scalar b s : scalar (decode_rune b s).1.
Proof.
  pose proof (byte_range b). unfold decode_rune, scalar, rune_error. cbv zeta.
  destruct (Z.ltb_spec (byte b) 128); [cbn; lia|].
  destruct s as [|b1 s]; [cbn; lia|]. pose proof (byte_range b1).
  destruct ((194 <=? byte b) && (byte b <=? 223) && is_cont (byte b1)) eqn:E1.
  { unfold is_cont in E1. cbn. lia. }
  destruct s as [|b2 s]; [cbn; lia|]. pose proof (byte_range b2).
  destruct ((224 <=? byte b) && (byte b <=? 239) && second3 (byte b) (byte b1) && is_cont (byte b2)) eqn:E2.
  { unfold second3, is_cont in E2. cbn. repeat case_match; lia. }
  destruct s as [|b3 s]; [cbn; lia|]. pose proof (byte_range b3).
  destruct ((240 <=? byte b) && (byte b <=? 244) && second4 (byte b) (byte b1) && is_cont (byte b2) && is_cont (byte b3)) eqn:E3.
  { unfold second4, is_cont in E3. cbn. repeat case_match; lia. }
  cbn; lia.
Qed.

Lemma split_rune r : 0 ≤ r ≤ 1114111 → ∃ a b c d : Z,
  r = a * 262144 + b * 4096 + c * 64 + d ∧ 0 ≤ a ≤ 4 ∧ 0 ≤ b < 64 ∧ 0 ≤ c < 64 ∧ 0 ≤ d < 64 ∧
  r / 262144 = a ∧ (r / 4096) mod 64 = b ∧ (r / 64) mod 64 = c ∧ r mod 64 = d ∧
  r / 4096 = a * 64 + b ∧ r / 64 = a * 4096 + b * 64 + c.
Proof.
  intros Hr. exists (r / 262144), ((r / 4096) mod 64), ((r / 64) mod 64), (r mod 64).
  split_and!; try done; Z.to_euclidean_division_equations; lia.
Qed.

Lemma encode_rune_cons r : scalar r → ∃ b t, encode_rune r = String b t ∧
  ∀ rest, decode_rune b (t +:+ rest) = (r, String.length t).
Proof.
  intros [Hr Hs]. unfold encode_rune.
  assert (((r <? 0) || (1114111 <? r) || ((55296 <=? r) && (r <=? 57343))) = false) as -> by lia.
  destruct (split_rune r Hr) as (a & b & c & d & Er & Ha & Hb & Hc & Hd & E1 & E2 & E3 & E4 & E5 & E6).
  rewrite E1, E2, E3, E4, E5, E6. clear E1 E2 E3 E4 E5 E6.
  destruct (Z.ltb_spec r 128); [|destruct (Z.ltb_spec r 2048); [|destruct (Z.ltb_spec r 65536)]];
    eexists _, _; (split; [reflexivity|]); intros rest;
    unfold decode_rune, second3, second4, is_cont; cbn [String.app String.append String.length];
    rewrite !byte_byte_of by lia;
    repeat match goal with
    | |- context [if ?b then _ else _] =>
        first [replace b with true by (symmetry; lia) | replace b with false by (symmetry; lia) | destruct b eqn:?]
    end; try (f_equal; lia); exfalso;
    repeat match goal with H : context [if ?b then _ else _] |- _ => destruct b eqn:? end; lia.
Qed.

Lemma runes_go_skip t rest : runes_go (String.length t) (t +:+ rest) = runes_go 0 rest.
Proof. by induction t as [|c t IH]; [|cbn]. Qed.

Lemma to_runes_of_runes rs : Forall scalar rs → to_runes (of_runes rs) = rs.
Proof.
  unfold to_runes, runes, of_runes. induction 1 as [|r rs Hr _ IH]; [done|].
  destruct (encode_rune_cons r Hr) as (b & t & E & D). cbn [fmap list_fmap concat_str foldr] in *.
  rewrite E. cbn [String.app String.append runes_go]. rewrite D, runes_go_skip. cbn. by f_equal.
Qed.

Lemma to_runes_scalar s : Forall scalar (to_runes s).
Proof.
  unfold to_runes, runes. generalize 0%nat as k. induction s as [|b s IH]; intros k; [constructor|].
  destruct k as [|k]; cbn; [|apply IH]. pose proof (decode_rune_scalar b s) as Hd.
  destruct (decode_rune b s) as [r w]. cbn. constructor; [done|apply IH].
Qed.

Lemma to_runes_clean s : to_runes (clean s) = to_runes s.
Proof. apply to_runes_of_runes, to_runes_scalar. Qed.

Lemma clean_idemp s : clean (clean s) = clean s.
Proof. unfold clean at 1. by rewrite to_runes_clean. Qed.

(** ** A text format with these laws

    The code of the tree in binary digits. *)
Module Binary.

Definition float_code (f : spec_float) : nat * (bool * (positive * Z)) :=
  match f with
  | S754_zero s => (0%nat, (s, (1%positive, 0)))
  | S754_infinity s => (1%nat, (s, (1%positive, 0)))
  | S754_nan => (2%nat, (true, (1%positive, 0)))
  | S754_finite s m e => (3%nat, (s, (m, e)))
  end.
Definition float_of_code (c : nat * (bool * (positive * Z))) : spec_float :=
  let '(k, (s, (m, e))) := c in
  match k with 0%nat => S754_zero s | 1%nat => S754_infinity s | 2%nat => S754_nan | _ => S754_finite s m e end.

Definition leaf : Type := option (bool + (string + nat * (bool * (positive * Z)))).

Fixpoint to_tree (v : json) : gen_tree leaf :=
  match v with
  | JNull => GenLeaf None
  | JBool b => GenLeaf (Some (inl b))
  | JNumber f => GenLeaf (Some (inr (inr (float_code f))))
  | JString s => GenLeaf (Some (inr (inl s)))
  | JArray l => GenNode 0 (to_tree <$> l)
  | JObject l => GenNode 1 ((λ '(k, v), GenNode 2 [GenLeaf (Some (inr (inl k))); to_tree v]) <$> l)
  end.

Fixpoint of_tree (t : gen_tree leaf) : json :=
  match t with
  | GenLeaf None => JNull
  | GenLeaf (Some (inl b)) => JBool b
  | GenLeaf (Some (inr (inr c))) => JNumber (float_of_code c)
  | GenLeaf (Some (inr (inl s))) => JString s
  | GenNode 0 l => JArray (of_tree <$> l)
  | GenNode _ l => JObject ((λ t, match t with
                                   | GenNode _ [GenLeaf (Some (inr (inl k))); v] => (k, of_tree v)
                                   | _ => ("", JNull)
                                   end) <$> l)
  end.

Fixpoint of_to_tree (v : json) : of_tree (to_tree v) = v.
Proof.
  destruct v as [|b|f|s|l|l]; [done..| | | |].
  - cbn. by destruct f.
  - done.
  - cbn. f_equal. induction l as [|v l IH]; [done|]. cbn. by rewrite of_to_tree, IH.
  - cbn. f_equal. induction l as [|[k v] l IH]; [done|]. cbn. by rewrite of_to_tree, IH.
Qed.

Fixpoint bits (p : positive) : string :=
  match p with xH => "" | xO p => String "0" (bits p) | xI p => String "1" (bits p) end.
Fixpoint of_bits (s : string) : positive :=
  match s with
  | "" => 1
  | String c s => if decide (c = "0"%char) then xO (of_bits s) else xI (of_bits s)
  end%positive.

Lemma of_bits_bits p : of_bits (bits p) = p.
Proof. induction p as [p IH|p IH|]; [..|done]; cbn; by rewrite IH. Qed.

Definition text (v : json) : string := bits (encode (to_tree v)).
Definition read (s : string) : res json :=
  match decode (A := gen_tree leaf) (of_bits s) with
  | Some t => Ok (cleaned (of_tree t))
  | None => Err (ENew "unexpected end of JSON input")
  end.

Definition format : JsonText := {| Marshal v := Ok (text v); MarshalIndent v := Ok (text v); parse := read |}.

Lemma read_text v : read (text v) = Ok (cleaned v).
Proof. unfold read, text. by rewrite of_bits_bits, decode_encode, of_to_tree. Qed.

#[export] Instance format_laws : JsonTextLaws format.
Proof.
  split; cbn.
  - intros v t [= <-]. apply read_text.
  - intros v t [= <-]. apply read_text.
  - done.
Qed.
End Binary.
#[export] Existing Instance Binary.format_laws.
