(* ===== verification/Breaker.v ===== *)
(** * Circuit breaker ([utils/circuitbreaker.go])

    The breaker's record, its two critical sections ([enter] before and
    [finish] after the protected call), their sequential composition [Call],
    the registry behind [Do], and a step relation in which any number of
    goroutines interleave inside [Call]. *)
From S2P Require Import Prelude GoStr GoErr.

Local Open Scope Z_scope.

(** ** Data *)

Inductive CircuitState := StateClosed | StateOpen | StateHalfOpen.

#[export] Instance CircuitState_eq_dec : EqDecision CircuitState.
Proof. solve_decision. Defined.

Definition CircuitState_String (s : CircuitState) : string :=
  match s with
  | StateClosed => "closed"
  | StateOpen => "open"
  | StateHalfOpen => "half-open"
  end.

(** [mu] and [onStateChange] are not fields: the lock is what makes [enter] and
    [finish] atomic, and the transitions the callback observes are returned. *)
Record CircuitBreaker := mk_cb {
  cb_name : string;
  maxFailures : Z;
  resetTimeout : Z;
  cb_state : CircuitState;
  failureCount : Z;
  lastFailTime : Z;
  inFlightProbe : bool }.

#[export] Instance CircuitBreaker_eq_dec : EqDecision CircuitBreaker.
Proof. solve_decision. Defined.

Definition set_cb_state (s : CircuitState) (cb : CircuitBreaker) : CircuitBreaker :=
  mk_cb (cb_name cb) (maxFailures cb) (resetTimeout cb) s (failureCount cb)
    (lastFailTime cb) (inFlightProbe cb).
Definition set_failureCount (n : Z) (cb : CircuitBreaker) : CircuitBreaker :=
  mk_cb (cb_name cb) (maxFailures cb) (resetTimeout cb) (cb_state cb) n
    (lastFailTime cb) (inFlightProbe cb).
Definition set_lastFailTime (t : Z) (cb : CircuitBreaker) : CircuitBreaker :=
  mk_cb (cb_name cb) (maxFailures cb) (resetTimeout cb) (cb_state cb) (failureCount cb)
    t (inFlightProbe cb).
Definition set_inFlightProbe (b : bool) (cb : CircuitBreaker) : CircuitBreaker :=
  mk_cb (cb_name cb) (maxFailures cb) (resetTimeout cb) (cb_state cb) (failureCount cb)
    (lastFailTime cb) b.

(** A state transition reported to [onStateChange]. *)
Definition transition : Type := CircuitState * CircuitState.

(** ** Operations *)

Definition NewCircuitBreaker (name : string) (maxF reset : Z) : CircuitBreaker :=
  mk_cb name (if maxF <=? 0 then 5 else maxF)
    (if reset <=? 0 then seconds 60 else reset) StateClosed 0 0 false.

(** [setState]: the new breaker and the transition, [None] when unchanged. *)
Definition setState (new : CircuitState) (cb : CircuitBreaker)
    : CircuitBreaker * option transition :=
  if decide (cb_state cb = new) then (cb, None)
  else
    let cb' := set_cb_state new cb in
    (if decide (new = StateClosed) then set_failureCount 0 cb' else cb',
     Some (cb_state cb, new)).

Definition recordFailure (now : Z) (cb : CircuitBreaker)
    : CircuitBreaker * option transition :=
  let cb := set_lastFailTime now (set_failureCount (failureCount cb + 1) cb) in
  if decide (cb_state cb = StateHalfOpen) then setState StateOpen cb
  else if maxFailures cb <=? failureCount cb then setState StateOpen cb
  else (cb, None).

Definition recordSuccess (cb : CircuitBreaker) : CircuitBreaker * option transition :=
  if decide (cb_state cb = StateHalfOpen) then
    let '(cb, tr) := setState StateClosed cb in (set_failureCount 0 cb, tr)
  else (set_failureCount 0 cb, None).

Inductive admission :=
  | Rejected (e : error)
  | Granted (isProbe : bool).

Definition err_open : error := ENew "circuit breaker is open".

(** The first critical section of [Call]: admission, decided under the lock. *)
Definition enter (now : Z) (cb : CircuitBreaker)
    : admission * CircuitBreaker * option transition :=
  match cb_state cb with
  | StateOpen =>
      if now - lastFailTime cb <? resetTimeout cb then (Rejected err_open, cb, None)
      else
        let '(cb, tr) := setState StateHalfOpen cb in
        (Granted true, set_lastFailTime now (set_inFlightProbe true cb), tr)
  | StateHalfOpen =>
      if inFlightProbe cb then (Rejected err_open, cb, None)
      else (Granted true, set_inFlightProbe true cb, None)
  | StateClosed => (Granted false, cb, None)
  end.

(** The second critical section of [Call]: recording the outcome. *)
Definition finish (now : Z) (isProbe failed : bool) (cb : CircuitBreaker)
    : CircuitBreaker * option transition :=
  let cb := if isProbe then set_inFlightProbe false cb else cb in
  if failed then recordFailure now cb else recordSuccess cb.

Definition Reset (cb : CircuitBreaker) : CircuitBreaker * option transition :=
  let '(cb, tr) := setState StateClosed cb in (set_inFlightProbe false cb, tr).

(** [Call], with no other goroutine inside the breaker: [now] reads the clock of
    the world the protected function runs in.  The returned list holds the
    transitions handed to [onStateChange], in order. *)
Definition Call {W} (now : W → Z) (fn : W → option error * W)
    (cb : CircuitBreaker) (w : W)
    : option error * CircuitBreaker * W * list transition :=
  match enter (now w) cb with
  | (Rejected e, cb, tr) => (Some e, cb, w, option_list tr)
  | (Granted p, cb, tr) =>
      let '(err, w) := fn w in
      let '(cb, tr') := finish (now w) p (bool_decide (is_Some err)) cb in
      (err, cb, w, option_list tr ++ option_list tr')
  end.

(** ** Registry *)

(** [breakerRegistry]: [None] before [InitCircuitBreakers] has run. *)
Definition registry : Type := option (gmap string CircuitBreaker).

Definition InitCircuitBreakers (r : registry) : registry :=
  match r with
  | Some m => Some m
  | None => Some (<["db" := NewCircuitBreaker "database" 5 (seconds 30)]>
                 (<["redis" := NewCircuitBreaker "redis" 5 (seconds 30)]> ∅))
  end.

Definition BreakerState (r : registry) (name : string) : CircuitState * bool :=
  match r with
  | None => (StateClosed, false)
  | Some m => match m !! name with
              | None => (StateClosed, false)
              | Some cb => (cb_state cb, true)
              end
  end.

Definition IsBreakerOpen (r : registry) (name : string) : bool :=
  let '(s, ok) := BreakerState r name in
  if ok then bool_decide (s = StateOpen) else false.

(** [Do]: through the named breaker when it is registered, directly otherwise. *)
Definition Do {W} (now : W → Z) (name : string) (fn : W → option error * W)
    (r : registry) (w : W) : option error * registry * W :=
  match r with
  | Some m =>
      match m !! name with
      | Some cb =>
          let '(err, cb, w, _) := Call now fn cb w in
          (err, Some (<[name := cb]> m), w)
      | None => let '(err, w) := fn w in (err, r, w)
      end
  | None => let '(err, w) := fn w in (err, r, w)
  end.

(** ** Goroutines inside the breaker

    [calls] lists the calls whose protected function is running, each with its
    [isProbe] flag. *)
Record conf := mk_conf { c_cb : CircuitBreaker; c_calls : list bool; c_now : Z }.

Inductive step : conf → conf → Prop :=
  | step_tick c d :
      0 ≤ d →
      step c (mk_conf (c_cb c) (c_calls c) (c_now c + d))
  | step_admit c p cb tr :
      enter (c_now c) (c_cb c) = (Granted p, cb, tr) →
      step c (mk_conf cb (p :: c_calls c) (c_now c))
  | step_reject c e cb tr :
      enter (c_now c) (c_cb c) = (Rejected e, cb, tr) →
      step c (mk_conf cb (c_calls c) (c_now c))
  | step_finish c l1 p l2 failed cb tr :
      c_calls c = l1 ++ p :: l2 →
      finish (c_now c) p failed (c_cb c) = (cb, tr) →
      step c (mk_conf cb (l1 ++ l2) (c_now c))
  | step_reset c cb tr :
      Reset (c_cb c) = (cb, tr) →
      step c (mk_conf cb (c_calls c) (c_now c)).

Definition initial (cb : CircuitBreaker) (now : Z) : conf := mk_conf cb [] now.

Definition probes (c : conf) : nat := count_occ_dec true (c_calls c).

(** The runs in which every call admitted earlier has returned before a probe
    is admitted, and nobody calls [Reset]. *)
Inductive quiet_step : conf → conf → Prop :=
  | quiet_tick c d :
      0 ≤ d →
      quiet_step c (mk_conf (c_cb c) (c_calls c) (c_now c + d))
  | quiet_admit c p cb tr :
      enter (c_now c) (c_cb c) = (Granted p, cb, tr) →
      (p = true → c_calls c = []) →
      quiet_step c (mk_conf cb (p :: c_calls c) (c_now c))
  | quiet_reject c e cb tr :
      enter (c_now c) (c_cb c) = (Rejected e, cb, tr) →
      quiet_step c (mk_conf cb (c_calls c) (c_now c))
  | quiet_finish c l1 p l2 failed cb tr :
      c_calls c = l1 ++ p :: l2 →
      finish (c_now c) p failed (c_cb c) = (cb, tr) →
      quiet_step c (mk_conf cb (l1 ++ l2) (c_now c)).

(** ** Automation *)

Ltac cb_cases :=
  unfold enter, finish, recordFailure, recordSuccess, Reset, setState,
    set_cb_state, set_failureCount, set_lastFailTime, set_inFlightProbe in *;
  repeat (case_match; simplify_eq/=); simplify_eq/=.

Ltac cb_solve :=
  split_and!; intros; simplify_eq/=; try done; try lia; try congruence; auto.

(** ** The invariant, for every interleaving *)

Definition cb_ok (cb : CircuitBreaker) : Prop :=
  1 ≤ maxFailures cb ∧ 0 ≤ failureCount cb ∧
  (cb_state cb = StateClosed → failureCount cb < maxFailures cb).

Definition conf_ok (c : conf) : Prop :=
  cb_ok (c_cb c) ∧ (inFlightProbe (c_cb c) = true → true ∈ c_calls c).

Lemma NewCircuitBreaker_ok name m r : cb_ok (NewCircuitBreaker name m r).
Proof. unfold cb_ok, NewCircuitBreaker. simpl. bdestruct_Z; lia. Qed.

Lemma enter_ok now cb a cb' tr :
  cb_ok cb → enter now cb = (a, cb', tr) →
  cb_ok cb' ∧ (inFlightProbe cb' = true → inFlightProbe cb = true ∨ a = Granted true).
Proof.
  unfold cb_ok. intros (Hmax & Hcnt & Hcl) Heq. cb_cases; cb_solve.
Qed.

Lemma finish_ok now p failed cb cb' tr :
  cb_ok cb → finish now p failed cb = (cb', tr) →
  cb_ok cb' ∧ (inFlightProbe cb' = true → inFlightProbe cb = true ∧ p = false).
Proof.
  unfold cb_ok. intros (Hmax & Hcnt & Hcl) Heq.
  destruct p, failed, cb as [nm mx rs [] fc lf fl]; simpl in *; cb_cases; bdestruct_Z; cb_solve.
Qed.

Lemma Reset_ok cb cb' tr :
  cb_ok cb → Reset cb = (cb', tr) → cb_ok cb' ∧ inFlightProbe cb' = false.
Proof.
  unfold cb_ok. intros (Hmax & Hcnt & Hcl) Heq.
  destruct cb as [nm mx rs [] fc lf fl]; cb_cases; cb_solve.
Qed.

Lemma step_ok c c' : conf_ok c → step c c' → conf_ok c'.
Proof.
  intros [Hcb Hfl] Hs. destruct Hs as [c d _|c p cb tr E|c e cb tr E|c l1 p l2 f cb tr Hl E|c cb tr E];
    unfold conf_ok; simpl.
  - done.
  - destruct (enter_ok _ _ _ _ _ Hcb E) as [? H]. split; [done|]. rewrite elem_of_cons. naive_solver.
  - destruct (enter_ok _ _ _ _ _ Hcb E) as [? H]. split; [done|]. naive_solver.
  - destruct (finish_ok _ _ _ _ _ _ Hcb E) as [? H]. split; [done|].
    intros [Hi ->]%H. specialize (Hfl Hi). rewrite Hl in Hfl. rewrite !elem_of_app, ?elem_of_cons in *. naive_solver.
  - destruct (Reset_ok _ _ _ Hcb E) as [? H]. split; [done|]. congruence.
Qed.

(** C36: whatever calls, completions, clock ticks and resets interleave from a
    new breaker, a closed breaker has seen fewer than [maxFailures] consecutive
    failures, and the probe flag is only set while a probe is running. *)
Theorem breaker_invariant name m r now c :
  rtc step (initial (NewCircuitBreaker name m r) now) c → conf_ok c.
Proof.
  intros Hr. remember (initial _ _) as c0 eqn:Hc0.
  assert (H0 : conf_ok c0) by (subst; split; [apply NewCircuitBreaker_ok | done]).
  clear Hc0. induction Hr; eauto using step_ok.
Qed.

Lemma breaker_invariant_witness :
  let cb := NewCircuitBreaker "redis" 1 (seconds 30) in
  let c := mk_conf (mk_cb "redis" 1 (seconds 30) StateOpen 1 7 false) [] 7 in
  rtc step (initial cb 7) c ∧ conf_ok c.
Proof.
  intros cb c.
  assert (H : rtc step (initial cb 7) c).
  { eapply rtc_l; [exact (step_admit (initial cb 7) _ _ _ eq_refl)|].
    apply rtc_once.
    exact (step_finish (mk_conf cb [false] 7) [] false [] true _ _ eq_refl eq_refl). }
  split; [exact H | exact (breaker_invariant "redis" 1 (seconds 30) 7 c H)].
Defined.

(** ** Sequential behaviour *)

Section sequential.
Context {W : Type} (now : W → Z).

(** Successive calls of the same function. *)
Fixpoint calls (n : nat) (fn : W → option error * W) (cb : CircuitBreaker) (w : W)
    : CircuitBreaker * W :=
  match n with
  | O => (cb, w)
  | S n' => let '(_, cb, w, _) := Call now fn cb w in calls n' fn cb w
  end.

Lemma calls_S n fn cb w :
  calls (S n) fn cb w = let '(cb', w') := calls n fn cb w in
                        let '(_, cb'', w'', _) := Call now fn cb' w' in (cb'', w'').
Proof.
  revert cb w. induction n as [|n IH]; intros cb w.
  - simpl. by destruct (Call now fn cb w) as [[[??]?]?].
  - change (calls (S (S n)) fn cb w) with
      (let '(_, cb, w, _) := Call now fn cb w in calls (S n) fn cb w).
    change (calls (S n) fn cb w) with
      (let '(_, cb, w, _) := Call now fn cb w in calls n fn cb w).
    destruct (Call now fn cb w) as [[[? cb1] w1] ?]. apply IH.
Qed.

Lemma Call_closed_failing fn cb w err w' :
  cb_state cb = StateClosed → fn w = (Some err, w') →
  Call now fn cb w =
    (Some err,
     if maxFailures cb <=? failureCount cb + 1
     then mk_cb (cb_name cb) (maxFailures cb) (resetTimeout cb) StateOpen
            (failureCount cb + 1) (now w') (inFlightProbe cb)
     else mk_cb (cb_name cb) (maxFailures cb) (resetTimeout cb) StateClosed
            (failureCount cb + 1) (now w') (inFlightProbe cb),
     w',
     if maxFailures cb <=? failureCount cb + 1 then [(StateClosed, StateOpen)] else []).
Proof.
  intros Hs Hf. destruct cb as [nm mx rs st fc lf fl]; simpl in *; subst.
  unfold Call. simpl. rewrite Hf. rewrite bool_decide_eq_true_2 by eauto.
  unfold finish, recordFailure. simpl. by destruct (mx <=? fc + 1).
Qed.

(** A breaker opens after exactly [maxFailures] consecutive failing calls:
    after [k] of them it is closed with [k] failures counted when
    [k < maxFailures], and open when [k = maxFailures]. *)
Theorem breaker_trips name m r fn w k :
  (∀ w, is_Some (fn w).1) →
  let cb0 := NewCircuitBreaker name m r in
  Z.of_nat k ≤ maxFailures cb0 →
  let '(cb, _) := calls k fn cb0 w in
  failureCount cb = Z.of_nat k ∧
  cb_state cb = (if Z.of_nat k <? maxFailures cb0 then StateClosed else StateOpen).
Proof.
  intros Hfail cb0 Hk.
  assert (Hinv : ∀ j, Z.of_nat j ≤ maxFailures cb0 →
    let '(cb, _) := calls j fn cb0 w in
    maxFailures cb = maxFailures cb0 ∧ failureCount cb = Z.of_nat j ∧
    cb_state cb = (if Z.of_nat j <? maxFailures cb0 then StateClosed else StateOpen)).
  { intros j. induction j as [|j IH]; intros Hj.
    - destruct (NewCircuitBreaker_ok name m r) as [H1 _]. fold cb0 in H1. cbn [calls].
      destruct (Z.ltb_spec (Z.of_nat 0) (maxFailures cb0)); [done | lia].
    - rewrite calls_S. specialize (IH ltac:(lia)).
      destruct (calls j fn cb0 w) as [cb w1]. destruct IH as (Hm & Hc & Hs).
      destruct (Z.ltb_spec (Z.of_nat j) (maxFailures cb0)); [|lia].
      destruct (fn w1) as [[e|] w2] eqn:Hfn;
        [|by specialize (Hfail w1); rewrite Hfn in Hfail; destruct Hfail].
      rewrite (Call_closed_failing _ _ _ _ _ Hs Hfn).
      destruct (Z.leb_spec (maxFailures cb) (failureCount cb + 1)),
        (Z.ltb_spec (Z.of_nat (S j)) (maxFailures cb0)); simpl; split_and!; try done; lia. }
  specialize (Hinv k Hk). destruct (calls k fn cb0 w). naive_solver.
Qed.

(** Fail fast and recover.  Inside the reset window an open breaker answers
    without running the function; after the window one call runs as the probe,
    and its success closes the breaker with a cleared count while its failure
    reopens it for a full window from the failure. *)
Theorem breaker_open_call fn cb w :
  cb_state cb = StateOpen →
  (now w - lastFailTime cb < resetTimeout cb → Call now fn cb w = (Some err_open, cb, w, [])) ∧
  (resetTimeout cb ≤ now w - lastFailTime cb →
   ∀ err w', fn w = (err, w') →
   Call now fn cb w =
     (err,
      mk_cb (cb_name cb) (maxFailures cb) (resetTimeout cb)
        (if err then StateOpen else StateClosed)
        (if err then failureCount cb + 1 else 0)
        (if err then now w' else now w) false,
      w',
      [(StateOpen, StateHalfOpen); (StateHalfOpen, if err then StateOpen else StateClosed)])).
Proof.
  intros Hs. destruct cb as [nm mx rs st fc lf fl]; simpl in *; subst. split.
  - intros Hlt. unfold Call, enter. cbn [cb_state lastFailTime resetTimeout].
    by rewrite (proj2 (Z.ltb_lt _ _) Hlt).
  - intros Hge err w' Hf. unfold Call, enter. cbn [cb_state lastFailTime resetTimeout].
    rewrite (proj2 (Z.ltb_ge _ _) Hge). simpl. rewrite Hf. by destruct err.
Qed.

End sequential.

Lemma breaker_trips_witness :
  let fn := λ w : Z, (Some (ENew "refused"), w + 1) in
  (∀ w, is_Some (fn w).1) ∧
  let '(cb, _) := calls (λ w, w) 5 fn (NewCircuitBreaker "redis" 5 (seconds 30)) 0 in
  failureCount cb = 5 ∧ cb_state cb = StateOpen.
Proof.
  intros fn. assert (Hf : ∀ w, is_Some (fn w).1) by (intros w; by eexists).
  split; [exact Hf|].
  exact (breaker_trips (λ w, w) "redis" 5 (seconds 30) fn 0 5 Hf ltac:(vm_compute; congruence)).
Defined.

Lemma breaker_open_call_witness :
  let cb := mk_cb "redis" 5 (seconds 30) StateOpen 5 0 false in
  cb_state cb = StateOpen ∧
  Call (λ w : Z, w) (λ w, (None, w + 1)) cb (seconds 29) = (Some err_open, cb, seconds 29, []).
Proof.
  intros cb. assert (H : cb_state cb = StateOpen) by reflexivity. split; [exact H|].
  exact (proj1 (breaker_open_call (λ w : Z, w) (λ w, (None, w + 1)) cb (seconds 29) H)
    ltac:(vm_compute; reflexivity)).
Defined.

(** ** Probes *)

Definition probe_inv (c : conf) : Prop :=
  (cb_state (c_cb c) = StateHalfOpen ∧ inFlightProbe (c_cb c) = true ∧ c_calls c = [true]) ∨
  (cb_state (c_cb c) ≠ StateHalfOpen ∧ inFlightProbe (c_cb c) = false ∧ true ∉ c_calls c).

Lemma quiet_step_probe_inv c c' : probe_inv c → quiet_step c c' → probe_inv c'.
Proof.
  intros Hp Hs.
  destruct Hs as [[cb l n] d _|[cb l n] p cb' tr E Hq|[cb l n] e cb' tr E|[cb l n] l1 p l2 f cb' tr Hl E];
    destruct cb as [nm mx rs st fc lf fl]; unfold probe_inv in *; simpl in *.
  - done.
  - destruct Hp as [(-> & -> & ->)|(Hst & -> & Hnot)]; simpl in *; [done|].
    unfold enter in E; simpl in E.
    destruct st; simpl in *; try done.
    + simplify_eq/=. right. split_and!; [done|done|]. set_solver.
    + case_match; [done|]. simplify_eq/=. left. by rewrite Hq.
  - destruct Hp as [(-> & -> & ->)|(Hst & -> & Hnot)]; unfold enter in E; simpl in E.
    + simplify_eq/=. by left.
    + destruct st; simplify_eq/=; try done. case_match; simplify_eq/=. by right.
  - destruct Hp as [(-> & -> & ->)|(Hst & -> & Hnot)].
    + destruct l1 as [|? [|? ?]]; simplify_eq/=.
      right. destruct f; unfold finish, recordFailure, recordSuccess, setState in E;
        simplify_eq/=; split_and!; try done; set_solver.
    + assert (p = false) as -> by (destruct p; [set_solver|done]).
      right. destruct f, st; unfold finish, recordFailure, recordSuccess, setState in E;
        simpl in *; repeat case_match; simplify_eq/=; split_and!; try done; set_solver.
Qed.

(** One probe at a time, provided the calls admitted before the breaker
    opened have all returned when a probe is admitted (and nobody resets the
    breaker by hand): at most one call tests the downstream while half-open. *)
Theorem quiet_single_probe name m r now c :
  rtc quiet_step (initial (NewCircuitBreaker name m r) now) c → (probes c ≤ 1)%nat.
Proof.
  intros Hr. assert (Hi : probe_inv c).
  { remember (initial _ _) as c0 eqn:Hc0.
    assert (H0 : probe_inv c0) by (subst; right; split_and!; [done|done|set_solver]).
    clear Hc0. induction Hr; eauto using quiet_step_probe_inv. }
  destruct Hi as [(_ & _ & Hc)|(_ & _ & Hn)]; unfold probes.
  - by rewrite Hc.
  - apply count_occ_zero in Hn. lia.
Qed.

Lemma quiet_single_probe_witness :
  let cb := NewCircuitBreaker "redis" 1 10 in
  let c := mk_conf (mk_cb "redis" 1 10 StateHalfOpen 1 10 true) [true] 10 in
  rtc quiet_step (initial cb 0) c ∧ (probes c ≤ 1)%nat.
Proof.
  intros cb c.
  assert (H : rtc quiet_step (initial cb 0) c).
  { eapply rtc_l; [exact (quiet_admit (initial cb 0) _ _ _ eq_refl ltac:(done))|].
    eapply rtc_l; [exact (quiet_finish (mk_conf cb [false] 0) [] false [] true _ _ eq_refl eq_refl)|].
    eapply rtc_l; [exact (quiet_tick _ 10 ltac:(lia))|].
    apply rtc_once.
    exact (quiet_admit (mk_conf (mk_cb "redis" 1 10 StateOpen 1 0 false) [] 10)
      true _ _ eq_refl ltac:(done)). }
  split; [exact H | exact (quiet_single_probe "redis" 1 10 0 c H)].
Defined.

(** Without that proviso two probes can run at once: a call admitted while
    the breaker was closed may fail while a probe is running, which reopens the
    breaker, and after another reset window a second probe is admitted beside
    the first. *)
Theorem two_probes_reachable :
  ∃ c, rtc step (initial (NewCircuitBreaker "redis" 1 10) 0) c ∧ probes c = 2%nat.
Proof.
  set (cb0 := NewCircuitBreaker "redis" 1 10).
  set (op t n := mk_cb "redis" 1 10 StateOpen n t).
  set (ho t n := mk_cb "redis" 1 10 StateHalfOpen n t true).
  exists (mk_conf (ho 20 2) [true; true] 20). split; [|done].
  eapply rtc_l; [exact (step_admit (mk_conf cb0 [] 0) _ _ _ eq_refl)|].
  eapply rtc_l; [exact (step_admit (mk_conf cb0 [false] 0) _ _ _ eq_refl)|].
  eapply rtc_l; [exact (step_finish (mk_conf cb0 [false; false] 0)
    [] false [false] true _ _ eq_refl eq_refl)|].
  eapply rtc_l; [exact (step_tick (mk_conf (op 0 1 false) [false] 0) 10 ltac:(lia))|].
  eapply rtc_l; [exact (step_admit (mk_conf (op 0 1 false) [false] 10) _ _ _ eq_refl)|].
  eapply rtc_l; [exact (step_finish (mk_conf (ho 10 1) [true; false] 10)
    [true] false [] true _ _ eq_refl eq_refl)|].
  eapply rtc_l; [exact (step_tick (mk_conf (op 10 2 true) [true] 10) 10 ltac:(lia))|].
  apply rtc_once.
  exact (step_admit (mk_conf (op 10 2 true) [true] 20) _ _ _ eq_refl).
Qed.
