(* ===== verification/Retry.v ===== *)
(** * Retry policies ([utils/retry.go] and the failure policy of [worker/worker.go])

    The classification of errors as retryable, the exponential-backoff loop
    [RetryWithContext], and the worker's own classification and backoff. *)
From S2P Require Import Prelude GoStr GoErr GoFloat Config.

Local Open Scope Z_scope.

(** ** Classification *)

(** [utils.IsRetryable]; [None] is a [nil] error. *)
Definition IsRetryable (err : option error) : bool :=
  match err with
  | None => false
  | Some e =>
      if errors_Is e ErrNonRetryable then false
      else if errors_Is e ErrRetryable then true
      else match errors_As_Retryable e with
      | Some b => b
      | None =>
          if is_net_Error e then true
          else if Contains (Error e) "timeout" || Contains (Error e) "deadline exceeded"
          then true
          else if is_url_Error e then true
          else
            let errStr := ToLower (Error e) in
            if Any_contains errStr ["500"; "502"; "503"; "504"] then true
            else if Any_contains errStr ["400"; "401"; "403"; "404"; "422"; "validation"]
            then false
            else false
      end
  end.

(** [worker.isRetryable]: a failed scan is retried unless it is known to be
    deterministic. *)
Definition isRetryable (err : option error) : bool :=
  match err with
  | None => false
  | Some e =>
      if errors_Is e ErrNonRetryable then false
      else if errors_Is e ErrRetryable then true
      else
        let msg := ToLower (Error e) in
        if Any_contains msg
             ["safety check failed"; "decompilation failed"; "validation failed"]
        then false else true
  end.

(** The typed sentinels decide both classifications, whatever the message
    says and however deep they are wrapped: an error wrapping [ErrNonRetryable]
    is never retried, one wrapping only [ErrRetryable] always is. *)
Theorem sentinel_precedence e :
  (errors_Is e ErrNonRetryable = true →
   IsRetryable (Some e) = false ∧ isRetryable (Some e) = false) ∧
  (errors_Is e ErrNonRetryable = false → errors_Is e ErrRetryable = true →
   IsRetryable (Some e) = true ∧ isRetryable (Some e) = true).
Proof.
  unfold IsRetryable, isRetryable. split.
  - by intros ->.
  - by intros -> ->.
Qed.

(** ** The worker's backoff *)

(** One doubling of a [time.Duration]. *)
Definition double (d : Z) : Z := wrap64 (d * 2).

(** The loop [for i := 1; i < retryCount; i++]; [n] is the number of iterations
    left.  [inl] is an early return. *)
Fixpoint backoff_loop (n : nat) (d max : Z) : Z + Z :=
  match n with
  | O => inr d
  | S n' => let d := double d in
            if max <=? d then inl max else backoff_loop n' d max
  end.

(** [retryBackoff], with [workerRetryBase] and [workerRetryMaxDur] as arguments. *)
Definition retryBackoff (workerRetryBase workerRetryMaxDur retryCount : Z) : Z :=
  let base := if workerRetryBase <=? 0 then seconds 2 else workerRetryBase in
  let max := if workerRetryMaxDur <=? 0 then seconds 30 else workerRetryMaxDur in
  match backoff_loop (Z.to_nat (retryCount - 1)) base max with
  | inl d => d
  | inr d => if max <? d then max else d
  end.

Lemma backoff_loop_spec n d max :
  0 < d < max → max ≤ 2 ^ 62 →
  backoff_loop n d max =
    if max <=? d * 2 ^ Z.of_nat n then inl max else inr (d * 2 ^ Z.of_nat n).
Proof.
  revert d. induction n as [|n IH]; intros d Hd Hmax.
  - simpl. rewrite Z.mul_1_r. by rewrite (proj2 (Z.leb_gt _ _)) by lia.
  - simpl. unfold double. rewrite wrap64_id by (unfold in_int64, int64_min, int64_max; lia).
    assert (Hpow : 1 ≤ 2 ^ Z.of_nat n) by (pose proof (Z.pow_pos_nonneg 2 (Z.of_nat n)); lia).
    replace (Z.of_nat (S n)) with (Z.succ (Z.of_nat n)) by lia.
    rewrite Z.pow_succ_r by lia.
    destruct (Z.leb_spec max (d * 2)).
    + rewrite (proj2 (Z.leb_le _ _)); [done|]. nia.
    + rewrite IH by lia. by replace (d * 2 * 2 ^ Z.of_nat n) with (d * (2 * 2 ^ Z.of_nat n)) by lia.
Qed.

Lemma backoff_loop_capped n d max :
  0 < max ≤ d → d ≤ 2 ^ 62 - 1 →
  match backoff_loop n d max with inl r => r | inr r => if max <? r then max else r end = max.
Proof.
  intros Hd Hb. destruct n as [|n]; simpl.
  - destruct (Z.ltb_spec max d); lia.
  - unfold double. rewrite wrap64_id by (unfold in_int64, int64_min, int64_max; lia).
    by rewrite (proj2 (Z.leb_le _ _)) by lia.
Qed.

(** The backoff before retry [n] is [base * 2^(n-1)] capped at [max], with
    no overflow for settings below 2^62 ns (146 years); it is positive and
    never exceeds the cap. *)
Theorem retryBackoff_spec base max n :
  0 < base < 2 ^ 62 → 0 < max ≤ 2 ^ 62 → 1 ≤ n →
  retryBackoff base max n = Z.min max (base * 2 ^ (n - 1)) ∧
  0 < retryBackoff base max n ≤ max.
Proof.
  intros Hb Hm Hn.
  assert (Hpow : 1 ≤ 2 ^ (n - 1)) by (pose proof (Z.pow_pos_nonneg 2 (n - 1)); lia).
  assert (Heq : retryBackoff base max n = Z.min max (base * 2 ^ (n - 1))).
  { unfold retryBackoff.
    rewrite (proj2 (Z.leb_gt base 0)), (proj2 (Z.leb_gt max 0)) by lia.
    destruct (Z.lt_ge_cases base max).
    - rewrite backoff_loop_spec by lia. rewrite Z2Nat.id by lia.
      destruct (Z.leb_spec max (base * 2 ^ (n - 1))); [lia|].
      rewrite (proj2 (Z.ltb_ge _ _)); lia.
    - rewrite backoff_loop_capped by lia. nia. }
  rewrite Heq. nia.
Qed.

Lemma retryBackoff_spec_witness :
  retryBackoff (seconds 2) (seconds 30) 3 = Z.min (seconds 30) (seconds 2 * 2 ^ (3 - 1)) ∧
  0 < retryBackoff (seconds 2) (seconds 30) 3 ≤ seconds 30.
Proof.
  exact (retryBackoff_spec (seconds 2) (seconds 30) 3
    ltac:(vm_compute; split; congruence) ltac:(vm_compute; split; congruence) ltac:(lia)).
Defined.

(** ** [RetryWithContext] *)

Record RetryConfig := mk_retry_config {
  MaxRetries : Z;
  InitialDelay : Z;
  MaxDelay : Z;
  Multiplier : spec_float;
  Jitter : bool }.

(** The environment, and the parsers of numbers and durations, are arguments. *)
Definition DefaultRetryConfig (LookupEnv : string → option string)
    (ParseFloat : string → option spec_float) (ParseDuration : string → option Z) : RetryConfig :=
  {| MaxRetries := Int LookupEnv "MORF_RETRY_MAX_RETRIES" 3;
     InitialDelay := DurationPositive LookupEnv ParseDuration "MORF_RETRY_INITIAL_DELAY" (seconds 1);
     MaxDelay := DurationPositive LookupEnv ParseDuration "MORF_RETRY_MAX_DELAY" (seconds 30);
     Multiplier := FloatPositive LookupEnv ParseFloat "MORF_RETRY_MULTIPLIER" (float_of_Z 2);
     Jitter := Bool LookupEnv "MORF_RETRY_JITTER" true |}.

(** What [RetryWithContext] does: it returns an error ([None] is [nil]), or
    dereferences the [nil] [lastErr] when the loop body never runs. *)
Inductive retry_outcome :=
  | Returned (err : option error)
  | NilDereference.

(** The delay before attempt [attempt >= 1], before jitter. *)
Definition base_delay (target : arch) (cfg : RetryConfig) (attempt : Z) : Z :=
  let d := int_of_float target
             (float_mul (float_of_Z (InitialDelay cfg)) (Pow (Multiplier cfg) (attempt - 1))) in
  if MaxDelay cfg <? d then MaxDelay cfg else d.

Section retry.
Context {W : Type} (target : arch).
(** The protected function, the context's state, the interruptible sleep and
    [rand.Int63n]. *)
Context (fn : W → option error * W).
Context (ctx_Err : W → option error).
Context (sleep : Z → W → option error * W).
Context (Int63n : Z → W → Z * W).

Definition with_jitter (cfg : RetryConfig) (delay : Z) (w : W) : Z * W :=
  if Jitter cfg then
    let q := Z.quot delay 4 in
    if 0 <? q then let '(j, w) := Int63n q w in (wrap64 (delay + j), w) else (delay, w)
  else (delay, w).

(** [n] iterations are left; the result carries the number of times [fn] ran and
    the delays slept. *)
Fixpoint retry_loop (n : nat) (cfg : RetryConfig) (attempt : Z) (lastErr : option error)
    (ran : nat) (delays : list Z) (w : W) : retry_outcome * nat * list Z * W :=
  match n with
  | O => (match lastErr with Some e => Returned (Some e) | None => NilDereference end,
          ran, delays, w)
  | S n' =>
      match ctx_Err w with
      | Some e => (Returned (Some e), ran, delays, w)
      | None =>
          let run w delays :=
            match fn w with
            | (None, w) => (Returned None, S ran, delays, w)
            | (Some e, w) =>
                if IsRetryable (Some e)
                then retry_loop n' cfg (attempt + 1) (Some e) (S ran) delays w
                else (Returned (Some e), S ran, delays, w)
            end in
          if 0 <? attempt then
            let '(delay, w) := with_jitter cfg (base_delay target cfg attempt) w in
            match sleep delay w with
            | (Some e, w) => (Returned (Some e), ran, delays ++ [delay], w)
            | (None, w) => run w (delays ++ [delay])
            end
          else run w delays
      end
  end.

Definition RetryWithContext (cfg : RetryConfig) (w : W) : retry_outcome * nat * list Z * W :=
  retry_loop (Z.to_nat (MaxRetries cfg + 1)) cfg 0 None 0 [] w.

(** Documented range of [rand.Int63n]. *)
Definition Int63n_spec : Prop := ∀ q w, 0 < q → 0 ≤ (Int63n q w).1 < q.

Definition config_ok (cfg : RetryConfig) : Prop :=
  0 ≤ InitialDelay cfg ∧ 0 ≤ MaxDelay cfg ∧
  MaxDelay cfg + MaxDelay cfg / 4 ≤ int64_max ∧ nonneg (Multiplier cfg).

(** A delay is at most the cap and a quarter; it is negative, which is no delay at
    all, only as the result of an overflowing conversion on amd64. *)
Definition delay_ok (cfg : RetryConfig) (d : Z) : Prop :=
  d ≤ MaxDelay cfg + MaxDelay cfg / 4 ∧ (0 ≤ d ∨ target = amd64 ∧ d = int64_min).

Lemma base_delay_range cfg attempt :
  config_ok cfg →
  base_delay target cfg attempt ≤ MaxDelay cfg ∧
  (0 ≤ base_delay target cfg attempt ∨ target = amd64 ∧ base_delay target cfg attempt = int64_min).
Proof.
  intros (Hi & Hm & _ & Hq). unfold base_delay.
  pose proof (int_of_float_nonneg target _
    (nonneg_mul _ _ (nonneg_of_Z _ Hi) (nonneg_Pow _ (attempt - 1) Hq))) as Hd.
  set (d := int_of_float _ _) in *.
  destruct (Z.ltb_spec (MaxDelay cfg) d); split; auto; lia.
Qed.

Lemma with_jitter_range cfg attempt w :
  Int63n_spec → config_ok cfg → delay_ok cfg (with_jitter cfg (base_delay target cfg attempt) w).1.
Proof.
  intros Hr Hc. pose proof (base_delay_range cfg attempt Hc) as [Hb Hs].
  destruct Hc as (_ & Hm & Hmax & _). unfold with_jitter, delay_ok.
  set (d := base_delay target cfg attempt) in *. clearbody d.
  assert (Hq : 0 ≤ MaxDelay cfg / 4) by (apply Z.div_pos; lia).
  destruct (Jitter cfg); simpl; [|split; [lia|done]].
  destruct (Z.ltb_spec 0 (Z.quot d 4)) as [Hlt|]; simpl; [|split; [lia|done]].
  assert (0 ≤ d) by (destruct (Z.le_gt_cases 0 d); [done|];
    pose proof (Z.quot_le_mono d 0 4 ltac:(lia) ltac:(lia)); rewrite Z.quot_0_l in *; lia).
  rewrite Z.quot_div_nonneg in * by lia.
  specialize (Hr (d / 4) w Hlt). destruct (Int63n (d / 4) w) as [j w']; simpl in *.
  assert (d / 4 ≤ MaxDelay cfg / 4) by (apply Z.div_le_mono; lia).
  rewrite wrap64_id by (unfold in_int64, int64_min; lia). lia.
Qed.

(** What the loop guarantees of its result. *)
Definition retry_result (cfg : RetryConfig) (n ran : nat) (last : option error)
    (out : retry_outcome) (ran' : nat) : Prop :=
  (ran ≤ ran' ≤ ran + n)%nat ∧
  (out = NilDereference → n = O ∧ last = None) ∧
  ((∀ w, ctx_Err w = None) → (∀ d w, (sleep d w).1 = None) →
   match out with
   | Returned None => (ran < ran')%nat
   | Returned (Some e) =>
       IsRetryable (Some e) = false ∨ (ran' = ran + n)%nat
   | NilDereference => True
   end).

Lemma retry_loop_result n cfg attempt last ran delays w out ran' delays' w' :
  retry_loop n cfg attempt last ran delays w = (out, ran', delays', w') →
  retry_result cfg n ran last out ran'.
Proof.
  unfold retry_result. revert attempt last ran delays w.
  induction n as [|n IH]; intros attempt last ran delays w; simpl.
  - intros H. destruct last; simplify_eq; split_and!; try done; try lia; intros; right; lia.
  - assert (Hrun : ∀ w delays,
      match fn w with
      | (None, w0) => (Returned None, S ran, delays, w0)
      | (Some e, w0) =>
          if IsRetryable (Some e)
          then retry_loop n cfg (attempt + 1) (Some e) (S ran) delays w0
          else (Returned (Some e), S ran, delays, w0)
      end = (out, ran', delays', w') →
      (ran ≤ ran' ≤ ran + S n)%nat ∧ (out = NilDereference → S n = O ∧ last = None) ∧
      ((∀ w, ctx_Err w = None) → (∀ d w, (sleep d w).1 = None) →
       match out with
       | Returned None => (ran < ran')%nat
       | Returned (Some e) => IsRetryable (Some e) = false ∨ (ran' = ran + S n)%nat
       | NilDereference => True
       end)).
    { intros w1 dl. destruct (fn w1) as [[e|] w2].
      - destruct (IsRetryable (Some e)) eqn:Hre.
        + intros Hl. destruct (IH _ _ _ _ _ Hl) as (Hr & Hp & Hc). split_and!; [lia..| |].
          * intros Hn. by destruct (Hp Hn).
          * intros Hx Hs. specialize (Hc Hx Hs). destruct out as [[e'|]|]; try lia.
            destruct Hc as [?|?]; [by left | right; lia].
        + intros; simplify_eq. split_and!; try done; try lia. by left.
      - intros; simplify_eq. split_and!; try done; lia. }
    destruct (ctx_Err w) as [e|] eqn:Hctx.
    + intros; simplify_eq. split_and!; try done; try lia. intros Hx. by rewrite Hx in Hctx.
    + destruct (0 <? attempt); [|apply Hrun].
      destruct (with_jitter cfg _ w) as [d w1].
      destruct (sleep d w1) as [[e|] w2] eqn:Hsl; [|apply Hrun].
      intros; simplify_eq. split_and!; try done; try lia.
      intros _ Hs. specialize (Hs d w1). by rewrite Hsl in Hs.
Qed.

Lemma retry_loop_delays n cfg attempt last ran delays w out ran' delays' w' :
  Int63n_spec → config_ok cfg → Forall (delay_ok cfg) delays →
  retry_loop n cfg attempt last ran delays w = (out, ran', delays', w') →
  Forall (delay_ok cfg) delays'.
Proof.
  intros Hr Hc. revert attempt last ran delays w.
  induction n as [|n IH]; intros attempt last ran delays w Hd; simpl; [intros; by simplify_eq|].
  destruct (ctx_Err w); [intros; by simplify_eq|].
  destruct (0 <? attempt).
  - pose proof (with_jitter_range cfg attempt w Hr Hc) as Hj.
    destruct (with_jitter cfg _ w) as [d w1]. simpl in Hj.
    assert (Hd' : Forall (delay_ok cfg) (delays ++ [d])) by (apply Forall_app; auto).
    destruct (sleep d w1) as [[e|] w2]; [intros; by simplify_eq|].
    destruct (fn w2) as [[e|] w3]; [|intros; by simplify_eq].
    case_match; [by apply IH | intros; by simplify_eq].
  - destruct (fn w) as [[e|] w3]; [|intros; by simplify_eq].
    case_match; [by apply IH | intros; by simplify_eq].
Qed.

(** An invariant that may count the runs of the function holds at the end; success
    comes from the last run. *)
Lemma retry_loop_indexed (P : nat → W → Prop) n cfg attempt last ran delays w out ran' delays' w' :
  (∀ k w e w', P k w → fn w = (Some e, w') → P (S k) w') → (∀ k d w, P k w → P k (sleep d w).2) →
  (∀ k q w, P k w → P k (Int63n q w).2) → P ran w →
  retry_loop n cfg attempt last ran delays w = (out, ran', delays', w') →
  match out with
  | Returned None => ∃ k w0, ran' = S k ∧ P k w0 ∧ fn w0 = (None, w')
  | _ => P ran' w'
  end.
Proof.
  intros Hf Hs Hr. revert w attempt last ran delays.
  induction n as [|n IH]; intros w attempt last ran delays Hw; cbn [retry_loop].
  { intros E. destruct last; by simplify_eq. }
  destruct (ctx_Err w); [intros E; by simplify_eq|].
  assert (Hrun : ∀ w delays, P ran w → match fn w with
    | (None, w) => (Returned None, S ran, delays, w)
    | (Some e, w) => if IsRetryable (Some e)
                     then retry_loop n cfg (attempt + 1) (Some e) (S ran) delays w
                     else (Returned (Some e), S ran, delays, w)
    end = (out, ran', delays', w') →
    match out with
    | Returned None => ∃ k w0, ran' = S k ∧ P k w0 ∧ fn w0 = (None, w')
    | _ => P ran' w'
    end).
  { intros w1 dl Hw1. destruct (fn w1) as [[e|] w2] eqn:E2.
    - pose proof (Hf _ _ _ _ Hw1 E2). destruct (IsRetryable (Some e)); [by apply IH|intros E; by simplify_eq].
    - intros E. simplify_eq. by exists ran, w1. }
  destruct (0 <? attempt); [|by apply Hrun].
  assert (Hj : P ran (with_jitter cfg (base_delay target cfg attempt) w).2).
  { unfold with_jitter. destruct (Jitter cfg); [|done]. destruct (0 <? _); [|done].
    pose proof (Hr ran (Z.quot (base_delay target cfg attempt) 4) w Hw). by destruct (Int63n _ w). }
  destruct (with_jitter _ _ w) as [d w1]. pose proof (Hs ran d w1 Hj).
  destruct (sleep d w1) as [[e|] w2]; [intros E; by simplify_eq|by apply Hrun].
Qed.

(** What every step preserves holds at the end. *)
Lemma RetryWithContext_preserves (P : W → Prop) cfg w :
  (∀ w, P w → P (fn w).2) → (∀ d w, P w → P (sleep d w).2) → (∀ q w, P w → P (Int63n q w).2) →
  P w → P (RetryWithContext cfg w).2.
Proof.
  intros Hf Hs Hr Hw. destruct (RetryWithContext cfg w) as [[[out ran] delays] w'] eqn:E.
  apply (retry_loop_indexed (λ _, P)) in E; [| |auto..].
  - destruct out as [[e|]|]; [done| |done]. destruct E as (_ & w0 & _ & Hw0 & E).
    specialize (Hf w0 Hw0). by rewrite E in Hf.
  - intros _ w0 e w1 Hw0 E0. specialize (Hf w0 Hw0). by rewrite E0 in Hf.
Qed.

(** [RetryWithContext] runs the function at most [MaxRetries + 1] times,
    never waits longer than 1.25 times [MaxDelay] before a retry (and waits a
    non-negative time unless the exponential overflows on amd64), and never
    dereferences a nil error when [MaxRetries] is not negative.  When the
    context is not cancelled it returns success only after a run, and an error
    only if that error is not retryable or every attempt was used. *)
Theorem RetryWithContext_bounded cfg w out ran delays w' :
  Int63n_spec → config_ok cfg → 0 ≤ MaxRetries cfg →
  RetryWithContext cfg w = (out, ran, delays, w') →
  Z.of_nat ran ≤ MaxRetries cfg + 1 ∧ Forall (delay_ok cfg) delays ∧
  out ≠ NilDereference ∧
  ((∀ w, ctx_Err w = None) → (∀ d w, (sleep d w).1 = None) →
   match out with
   | Returned None => (0 < ran)%nat
   | Returned (Some e) =>
       IsRetryable (Some e) = false ∨ Z.of_nat ran = MaxRetries cfg + 1
   | NilDereference => False
   end).
Proof.
  intros Hr Hc Hm Hrun. unfold RetryWithContext in Hrun.
  pose proof (retry_loop_delays _ _ _ _ _ _ _ _ _ _ _ Hr Hc (Forall_nil_2 _) Hrun) as Hd.
  apply retry_loop_result in Hrun as (Hran & Hnil & Hout).
  assert (Hno : out ≠ NilDereference) by (intros ->; destruct (Hnil eq_refl); lia).
  split_and!; [lia|done|done|]. intros Hx Hs. specialize (Hout Hx Hs).
  destruct out as [[e|]|]; [|lia|done]. destruct Hout as [?|?]; [by left|right; lia].
Qed.

End retry.

(** ** Instances *)

(** The settings with no environment variable set. *)
Definition plain_retry : RetryConfig := DefaultRetryConfig (λ _, None) (λ _, None) (λ _, None).

(** A downstream that fails twice with a retryable error, then succeeds. *)
Lemma RetryWithContext_bounded_witness :
  let fn := λ w : nat, (if (w <? 2)%nat then Some (ESentinel ErrRetryable) else None, S w) in
  let rnd := λ (q : Z) (w : nat), (0, w) in
  let sl := λ (d : Z) (w : nat), (@None error, w) in
  let r := RetryWithContext amd64 fn (λ _, None) sl rnd plain_retry 0%nat in
  r = (Returned None, 3%nat, [seconds 1; seconds 2], 3%nat) ∧
  Z.of_nat 3 ≤ MaxRetries plain_retry + 1 ∧
  Forall (delay_ok amd64 plain_retry) [seconds 1; seconds 2].
Proof.
  intros fn rnd sl r.
  assert (Hr : r = (Returned None, 3%nat, [seconds 1; seconds 2], 3%nat))
    by (vm_compute; reflexivity).
  pose proof (RetryWithContext_bounded amd64 fn (λ _, None) sl rnd plain_retry 0%nat
    (Returned None) 3%nat [seconds 1; seconds 2] 3%nat
    ltac:(intros q w H; simpl; lia)
    ltac:(split_and!; vm_compute; congruence) ltac:(vm_compute; congruence) Hr)
    as (H1 & H2 & _).
  split; [exact Hr|]. split; [exact H1|exact H2].
Defined.

(** From the 35th retry on, the exponential of the default settings exceeds an
    [int64] of nanoseconds: on amd64 the delay is negative and the cap does not
    apply, so the retries run without any wait; on arm64 the cap applies. *)
Theorem backoff_overflows_on_amd64 :
  base_delay amd64 plain_retry 34 = seconds 30 ∧
  base_delay amd64 plain_retry 35 = int64_min ∧
  base_delay arm64 plain_retry 35 = seconds 30.
Proof. by vm_compute. Qed.

(** A negative retry count runs nothing and dereferences the nil last error. *)
Theorem negative_retries_panic {W} a fn ctx_Err sl rnd cfg (w : W) :
  MaxRetries cfg < 0 →
  (RetryWithContext a fn ctx_Err sl rnd cfg w).1.1.1 = NilDereference.
Proof.
  intros Hm. unfold RetryWithContext. by replace (Z.to_nat (MaxRetries cfg + 1)) with O by lia.
Qed.
