(* ===== verification/ScanJob.v ===== *)
(** * Scan jobs ([models/ScanJob.go])

    The job record and its storage form: [ToMap] writes the fields of a Redis
    hash, [FromMap] reads them back. *)
From S2P Require Import Prelude GoStr GoErr GoTime.

Local Open Scope Z_scope.

(** [JobStatus] is a Go string type; the constants name its values. *)
Definition JobStatusQueued : string := "queued".
Definition JobStatusProcessing : string := "processing".
Definition JobStatusCompleted : string := "completed".
Definition JobStatusFailed : string := "failed".
Definition JobStatusCancelled : string := "cancelled".

Record ScanJob := mk_job {
  ID : string;
  Status : string;
  APKPath : string;
  FileType : string;
  OriginalFilename : string;
  CreatedAt : gotime;
  StartedAt : option gotime;
  CompletedAt : option gotime;
  FailedAt : option gotime;
  JobError : string;
  Phase : string;
  Result : string;
  WorkerID : string;
  RetryCount : Z;
  WebhookURL : string;
  WebhookSecret : string;
  ScanTimeout : Z;
  StorageKey : string;
  RequestID : string;
  TraceContext : gmap string string }.

(** [&models.ScanJob{}] *)
Definition zero_job : ScanJob :=
  mk_job "" "" "" "" "" zero_time None None None "" "" "" "" 0 "" "" 0 "" "" ∅.

(** The values [ToMap] puts into its [map[string]interface{}]. *)
Inductive gval := VStr (s : string) | VInt (z : Z).

(** What the Redis client sends for a value. *)
Definition redis_arg (v : gval) : string :=
  match v with VStr s => s | VInt z => itoa z end.

(** [encoding/json] on [map[string]string], used for the trace carrier. *)
Class MapCodec := {
  marshal_map : gmap string string → string;
  unmarshal_map : string → option (gmap string string) }.

Class MapCodecLaws (C : MapCodec) : Prop := {
  unmarshal_marshal m : unmarshal_map (marshal_map m) = Some m;
  marshal_nonempty m : marshal_map m ≠ "" }.

(** A field written only when [b] holds. *)
Definition insert_if {A} (b : bool) (k : string) (v : A) (m : gmap string A) : gmap string A :=
  if b then <[k := v]> m else m.


Definition formatTimePtr (t : option gotime) : string :=
  match t with None => "" | Some t => Format t end.

Section codec.
Context {codec : MapCodec}.

Definition ToMap (j : ScanJob) : gmap string gval :=
  insert_if (negb (bool_decide (TraceContext j = ∅))) "trace_context"
    (VStr (marshal_map (TraceContext j)))
  $ insert_if (nonempty (FileType j)) "file_type" (VStr (FileType j))
  $ insert_if (nonempty (RequestID j)) "request_id" (VStr (RequestID j))
  $ insert_if (0 <? ScanTimeout j) "scan_timeout" (VInt (ScanTimeout j))
  $ insert_if (nonempty (WebhookSecret j)) "webhook_secret" (VStr (WebhookSecret j))
  $ insert_if (nonempty (WebhookURL j)) "webhook_url" (VStr (WebhookURL j))
  $ insert_if (nonempty (Result j)) "result" (VStr (Result j))
  $ <["failed_at" := VStr (formatTimePtr (FailedAt j))]>
  $ <["completed_at" := VStr (formatTimePtr (CompletedAt j))]>
  $ <["started_at" := VStr (formatTimePtr (StartedAt j))]>
  $ <["storage_key" := VStr (StorageKey j)]>
  $ <["retry_count" := VInt (RetryCount j)]>
  $ <["worker_id" := VStr (WorkerID j)]>
  $ <["error" := VStr (JobError j)]>
  $ <["status" := VStr (Status j)]>
  $ <["created_at" := VStr (Format (CreatedAt j))]>
  $ <["original_filename" := VStr (OriginalFilename j)]>
  $ <["apk_path" := VStr (APKPath j)]>
  $ <["id" := VStr (ID j)]> ∅.

(** The string fields of the hash a job is stored in. *)
Definition hash_of (j : ScanJob) : gmap string string := redis_arg <$> ToMap j.

(** [m[k].(string)] with the old value kept when the key is absent or holds
    something else. *)
Definition get_str (m : gmap string gval) (k old : string) : string :=
  match m !! k with Some (VStr s) => s | _ => old end.

Definition get_time (m : gmap string gval) (k : string) (old : gotime) : gotime :=
  match m !! k with
  | Some (VStr s) => default old (Parse s)
  | _ => old
  end.

(** For [*time.Time] fields the empty string clears the field. *)
Definition get_time_ptr (m : gmap string gval) (k : string) (old : option gotime)
    : option gotime :=
  match m !! k with
  | Some (VStr s) =>
      if decide (s = "") then None
      else match Parse s with Some t => Some t | None => old end
  | _ => old
  end.

Definition get_int (m : gmap string gval) (k : string) (old : Z) : Z :=
  match m !! k with
  | Some (VInt z) => z
  | Some (VStr s) => default old (Sscanf_d s)
  | None => old
  end.

Definition get_trace (m : gmap string gval) (old : gmap string string) : gmap string string :=
  match m !! "trace_context" with
  | Some (VStr s) => if decide (s = "") then old else default old (unmarshal_map s)
  | _ => old
  end.

(** [FromMap] never fails: a field that cannot be read keeps its old value. *)
Definition FromMap (m : gmap string gval) (j : ScanJob) : ScanJob :=
  {| ID := get_str m "id" (ID j);
     Status := get_str m "status" (Status j);
     APKPath := get_str m "apk_path" (APKPath j);
     FileType := get_str m "file_type" (FileType j);
     OriginalFilename := get_str m "original_filename" (OriginalFilename j);
     CreatedAt := get_time m "created_at" (CreatedAt j);
     StartedAt := get_time_ptr m "started_at" (StartedAt j);
     CompletedAt := get_time_ptr m "completed_at" (CompletedAt j);
     FailedAt := get_time_ptr m "failed_at" (FailedAt j);
     JobError := get_str m "error" (JobError j);
     Phase := get_str m "phase" (Phase j);
     Result := get_str m "result" (Result j);
     WorkerID := get_str m "worker_id" (WorkerID j);
     RetryCount := get_int m "retry_count" (RetryCount j);
     WebhookURL := get_str m "webhook_url" (WebhookURL j);
     WebhookSecret := get_str m "webhook_secret" (WebhookSecret j);
     ScanTimeout := get_int m "scan_timeout" (ScanTimeout j);
     StorageKey := get_str m "storage_key" (StorageKey j);
     RequestID := get_str m "request_id" (RequestID j);
     TraceContext := get_trace m (TraceContext j) |}.

(** [convertMap] of [queue/queue.go], then [FromMap] into a fresh record: how
    [GetJob] reads a hash. *)
Definition read_hash (h : gmap string string) : ScanJob := FromMap (VStr <$> h) zero_job.

(** ** Reading back *)

#[local] Opaque Format Parse itoa Sscanf_d.

Lemma lookup_insert_if_eq {A} b k (v : A) m :
  insert_if b k v m !! k = if b then Some v else m !! k.
Proof. destruct b; simpl; [apply lookup_insert_eq | done]. Qed.

Lemma lookup_insert_if_ne {A} b k k' (v : A) m :
  k ≠ k' → insert_if b k v m !! k' = m !! k'.
Proof. intros. destruct b; simpl; [by apply lookup_insert_ne | done]. Qed.

(** Compute a lookup in a chain of inserts at literal keys. *)
Ltac lookup_chain :=
  repeat first
    [ rewrite lookup_insert_if_eq
    | rewrite lookup_insert_if_ne by discriminate
    | rewrite lookup_insert_eq
    | rewrite lookup_insert_ne by discriminate
    | rewrite lookup_empty ].

(** The stored hash after [HSET] of a job over an old hash [h]. *)
Definition stored (h : gmap string string) (j : ScanJob) : gmap string string :=
  hash_of j ∪ h.

Lemma lookup_stored h j k :
  stored h j !! k = match ToMap j !! k with
                    | Some v => Some (redis_arg v)
                    | None => h !! k
                    end.
Proof.
  unfold stored, hash_of. rewrite lookup_union, lookup_fmap.
  destruct (ToMap j !! k); simpl; [by destruct (h !! k) | by destruct (h !! k)].
Qed.

(** Lookups of the fields [ToMap] always writes, over any old hash. *)
Lemma stored_fields h j :
  stored h j !! "id" = Some (ID j) ∧ stored h j !! "status" = Some (Status j) ∧
  stored h j !! "error" = Some (JobError j) ∧ stored h j !! "worker_id" = Some (WorkerID j) ∧
  stored h j !! "retry_count" = Some (itoa (RetryCount j)) ∧
  stored h j !! "storage_key" = Some (StorageKey j) ∧
  stored h j !! "started_at" = Some (formatTimePtr (StartedAt j)) ∧
  stored h j !! "completed_at" = Some (formatTimePtr (CompletedAt j)) ∧
  stored h j !! "failed_at" = Some (formatTimePtr (FailedAt j)) ∧
  stored h j !! "apk_path" = Some (APKPath j) ∧
  stored h j !! "original_filename" = Some (OriginalFilename j) ∧
  stored h j !! "created_at" = Some (Format (CreatedAt j)).
Proof.
  rewrite !lookup_stored. unfold ToMap. split_and!; lookup_chain; done.
Qed.

(** Lookups of the fields written only when set. *)
Lemma stored_optional h j :
  stored h j !! "result" = (if nonempty (Result j) then Some (Result j) else h !! "result") ∧
  stored h j !! "webhook_url" =
    (if nonempty (WebhookURL j) then Some (WebhookURL j) else h !! "webhook_url") ∧
  stored h j !! "webhook_secret" =
    (if nonempty (WebhookSecret j) then Some (WebhookSecret j) else h !! "webhook_secret") ∧
  stored h j !! "scan_timeout" =
    (if 0 <? ScanTimeout j then Some (itoa (ScanTimeout j)) else h !! "scan_timeout") ∧
  stored h j !! "request_id" =
    (if nonempty (RequestID j) then Some (RequestID j) else h !! "request_id") ∧
  stored h j !! "file_type" =
    (if nonempty (FileType j) then Some (FileType j) else h !! "file_type") ∧
  stored h j !! "trace_context" =
    (if bool_decide (TraceContext j = ∅) then h !! "trace_context"
     else Some (marshal_map (TraceContext j))) ∧
  stored h j !! "phase" = h !! "phase".
Proof.
  rewrite !lookup_stored. unfold ToMap.
  split_and!; lookup_chain; [by destruct (nonempty _)..| | | | |].
  - by destruct (0 <? ScanTimeout j).
  - by destruct (nonempty (RequestID j)).
  - by destruct (nonempty (FileType j)).
  - by destruct (bool_decide (TraceContext j = ∅)).
  - done.
Qed.

Definition opt_time_ok (t : option gotime) : Prop :=
  match t with None => True | Some t => time_ok t end.

(** Values the storage form represents: printable years, machine integers. *)
Definition job_ok (j : ScanJob) : Prop :=
  time_ok (CreatedAt j) ∧ opt_time_ok (StartedAt j) ∧ opt_time_ok (CompletedAt j) ∧
  opt_time_ok (FailedAt j) ∧ in_int64 (RetryCount j) ∧ in_int64 (ScanTimeout j).

Lemma get_time_ptr_format m k old t :
  opt_time_ok t → m !! k = Some (VStr (formatTimePtr t)) →
  get_time_ptr m k old = truncate_sec <$> t.
Proof.
  intros Ht Hk. unfold get_time_ptr. rewrite Hk.
  destruct t as [t|]; [|done]. cbn [formatTimePtr opt_time_ok] in *.
  rewrite decide_False by apply Format_nonempty. by rewrite Parse_Format.
Qed.

Lemma get_time_format m k old t :
  time_ok t → m !! k = Some (VStr (Format t)) → get_time m k old = truncate_sec t.
Proof. intros Ht Hk. unfold get_time. by rewrite Hk, Parse_Format. Qed.

Lemma get_int_itoa m k old z :
  in_int64 z → m !! k = Some (VStr (itoa z)) → get_int m k old = z.
Proof. intros Hz Hk. unfold get_int. by rewrite Hk, Sscanf_d_itoa. Qed.

Lemma lookup_VStr (h : gmap string string) k s :
  h !! k = Some s → (VStr <$> h) !! k = Some (VStr s).
Proof. intros H. by rewrite lookup_fmap, H. Qed.

(** Reading a job back after an additive [HSET] over any older hash gives
    the job's own values for every mutable status field (status, error, worker,
    retry count, storage key and the three optional timestamps, to the second):
    a cleared field overwrites the stale value. *)
Theorem update_overwrites_mutable h j :
  job_ok j →
  let r := read_hash (stored h j) in
  ID r = ID j ∧ Status r = Status j ∧ JobError r = JobError j ∧ WorkerID r = WorkerID j ∧
  RetryCount r = RetryCount j ∧ StorageKey r = StorageKey j ∧
  StartedAt r = truncate_sec <$> StartedAt j ∧
  CompletedAt r = truncate_sec <$> CompletedAt j ∧
  FailedAt r = truncate_sec <$> FailedAt j.
Proof.
  intros (Hc & Hs & Hcm & Hf & Hr & _).
  destruct (stored_fields h j) as (?%lookup_VStr & ?%lookup_VStr & ?%lookup_VStr &
    ?%lookup_VStr & ?%lookup_VStr & ?%lookup_VStr & ?%lookup_VStr & ?%lookup_VStr &
    ?%lookup_VStr & _).
  unfold read_hash, FromMap; simpl. unfold get_str.
  split_and!; try (by simplify_map_eq); eauto using get_int_itoa, get_time_ptr_format.
Qed.

(** The job as the storage form keeps it: timestamps to the second, no phase,
    no negative timeout. *)
Definition norm_job (j : ScanJob) : ScanJob :=
  {| ID := ID j; Status := Status j; APKPath := APKPath j; FileType := FileType j;
     OriginalFilename := OriginalFilename j;
     CreatedAt := truncate_sec (CreatedAt j);
     StartedAt := truncate_sec <$> StartedAt j;
     CompletedAt := truncate_sec <$> CompletedAt j;
     FailedAt := truncate_sec <$> FailedAt j;
     JobError := JobError j; Phase := ""; Result := Result j; WorkerID := WorkerID j;
     RetryCount := RetryCount j; WebhookURL := WebhookURL j;
     WebhookSecret := WebhookSecret j;
     ScanTimeout := if 0 <? ScanTimeout j then ScanTimeout j else 0;
     StorageKey := StorageKey j; RequestID := RequestID j;
     TraceContext := TraceContext j |}.

Lemma get_str_optional m k s :
  m !! k = (if nonempty s then Some (VStr s) else None) → get_str m k "" = s.
Proof.
  unfold get_str, nonempty. intros ->. by destruct (bool_decide_reflect (s = "")) as [->|].
Qed.

Lemma fmap_if_VStr (b : bool) (s : string) :
  VStr <$> (if b then Some s else None) = if b then Some (VStr s) else None.
Proof. by destruct b. Qed.

(** A job stored into an empty hash and read back is the same job, up to
    sub-second time and the advisory phase field. *)
Theorem job_roundtrip `{!MapCodecLaws codec} j :
  job_ok j → read_hash (hash_of j) = norm_job j.
Proof.
  intros (Hc & Hs & Hcm & Hf & Hr & Ht).
  assert (Hst : hash_of j = stored ∅ j) by (unfold stored; by rewrite (right_id_L ∅ (∪))).
  destruct (stored_fields ∅ j) as (E1%lookup_VStr & E2%lookup_VStr & E3%lookup_VStr &
    E4%lookup_VStr & E5%lookup_VStr & E6%lookup_VStr & E7%lookup_VStr & E8%lookup_VStr &
    E9%lookup_VStr & E10%lookup_VStr & E11%lookup_VStr & E12%lookup_VStr).
  destruct (stored_optional ∅ j) as (O1 & O2 & O3 & O4 & O5 & O6 & O7 & O8).
  rewrite Hst. unfold read_hash, FromMap, norm_job, zero_job.
  set (m := VStr <$> stored ∅ j) in *. f_equal;
    try (unfold get_str; by simplify_map_eq);
    eauto using get_int_itoa, get_time_ptr_format, get_time_format;
    try (apply get_str_optional; unfold m;
         rewrite lookup_fmap, ?O1, ?O2, ?O3, ?O5, ?O6; apply fmap_if_VStr).
  - unfold get_str, m. by rewrite lookup_fmap, O8.
  - unfold get_int, m. rewrite lookup_fmap, O4.
    destruct (0 <? ScanTimeout j); simpl; [by rewrite Sscanf_d_itoa | done].
  - unfold get_trace, m. rewrite lookup_fmap, O7.
    destruct (bool_decide_reflect (TraceContext j = ∅)) as [->|]; simpl; [done|].
    rewrite decide_False by apply marshal_nonempty. by rewrite unmarshal_marshal.
Qed.

End codec.

(** ** A concrete codec and job *)

(** Maps as decimal numerals of their [Countable] code. *)
#[export] Instance numeral_codec : MapCodec := {|
  marshal_map m := itoa (Z.pos (encode m));
  unmarshal_map s := match scan_signed s with
                     | Some (Z.pos p, EmptyString) => decode p
                     | _ => None
                     end |}.

#[export] Instance numeral_codec_laws : MapCodecLaws numeral_codec.
Proof.
  split.
  - intros m. simpl. by rewrite scan_signed_itoa, decode_encode.
  - intros m. apply itoa_nonempty.
Qed.

Definition sample_job : ScanJob :=
  mk_job "job-1" JobStatusProcessing "/tmp/a.apk" "apk" "a.apk"
    (mk_time 1700000000123456789 330) (Some (mk_time 1700000100000000001 0)) None None
    "" "" "" "worker-1" 2 "https://hook" "" 600 "uploads/a" "req-1"
    {["traceparent" := "00-ab-cd-01"]}.

Lemma sample_job_ok : job_ok sample_job.
Proof. unfold job_ok, opt_time_ok, time_ok, in_int64. split_and!; vm_compute; first [done | congruence]. Qed.

Lemma update_overwrites_mutable_witness :
  job_ok sample_job ∧
  FailedAt (read_hash (stored {["failed_at" := "2023-11-14T22:13:20Z"]} sample_job)) = None.
Proof.
  split; [exact sample_job_ok|].
  destruct (update_overwrites_mutable {["failed_at" := "2023-11-14T22:13:20Z"]} sample_job
    sample_job_ok) as (_ & _ & _ & _ & _ & _ & _ & _ & H).
  exact H.
Defined.

Lemma job_roundtrip_witness :
  MapCodecLaws numeral_codec ∧ job_ok sample_job ∧
  read_hash (hash_of sample_job) = norm_job sample_job.
Proof.
  split; [exact numeral_codec_laws|]. split; [exact sample_job_ok|].
  exact (job_roundtrip sample_job sample_job_ok).
Defined.
