(* ===== verification/Redis.v ===== *)
(** * The Redis server and the client connection

    Redis is a service: its command interpreter is a parameter ([RedisServer])
    and what the queue relies on is the documented effect and reply of the
    commands it issues ([RedisLaws]), stated over an abstract database [rdb].
    The queue's theorems are proved against this interface; [mem_server] is an
    instance.  [world] adds what a process sees of it: the circuit-breaker
    registry, the clock and a network on which any round trip can fail. *)
From S2P Require Import Prelude GoStr GoErr GoTime Breaker.

Local Open Scope Z_scope.

(** ** Commands and replies *)

Inductive cmd :=
  | HSET (k : string) (kvs : gmap string string)
  | HGET (k f : string)
  | HGETALL (k : string)
  | EXISTS (k : string)
  | DEL (k : string)
  | EXPIRE (k : string) (ttl : Z)
  | SADD (k m : string)
  | SREM (k m : string)
  | SSCAN (k : string) (count : Z)
  | RPUSH (k x : string)
  | LPUSH (k x : string)
  | LREM1 (k x : string)
  | LLEN (k : string)
  | LRANGE (k : string) (start stop : Z)
  | LTRIM_LAST (k : string) (n : nat)
  | LMOVE_LR (src dst : string)
  | SETEX (k v : string) (ttl : Z)
  | GET (k : string)
  | SCAN (cursor : Z) (prefix : string) (count : Z)
  | INCR (k : string)
  | PUBLISH (channel message : string).

Inductive reply :=
  | RNil
  | RInt (z : Z)
  | RStr (s : string)
  | RArr (l : list string)
  | RMap (m : gmap string string)
  | RScan (next : Z) (l : list string)
  | RErr (msg : string).

(** ** Abstract database

    Keys of different types never coincide in this program: hashes live under
    "morf:jobs:<id>" and "morf:workers:<id>", sets under "morf:jobs:status:<s>",
    lists under "morf:job_queue", "morf:dlq", "morf:processing:<id>" and
    "morf:webhook_dlq", and leases (strings) under "morf:jobs:lease:<id>"; job
    identifiers are UUIDs.  An absent collection reads as the empty one. *)
Record rdb := mk_rdb {
  db_hashes : gmap string (gmap string string);
  db_sets : gmap string (gset string);
  db_lists : gmap string (list string);
  db_strs : gmap string string;
  db_ttls : gmap string Z }.

Definition empty_rdb : rdb := mk_rdb ∅ ∅ ∅ ∅ ∅.

Definition hash (d : rdb) (k : string) : gmap string string := default ∅ (db_hashes d !! k).
Definition rset (d : rdb) (k : string) : gset string := default ∅ (db_sets d !! k).
Definition rlist (d : rdb) (k : string) : list string := default [] (db_lists d !! k).

Definition set_hash (k : string) (h : gmap string string) (d : rdb) : rdb :=
  mk_rdb (<[k := h]> (db_hashes d)) (db_sets d) (db_lists d) (db_strs d) (db_ttls d).
(** A set or list that becomes empty is removed. *)
Definition put {A} (empty : bool) (k : string) (v : A) (m : gmap string A) : gmap string A :=
  if empty then delete k m else <[k := v]> m.
Definition set_set (k : string) (s : gset string) (d : rdb) : rdb :=
  mk_rdb (db_hashes d) (put (bool_decide (s = ∅)) k s (db_sets d)) (db_lists d)
    (db_strs d) (db_ttls d).
Definition set_list (k : string) (l : list string) (d : rdb) : rdb :=
  mk_rdb (db_hashes d) (db_sets d) (put (bool_decide (l = [])) k l (db_lists d))
    (db_strs d) (db_ttls d).
Definition set_str (k v : string) (d : rdb) : rdb :=
  mk_rdb (db_hashes d) (db_sets d) (db_lists d) (<[k := v]> (db_strs d)) (db_ttls d).
Definition set_ttl (k : string) (t : Z) (d : rdb) : rdb :=
  mk_rdb (db_hashes d) (db_sets d) (db_lists d) (db_strs d) (<[k := t]> (db_ttls d)).
Definition del_key (k : string) (d : rdb) : rdb :=
  mk_rdb (delete k (db_hashes d)) (delete k (db_sets d)) (delete k (db_lists d))
    (delete k (db_strs d)) (delete k (db_ttls d)).

Definition key_exists (d : rdb) (k : string) : bool :=
  bool_decide (is_Some (db_hashes d !! k) ∨ is_Some (db_sets d !! k) ∨
               is_Some (db_lists d !! k) ∨ is_Some (db_strs d !! k)).

(** [LRANGE] indices: negative counts from the end, both ends inclusive. *)
Definition lrange (l : list string) (start stop : Z) : list string :=
  let n := Z.of_nat (length l) in
  let a := Z.max 0 (if start <? 0 then n + start else start) in
  let b := if stop <? 0 then n + stop else stop in
  if b <? a then [] else take (Z.to_nat (b - a + 1)) (drop (Z.to_nat a) l).

(** A counter: an absent key is 0; the text must be a canonical 64-bit number. *)
Definition counter (d : rdb) (k : string) : option Z :=
  match db_strs d !! k with
  | None => Some 0
  | Some s => match Atoi s with Some n => if decide (itoa n = s) then Some n else None | None => None end
  end.
Definition incremented (d : rdb) (k : string) : option Z :=
  match counter d k with Some n => if n <? int64_max then Some (n + 1) else None | None => None end.

(** The documented effect of each command. *)
Definition db_eff (c : cmd) (d : rdb) : rdb :=
  match c with
  | HSET k kvs => set_hash k (kvs ∪ hash d k) d
  | DEL k => del_key k d
  | EXPIRE k t => if key_exists d k then set_ttl k t d else d
  | SADD k m => set_set k ({[m]} ∪ rset d k) d
  | SREM k m => set_set k (rset d k ∖ {[m]}) d
  | RPUSH k x => set_list k (rlist d k ++ [x]) d
  | LPUSH k x => set_list k (x :: rlist d k) d
  | LREM1 k x => set_list k (remove_first x (rlist d k)) d
  | LTRIM_LAST k n => set_list k (drop (length (rlist d k) - n) (rlist d k)) d
  | LMOVE_LR src dst =>
      match rlist d src with
      | [] => d
      | x :: l => let d' := set_list src l d in set_list dst (rlist d' dst ++ [x]) d'
      end
  | SETEX k v t => set_ttl k t (set_str k v d)
  | INCR k => match incremented d k with Some n => set_str k (itoa n) d | None => d end
  | HGET _ _ | HGETALL _ | EXISTS _ | SSCAN _ _ | LLEN _ | LRANGE _ _ _ | GET _
  | SCAN _ _ _ | PUBLISH _ _ => d
  end.

(** The documented reply; the two incremental iterators may return any batch of
    existing elements. *)
Definition db_reply (c : cmd) (d : rdb) (r : reply) : Prop :=
  match c with
  | HGET k f => r = match hash d k !! f with Some v => RStr v | None => RNil end
  | HGETALL k => r = RMap (hash d k)
  | EXISTS k => r = RInt (if key_exists d k then 1 else 0)
  | LREM1 k x => r = RInt (if bool_decide (x ∈ rlist d k) then 1 else 0)
  | LLEN k => r = RInt (Z.of_nat (length (rlist d k)))
  | LRANGE k a b => r = RArr (lrange (rlist d k) a b)
  | LMOVE_LR src _ => r = match rlist d src with [] => RNil | x :: _ => RStr x end
  | GET k => r = match db_strs d !! k with Some v => RStr v | None => RNil end
  | SSCAN k _ => ∃ l, r = RArr l ∧ ∀ x, x ∈ l → x ∈ rset d k
  | SCAN _ p _ => ∃ n l, r = RScan n l ∧ ∀ x, x ∈ l → HasPrefix x p = true ∧ key_exists d x = true
  | INCR k => match incremented d k with Some n => r = RInt n | None => ∃ e, r = RErr e end
  | _ => True
  end.

(** ** The server *)

Class RedisServer := {
  rstate : Type;
  exec : cmd → rstate → reply * rstate;
  view : rstate → rdb }.

Class RedisLaws (S : RedisServer) : Prop := {
  exec_eff c (r : rstate) : view (exec c r).2 = db_eff c (view r);
  exec_reply c (r : rstate) : db_reply c (view r) (exec c r).1 }.

(** ** A process and its connection *)

(** What can happen to a round trip: it completes, the request is lost, or the
    command runs and its reply is lost. *)
Inductive fault := NetOk | RequestLost | ReplyLost.

Section world.
Context `{S : RedisServer}.

Record world := mk_world {
  w_db : rstate;
  w_reg : registry;
  w_net : list fault;
  w_now : Z;
  w_zone : Z }.

Definition set_db (r : rstate) (w : world) : world :=
  mk_world r (w_reg w) (w_net w) (w_now w) (w_zone w).
Definition set_reg (g : registry) (w : world) : world :=
  mk_world (w_db w) g (w_net w) (w_now w) (w_zone w).
Definition set_net (n : list fault) (w : world) : world :=
  mk_world (w_db w) (w_reg w) n (w_now w) (w_zone w).

(** The abstract database a world is at. *)
Definition db (w : world) : rdb := view (w_db w).

(** [time.Now()] *)
Definition time_Now (w : world) : gotime := mk_time (w_now w) (w_zone w).

Definition next_fault (w : world) : fault := default NetOk (head (w_net w)).

Definition err_net : error := ENet "i/o timeout" [].

(** One round trip: [f] is a single command or a script run atomically by the
    server.  The schedule [w_net] says what happens to it; an exhausted schedule
    is a healthy network. *)
Definition roundtrip {A} (f : rstate → A * rstate) (w : world) : res A * world :=
  let w' := set_net (tail (w_net w)) w in
  match next_fault w with
  | NetOk => let '(a, r) := f (w_db w) in (Ok a, set_db r w')
  | RequestLost => (Err err_net, w')
  | ReplyLost => let '(_, r) := f (w_db w) in (Err err_net, set_db r w')
  end.

(** A command on its own. *)
Definition command (c : cmd) (w : world) : res reply * world := roundtrip (exec c) w.

(** [redisDo]: a round trip through the "redis" circuit breaker; the value is
    the one the closure captures. *)
Definition redisDo {A} (f : world → res A * world) (w : world) : res A * world :=
  let run (p : world * option A) :=
    match f p.1 with
    | (Ok a, w1) => (None, (w1, Some a))
    | (Err e, w1) => (Some e, (w1, None))
    end in
  let '(err, reg, (w1, got)) := Do (λ p, w_now p.1) "redis" run (w_reg w) (w, None) in
  (match err, got with
   | None, Some a => Ok a
   | Some e, _ => Err e
   | None, None => Err err_net
   end, set_reg reg w1).

(** ** Computations of a process: state passing with Go errors *)

Definition M (A : Type) : Type := world → res A * world.

#[export] Instance M_ret : MRet M := λ A a w, (Ok a, w).
#[export] Instance M_bind : MBind M := λ A B f m w,
  match m w with
  | (Ok a, w') => f a w'
  | (Err e, w') => (Err e, w')
  end.

(** Return an error. *)
Definition throw {A} (e : error) : M A := λ w, (Err e, w).

(** Run a computation and hand its result, error included, to the continuation
    ([if err := m(); err != nil]). *)
Definition attempt {A} (m : M A) : M (res A) := λ w, let '(r, w') := m w in (Ok r, w').

(** Run a best-effort computation and drop its result. *)
Definition ignore {A} (m : M A) : M unit := λ w, let '(_, w') := m w in (Ok tt, w').

(** [fmt.Errorf("prefix: %v", err)] *)
Definition errorf {A} (prefix : string) (m : M A) : M A := λ w,
  match m w with
  | (Ok a, w') => (Ok a, w')
  | (Err e, w') => (Err (ENew (prefix +:+ ": " +:+ Error e)), w')
  end.

Definition reading {A} (f : world → A) : M A := λ w, (Ok (f w), w).

(** ** Facts about the connection *)

Lemma roundtrip_reg {A} (f : rstate → A * rstate) w :
  w_reg (roundtrip f w).2 = w_reg w.
Proof. unfold roundtrip. destruct (next_fault w); simpl; by destruct (f (w_db w)). Qed.

(** Whatever the network does, a round trip either leaves the store alone and
    fails, or has exactly the effect of [f]. *)
Lemma roundtrip_cases {A} (f : rstate → A * rstate) w :
  (∃ e, (roundtrip f w).1 = Err e ∧ w_db (roundtrip f w).2 = w_db w) ∨
  (w_db (roundtrip f w).2 = (f (w_db w)).2 ∧
   ((roundtrip f w).1 = Ok (f (w_db w)).1 ∨ ∃ e, (roundtrip f w).1 = Err e)).
Proof.
  unfold roundtrip. destruct (next_fault w); simpl; destruct (f (w_db w)); simpl; eauto.
Qed.

(** A failing closure or an open breaker give an error; otherwise [redisDo] is
    the closure itself, apart from the breaker's bookkeeping. *)
Lemma redisDo_spec {A} (f : world → res A * world) w :
  (∃ reg, redisDo f w = (Err err_open, set_reg reg w)) ∨
  (∃ reg, redisDo f w = ((f w).1, set_reg reg (f w).2)).
Proof.
  unfold redisDo, Do.
  assert (Hf : ∀ reg,
    (let '(err, reg, (w1, got)) :=
       (let '(err, w0) := match f w with
         | (Ok a, w1) => (None, (w1, Some a))
         | (Err e, w1) => (Some e, (w1, None)) end in (err, reg, w0)) in
     (match err, got with None, Some a => Ok a | Some e, _ => Err e
      | None, None => Err err_net end, set_reg reg w1)) = ((f w).1, set_reg reg (f w).2)).
  { intros reg. by destruct (f w) as [[a|e] w1]. }
  destruct (w_reg w) as [m|]; simpl; [|right; eexists; apply Hf].
  destruct (m !! "redis") as [cb|]; [|right; eexists; apply Hf].
  unfold Call. simpl.
  destruct (enter (w_now w) cb) as [[[e|p] cb'] tr] eqn:Hadm.
  - left. eexists. assert (e = err_open) as -> by (unfold enter in Hadm; cb_cases; done).
    done.
  - right. destruct (f w) as [[a|e] w1]; cbn -[finish];
      match goal with |- context [finish ?n ?p ?b ?c] => destruct (finish n p b c) end;
      eexists; done.
Qed.

(** The effect on the store, seen through the interface. *)
Definition eff (c : cmd) (r : rstate) : rstate := (exec c r).2.

(** ** Healthy worlds: no scheduled fault, breaker closed or not installed *)

Definition breaker_closed (g : registry) : Prop :=
  match g with
  | None => True
  | Some m => ∀ cb, m !! "redis" = Some cb → cb_state cb = StateClosed
  end.

Definition healthy (w : world) : Prop := w_net w = [] ∧ breaker_closed (w_reg w).

Lemma roundtrip_healthy {A} (f : rstate → A * rstate) w :
  w_net w = [] → roundtrip f w = (Ok (f (w_db w)).1, set_db (f (w_db w)).2 w).
Proof.
  destruct w as [d g n t z]; simpl. intros ->. unfold roundtrip. simpl. by destruct (f d).
Qed.

(** A successful closure keeps the world healthy. *)
Lemma redisDo_healthy {A} (f : world → res A * world) w a r :
  healthy w → f w = (Ok a, set_db r w) →
  ∃ w', redisDo f w = (Ok a, w') ∧ healthy w' ∧ w_db w' = r ∧
        w_now w' = w_now w ∧ w_zone w' = w_zone w.
Proof.
  destruct w as [d g n t z]. intros [Hn Hb] Hf. simpl in *. subst n.
  unfold redisDo, Do. simpl.
  destruct g as [m|]; simpl; [|rewrite Hf; eexists; split_and!; done].
  destruct (m !! "redis") as [cb|] eqn:Hcb.
  - specialize (Hb cb Hcb). unfold Call. simpl.
    unfold enter. rewrite Hb. rewrite Hf. simpl.
    unfold recordSuccess. simpl. rewrite Hb. simpl.
    eexists. split; [reflexivity|]. split; [split; [done|]|done].
    simpl. intros cb' Hl. rewrite lookup_insert_eq in Hl. by simplify_eq.
  - rewrite Hf. eexists. split; [reflexivity|]. split; [split; [done|]|done].
    simpl. intros cb. by rewrite Hcb.
Qed.

Lemma healthy_set_db r w : healthy w → healthy (set_db r w).
Proof. done. Qed.

Section laws.
Context `{!RedisLaws S}.

Lemma view_eff c r : view (eff c r) = db_eff c (view r).
Proof. apply exec_eff. Qed.

End laws.

End world.

#[export] Hint Resolve healthy_set_db : morf.
#[global] Arguments world : clear implicits.
#[global] Arguments world {S} : rename.

(** ** An in-memory server *)

(** Replies of the deterministic commands; the iterators return everything. *)
Definition mem_reply (c : cmd) (d : rdb) : reply :=
  match c with
  | HGET k f => match hash d k !! f with Some v => RStr v | None => RNil end
  | HGETALL k => RMap (hash d k)
  | EXISTS k => RInt (if key_exists d k then 1 else 0)
  | LREM1 k x => RInt (if bool_decide (x ∈ rlist d k) then 1 else 0)
  | LLEN k => RInt (Z.of_nat (length (rlist d k)))
  | LRANGE k a b => RArr (lrange (rlist d k) a b)
  | LMOVE_LR src _ => match rlist d src with [] => RNil | x :: _ => RStr x end
  | GET k => match db_strs d !! k with Some v => RStr v | None => RNil end
  | SSCAN k _ => RArr (elements (rset d k))
  | SCAN _ p _ => RScan 0 (filter (λ k, HasPrefix k p = true) (elements (dom (db_hashes d))))
  | INCR k => match incremented d k with
              | Some n => RInt n
              | None => RErr "ERR value is not an integer or out of range"
              end
  | _ => RNil
  end.

#[export] Instance mem_server : RedisServer := {|
  rstate := rdb;
  exec c d := (mem_reply c d, db_eff c d);
  view d := d |}.

#[export] Instance mem_server_laws : RedisLaws mem_server.
Proof.
  split; [done|]. intros [] d; simpl; try done.
  - eexists; split; [done|]. intros x. by rewrite elem_of_elements.
  - do 2 eexists; split; [done|]. intros x. rewrite list_elem_of_filter, elem_of_elements.
    intros [Hp Hx]. split; [done|]. apply elem_of_dom in Hx. unfold key_exists.
    apply bool_decide_eq_true_2. eauto.
  - destruct (incremented d k); eauto.
Qed.

Definition mem_world (d : rdb) (net : list fault) (now : Z) : world :=
  mk_world d None net now 0.
