(* ===== verification/Wp.v ===== *)
(** * A small program logic for processes

    [wp m Q w]: running [m] from world [w] ends with a result and a world
    satisfying [Q].  The rules for a round trip come in two forms: for an
    arbitrary network, where the goal must be shown for every way the trip can
    fail, and for a healthy world, where it completes. *)
From S2P Require Import Prelude GoStr GoErr GoTime Breaker ScanJob Redis.

Local Open Scope Z_scope.

Section wp.
Context `{S : RedisServer} `{!RedisLaws S}.
Implicit Types w : world.

Definition wp {A} (m : M A) (Q : res A → world → Prop) (w : world) : Prop :=
  Q (m w).1 (m w).2.

(** Same clock and zone. *)
Definition same_clock (w w' : world) : Prop := w_now w' = w_now w ∧ w_zone w' = w_zone w.

#[export] Instance same_clock_preorder : PreOrder same_clock.
Proof. split; [done|]. intros w1 w2 w3 [? ?] [? ?]. split; congruence. Qed.

Lemma wp_elim {A} (m : M A) Q w r w' : wp m Q w → m w = (r, w') → Q r w'.
Proof. unfold wp. by intros H E; rewrite E in H. Qed.

Lemma wp_intro {A} (m : M A) (Q : res A → world → Prop) w :
  (∀ r w', m w = (r, w') → Q r w') → wp m Q w.
Proof. intros H. apply H. by destruct (m w). Qed.

Lemma wp_mono {A} (m : M A) (Q Q' : res A → world → Prop) w :
  (∀ r w', Q r w' → Q' r w') → wp m Q w → wp m Q' w.
Proof. intros H Hw. by apply H. Qed.

Lemma wp_ret {A} (a : A) (Q : res A → world → Prop) w : Q (Ok a) w → wp (mret a) Q w.
Proof. done. Qed.

Lemma wp_throw {A} (e : error) (Q : res A → world → Prop) w :
  Q (Err e) w → wp (throw e) Q w.
Proof. done. Qed.

Lemma wp_bind {A B} (m : M A) (f : A → M B) (Q : res B → world → Prop) w :
  wp m (λ r w', match r with Ok a => wp (f a) Q w' | Err e => Q (Err e) w' end) w →
  wp (m ≫= f) Q w.
Proof. unfold wp, mbind, M_bind. by destruct (m w) as [[a|e] w']. Qed.

Lemma wp_attempt {A} (m : M A) (Q : res (res A) → world → Prop) w :
  wp m (λ r w', Q (Ok r) w') w → wp (attempt m) Q w.
Proof. unfold wp, attempt. by destruct (m w). Qed.

Lemma wp_ignore {A} (m : M A) (Q : res unit → world → Prop) w :
  wp m (λ _ w', Q (Ok tt) w') w → wp (ignore m) Q w.
Proof. unfold wp, ignore. by destruct (m w). Qed.

Lemma wp_errorf {A} p (m : M A) (Q : res A → world → Prop) w :
  wp m (λ r w', match r with
                | Ok a => Q (Ok a) w'
                | Err e => Q (Err (ENew (p +:+ ": " +:+ Error e))) w'
                end) w →
  wp (errorf p m) Q w.
Proof. unfold wp, errorf. by destruct (m w) as [[a|e] w']. Qed.

Lemma wp_reading {A} (f : world → A) (Q : res A → world → Prop) w :
  Q (Ok (f w)) w → wp (reading f) Q w.
Proof. done. Qed.

(** ** Round trips on an arbitrary network *)

Lemma wp_roundtrip {A} (f : rstate → A * rstate) (Q : res A → world → Prop) w :
  (∀ w', db w' = db w → same_clock w w' → Q (Err err_net) w') →
  (∀ w', db w' = view (f (w_db w)).2 → same_clock w w' → Q (Err err_net) w') →
  (∀ w', db w' = view (f (w_db w)).2 → same_clock w w' → Q (Ok (f (w_db w)).1) w') →
  wp (roundtrip f) Q w.
Proof.
  intros H1 H2 H3. unfold wp, roundtrip.
  destruct (next_fault w); destruct (f (w_db w)) as [a r]; simpl in *;
    [apply H3|apply H1|apply H2]; done.
Qed.

Lemma wp_command c (Q : res reply → world → Prop) w :
  (∀ w', db w' = db w → same_clock w w' → Q (Err err_net) w') →
  (∀ w', db w' = db_eff c (db w) → same_clock w w' → Q (Err err_net) w') →
  (∀ p w', db w' = db_eff c (db w) → db_reply c (db w) p → same_clock w w' → Q (Ok p) w') →
  wp (command c) Q w.
Proof.
  intros H1 H2 H3. apply wp_roundtrip; [done| |].
  - intros w' Hd. rewrite exec_eff in Hd. auto.
  - intros w' Hd. rewrite exec_eff in Hd. apply H3; [done|]. apply exec_reply.
Qed.

Lemma wp_redisDo {A} (m : M A) (Q : res A → world → Prop) w :
  (∀ w', db w' = db w → same_clock w w' → Q (Err err_open) w') →
  wp m (λ r w', ∀ w'', db w'' = db w' → same_clock w' w'' → Q r w'') w →
  wp (redisDo m) Q w.
Proof.
  intros H1 H2. unfold wp in *.
  destruct (redisDo_spec m w) as [[reg ->]|[reg ->]]; simpl; [by apply H1 | by apply H2].
Qed.

(** ** Round trips in a healthy world *)

Lemma hwp_roundtrip {A} (f : rstate → A * rstate) (Q : res A → world → Prop) w :
  healthy w →
  (∀ w', healthy w' → same_clock w w' → db w' = view (f (w_db w)).2 →
         Q (Ok (f (w_db w)).1) w') →
  wp (roundtrip f) Q w.
Proof.
  intros Hh HQ. unfold wp. rewrite roundtrip_healthy by apply Hh. simpl. by apply HQ.
Qed.

Lemma hwp_command c (Q : res reply → world → Prop) w :
  healthy w →
  (∀ p w', healthy w' → same_clock w w' → db w' = db_eff c (db w) →
           db_reply c (db w) p → Q (Ok p) w') →
  wp (command c) Q w.
Proof.
  intros Hh HQ. apply hwp_roundtrip; [done|]. intros w' Hh' Hc Hd.
  rewrite exec_eff in Hd. apply HQ; auto. apply exec_reply.
Qed.

Lemma hwp_redisDo_roundtrip {A} (f : rstate → A * rstate) (Q : res A → world → Prop) w :
  healthy w →
  (∀ w', healthy w' → same_clock w w' → db w' = view (f (w_db w)).2 →
         Q (Ok (f (w_db w)).1) w') →
  wp (redisDo (roundtrip f)) Q w.
Proof.
  intros Hh HQ. unfold wp.
  destruct (redisDo_healthy (roundtrip f) w _ _ Hh (roundtrip_healthy f w (proj1 Hh)))
    as (w' & -> & Hh' & Hd & Ht & Hz).
  cbn [fst snd]. apply HQ; [done|done|]. unfold db. by rewrite Hd.
Qed.

Lemma hwp_redisDo_command c (Q : res reply → world → Prop) w :
  healthy w →
  (∀ p w', healthy w' → same_clock w w' → db w' = db_eff c (db w) →
           db_reply c (db w) p → Q (Ok p) w') →
  wp (redisDo (command c)) Q w.
Proof.
  intros Hh HQ. apply hwp_redisDo_roundtrip; [done|]. intros w' Hh' Hc Hd.
  rewrite exec_eff in Hd. apply HQ; auto. apply exec_reply.
Qed.

(** A closure of several healthy round trips inside one breaker call. *)
Lemma hwp_redisDo {A} (m : M A) (Q : res A → world → Prop) w :
  healthy w →
  wp m (λ r w', ∃ a, r = Ok a ∧ w_net w' = [] ∧
        ∀ w'', healthy w'' → same_clock w' w'' → db w'' = db w' → Q (Ok a) w'') w →
  wp (redisDo m) Q w.
Proof.
  intros [Hn Hb] Hm. unfold wp in *.
  destruct (m w) as [r w1] eqn:Em; simpl in *. destruct Hm as (a & -> & Hn1 & HQ).
  unfold redisDo, Do.
  destruct (w_reg w) as [mm|] eqn:Hreg; simpl; [|rewrite Em; simpl; by apply HQ].
  destruct (mm !! "redis") as [cb|] eqn:Hcb.
  - specialize (Hb cb Hcb). unfold Call. cbn -[enter finish].
    unfold enter. rewrite Hb, Em. cbn. unfold recordSuccess. rewrite Hb. cbn.
    apply HQ; [|done|done]. split; [done|]. cbn. intros cb'.
    rewrite lookup_insert_eq. by intros; simplify_eq/=.
  - rewrite Em; simpl. apply HQ; [|done|done]. split; [done|]. simpl.
    intros cb. by rewrite Hcb.
Qed.

End wp.

(** Strip the pure structure of a computation down to its round trips. *)
Ltac wp_pure :=
  repeat first
    [ apply wp_bind | apply wp_ret | apply wp_throw | apply wp_attempt | apply wp_ignore
    | apply wp_errorf | apply wp_reading ].
