(* ===== verification/Cache.v ===== *)
(** * The result cache ([utils/cache.go])

    Metadata and package data cached in Redis by the hash of the file, with a
    counter of pattern versions in the keys: bumping it hides every older entry.
    Each pod keeps its own copy of the counter.  JSON encoding, the Redis URL parser
    and the connection test are parameters. *)
From Stdlib Require Import Ascii ZArith.
From S2P Require Import Prelude GoStr GoErr GoTime Breaker Redis.

Local Open Scope Z_scope.

(** ** Keys *)

Definition metadataCachePrefix : string := "morf:metadata:".
Definition packageDataCachePrefix : string := "morf:package_data:".
Definition patternVersionKey : string := "morf:pattern_version".
Definition cacheInvalidateChannel : string := "morf:cache:invalidate".
Definition invalidateAllSentinel : string := "*".

(** Seven days, in seconds. *)
Definition metadataCacheTTL : Z := 7 * 24 * 3600.

(** ** A pod

    The package variables: the client, if any, the enabled flag, the local copy of
    the counter; and the clients that were closed. *)
Record pod := mk_pod {
  redisClient : option nat; cacheEnabled : bool; patternVersion : Z; closed : list nat }.

Definition set_version (v : Z) (p : pod) : pod := mk_pod (redisClient p) (cacheEnabled p) v (closed p).
Definition close_client (c : nat) (p : pod) : pod :=
  mk_pod (redisClient p) (cacheEnabled p) (patternVersion p) (c :: closed p).

Definition getRedisClient (p : pod) : option nat := redisClient p.

(** The previous client and the pod with the new one. *)
Definition setRedisClient (client : option nat) (enabled : bool) (p : pod) : option nat * pod :=
  (redisClient p, mk_pod client enabled (patternVersion p) (closed p)).

Definition IsCacheEnabled (p : pod) : bool := cacheEnabled p && bool_decide (is_Some (redisClient p)).

Definition metadataKey (p : pod) (apkHash : string) : string :=
  metadataCachePrefix +:+ "v" +:+ itoa (patternVersion p) +:+ ":" +:+ apkHash.
Definition packageDataKey (apkHash : string) : string := packageDataCachePrefix +:+ apkHash.

Section cache.
Context `{S : RedisServer}.

(** ** The counter *)

Definition err_reply : error := ENew "redis: unexpected reply".

(** The closure of [loadPatternVersion]; an absent key is version 0. *)
Definition fetch_version (w : world) : res Z * world :=
  match command (GET patternVersionKey) w with
  | (Ok RNil, w) => (Ok 0, w)
  | (Ok (RStr s), w) =>
      match Atoi s with
      | Some v => (Ok v, w)
      | None => (Err (ENew ("strconv.ParseInt: parsing " +:+ s)), w)
      end
  | (Ok _, w) => (Err err_reply, w)
  | (Err e, w) => (Err e, w)
  end.

Definition loadPatternVersion (p : pod) (w : world) : Z * pod * world :=
  match getRedisClient p with
  | None => (0, p, w)
  | Some _ =>
      match redisDo fetch_version w with
      | (Err _, w) => (patternVersion p, p, w)
      | (Ok v, w) => (v, set_version v p, w)
      end
  end.

Definition RefreshPatternVersion (p : pod) (w : world) : Z * pod * world := loadPatternVersion p w.

(** One tick of [StartPatternVersionRefresher]. *)
Definition refresher_tick (p : pod) (w : world) : pod * world :=
  match getRedisClient p with
  | None => (p, w)
  | Some _ => let '(_, p, w) := loadPatternVersion p w in (p, w)
  end.

(** ** Start-up *)

Definition InitCache {opt} (ParseURL : string → res opt) (NewClient : opt → nat) (ping : nat → res unit)
    (redisURL : string) (p : pod) (w : world) : option error * pod * world :=
  if decide (redisURL = "") then (None, (setRedisClient None false p).2, w)
  else match ParseURL redisURL with
  | Err e => (Some e, (setRedisClient None false p).2, w)
  | Ok opt =>
      let newClient := NewClient opt in
      match ping newClient with
      | Err e => (Some e, (setRedisClient None false (close_client newClient p)).2, w)
      | Ok _ =>
          let '(prev, p) := setRedisClient (Some newClient) true p in
          let p := match prev with Some c => close_client c p | None => p end in
          let '(_, p, w) := loadPatternVersion p w in (None, p, w)
      end
  end.

Definition InitCacheFromClient (ping : nat → res unit) (client : option nat) (p : pod) (w : world) : pod * world :=
  match client with
  | None => ((setRedisClient None false p).2, w)
  | Some client =>
      match ping client with
      | Err _ => ((setRedisClient None false p).2, w)
      | Ok _ =>
          let '(prev, p) := setRedisClient (Some client) true p in
          let p := match prev with Some c => close_client c p | None => p end in
          let '(_, p, w) := loadPatternVersion p w in (p, w)
      end
  end.

(** ** Reading and writing entries *)

(** The closure of a read: [None] is a miss. *)
Definition fetch (key : string) (w : world) : res (option string) * world :=
  match command (GET key) w with
  | (Ok RNil, w) => (Ok None, w)
  | (Ok (RStr s), w) => (Ok (Some s), w)
  | (Ok _, w) => (Err err_reply, w)
  | (Err e, w) => (Err e, w)
  end.

Definition GetMetadataFromCache {A} (unmarshal : string → option A) (apkHash : string) (p : pod) (w : world)
    : option A * pod * world :=
  match getRedisClient p with
  | None => (None, p, w)
  | Some _ =>
      match redisDo (fetch (metadataKey p apkHash)) w with
      | (Ok None, w) => let '(_, p, w) := loadPatternVersion p w in (None, p, w)
      | (Ok (Some data), w) => (unmarshal data, p, w)
      | (Err _, w) => (None, p, w)
      end
  end.

Definition SetMetadataInCache {A} (marshal : A → res string) (apkHash : string) (metadata : A) (p : pod) (w : world)
    : option error * pod * world :=
  match getRedisClient p with
  | None => (None, p, w)
  | Some _ =>
      match marshal metadata with
      | Err e => (Some (ENew ("failed to marshal metadata: " +:+ Error e)), p, w)
      | Ok data =>
          match redisDo (command (SETEX (metadataKey p apkHash) data metadataCacheTTL)) w with
          | (Err e, w) => (Some e, p, w)
          | (Ok _, w) => (None, p, w)
          end
      end
  end.

Definition GetPackageDataFromCache {A} (unmarshal : string → option A) (apkHash : string) (p : pod) (w : world)
    : option A * pod * world :=
  match getRedisClient p with
  | None => (None, p, w)
  | Some _ =>
      match redisDo (fetch (packageDataKey apkHash)) w with
      | (Ok (Some data), w) => (unmarshal data, p, w)
      | (_, w) => (None, p, w)
      end
  end.

Definition SetPackageDataInCache {A} (marshal : A → res string) (apkHash : string) (packageData : A) (p : pod)
    (w : world) : option error * pod * world :=
  match getRedisClient p with
  | None => (None, p, w)
  | Some _ =>
      match marshal packageData with
      | Err e => (Some (ENew ("failed to marshal package data: " +:+ Error e)), p, w)
      | Ok data =>
          match redisDo (command (SETEX (packageDataKey apkHash) data metadataCacheTTL)) w with
          | (Err e, w) => (Some e, p, w)
          | (Ok _, w) => (None, p, w)
          end
      end
  end.

(** ** Invalidation *)

Definition publishInvalidation (key : string) (p : pod) (w : world) : world :=
  match getRedisClient p with
  | None => w
  | Some _ => (redisDo (command (PUBLISH cacheInvalidateChannel key)) w).2
  end.

Definition bump (w : world) : res Z * world :=
  match command (INCR patternVersionKey) w with
  | (Ok (RInt v), w) => (Ok v, w)
  | (Ok (RErr e), w) => (Err (ENew e), w)
  | (Ok _, w) => (Err err_reply, w)
  | (Err e, w) => (Err e, w)
  end.

Definition InvalidateAllMetadataCache (p : pod) (w : world) : option error * pod * world :=
  match getRedisClient p with
  | None => (None, p, w)
  | Some _ =>
      match redisDo bump w with
      | (Err e, w) => (Some e, p, w)
      | (Ok v, w) =>
          let p := set_version v p in
          (None, p, publishInvalidation invalidateAllSentinel p w)
      end
  end.

(** One message of [StartCacheInvalidationSubscriber]'s loop. *)
Definition handleInvalidationMessage (payload : string) (p : pod) (w : world) : pod * world :=
  if decide (payload = invalidateAllSentinel)
  then let '(_, p, w) := loadPatternVersion p w in (p, w)
  else (p, w).

End cache.

(** ** Pods that share a server *)

(** The key of an entry stored under version [v]. *)
Definition entry_key (v : Z) (apkHash : string) : string :=
  metadataCachePrefix +:+ "v" +:+ itoa v +:+ ":" +:+ apkHash.

Lemma entry_key_inj v v' h h' : entry_key v h = entry_key v' h' → v = v' ∧ h = h'.
Proof.
  unfold entry_key. intros E. injection E as E.
  pose proof (scan_signed_sep v ":"%char h eq_refl) as H1. pose proof (scan_signed_sep v' ":"%char h' eq_refl) as H2.
  change (":" +:+ ?x) with (String ":" x) in E. rewrite E, H2 in H1. by injection H1 as <- <-.
Qed.

Lemma entry_key_version v h : entry_key v h ≠ patternVersionKey.
Proof. done. Qed.

Section coherence.
Context `{S : RedisServer} `{!RedisLaws S} {A : Type} (marshal : A → res string) (unmarshal : string → option A).

(** What a closure run through the breaker does, when it succeeds and in any case. *)
Lemma redisDo_Ok {B} (f : world → res B * world) w b w' : redisDo f w = (Ok b, w') →
  (f w).1 = Ok b ∧ w_db w' = w_db (f w).2.
Proof. intros E. by destruct (redisDo_spec f w) as [[reg Hr]|[reg Hr]]; rewrite E in Hr; simplify_eq. Qed.

Lemma redisDo_db {B} (f : world → res B * world) w :
  w_db (redisDo f w).2 = w_db w ∨ w_db (redisDo f w).2 = w_db (f w).2.
Proof. destruct (redisDo_spec f w) as [[reg ->]|[reg ->]]; auto. Qed.

Lemma command_cases c w :
  ((command c w).1 = Ok (exec c (w_db w)).1 ∧ w_db (command c w).2 = eff c (w_db w)) ∨
  ((∃ e, (command c w).1 = Err e) ∧ (w_db (command c w).2 = w_db w ∨ w_db (command c w).2 = eff c (w_db w))).
Proof.
  unfold command, eff. destruct (roundtrip_cases (exec c) w) as [(e & He & Hd)|(Hd & [Ho|(e & He)])]; eauto.
Qed.

(** A read leaves the database as it is. *)
Lemma command_read c w : (∀ d, db_eff c d = d) → db (command c w).2 = db w.
Proof.
  intros Hc. unfold db. destruct (command_cases c w) as [[_ ->]|[_ [->| ->]]]; rewrite ?view_eff, ?Hc; done.
Qed.

Lemma fetch_version_db w : db (fetch_version w).2 = db w.
Proof.
  unfold fetch_version. pose proof (command_read (GET patternVersionKey) w (λ _, eq_refl)) as Hd.
  destruct (command _ w) as [[[]|] w']; try exact Hd. cbn in *. by destruct (Atoi s).
Qed.

Lemma redisDo_read {B} (f : world → res B * world) w : db (f w).2 = db w → db (redisDo f w).2 = db w.
Proof. intros Hf. unfold db in *. by destruct (redisDo_db f w) as [->| ->]. Qed.

Lemma load_db p w : db (loadPatternVersion p w).2 = db w.
Proof.
  unfold loadPatternVersion. destruct (getRedisClient p); [|done].
  pose proof (redisDo_read fetch_version w (fetch_version_db w)). by destruct (redisDo _ w) as [[v|e] w'].
Qed.

(** The counter as a fetch reads it. *)
Lemma fetch_version_Ok w v : (fetch_version w).1 = Ok v → ∀ n, counter (db w) patternVersionKey = Some n → v = n.
Proof.
  unfold fetch_version, counter. intros Hf n. pose proof (exec_reply (GET patternVersionKey) (w_db w)) as Hr. cbn in Hr.
  fold (db w) in Hr. destruct (command_cases (GET patternVersionKey) w) as [[Hc _]|[[e He] _]];
    destruct (command _ w) as [[x|] w']; cbn in *; try done.
  injection Hc as ->. rewrite Hr in Hf. destruct (db_strs (db w) !! patternVersionKey) as [s|]; [|by injection Hf as <-; intros [= <-]].
  destruct (Atoi s) as [k|]; [|done]. injection Hf as <-. case_decide; [|done]. by intros [= <-].
Qed.

Lemma load_version p w n : counter (db w) patternVersionKey = Some n →
  let p' := (loadPatternVersion p w).1.2 in
  redisClient p' = redisClient p ∧ (patternVersion p' = patternVersion p ∨ patternVersion p' = n).
Proof.
  intros Hn. unfold loadPatternVersion. destruct (getRedisClient p); [|auto].
  destruct (redisDo fetch_version w) as [[v|e] w'] eqn:E; cbn; [|auto].
  apply redisDo_Ok in E as [E _]. split; [done|]. right. by eapply fetch_version_Ok.
Qed.

(** A stored entry: the version of its key, the counter when it was stored, the hash
    and the metadata. *)
Record entry := mk_entry { e_version : Z; e_counter : Z; e_hash : string; e_data : A }.

(** The server, the pods, and what was ever handed to [SetMetadataInCache]. *)
Record sys := mk_sys { s_srv : rstate; s_pods : list pod; s_hist : list entry }.

Definition counter_of (s : sys) : Z := default 0 (counter (view (s_srv s)) patternVersionKey).

(** A pod acts in a world of its own (breaker, network, clock) over the shared
    server.  Messages may be lost, duplicated or late; entries may expire; other
    clients leave the cache's keys alone; pods start with version 0. *)
Inductive cstep (s : sys) : sys → Prop :=
  | c_get i p w h r p' w' :
      s_pods s !! i = Some p → w_db w = s_srv s →
      GetMetadataFromCache unmarshal h p w = (r, p', w') →
      cstep s (mk_sys (w_db w') (<[i := p']> (s_pods s)) (s_hist s))
  | c_set i p w h m r p' w' :
      s_pods s !! i = Some p → w_db w = s_srv s →
      SetMetadataInCache marshal h m p w = (r, p', w') →
      cstep s (mk_sys (w_db w') (<[i := p']> (s_pods s))
        (mk_entry (patternVersion p) (counter_of s) h m :: s_hist s))
  | c_invalidate i p w r p' w' :
      s_pods s !! i = Some p → w_db w = s_srv s →
      InvalidateAllMetadataCache p w = (r, p', w') →
      cstep s (mk_sys (w_db w') (<[i := p']> (s_pods s)) (s_hist s))
  | c_message i p w payload p' w' :
      s_pods s !! i = Some p → w_db w = s_srv s →
      handleInvalidationMessage payload p w = (p', w') →
      cstep s (mk_sys (w_db w') (<[i := p']> (s_pods s)) (s_hist s))
  | c_tick i p w p' w' :
      s_pods s !! i = Some p → w_db w = s_srv s →
      refresher_tick p w = (p', w') →
      cstep s (mk_sys (w_db w') (<[i := p']> (s_pods s)) (s_hist s))
  | c_join c : cstep s (mk_sys (s_srv s) (s_pods s ++ [mk_pod c true 0 []]) (s_hist s))
  | c_other r :
      db_strs (view r) !! patternVersionKey = db_strs (view (s_srv s)) !! patternVersionKey →
      (∀ v h d, db_strs (view r) !! entry_key v h = Some d → db_strs (view (s_srv s)) !! entry_key v h = Some d) →
      cstep s (mk_sys r (s_pods s) (s_hist s)).

(** The pods' versions never exceed the counter, and an entry under a version was
    stored under it, when the counter had reached it. *)
Record coherent (s : sys) : Prop := {
  co_counter : ∃ n, counter (view (s_srv s)) patternVersionKey = Some n ∧ 0 ≤ n;
  co_pods : Forall (λ p, 0 ≤ patternVersion p ≤ counter_of s) (s_pods s);
  co_entries : ∀ v h d, db_strs (view (s_srv s)) !! entry_key v h = Some d →
    ∃ m c, mk_entry v c h m ∈ s_hist s ∧ marshal m = Ok d ∧ v ≤ c ≤ counter_of s }.

Lemma metadataKey_entry p h : metadataKey p h = entry_key (patternVersion p) h.
Proof. done. Qed.

(** A pod that acts without touching the cache's keys keeps the system coherent, as
    long as its version stays in range. *)
Lemma coherent_quiet s i p p' r :
  coherent s → view r = view (s_srv s) → s_pods s !! i = Some p → 0 ≤ patternVersion p' ≤ counter_of s →
  coherent (mk_sys r (<[i := p']> (s_pods s)) (s_hist s)).
Proof.
  intros [Hc Hp He] Hv Hi Hp'. unfold counter_of in *. split; unfold counter_of; cbn; rewrite ?Hv; [done| |done].
  by apply Forall_insert.
Qed.

Lemma pod_range s i p : coherent s → s_pods s !! i = Some p → 0 ≤ patternVersion p ≤ counter_of s.
Proof. intros Hs Hi. exact (Forall_lookup_1 _ _ _ _ (co_pods s Hs) Hi). Qed.

Lemma load_range s p w : coherent s → w_db w = s_srv s → 0 ≤ patternVersion p ≤ counter_of s →
  0 ≤ patternVersion (loadPatternVersion p w).1.2 ≤ counter_of s.
Proof.
  intros Hs Hw Hp. destruct (co_counter s Hs) as (n & Hn & H0). unfold counter_of in *. rewrite Hn in *.
  destruct (load_version p w n) as [_ [-> | ->]]; [unfold db; by rewrite Hw|done|cbn; lia].
Qed.

Lemma coherent_load s i p w : coherent s → s_pods s !! i = Some p → w_db w = s_srv s →
  coherent (mk_sys (w_db (loadPatternVersion p w).2) (<[i := (loadPatternVersion p w).1.2]> (s_pods s)) (s_hist s)).
Proof.
  intros Hs Hi Hw. apply (coherent_quiet s i p); [done| |done|].
  - pose proof (load_db p w) as E. unfold db in E. by rewrite E, Hw.
  - apply load_range; [done..|]. by eapply pod_range.
Qed.

Lemma fetch_db key w : db (fetch key w).2 = db w.
Proof.
  unfold fetch. pose proof (command_read (GET key) w (λ _, eq_refl)) as Hd. by destruct (command _ w) as [[[]|] w'].
Qed.

(** What a read finds is in the database. *)
Lemma fetch_Ok key w d : (fetch key w).1 = Ok (Some d) → db_strs (db w) !! key = Some d.
Proof.
  unfold fetch. intros Hf. pose proof (exec_reply (GET key) (w_db w)) as Hr. cbn in Hr. fold (db w) in Hr.
  destruct (command_cases (GET key) w) as [[Hc _]|[[e He] _]]; destruct (command _ w) as [[x|] w']; cbn in *; try done.
  injection Hc as ->. rewrite Hr in Hf. destruct (db_strs (db w) !! key); [|done]. by injection Hf as ->.
Qed.

(** The effect of a store, whether it arrives or not. *)
Lemma coherent_store s i p h m r : coherent s → s_pods s !! i = Some p →
  view r = view (s_srv s) ∨
  (∃ d, marshal m = Ok d ∧ view r = db_eff (SETEX (metadataKey p h) d metadataCacheTTL) (view (s_srv s))) →
  coherent (mk_sys r (<[i := p]> (s_pods s)) (mk_entry (patternVersion p) (counter_of s) h m :: s_hist s)).
Proof.
  intros Hs Hi Hr. pose proof (pod_range s i p Hs Hi) as Hrange. destruct Hs as [Hc Hp He].
  assert (Hstr : ∀ k, k ≠ metadataKey p h → db_strs (view r) !! k = db_strs (view (s_srv s)) !! k).
  { intros k Hk. destruct Hr as [-> | (d & _ & ->)]; [done|]. cbn. by rewrite lookup_insert_ne. }
  assert (Hcnt : counter (view r) patternVersionKey = counter (view (s_srv s)) patternVersionKey).
  { unfold counter. by rewrite (Hstr patternVersionKey). }
  assert (Hold : ∀ v h' d', db_strs (view (s_srv s)) !! entry_key v h' = Some d' →
    ∃ m' c, mk_entry v c h' m' ∈ mk_entry (patternVersion p) (counter_of s) h m :: s_hist s ∧ marshal m' = Ok d' ∧ v ≤ c ≤ counter_of s).
  { intros v h' d' Hd'. destruct (He _ _ _ Hd') as (m' & c & ? & ?). exists m', c.
    split; [by apply list_elem_of_further|done]. }
  unfold counter_of in *. split; unfold counter_of; cbn [s_srv s_pods s_hist]; rewrite ?Hcnt; [done|by apply Forall_insert|].
  intros v h' d' Hd'. destruct (decide (entry_key v h' = metadataKey p h)) as [E|E]; [|rewrite Hstr in Hd' by done; by apply Hold].
  rewrite metadataKey_entry in E, Hr. destruct Hr as [Hr|(d & Hm & Hr)]; [rewrite Hr in Hd'; by apply Hold|].
  rewrite E, Hr in Hd'. cbn in Hd'. rewrite lookup_insert_eq in Hd'. injection Hd' as <-.
  apply entry_key_inj in E as [-> ->]. exists m. eexists. split_and!; [apply list_elem_of_here|done| |done]. lia.
Qed.

Lemma incremented_Some d k n : incremented d k = Some n → counter d k = Some (n - 1).
Proof. unfold incremented. destruct (counter d k) as [m|]; [|done]. case_match; [|done]. intros [= <-]. f_equal. lia. Qed.

Lemma counter_range d k n : counter d k = Some n → in_int64 n.
Proof.
  unfold counter. destruct (db_strs d !! k) as [s|]; [|intros [= <-]; by split; vm_compute].
  unfold Atoi. destruct (scan_signed s) as [[m []]|]; try done. destruct (fits_int64 m) eqn:E; [|done].
  case_decide; [|done]. intros [= <-]. unfold fits_int64 in E. apply andb_true_iff in E as [?%Z.leb_le ?%Z.leb_le]. by split.
Qed.

(** Bumping the counter: it grows by one or not at all. *)
Lemma bump_eff d n : counter d patternVersionKey = Some n →
  let d' := db_eff (INCR patternVersionKey) d in
  (∀ k, k ≠ patternVersionKey → db_strs d' !! k = db_strs d !! k) ∧
  (counter d' patternVersionKey = Some n ∨ counter d' patternVersionKey = Some (n + 1)) ∧
  (∀ v, incremented d patternVersionKey = Some v → v = n + 1 ∧ counter d' patternVersionKey = Some (n + 1)).
Proof.
  intros Hn. cbv zeta. cbn. destruct (incremented d patternVersionKey) as [v|] eqn:E; [|split_and!; [done|by left|done]].
  assert (Hv : v = n + 1) by (apply incremented_Some in E; rewrite Hn in E; injection E as E; lia). subst v.
  assert (Hc : counter (set_str patternVersionKey (itoa (n + 1)) d) patternVersionKey = Some (n + 1)).
  { unfold counter. cbn. rewrite lookup_insert_eq, Atoi_itoa; [by rewrite decide_True|].
    unfold incremented in E. rewrite Hn in E. destruct (Z.ltb_spec n int64_max); [|done].
    apply counter_range in Hn. unfold in_int64 in *. lia. }
  split_and!; [|right; exact Hc|intros ? [= <-]; split; [done|exact Hc]]. intros k Hk. cbn. by rewrite lookup_insert_ne.
Qed.

Lemma bump_db w : db (bump w).2 = db w ∨ db (bump w).2 = db_eff (INCR patternVersionKey) (db w).
Proof.
  unfold bump, db. rewrite <- view_eff.
  destruct (command_cases (INCR patternVersionKey) w) as [[_ Hd]|[_ [Hd|Hd]]];
    destruct (command _ w) as [[[]|] w']; cbn in *; rewrite Hd; auto.
Qed.

Lemma bump_Ok w v : (bump w).1 = Ok v →
  incremented (db w) patternVersionKey = Some v ∧ db (bump w).2 = db_eff (INCR patternVersionKey) (db w).
Proof.
  unfold bump, db. rewrite <- view_eff. intros Hf. pose proof (exec_reply (INCR patternVersionKey) (w_db w)) as Hr. cbn in Hr.
  destruct (command_cases (INCR patternVersionKey) w) as [[Hc Hd]|[[e He] _]];
    destruct (command _ w) as [[x|] w']; cbn in *; try done.
  injection Hc as ->. destruct (incremented _ _) as [n|].
  - rewrite Hr in Hf |- *. cbn. rewrite Hd. by injection Hf as ->.
  - destruct Hr as [e Hr]. by rewrite Hr in Hf.
Qed.

Lemma publish_db key p w : db (publishInvalidation key p w) = db w.
Proof.
  unfold publishInvalidation. destruct (getRedisClient p); [|done].
  apply (redisDo_read (command (PUBLISH cacheInvalidateChannel key))). by apply command_read.
Qed.

(** The database and the version an invalidation leaves. *)
Lemma invalidate_spec p w n : counter (db w) patternVersionKey = Some n →
  let '(r, p', w') := InvalidateAllMetadataCache p w in
  (db w' = db w ∨ db w' = db_eff (INCR patternVersionKey) (db w)) ∧
  (patternVersion p' = patternVersion p ∨
   patternVersion p' = n + 1 ∧ counter (db w') patternVersionKey = Some (n + 1)) ∧
  (r = None → is_Some (redisClient p) → patternVersion p' = n + 1 ∧ counter (db w') patternVersionKey = Some (n + 1)).
Proof.
  intros Hn. unfold InvalidateAllMetadataCache, getRedisClient. destruct (redisClient p) as [c|] eqn:Ec.
  - pose proof (redisDo_db bump w) as Hdb. destruct (redisDo bump w) as [[v|e] w1] eqn:E.
    + apply redisDo_Ok in E as [E Hw]. apply bump_Ok in E as [Hv Hd]. rewrite publish_db. unfold db in *.
      destruct (bump_eff _ n Hn) as (_ & _ & Hi). destruct (Hi v Hv) as [-> Hc]. rewrite Hw, Hd.
      split_and!; [by right|by right|]. by split.
    + split_and!; [|by left|done]. cbn in Hdb. unfold db. destruct Hdb as [-> | ->]; [by left|apply bump_db].
  - split_and!; [by left|by left|]. by intros _ [? ?].
Qed.

Lemma coherent_invalidate s i p w r p' w' :
  coherent s → s_pods s !! i = Some p → w_db w = s_srv s → InvalidateAllMetadataCache p w = (r, p', w') →
  coherent (mk_sys (w_db w') (<[i := p']> (s_pods s)) (s_hist s)).
Proof.
  intros Hs Hi Hw E. pose proof (pod_range s i p Hs Hi) as Hp. destruct (co_counter s Hs) as (n & Hn & H0).
  assert (Hdb : db w = view (s_srv s)) by (unfold db; by rewrite Hw).
  pose proof (invalidate_spec p w n) as Hspec. rewrite Hdb, E in Hspec. destruct (Hspec Hn) as (Hd & Hv & _).
  destruct (bump_eff _ n Hn) as (Hstr & Hc & _). unfold db in *.
  assert (Hc' : counter (view (w_db w')) patternVersionKey = Some n ∨ counter (view (w_db w')) patternVersionKey = Some (n + 1)).
  { destruct Hd as [-> | ->]; [by left|done]. }
  assert (Hstr' : ∀ k, k ≠ patternVersionKey → db_strs (view (w_db w')) !! k = db_strs (view (s_srv s)) !! k).
  { intros k Hk. destruct Hd as [-> | ->]; [done|by apply Hstr]. }
  destruct Hs as [_ Hpods He]. unfold counter_of in *. rewrite Hn in *. cbn in *.
  assert (Hn' : ∃ n', counter (view (w_db w')) patternVersionKey = Some n' ∧ n ≤ n' ∧ patternVersion p' ≤ n').
  { destruct Hv as [Hv|[Hv Hcv]]; [|exists (n + 1); split_and!; [done|lia|lia]].
    destruct Hc' as [Hc'|Hc']; eexists; (split_and!; [exact Hc'|lia|lia]). }
  destruct Hn' as (n' & Hn' & Hle & Hp'). split; unfold counter_of; cbn; rewrite ?Hn'; cbn.
  - exists n'. split; [done|lia].
  - apply Forall_insert; [|split; [|done]; destruct Hv as [->|[-> _]]; lia].
    eapply Forall_impl; [exact Hpods|]. cbn. intros q [??]. lia.
  - intros v h d Hd'. rewrite Hstr' in Hd' by apply entry_key_version.
    destruct (He v h d Hd') as (m & c & ? & ? & ?). exists m, c. split_and!; [done|done|lia|lia].
Qed.

Lemma cstep_coherent s s' : coherent s → cstep s s' → coherent s'.
Proof.
  intros Hs Hstep. destruct Hstep as
    [i p w h r p' w' Hi Hw E|i p w h m r p' w' Hi Hw E|i p w r p' w' Hi Hw E|i p w payload p' w' Hi Hw E|i p w p' w' Hi Hw E|c|r Hc Hent].
  - unfold GetMetadataFromCache in E. destruct (getRedisClient p).
    2: { simplify_eq. rewrite Hw. by apply (coherent_quiet s i p'); [..|eapply pod_range]. }
    pose proof (redisDo_read (fetch (metadataKey p h)) w (fetch_db _ w)) as Hdb.
    destruct (redisDo _ w) as [[[d|]|e] w1]; simplify_eq; unfold db in Hdb; cbn in Hdb; rewrite Hw in Hdb.
    + by apply (coherent_quiet s i p'); [..|eapply pod_range].
    + destruct (loadPatternVersion p w1) as [[v q] w2] eqn:El. simplify_eq.
      pose proof (coherent_load (mk_sys (w_db w1) (s_pods s) (s_hist s)) i p w1) as Hl. rewrite El in Hl. cbn in Hl.
      apply Hl; [|done|done]. rewrite <- (list_insert_id (s_pods s) i p Hi).
      by apply (coherent_quiet s i p); [..|eapply pod_range].
    + by apply (coherent_quiet s i p'); [..|eapply pod_range].
  - unfold SetMetadataInCache in E. destruct (getRedisClient p).
    2: { simplify_eq. rewrite Hw. apply coherent_store; auto. }
    destruct (marshal m) as [d|e] eqn:Em; [|simplify_eq; rewrite Hw; apply coherent_store; auto].
    destruct (redisDo_db (command (SETEX (metadataKey p h) d metadataCacheTTL)) w) as [Hd|Hd];
      destruct (redisDo _ w) as [[a|e] w1]; simplify_eq; cbn [snd] in Hd; rewrite Hd.
    1, 2: rewrite Hw; apply coherent_store; auto.
    1, 2: apply coherent_store; [done|done|].
    1, 2: destruct (command_cases (SETEX (metadataKey p' h) d metadataCacheTTL) w) as [[_ ->]|[_ [-> | ->]]];
      rewrite ?view_eff, Hw; eauto.
  - by eapply coherent_invalidate.
  - unfold handleInvalidationMessage in E. case_decide; simplify_eq.
    + destruct (loadPatternVersion p w) as [[v q] w2] eqn:El. simplify_eq.
      pose proof (coherent_load s i p w Hs Hi Hw) as Hl. by rewrite El in Hl.
    + rewrite Hw. by apply (coherent_quiet s i p'); [..|eapply pod_range].
  - unfold refresher_tick in E. destruct (getRedisClient p); simplify_eq.
    + destruct (loadPatternVersion p w) as [[v q] w2] eqn:El. simplify_eq.
      pose proof (coherent_load s i p w Hs Hi Hw) as Hl. by rewrite El in Hl.
    + rewrite Hw. by apply (coherent_quiet s i p'); [..|eapply pod_range].
  - destruct Hs as [[n [Hn H0]] Hp He]. split; [by exists n| |done].
    apply Forall_app. split; [exact Hp|]. constructor; [|done].
    unfold counter_of. cbn [s_srv patternVersion]. rewrite Hn. cbn. lia.
  - destruct Hs as [[n [Hn H0]] Hp He].
    assert (Hcnt : counter (view r) patternVersionKey = counter (view (s_srv s)) patternVersionKey) by (unfold counter; by rewrite Hc).
    unfold counter_of in *. split; unfold counter_of; cbn; rewrite ?Hcnt; [by exists n|done|].
    intros v h d Hd. by apply He, Hent.
Qed.

(** A hit never crosses an invalidation.  Pods share the cache over any network
    and any breaker, entries may expire and messages be lost; from any coherent start,
    a hit of a pod whose version is [v] returns the decoded data of some earlier
    [SetMetadataInCache] for that very hash under version [v], and when that entry
    was stored the counter had already reached [v].  So once a pod has seen the
    counter after an invalidation, no entry stored before the invalidation is served
    to it; and a pod whose own invalidation succeeds has seen it. *)
Theorem hits_respect_versions (s s' : sys) :
  coherent s → rtc cstep s s' →
  (∀ i p w h m, s_pods s' !! i = Some p → w_db w = s_srv s' →
     (GetMetadataFromCache unmarshal h p w).1.1 = Some m →
     ∃ m0 c d, mk_entry (patternVersion p) c h m0 ∈ s_hist s' ∧ patternVersion p ≤ c ∧
       marshal m0 = Ok d ∧ unmarshal d = Some m) ∧
  (∀ i p w p' w', s_pods s' !! i = Some p → w_db w = s_srv s' → is_Some (redisClient p) →
     InvalidateAllMetadataCache p w = (None, p', w') → patternVersion p' = counter_of s' + 1).
Proof.
  intros Hs Hsteps. assert (Hs' : coherent s').
  { induction Hsteps as [|x y z Hxy _ IH]; [done|]. apply IH. by eapply cstep_coherent. }
  split.
  - intros i p w h m Hi Hw Hm. unfold GetMetadataFromCache in Hm. destruct (getRedisClient p); [|done].
    destruct (redisDo (fetch (metadataKey p h)) w) as [[[d|]|e] w1] eqn:E; [|by destruct (loadPatternVersion p w1) as [[??]?]|done].
    apply redisDo_Ok in E as [E _]. apply fetch_Ok in E. unfold db in E. rewrite Hw, metadataKey_entry in E.
    destruct (co_entries s' Hs' _ _ _ E) as (m0 & c & ? & ? & ? & _). exists m0, c, d. done.
  - intros i p w p' w' Hi Hw Hc E. destruct (co_counter s' Hs') as (n & Hn & _).
    pose proof (invalidate_spec p w n) as Hspec. unfold db in Hspec. rewrite Hw, E in Hspec.
    destruct (Hspec Hn) as (_ & _ & Hv). unfold counter_of. rewrite Hn. by apply Hv.
Qed.

End coherence.

(** ** Instances *)

#[local] Notation echo := (λ s : string, Ok s).
#[local] Notation read_back := (λ s : string, Some s).
#[local] Notation on d := (mem_world d [] 0).
#[local] Notation fresh_pod := (mk_pod (Some 1%nat) true 0 []).
#[local] Notation start := (mk_sys (S := mem_server) empty_rdb [fresh_pod; fresh_pod] []).
#[local] Notation stored := (SetMetadataInCache (S := mem_server) echo "sha" "report" fresh_pod (on empty_rdb)).
#[local] Notation after_store :=
  (mk_sys (S := mem_server) (w_db stored.2) (<[0%nat := stored.1.2]> [fresh_pod; fresh_pod]) [mk_entry 0 0 "sha" "report"]).

Lemma hits_respect_versions_witness :
  coherent (S := mem_server) echo start ∧
  rtc (cstep (S := mem_server) echo read_back) start after_store ∧
  (GetMetadataFromCache (S := mem_server) read_back "sha" fresh_pod (on (w_db stored.2))).1.1 = Some "report" ∧
  ∃ m0 c d, mk_entry 0 c "sha" m0 ∈ [mk_entry 0 0 "sha" "report"] ∧ 0 ≤ c ∧ Ok (A := string) m0 = Ok d ∧ Some d = Some "report".
Proof.
  assert (Hs : coherent (S := mem_server) echo start).
  { split; [by exists 0| |done]. repeat constructor; done. }
  assert (Hr : rtc (cstep (S := mem_server) echo read_back) start after_store).
  { apply rtc_once, (c_set (S := mem_server) echo read_back start 0 fresh_pod (on empty_rdb) "sha" "report" stored.1.1); [done|done|].
    by destruct stored as [[??]?]. }
  assert (Hget : (GetMetadataFromCache (S := mem_server) read_back "sha" fresh_pod (on (w_db stored.2))).1.1 = Some "report") by by vm_compute.
  split_and!; [exact Hs|exact Hr|exact Hget|].
  destruct (hits_respect_versions (S := mem_server) echo read_back start after_store Hs Hr) as [Hhit _].
  exact (Hhit 1%nat fresh_pod (on (w_db stored.2)) "sha" "report" eq_refl eq_refl Hget).
Defined.

(** ** Behaviours worth knowing *)

(** The version of a key is read when the result is stored, not when the scan
    starts: a scan that was under way during an invalidation stores its result, made
    with the old patterns, under the new version, where every pod finds it. *)
Example stale_scan_cached :
  let w0 := on empty_rdb in
  let '(miss, scanner, w1) := GetMetadataFromCache read_back "sha" fresh_pod w0 in
  let '(err, editor, w2) := InvalidateAllMetadataCache fresh_pod w1 in
  let '(scanner, w3) := handleInvalidationMessage invalidateAllSentinel scanner w2 in
  let '(err', scanner, w4) := SetMetadataInCache echo "sha" "made with the old patterns" scanner w3 in
  miss = None ∧ err = None ∧ patternVersion editor = 1 ∧ err' = None ∧
  (GetMetadataFromCache (S := mem_server) read_back "sha" editor w4).1.1 = Some "made with the old patterns".
Proof. vm_compute. done. Qed.

(** Within a pod a refresh that has read the old counter may store it after an
    invalidation has stored the new one: the version goes back, and hidden entries
    are served again until the next refresh. *)
Example version_goes_back :
  let '(_, p, w1) := SetMetadataInCache echo "sha" "old" fresh_pod (on empty_rdb) in
  let '(fetched, w2) := fetch_version w1 in
  let '(err, p, w3) := InvalidateAllMetadataCache p w2 in
  err = None ∧ (GetMetadataFromCache (S := mem_server) read_back "sha" p w3).1.1 = None ∧
  match fetched with
  | Ok v => (GetMetadataFromCache (S := mem_server) read_back "sha" (set_version v p) w3).1.1 = Some "old"
  | Err _ => False
  end.
Proof. vm_compute. done. Qed.

(** A failing initialisation drops the client it replaces without closing it. *)
Example replaced_client_not_closed :
  let '(_, p, w) := InitCache (λ url, Ok url) (λ _, 7%nat) (λ _, Ok tt) "redis://a" (mk_pod None false 0 []) (on empty_rdb) in
  let p' := (InitCacheFromClient (λ _, Err (ENew "i/o timeout")) (Some 8%nat) p w).1 in
  redisClient p = Some 7%nat ∧ redisClient p' = None ∧ closed p' = [].
Proof. vm_compute. done. Qed.
