(* ===== verification/Queue.v ===== *)
(** * The job queue ([queue/queue.go])

    Every operation of [JobQueue], over an arbitrary Redis server that obeys the
    documented semantics of the commands and a network on which any round trip
    may fail.  The Lua scripts are translated command by command and run as one
    round trip. *)
From S2P Require Import Prelude GoStr GoErr GoTime Breaker ScanJob Redis.

Local Open Scope Z_scope.

(** ** Keys *)

Definition jobKey (id : string) : string := "morf:jobs:" +:+ id.
Definition statusKey (s : string) : string := "morf:jobs:status:" +:+ s.
Definition jobQueueKey : string := "morf:job_queue".
Definition dlqKey : string := "morf:dlq".
Definition processingKey (workerID : string) : string := "morf:processing:" +:+ workerID.
Definition jobLeaseKey (jobID : string) : string := "morf:jobs:lease:" +:+ jobID.
Definition workerKeyPrefix : string := "morf:workers:".
Definition workerKey (workerID : string) : string := workerKeyPrefix +:+ workerID.
Definition webhookDLQKey : string := "morf:webhook_dlq".
Definition webhookDLQMaxLen : nat := 1000.

(** Seven days, in seconds. *)
Definition jobTTL : Z := 7 * 24 * 3600.
Definition jobLeaseTTL : Z := 2 * 3600.

(** ** Lua scripts *)

Section scripts.
Context `{S : RedisServer}.

Definition enqueueScript (jobID : string) (key skey : string) (h : gmap string string)
    (r : rstate) : reply * rstate :=
  let r := eff (HSET key h) r in
  let r := eff (SADD skey jobID) r in
  let r := eff (EXPIRE key jobTTL) r in
  let r := eff (RPUSH jobQueueKey jobID) r in
  (RInt 1, r).

(** [tonumber] of an integer reply. *)
Definition reply_int (p : reply) : Z := match p with RInt z => z | _ => 0 end.

Definition enqueueWithLimitScript (jobID : string) (key skey : string)
    (h : gmap string string) (limit count : Z) (r : rstate) : reply * rstate :=
  let publish r := (RInt 1, (enqueueScript jobID key skey h r).2) in
  if 0 <? limit then
    let '(depth, r) := exec (LLEN jobQueueKey) r in
    if limit <? reply_int depth + count then (RInt 0, r) else publish r
  else publish r.

Definition moveToDLQScript (jobID : string) (r : rstate) : reply * rstate :=
  let r := eff (LPUSH dlqKey jobID) r in
  let r := eff (SREM (statusKey "queued") jobID) r in
  let r := eff (SREM (statusKey "processing") jobID) r in
  let r := eff (SREM (statusKey "failed") jobID) r in
  (RInt 1, r).

Definition retryDLQRemoveScript (jobID : string) (r : rstate) : reply * rstate :=
  let '(removed, r) := exec (LREM1 dlqKey jobID) r in
  if reply_int removed =? 0 then (RInt 0, r) else (RInt 1, r).

Definition cancelJobScript (jobID : string) (cancelled failed_at msg : string)
    (r : rstate) : reply * rstate :=
  let key := jobKey jobID in
  let '(ex, r) := exec (EXISTS key) r in
  if reply_int ex =? 0 then (RInt 0, r) else
  let '(st, r) := exec (HGET key "status") r in
  let st_is s := match st with RStr t => bool_decide (t = s) | _ => false end in
  if negb (st_is "queued") && negb (st_is "processing") then (RInt (-1), r) else
  let r := eff (HSET key (<["status" := cancelled]> (<["failed_at" := failed_at]>
                         (<["error" := msg]> ∅)))) r in
  let r := eff (SREM (statusKey "queued") jobID) r in
  let r := eff (SREM (statusKey "processing") jobID) r in
  let r := eff (SADD (statusKey "cancelled") jobID) r in
  let r := if st_is "queued" then eff (LREM1 jobQueueKey jobID) r else r in
  (RInt 1, r).

End scripts.

(** ** Operations *)

Section queue.
Context `{S : RedisServer} {codec : MapCodec}.

Definition CreateJob (job : ScanJob) : M unit :=
  _ ← errorf "failed to create job" (command (HSET (jobKey (ID job)) (hash_of job)));
  _ ← errorf "failed to add to status set" (command (SADD (statusKey (Status job)) (ID job)));
  ignore (command (EXPIRE (jobKey (ID job)) jobTTL)).

Definition EnqueueJobAtomic (job : ScanJob) : M unit :=
  _ ← errorf "failed to atomically enqueue job"
        (redisDo (roundtrip (enqueueScript (ID job) (jobKey (ID job))
                               (statusKey (Status job)) (hash_of job))));
  mret tt.

Definition EnqueueJobAtomicWithLimit (job : ScanJob) (limit count : Z) : M unit :=
  admitted ← errorf "failed to atomically enqueue job"
        (redisDo (roundtrip (enqueueWithLimitScript (ID job) (jobKey (ID job))
                               (statusKey (Status job)) (hash_of job) limit count)));
  if reply_int admitted =? 0 then throw (ESentinel ErrQueueFull) else mret tt.

Definition PushJob (jobID : string) : M unit :=
  _ ← redisDo (command (RPUSH jobQueueKey jobID)); mret tt.

(** Not run through the breaker; an empty queue is [ErrNoJob]. *)
Definition PopJobReliable (workerID : string) : M string :=
  p ← command (LMOVE_LR jobQueueKey (processingKey workerID));
  match p with
  | RStr jobID => mret jobID
  | _ => throw (ESentinel ErrNoJob)
  end.

Definition AckJob (workerID jobID : string) : M unit :=
  _ ← redisDo (command (LREM1 (processingKey workerID) jobID)); mret tt.

(** Two round trips inside one breaker call: the removal, and the push only when
    the removal found the job. *)
Definition RequeueProcessing (workerID jobID : string) : M unit :=
  redisDo (
    n ← errorf "failed to remove from processing list"
          (command (LREM1 (processingKey workerID) jobID));
    if reply_int n =? 0 then mret tt
    else _ ← errorf "failed to requeue job" (command (RPUSH jobQueueKey jobID)); mret tt).

Definition GetJob (jobID : string) : M ScanJob :=
  p ← errorf "failed to get job" (redisDo (command (HGETALL (jobKey jobID))));
  match p with
  | RMap h => if decide (h = ∅) then throw (ENew ("job not found: " +:+ jobID))
              else mret (read_hash h)
  | _ => throw (ENew ("job not found: " +:+ jobID))
  end.

Definition isTerminalStatus (s : string) : bool :=
  bool_decide (s ∈ [JobStatusCompleted; JobStatusFailed; JobStatusCancelled]).

Definition nonTerminalStatuses : list string := [JobStatusQueued; JobStatusProcessing].

(** The value of an ignored-error [HGet]. *)
Definition str_or_empty (r : res reply) : string :=
  match r with Ok (RStr s) => s | _ => "" end.

Fixpoint for_each {A} (f : A → M unit) (l : list A) : M unit :=
  match l with
  | [] => mret tt
  | x :: l' => _ ← f x; for_each f l'
  end.

Definition UpdateJob (job : ScanJob) : M unit :=
  let key := jobKey (ID job) in
  old ← attempt (command (HGET key "status"));
  let oldStatus := str_or_empty old in
  _ ← errorf "failed to update job" (redisDo (command (HSET key (hash_of job))));
  _ ← ignore (command (EXPIRE key jobTTL));
  _ ← (if nonempty oldStatus && negb (bool_decide (oldStatus = Status job)) then
         _ ← ignore (command (SREM (statusKey oldStatus) (ID job)));
         ignore (command (SADD (statusKey (Status job)) (ID job)))
       else mret tt);
  if isTerminalStatus (Status job)
  then for_each (λ st, ignore (command (SREM (statusKey st) (ID job)))) nonTerminalStatuses
  else mret tt.

Definition MoveToDLQ (jobID : string) : M unit :=
  _ ← errorf "failed to move to DLQ" (redisDo (roundtrip (moveToDLQScript jobID)));
  mret tt.

Definition SetJobPhase (jobID phase : string) : M unit :=
  _ ← command (HSET (jobKey jobID) {["phase" := phase]}); mret tt.

Definition RegisterWorker (workerID : string) : M unit :=
  now ← reading time_Now;
  _ ← command (HSET (workerKey workerID)
        (<["id" := workerID]> (<["started_at" := Format now]>
        (<["last_heartbeat" := Format now]> ∅))));
  mret tt.

Definition UnregisterWorker (workerID : string) : M unit :=
  _ ← command (DEL (workerKey workerID)); mret tt.

Definition UpdateWorkerHeartbeat (workerID : string) : M unit :=
  now ← reading time_Now;
  _ ← command (HSET (workerKey workerID) {["last_heartbeat" := Format now]});
  mret tt.

Definition GetQueueDepth : M Z :=
  p ← redisDo (command (LLEN jobQueueKey)); mret (reply_int p).

Definition GetDLQDepth : M Z :=
  p ← redisDo (command (LLEN dlqKey)); mret (reply_int p).

Definition reply_arr (p : reply) : list string := match p with RArr l => l | _ => [] end.

Definition GetDLQJobsPage (offset limit : Z) : M (list string) :=
  let offset := if offset <? 0 then 0 else offset in
  if limit <=? 0 then mret []
  else
    p ← redisDo (command (LRANGE dlqKey offset (wrap64 (offset + limit - 1))));
    mret (reply_arr p).

(** The reset [RetryDLQJob] applies to a dead-lettered job. *)
Definition reset_job (j : ScanJob) : ScanJob :=
  mk_job (ID j) JobStatusQueued (APKPath j) (FileType j) (OriginalFilename j) (CreatedAt j)
    None (CompletedAt j) None "" (Phase j) (Result j) "" 0 (WebhookURL j)
    (WebhookSecret j) (ScanTimeout j) (StorageKey j) (RequestID j) (TraceContext j).

Definition RetryDLQJob (jobID : string) : M unit :=
  removed ← errorf "failed to remove from DLQ"
              (redisDo (roundtrip (retryDLQRemoveScript jobID)));
  if reply_int removed =? 0 then throw (ENew ("job not found in DLQ: " +:+ jobID)) else
  job ← errorf "failed to get job" (GetJob jobID);
  errorf "failed to re-enqueue job" (EnqueueJobAtomic (reset_job job)).

Definition CancelJob (jobID : string) : M unit :=
  now ← reading time_Now;
  p ← errorf "failed to cancel job"
        (redisDo (roundtrip (cancelJobScript jobID JobStatusCancelled (Format now)
                               "Job cancelled by user")));
  if reply_int p =? 0 then throw (ENew ("job not found: " +:+ jobID))
  else if reply_int p =? -1
  then throw (ENew "cannot cancel job: not in a queued or processing state")
  else mret tt.

(** *** Leases *)

Definition SetJobLease (jobID workerID : string) : M unit :=
  _ ← redisDo (command (SETEX (jobLeaseKey jobID) workerID jobLeaseTTL)); mret tt.

(** The boolean and the error of [CheckJobLease]; it fails open. *)
Definition CheckJobLease (jobID workerID : string) : world → bool * option error * world :=
  λ w, match redisDo (command (GET (jobLeaseKey jobID))) w with
       | (Err e, w) => (true, Some e, w)
       | (Ok p, w) =>
           let owner := match p with RStr s => s | _ => "" end in
           ((if decide (owner = "") then true else bool_decide (owner = workerID)), None, w)
       end.

Definition ClearJobLease (jobID : string) : M unit :=
  ignore (command (DEL (jobLeaseKey jobID))).

(** *** Status-set maintenance and the webhook dead-letter list *)

Definition terminalJobStatuses : list string := ["completed"; "failed"; "cancelled"].

Definition trim_member (setKey id : string) : M unit :=
  n ← attempt (command (EXISTS (jobKey id)));
  match n with
  | Ok p => if reply_int p =? 0 then ignore (command (SREM setKey id)) else mret tt
  | Err _ => mret tt
  end.

Definition TrimTerminalStatusSets : M unit :=
  for_each (λ status,
    ids ← command (SSCAN (statusKey status) 256);
    for_each (trim_member (statusKey status)) (reply_arr ids)) terminalJobStatuses.

Record FailedWebhook := mk_failed_webhook {
  FW_JobID : string; FW_WebhookURL : string; FW_JobStatus : string; FW_Error : string;
  FW_RecordedAt : Z }.

(** [json.Marshal] of the record is an argument. *)
Definition RecordFailedWebhook (marshal : FailedWebhook → res string) (rec : FailedWebhook)
    : M unit :=
  b ← errorf "failed to marshal webhook DLQ record" (λ w, (marshal rec, w));
  _ ← errorf "failed to record failed webhook" (command (RPUSH webhookDLQKey b));
  ignore (command (LTRIM_LAST webhookDLQKey webhookDLQMaxLen)).

Definition GetWebhookDLQDepth : M Z :=
  p ← command (LLEN webhookDLQKey); mret (reply_int p).

Definition GetWebhookDLQPage (offset limit : Z) : M (list string) :=
  let limit := if limit <=? 0 then 50 else limit in
  p ← command (LRANGE webhookDLQKey offset (wrap64 (offset + limit - 1)));
  mret (reply_arr p).

End queue.
