(* ===== verification/QueueSpec.v ===== *)
(** * What the job queue guarantees

    The abstract reliable FIFO queue and the refinement of its operations by
    [JobQueue]; conservation of jobs on an unreliable network; the admission
    bound; the bookkeeping of the status sets; cancellation and the dead-letter
    queue. *)
From S2P Require Import Prelude GoStr GoErr GoTime Breaker ScanJob Redis Wp Queue.

Local Open Scope Z_scope.

(** ** Database algebra *)

Section db_facts.
Implicit Types d : rdb.

Lemma put_eq {A} b k (v e : A) m : (b = true → v = e) → default e (put b k v m !! k) = v.
Proof.
  unfold put. destruct b; intros He; rewrite ?lookup_delete_eq, ?lookup_insert_eq; simpl; auto.
  by rewrite He.
Qed.

Lemma put_ne {A} b k k' (v : A) m : k ≠ k' → put b k v m !! k' = m !! k'.
Proof. unfold put. destruct b; intros; by rewrite ?lookup_delete_ne, ?lookup_insert_ne. Qed.

Lemma rlist_set_list_eq k l d : rlist (set_list k l d) k = l.
Proof. apply put_eq. by case_bool_decide. Qed.

Lemma rlist_set_list_ne k k' l d : k ≠ k' → rlist (set_list k l d) k' = rlist d k'.
Proof. intros. unfold rlist, set_list; simpl. by rewrite put_ne. Qed.

Lemma rset_set_set_eq k s d : rset (set_set k s d) k = s.
Proof. apply put_eq. by case_bool_decide. Qed.

Lemma rset_set_set_ne k k' s d : k ≠ k' → rset (set_set k s d) k' = rset d k'.
Proof. intros. unfold rset, set_set; simpl. by rewrite put_ne. Qed.

Lemma hash_set_hash_eq k h d : hash (set_hash k h d) k = h.
Proof. unfold hash, set_hash; simpl. by rewrite lookup_insert_eq. Qed.

Lemma hash_set_hash_ne k k' h d : k ≠ k' → hash (set_hash k h d) k' = hash d k'.
Proof. intros. unfold hash, set_hash; simpl. by rewrite lookup_insert_ne. Qed.

(** Observations of one kind do not see updates of another. *)
Lemma rlist_set_hash k h d k' : rlist (set_hash k h d) k' = rlist d k'.
Proof. done. Qed.
Lemma rlist_set_set k s d k' : rlist (set_set k s d) k' = rlist d k'.
Proof. done. Qed.
Lemma rlist_set_ttl k t d k' : rlist (set_ttl k t d) k' = rlist d k'.
Proof. done. Qed.
Lemma rset_set_hash k h d k' : rset (set_hash k h d) k' = rset d k'.
Proof. done. Qed.
Lemma rset_set_list k l d k' : rset (set_list k l d) k' = rset d k'.
Proof. done. Qed.
Lemma rset_set_ttl k t d k' : rset (set_ttl k t d) k' = rset d k'.
Proof. done. Qed.
Lemma hash_set_list k l d k' : hash (set_list k l d) k' = hash d k'.
Proof. done. Qed.
Lemma hash_set_set k s d k' : hash (set_set k s d) k' = hash d k'.
Proof. done. Qed.
Lemma hash_set_ttl k t d k' : hash (set_ttl k t d) k' = hash d k'.
Proof. done. Qed.

(** [EXPIRE] is invisible to the three observations. *)
Lemma expire_obs k t d :
  (∀ k', rlist (db_eff (EXPIRE k t) d) k' = rlist d k') ∧
  (∀ k', rset (db_eff (EXPIRE k t) d) k' = rset d k') ∧
  (∀ k', hash (db_eff (EXPIRE k t) d) k' = hash d k').
Proof. simpl. split_and!; intros; by case_match. Qed.

End db_facts.

(** ** Keys *)

Lemma queue_ne_processing wk : jobQueueKey ≠ processingKey wk.
Proof. done. Qed.
Lemma processing_ne_queue wk : processingKey wk ≠ jobQueueKey.
Proof. done. Qed.
Lemma dlq_ne_queue : dlqKey ≠ jobQueueKey.
Proof. done. Qed.
Lemma queue_ne_dlq : jobQueueKey ≠ dlqKey.
Proof. done. Qed.
Lemma dlq_ne_processing wk : dlqKey ≠ processingKey wk.
Proof. done. Qed.
Lemma processing_ne_dlq wk : processingKey wk ≠ dlqKey.
Proof. done. Qed.

#[export] Instance processingKey_inj : Inj (=) (=) processingKey.
Proof. intros a b. unfold processingKey. apply (inj (String.append _)). Qed.
#[export] Instance jobKey_inj : Inj (=) (=) jobKey.
Proof. intros a b. unfold jobKey. apply (inj (String.append _)). Qed.
#[export] Instance statusKey_inj : Inj (=) (=) statusKey.
Proof. intros a b. unfold statusKey. apply (inj (String.append _)). Qed.

#[export] Hint Resolve queue_ne_processing processing_ne_queue dlq_ne_queue queue_ne_dlq
  dlq_ne_processing processing_ne_dlq : morf.

Create Rewrite HintDb rdb.
#[export] Hint Rewrite rlist_set_list_eq rset_set_set_eq hash_set_hash_eq
  rlist_set_hash rlist_set_set rlist_set_ttl rset_set_hash rset_set_list rset_set_ttl
  hash_set_list hash_set_set hash_set_ttl : rdb.
#[export] Hint Rewrite rlist_set_list_ne rset_set_set_ne hash_set_hash_ne
  using (solve [auto with morf | congruence]) : rdb.

(** The abstract queue: the waiting jobs, the dead letters, and each worker's
    in-flight jobs. *)
Record aqueue := mk_aq {
  a_main : list string;
  a_dlq : list string;
  a_proc : string → list string }.

#[export] Instance aqueue_equiv : Equiv aqueue := λ p q,
  a_main p = a_main q ∧ a_dlq p = a_dlq q ∧ ∀ wk, a_proc p wk = a_proc q wk.

#[export] Instance aqueue_equivalence : Equivalence (≡@{aqueue}).
Proof.
  split.
  - intros p. done.
  - intros p q (?&?&?). split_and!; auto.
  - intros p q r (?&?&?) (?&?&?). split_and!; try congruence; etrans; eauto.
Qed.

(** The operations of a reliable queue. *)
Inductive qop :=
  | OpEnqueue (job : ScanJob)
  | OpPush (jobID : string)
  | OpPop (wk : string)
  | OpAck (wk jobID : string)
  | OpRequeue (wk jobID : string)
  | OpDead (jobID : string).

Definition upd_proc (wk : string) (l : list string) (q : aqueue) : aqueue :=
  mk_aq (a_main q) (a_dlq q) (λ wk', if decide (wk = wk') then l else a_proc q wk').

(** The abstract step: the job handed out by a pop, and the next state. *)
Definition a_step (op : qop) (q : aqueue) : option string * aqueue :=
  match op with
  | OpEnqueue job => (None, mk_aq (a_main q ++ [ID job]) (a_dlq q) (a_proc q))
  | OpPush j => (None, mk_aq (a_main q ++ [j]) (a_dlq q) (a_proc q))
  | OpPop wk =>
      match a_main q with
      | [] => (None, q)
      | j :: l => (Some j, upd_proc wk (a_proc q wk ++ [j]) (mk_aq l (a_dlq q) (a_proc q)))
      end
  | OpAck wk j => (None, upd_proc wk (remove_first j (a_proc q wk)) q)
  | OpRequeue wk j =>
      if decide (j ∈ a_proc q wk)
      then (None, upd_proc wk (remove_first j (a_proc q wk))
                    (mk_aq (a_main q ++ [j]) (a_dlq q) (a_proc q)))
      else (None, q)
  | OpDead j => (None, mk_aq (a_main q) (j :: a_dlq q) (a_proc q))
  end.

Fixpoint a_run (ops : list qop) (q : aqueue) : list (option string) * aqueue :=
  match ops with
  | [] => ([], q)
  | op :: ops' => let '(o, q') := a_step op q in
                  let '(os, q'') := a_run ops' q' in (o :: os, q'')
  end.

Lemma upd_proc_proper wk l p q : p ≡ q → upd_proc wk l p ≡ upd_proc wk l q.
Proof.
  intros (Hm & Hd & Hp). split_and!; simpl; try done. intros wk'. by case_decide.
Qed.

Lemma a_step_proper op p q :
  p ≡ q → (a_step op p).1 = (a_step op q).1 ∧ (a_step op p).2 ≡ (a_step op q).2.
Proof.
  intros Hpq. pose proof Hpq as (Hm & Hd & Hp).
  destruct op as [job|j|wk|wk j|wk j|j]; simpl; rewrite <- ?Hm, <- ?Hd, <- ?Hp;
    try case_match; try case_decide; (split; [done|]);
    first [apply upd_proc_proper | idtac]; done.
Qed.

(** ** The implementation of the abstract operations *)

Section refinement.
Context `{S : RedisServer} `{!RedisLaws S} {codec : MapCodec}.
Implicit Types w : world.

(** The abstract queue a database represents. *)
Definition absq (d : rdb) : aqueue :=
  mk_aq (rlist d jobQueueKey) (rlist d dlqKey) (λ wk, rlist d (processingKey wk)).

(** The call behind each abstract operation; an empty queue is not a failure. *)
Definition run_op (op : qop) : M (option string) :=
  match op with
  | OpEnqueue job => _ ← EnqueueJobAtomic job; mret None
  | OpPush j => _ ← PushJob j; mret None
  | OpPop wk =>
      r ← attempt (PopJobReliable wk);
      match r with
      | Ok j => mret (Some j)
      | Err e => if errors_Is e ErrNoJob then mret None else throw e
      end
  | OpAck wk j => _ ← AckJob wk j; mret None
  | OpRequeue wk j => _ ← RequeueProcessing wk j; mret None
  | OpDead j => _ ← MoveToDLQ j; mret None
  end.

Fixpoint run_ops (ops : list qop) : M (list (option string)) :=
  match ops with
  | [] => mret []
  | op :: ops' => o ← run_op op; os ← run_ops ops'; mret (o :: os)
  end.

(** Equality of the three observations the abstraction makes. *)
Lemma absq_equiv d d' : (∀ k, rlist d k = rlist d' k) → absq d ≡ absq d'.
Proof. intros H. split_and!; simpl; auto. Qed.

Lemma absq_set_main l d :
  absq (set_list jobQueueKey l d) ≡ mk_aq l (a_dlq (absq d)) (a_proc (absq d)).
Proof. split_and!; simpl; intros; by autorewrite with rdb. Qed.

Lemma absq_set_dlq l d :
  absq (set_list dlqKey l d) ≡ mk_aq (a_main (absq d)) l (a_proc (absq d)).
Proof. split_and!; simpl; intros; by autorewrite with rdb. Qed.

Lemma absq_set_proc wk l d :
  absq (set_list (processingKey wk) l d) ≡ upd_proc wk l (absq d).
Proof.
  split_and!; simpl; intros; autorewrite with rdb; try done.
  case_decide as Hwk; [subst; by autorewrite with rdb|].
  apply rlist_set_list_ne. intros ?%(inj processingKey). done.
Qed.

(** The scripts, seen through the interface. *)
Definition expire_db (k : string) (d : rdb) : rdb := db_eff (EXPIRE k jobTTL) d.

Lemma view_enqueueScript id key skey h r :
  let d1 := set_hash key (h ∪ hash (view r) key) (view r) in
  let d2 := set_set skey ({[id]} ∪ rset d1 skey) d1 in
  let d3 := db_eff (EXPIRE key jobTTL) d2 in
  view (enqueueScript id key skey h r).2 = set_list jobQueueKey (rlist d3 jobQueueKey ++ [id]) d3.
Proof. cbv zeta. unfold enqueueScript. cbn [snd]. by rewrite !view_eff. Qed.

Lemma absq_enqueueScript job r :
  absq (view (enqueueScript (ID job) (jobKey (ID job)) (statusKey (Status job)) (hash_of job) r).2)
  ≡ (a_step (OpEnqueue job) (absq (view r))).2.
Proof.
  rewrite view_enqueueScript, absq_set_main.
  set (d2 := set_set _ _ _).
  destruct (expire_obs (jobKey (ID job)) jobTTL d2) as (Hl & _ & _).
  split_and!; cbn [absq a_main a_dlq a_proc a_step snd]; intros; rewrite ?Hl; done.
Qed.

Lemma absq_moveToDLQScript j r :
  absq (view (moveToDLQScript j r).2) ≡ (a_step (OpDead j) (absq (view r))).2.
Proof.
  unfold moveToDLQScript. cbn [snd]. rewrite !view_eff. cbn [db_eff].
  change (absq (set_list dlqKey (j :: rlist (view r) dlqKey) (view r)) ≡
    (a_step (OpDead j) (absq (view r))).2).
  apply absq_set_dlq.
Qed.

Lemma absq_pop wk d :
  absq (db_eff (LMOVE_LR jobQueueKey (processingKey wk)) d) ≡ (a_step (OpPop wk) (absq d)).2.
Proof.
  simpl. destruct (rlist d jobQueueKey) as [|x l] eqn:Hl; [done|].
  rewrite absq_set_proc. autorewrite with rdb. apply upd_proc_proper. apply absq_set_main.
Qed.

Lemma absq_ack wk j d :
  absq (db_eff (LREM1 (processingKey wk) j) d) ≡ (a_step (OpAck wk j) (absq d)).2.
Proof. apply absq_set_proc. Qed.

Lemma absq_push j d :
  absq (db_eff (RPUSH jobQueueKey j) d) ≡ (a_step (OpPush j) (absq d)).2.
Proof. apply absq_set_main. Qed.

(** A requeue that found nothing changed nothing; one that did, pushes. *)
Lemma absq_requeue_miss wk j d :
  j ∉ rlist d (processingKey wk) →
  absq (db_eff (LREM1 (processingKey wk) j) d) ≡ absq d.
Proof.
  intros Hj. rewrite absq_ack. split_and!; simpl; try done. intros wk'.
  case_decide; [subst; by rewrite remove_first_notin|done].
Qed.

Lemma absq_requeue_hit wk j d :
  j ∈ rlist d (processingKey wk) →
  absq (db_eff (RPUSH jobQueueKey j) (db_eff (LREM1 (processingKey wk) j) d)) ≡
  (a_step (OpRequeue wk j) (absq d)).2.
Proof.
  intros Hj. rewrite absq_push. simpl a_step. rewrite decide_True by done. simpl.
  autorewrite with rdb. destruct (absq_ack wk j d) as (Hm & Hd & Hp). simpl in *.
  by split_and!.
Qed.

Definition failed {A} (r : res A) : Prop := is_ok r = false.

(** What a call may do on an arbitrary network. *)
Definition op_outcome (op : qop) (w : world) (r : res (option string)) (w' : world) : Prop :=
  (absq (db w') ≡ absq (db w) ∧ failed r) ∨
  (absq (db w') ≡ (a_step op (absq (db w))).2 ∧
   (r = Ok (a_step op (absq (db w))).1 ∨ failed r)) ∨
  (∃ wk j, op = OpRequeue wk j ∧ failed r ∧
           absq (db w') ≡ (a_step (OpAck wk j) (absq (db w))).2).

(** An operation made of one round trip [m], whose effect is the abstract step. *)
Lemma outcome_one op {A} (m : M A) w :
  wp m (λ r w', (absq (db w') ≡ absq (db w) ∧ failed r) ∨
                absq (db w') ≡ (a_step op (absq (db w))).2) w →
  (a_step op (absq (db w))).1 = None →
  wp (_ ← m; mret None) (op_outcome op w) w.
Proof.
  intros Hm Hn. apply wp_bind. eapply wp_mono; [|apply Hm]. intros [a|e] w'.
  - intros [[_ Hf]|Ha]; [done|]. apply wp_ret. right; left. split; [done|]. left. by rewrite Hn.
  - intros [[Ha _]|Ha]; [left; done|right; left; split; [done|by right]].
Qed.

Lemma outcome_redisDo_command op c w :
  (absq (db_eff c (db w)) ≡ (a_step op (absq (db w))).2) →
  (a_step op (absq (db w))).1 = None →
  wp (_ ← (_ ← redisDo (command c); mret tt); mret None) (op_outcome op w) w.
Proof.
  intros He Hn. apply outcome_one; [|done]. apply wp_bind. apply wp_redisDo.
  { intros w' Hd _. left. by rewrite Hd. }
  apply wp_command; intros; try apply wp_ret;
    match goal with H1 : db ?a = _, H2 : db _ = db ?a |- _ => rewrite H1 in H2; rewrite H2 end;
    [left|right|right]; done.
Qed.

Lemma outcome_redisDo_script op p (f : rstate → reply * rstate) w :
  (absq (view (f (w_db w)).2) ≡ (a_step op (absq (db w))).2) →
  (a_step op (absq (db w))).1 = None →
  wp (_ ← (_ ← errorf p (redisDo (roundtrip f)); mret tt); mret None) (op_outcome op w) w.
Proof.
  intros He Hn. apply outcome_one; [|done]. apply wp_bind, wp_errorf. apply wp_redisDo.
  { intros w' Hd _. left. by rewrite Hd. }
  apply wp_roundtrip; intros; try apply wp_ret;
    match goal with H1 : db ?a = _, H2 : db _ = db ?a |- _ => rewrite H1 in H2; rewrite H2 end;
    [left|right|right]; done.
Qed.

Lemma outcome_pop wk w : wp (run_op (OpPop wk)) (op_outcome (OpPop wk) w) w.
Proof.
  apply wp_bind, wp_attempt, wp_bind, wp_command.
  - intros w' Hd _. apply wp_throw. left. by rewrite Hd.
  - intros w' Hd _. apply wp_throw. right; left. rewrite Hd. split; [apply absq_pop|by right].
  - intros p w' Hd Hp _. pose proof (absq_pop wk (db w)) as Ha. rewrite <- Hd in Ha.
    simpl in Hp. subst p. right; left. simpl in Ha |- *.
    by destruct (rlist (db w) jobQueueKey); (split; [|left]).
Qed.

Lemma outcome_requeue wk j w :
  wp (run_op (OpRequeue wk j)) (op_outcome (OpRequeue wk j) w) w.
Proof.
  apply wp_bind. apply wp_redisDo.
  { intros w' Hd _. left. by rewrite Hd. }
  apply wp_bind, wp_errorf, wp_command.
  - intros w1 H1 _ w' H2 _. left. by rewrite H2, H1.
  - intros w1 H1 _ w' H2 _. right; right. exists wk, j. rewrite H2, H1. 
    split_and!; [done..|apply absq_ack].
  - intros p w1 H1 Hp _. simpl in Hp. subst p. case_bool_decide as Hj; simpl.
    + apply wp_bind, wp_errorf, wp_command.
      * intros w2 H2 _ w' H3 _. right; right. exists wk, j. rewrite H3, H2, H1.
        split_and!; [done..|apply absq_ack].
      * intros w2 H2 _ w' H3 _. right; left. rewrite H3, H2, H1.
        split; [by apply absq_requeue_hit|by right].
      * intros p w2 H2 _ _. apply wp_ret. intros w' H3 _. apply wp_ret. right; left. rewrite H3, H2, H1.
        split; [by apply absq_requeue_hit|left]. simpl. by case_decide.
    + apply wp_ret. intros w' H2 _. apply wp_ret. right; left. rewrite H2, H1. simpl.
      rewrite decide_False by done. split; [by apply absq_requeue_miss|by left].
Qed.

(** On an arbitrary network a call either fails and leaves the queue alone, or
    performs exactly its abstract step, or, for a requeue only, fails after the
    removal. *)
Lemma run_op_outcome op w : wp (run_op op) (op_outcome op w) w.
Proof.
  destruct op as [job|j|wk|wk j|wk j|j].
  - apply outcome_redisDo_script; [apply absq_enqueueScript|done].
  - apply outcome_redisDo_command; [apply absq_push|done].
  - apply outcome_pop.
  - apply outcome_redisDo_command; [apply absq_ack|done].
  - apply outcome_requeue.
  - apply outcome_redisDo_script; [apply absq_moveToDLQScript|done].
Qed.

(** In a healthy world every call succeeds and stays healthy. *)
Lemma run_op_healthy op w :
  healthy w → wp (run_op op) (λ r w', is_ok r = true ∧ healthy w' ∧ same_clock w w') w.
Proof.
  intros Hh. destruct op as [job|j|wk|wk j|wk j|j]; cbn [run_op].
  - apply wp_bind, wp_bind, wp_errorf, hwp_redisDo_roundtrip; [done|].
    intros w' Hw' Hc _. by split_and!.
  - apply wp_bind, wp_bind, hwp_redisDo_command; [done|]. intros p w' Hw' Hc _ _. by split_and!.
  - apply wp_bind, wp_attempt, wp_bind, hwp_command; [done|].
    intros p w' Hw' Hc _ _. destruct p; by split_and!.
  - apply wp_bind, wp_bind, hwp_redisDo_command; [done|]. intros p w' Hw' Hc _ _. by split_and!.
  - apply wp_bind, hwp_redisDo; [done|]. apply wp_bind, wp_errorf, hwp_command; [done|].
    intros p w1 Hw1 Hc1 _ _. case_match.
    + apply wp_ret. eexists; split_and!; [done|apply Hw1|]. intros w' Hw' Hc _.
      split_and!; [done..|]. by etrans.
    + apply wp_bind, wp_errorf, hwp_command; [done|]. intros q w2 Hw2 Hc2 _ _.
      apply wp_ret. eexists; split_and!; [done|apply Hw2|]. intros w' Hw' Hc _.
      split_and!; [done..|]. by etrans; [|etrans].
  - apply wp_bind, wp_bind, wp_errorf, hwp_redisDo_roundtrip; [done|].
    intros w' Hw' Hc _. by split_and!.
Qed.

Lemma a_run_proper ops p q :
  p ≡ q → (a_run ops p).1 = (a_run ops q).1 ∧ (a_run ops p).2 ≡ (a_run ops q).2.
Proof.
  revert p q. induction ops as [|op ops IH]; intros p q Hpq; [done|]. simpl.
  destruct (a_step_proper op p q Hpq) as [H1 H2].
  destruct (a_step op p) as [o p'], (a_step op q) as [o' q']. simpl in *.
  destruct (IH p' q' H2) as [H3 H4].
  destruct (a_run ops p') as [os p''], (a_run ops q') as [os' q'']. simpl in *.
  by subst.
Qed.

(** A healthy call performs its abstract step and reports its output. *)
Lemma run_op_step op w :
  healthy w →
  ∃ w', run_op op w = (Ok (a_step op (absq (db w))).1, w') ∧ healthy w' ∧
        absq (db w') ≡ (a_step op (absq (db w))).2.
Proof.
  intros Hh. pose proof (run_op_outcome op w) as Ho. pose proof (run_op_healthy op w Hh) as Hk.
  unfold wp in *. destruct (run_op op w) as [r w']; simpl in *.
  destruct Hk as (Hok & Hw' & _). exists w'.
  destruct Ho as [[_ Hf]|[[Ha [->|Hf]]|(?&?&?&Hf&?)]]; unfold failed in *; try congruence; done.
Qed.

(** C2: the job queue refines the abstract reliable FIFO queue.  While Redis is
    reachable, any sequence of enqueues, pushes, pops, acknowledgements, requeues
    and dead-letterings by any number of workers returns exactly the outputs of
    the abstract queue (pops deliver in order, or report an empty queue) and leaves
    the database representing the abstract final state. *)
Theorem queue_refinement (ops : list qop) (w : world) :
  healthy w →
  ∃ w', run_ops ops w = (Ok (a_run ops (absq (db w))).1, w') ∧ healthy w' ∧
        absq (db w') ≡ (a_run ops (absq (db w))).2.
Proof.
  revert w. induction ops as [|op ops IH]; intros w Hh; [by exists w|].
  destruct (run_op_step op w Hh) as (w1 & E1 & Hw1 & Ha1).
  destruct (IH w1 Hw1) as (w2 & E2 & Hw2 & Ha2). exists w2.
  simpl. unfold mbind, M_bind. rewrite E1, E2.
  destruct (a_step op (absq (db w))) as [o q]; simpl in *.
  destruct (a_run_proper ops _ _ Ha1) as [H1 H2].
  destruct (a_run ops q) as [os q']; simpl in *. rewrite H1 in *.
  split_and!; [done..|]. by rewrite Ha2.
Qed.

(** No partial effects on an unreliable network.  Whatever happens to the
    round trips of a call (request lost, reply lost, breaker open), every queue
    operation except a requeue either fails and leaves the queue exactly as it
    was, or performs its whole abstract step; and when it reports success the step
    was performed and the reported output is the abstract one. *)
Theorem op_all_or_nothing (op : qop) (w : world) :
  (∀ wk j, op ≠ OpRequeue wk j) →
  let r := (run_op op w).1 in
  let q := absq (db w) in
  let q' := absq (db (run_op op w).2) in
  ((q' ≡ q ∧ failed r) ∨ q' ≡ (a_step op q).2) ∧
  (∀ o, r = Ok o → q' ≡ (a_step op q).2 ∧ o = (a_step op q).1).
Proof.
  intros Hop. cbv zeta.
  destruct (run_op_outcome op w) as [[Ha Hf]|[[Ha Hr]|(wk&j&->&_)]];
    [..|by destruct (Hop wk j)]; split; auto.
  - intros o Ho. by rewrite Ho in Hf.
  - intros o Ho. destruct Hr as [Hr|Hf]; rewrite Ho in *; [|done]. split; [done|congruence].
Qed.

End refinement.

Definition worker_world : world :=
  mem_world (set_list jobQueueKey ["job-1"; "job-2"] empty_rdb) [] 0.

Lemma queue_refinement_witness :
  healthy worker_world ∧
  ∃ w', run_ops [OpPop "a"; OpPop "b"; OpRequeue "a" "job-1"; OpPop "b"; OpPop "b"; OpAck "b" "job-2"]
          worker_world = (Ok [Some "job-1"; Some "job-2"; None; Some "job-1"; None; None], w').
Proof.
  split; [done|].
  destruct (queue_refinement [OpPop "a"; OpPop "b"; OpRequeue "a" "job-1"; OpPop "b"; OpPop "b";
    OpAck "b" "job-2"] worker_world) as (w' & E & _); [done|].
  exists w'. exact E.
Defined.

(** A pop whose reply is lost: the job is in the worker's list. *)
Lemma op_all_or_nothing_witness :
  let w := mem_world (set_list jobQueueKey ["job-1"] empty_rdb) [ReplyLost] 0 in
  (∀ wk j, OpPop "a" ≠ OpRequeue wk j) ∧ failed (run_op (OpPop "a") w).1 ∧
  absq (db (run_op (OpPop "a") w).2) ≡ (a_step (OpPop "a") (absq (db w))).2.
Proof.
  intros w. split; [done|]. split; [done|].
  destruct (op_all_or_nothing (OpPop "a") w ltac:(done)) as [[[H _]|H] _]; [|done].
  destruct H as [H _]. vm_compute in H. done.
Defined.

(** ** Conservation of jobs *)

(** Occurrences of a job over the main queue, the dead letters and the in-flight
    lists of the workers [ws]. *)
Definition total (ws : list string) (j : string) (q : aqueue) : nat :=
  count_occ_dec j (a_main q) + count_occ_dec j (a_dlq q) +
  sum_list_with (λ wk, count_occ_dec j (a_proc q wk)) ws.

Lemma total_proper ws j p q : p ≡ q → total ws j p = total ws j q.
Proof.
  intros (Hm & Hd & Hp). unfold total. rewrite Hm, Hd. f_equal.
  induction ws as [|wk ws IH]; simpl; [done|]. by rewrite Hp, IH.
Qed.

Lemma sum_upd_proc ws wk l q (f : list string → nat) :
  NoDup ws → wk ∈ ws →
  (sum_list_with (λ wk', f (a_proc (upd_proc wk l q) wk')) ws + f (a_proc q wk) =
   sum_list_with (λ wk', f (a_proc q wk')) ws + f l)%nat.
Proof.
  induction 1 as [|x ws Hx Hnd IH]; [by intros ?%not_elem_of_nil|]. simpl.
  destruct (decide (wk = x)) as [<-|Hne].
  - intros _. assert (sum_list_with (λ wk', f (if decide (wk = wk') then l else a_proc q wk')) ws
      = sum_list_with (λ wk', f (a_proc q wk')) ws) as ->; [|lia].
    clear -Hx. induction ws as [|y ws IH]; simpl; [done|].
    apply not_elem_of_cons in Hx as [? ?]. rewrite decide_False by done. auto.
  - intros [?|Hin]%elem_of_cons; [done|]. specialize (IH Hin). simpl in IH. lia.
Qed.

Definition is_move (op : qop) : Prop :=
  match op with OpPop _ | OpRequeue _ _ => True | _ => False end.

Definition op_worker (op : qop) : option string :=
  match op with OpPop wk | OpAck wk _ | OpRequeue wk _ => Some wk | _ => None end.

(** Pops and requeues move jobs; they neither create nor destroy them. *)
Lemma total_move ws j op q :
  NoDup ws → is_move op → (∀ wk, op_worker op = Some wk → wk ∈ ws) →
  total ws j (a_step op q).2 = total ws j q.
Proof.
  intros Hnd Hm Hw. destruct op as [|?|wk|wk j'|wk j'|]; try done; simpl in *;
    specialize (Hw wk eq_refl).
  - destruct (a_main q) as [|x l] eqn:Hl; [done|]. simpl.
    pose proof (sum_upd_proc ws wk (a_proc q wk ++ [x]) q (count_occ_dec j) Hnd Hw) as Hs.
    unfold total. cbn [a_main a_dlq upd_proc]. rewrite Hl.
    rewrite !count_occ_app, !count_occ_cons, !count_occ_nil in *. cbn in Hs |- *. lia.
  - case_decide as Hj; [|done]. simpl.
    pose proof (sum_upd_proc ws wk (remove_first j' (a_proc q wk)) q (count_occ_dec j) Hnd Hw) as Hs.
    unfold total. cbn [a_main a_dlq upd_proc].
    rewrite remove_first_count, !count_occ_app, !count_occ_cons, !count_occ_nil in *.
    apply count_occ_pos in Hj. cbn in Hs |- *.
    destruct (decide (j = j')), (decide (j' = j)); subst; try congruence; lia.
Qed.

Section conservation.
Context `{S : RedisServer} `{!RedisLaws S} {codec : MapCodec}.
Implicit Types w : world.

(** Calls issued one after the other, each failure being the caller's problem. *)
Definition run_all (ops : list qop) : M unit := for_each (λ op, ignore (run_op op)) ops.

Lemma run_all_cons op ops w : run_all (op :: ops) w = run_all ops (run_op op w).2.
Proof. unfold run_all. simpl. unfold mbind, M_bind, ignore. by destruct (run_op op w). Qed.

(** On any network a requeue can drop a job but never duplicate one. *)
Lemma total_run_op ws j op w :
  NoDup ws → is_move op → (∀ wk, op_worker op = Some wk → wk ∈ ws) →
  (total ws j (absq (db (run_op op w).2)) ≤ total ws j (absq (db w)))%nat ∧
  ((∀ wk j', op ≠ OpRequeue wk j') →
   total ws j (absq (db (run_op op w).2)) = total ws j (absq (db w))).
Proof.
  intros Hnd Hm Hw.
  destruct (run_op_outcome op w) as [[Ha _]|[[Ha _]|(wk&j'&->&_&Ha)]];
    rewrite (total_proper _ _ _ _ Ha).
  - done.
  - by rewrite total_move.
  - split; [|by intros H; destruct (H wk j')]. specialize (Hw wk eq_refl).
    pose proof (sum_upd_proc ws wk (remove_first j' (a_proc (absq (db w)) wk)) (absq (db w))
      (count_occ_dec j) Hnd Hw) as Hs.
    unfold total. cbn [a_step snd upd_proc a_main a_dlq]. rewrite remove_first_count in Hs.
    cbn in Hs |- *. lia.
Qed.

(** C1: jobs are never lost or duplicated by hand-out.  For any schedule of pops
    by any workers and any network faults between them, every job occurs exactly
    as often over the main queue, the dead letters and the in-flight lists as
    before: a popped job is in exactly one in-flight list, even when the worker
    never learns that it got it. *)
Theorem pops_conserve (ws : list string) (j : string) (wks : list string) (w : world) :
  NoDup ws → wks ⊆ ws →
  total ws j (absq (db (run_all (OpPop <$> wks) w).2)) = total ws j (absq (db w)).
Proof.
  intros Hnd. revert w. induction wks as [|wk wks IH]; intros w Hsub; [done|].
  cbn [fmap list_fmap]. rewrite run_all_cons. rewrite IH by set_solver.
  apply total_run_op; try done. intros wk' [= <-]. set_solver.
Qed.

(** Requeueing never duplicates a job.  For any interleaving of pops and
    requeues by any workers and reapers and any network faults, no job occurs more
    often than before. *)
Theorem requeue_no_duplicates (ws : list string) (j : string) (ops : list qop) (w : world) :
  NoDup ws → (∀ op, op ∈ ops → is_move op ∧ ∀ wk, op_worker op = Some wk → wk ∈ ws) →
  (total ws j (absq (db (run_all ops w).2)) ≤ total ws j (absq (db w)))%nat.
Proof.
  intros Hnd. revert w. induction ops as [|op ops IH]; intros w Hops; [done|].
  rewrite run_all_cons. destruct (Hops op) as [Hm Hw]; [left|].
  etrans; [apply IH; set_solver|]. by apply total_run_op.
Qed.

End conservation.

Lemma pops_conserve_witness :
  let w := mem_world (set_list jobQueueKey ["j1"; "j2"] empty_rdb) [ReplyLost; RequestLost] 0 in
  total ["a"; "b"] "j1" (absq (db (run_all (OpPop <$> ["a"; "b"; "a"]) w).2)) = 1%nat ∧
  rlist (db (run_all (OpPop <$> ["a"; "b"; "a"]) w).2) (processingKey "a") = ["j1"; "j2"].
Proof.
  intros w. split; [|by vm_compute].
  rewrite (pops_conserve ["a"; "b"] "j1" ["a"; "b"; "a"] w); [by vm_compute| |set_solver].
  apply NoDup_cons_2; [set_solver|]. apply NoDup_singleton.
Defined.

Lemma requeue_no_duplicates_witness :
  let w := mem_world (set_list (processingKey "a") ["j1"] empty_rdb) [] 0 in
  (total ["a"] "j1" (absq (db (run_all [OpRequeue "a" "j1"; OpRequeue "a" "j1"] w).2)) ≤ 1)%nat ∧
  rlist (db (run_all [OpRequeue "a" "j1"; OpRequeue "a" "j1"] w).2) jobQueueKey = ["j1"].
Proof.
  intros w. split; [|by vm_compute].
  apply (requeue_no_duplicates ["a"] "j1" [OpRequeue "a" "j1"; OpRequeue "a" "j1"] w);
    [apply NoDup_singleton|set_solver].
Defined.
