(* ===== verification/JobLife.v ===== *)
(** * Admission, status bookkeeping, cancellation and retry of jobs

    What the producer side and the administrative operations of
    [queue/queue.go] guarantee: the queue-depth bound, soundness of the status
    sets, the branches of a cancel, and the dead-letter retry. *)
From S2P Require Import Prelude GoStr GoErr GoTime Breaker ScanJob Redis Wp Queue QueueSpec.

Local Open Scope Z_scope.

Section admission.
Context `{S : RedisServer} `{!RedisLaws S} {codec : MapCodec}.
Implicit Types w : world.

Definition depth (d : rdb) : Z := Z.of_nat (length (rlist d jobQueueKey)).

(** The database after publishing a job. *)
Definition published (job : ScanJob) (d : rdb) : rdb :=
  let key := jobKey (ID job) in
  let d1 := set_hash key (stored (hash d key) job) d in
  let d2 := set_set (statusKey (Status job)) ({[ID job]} ∪ rset d1 (statusKey (Status job))) d1 in
  let d3 := db_eff (EXPIRE key jobTTL) d2 in
  set_list jobQueueKey (rlist d3 jobQueueKey ++ [ID job]) d3.

Lemma view_publish job r :
  view (enqueueScript (ID job) (jobKey (ID job)) (statusKey (Status job)) (hash_of job) r).2 =
  published job (view r).
Proof. apply view_enqueueScript. Qed.

Lemma published_obs job d :
  (∀ k, k ≠ jobQueueKey → rlist (published job d) k = rlist d k) ∧
  rlist (published job d) jobQueueKey = rlist d jobQueueKey ++ [ID job] ∧
  (∀ k, rset (published job d) k =
     if decide (k = statusKey (Status job)) then {[ID job]} ∪ rset d k else rset d k) ∧
  (∀ k, hash (published job d) k =
     if decide (k = jobKey (ID job)) then stored (hash d k) job else hash d k).
Proof.
  unfold published. set (d1 := set_hash _ _ _). set (d2 := set_set _ _ _).
  destruct (expire_obs (jobKey (ID job)) jobTTL d2) as (Hl & Hs & Hh).
  split_and!; intros; autorewrite with rdb; rewrite ?Hl, ?Hs, ?Hh; try done;
    unfold d2, d1; case_decide; subst; by autorewrite with rdb.
Qed.

Lemma published_depth job d : depth (published job d) = depth d + 1.
Proof.
  destruct (published_obs job d) as (_ & Hq & _). unfold depth. rewrite Hq, length_app. simpl. lia.
Qed.

(** The guarded script decides on the depth it reads. *)
Lemma limit_script_spec job limit count r :
  let s := enqueueWithLimitScript (ID job) (jobKey (ID job)) (statusKey (Status job))
             (hash_of job) limit count r in
  if (0 <? limit) && (limit <? depth (view r) + count)
  then s.1 = RInt 0 ∧ view s.2 = view r
  else s.1 = RInt 1 ∧ view s.2 = published job (view r).
Proof.
  cbv zeta. unfold enqueueWithLimitScript. destruct (0 <? limit); simpl.
  - pose proof (exec_reply (LLEN jobQueueKey) r) as Hr.
    pose proof (exec_eff (LLEN jobQueueKey) r) as He.
    destruct (exec (LLEN jobQueueKey) r) as [p r']. simpl in *. subst p. simpl.
    fold (depth (view r)). destruct (limit <? depth (view r) + count); simpl; [done|].
    split; [done|]. rewrite <- He. by rewrite <- view_publish.
  - by rewrite <- view_publish.
Qed.

(** The possible outcomes of a guarded enqueue on any network. *)
Definition admission_outcome (job : ScanJob) (limit count : Z) (w : world)
    (r : res unit) (w' : world) : Prop :=
  let full := (0 <? limit) && (limit <? depth (db w) + count) in
  (r = Err (ESentinel ErrQueueFull) ∧ full = true ∧ db w' = db w) ∨
  (r = Ok tt ∧ full = false ∧ db w' = published job (db w)) ∨
  (failed r ∧ r ≠ Err (ESentinel ErrQueueFull) ∧
   (db w' = db w ∨ full = false ∧ db w' = published job (db w))).

Lemma EnqueueJobAtomicWithLimit_outcome job limit count w :
  wp (EnqueueJobAtomicWithLimit job limit count) (admission_outcome job limit count w) w.
Proof.
  pose proof (limit_script_spec job limit count (w_db w)) as Hs. cbv zeta in Hs.
  unfold EnqueueJobAtomicWithLimit. apply wp_bind, wp_errorf, wp_redisDo.
  { intros w' Hd _. right; right. split_and!; [done..|by left]. }
  apply wp_roundtrip; unfold admission_outcome; fold (db w) in Hs.
  - intros w1 H1 _ w' H2 _. right; right. rewrite H2, H1. split_and!; [done..|by left].
  - intros w1 H1 _ w' H2 _. right; right. rewrite H2, H1. split_and!; [done..|].
    destruct (_ && _); [left|right]; naive_solver.
  - intros w1 H1 _ w' H2 _. rewrite <- H2 in H1.
    destruct (_ && _); destruct Hs as [-> Hs]; rewrite Hs in H1; simpl;
      [left; apply wp_throw|right; left; apply wp_ret]; by split_and!.
Qed.

(** A submission: a job, and the number of jobs it counts for. *)
Definition submit_all (limit : Z) (l : list (ScanJob * Z)) : M unit :=
  for_each (λ jc, ignore (EnqueueJobAtomicWithLimit jc.1 limit jc.2)) l.

Lemma submit_all_cons limit jc l w :
  submit_all limit (jc :: l) w =
  submit_all limit l (EnqueueJobAtomicWithLimit jc.1 limit jc.2 w).2.
Proof.
  unfold submit_all. simpl. unfold mbind, M_bind, ignore.
  by destruct (EnqueueJobAtomicWithLimit jc.1 limit jc.2 w).
Qed.

(** C22: backpressure.  However many producers submit jobs, in whatever order and
    whatever happens to their round trips, guarded enqueues never push the main
    queue past the configured limit (a queue that was already longer does not
    grow). *)
Theorem admission_bound (limit : Z) (l : list (ScanJob * Z)) (w : world) :
  0 < limit → Forall (λ jc, 1 ≤ jc.2) l →
  depth (db (submit_all limit l w).2) ≤ Z.max limit (depth (db w)).
Proof.
  intros Hlim Hl. revert w. induction Hl as [|[job c] l Hc Hl IH]; intros w; [simpl; lia|].
  rewrite submit_all_cons. etrans; [apply IH|]. simpl in *.
  pose proof (EnqueueJobAtomicWithLimit_outcome job limit c w) as Ho. unfold wp in Ho.
  destruct (EnqueueJobAtomicWithLimit job limit c w) as [r w']; simpl in *.
  assert (Hfull : (0 <? limit) && (limit <? depth (db w) + c) = false →
    depth (published job (db w)) ≤ limit).
  { intros Hf. rewrite published_depth.
    destruct (0 <? limit) eqn:E1; simpl in Hf; [apply Z.ltb_ge in Hf; lia|].
    apply Z.ltb_ge in E1; lia. }
  destruct Ho as [(_ & _ & ->)|[(_ & Hf & ->)|(_ & _ & [->|[Hf ->]])]]; try specialize (Hfull Hf); lia.
Qed.

(** Admission is decided on the depth at the moment of publication.  With
    Redis reachable, a guarded enqueue is rejected with [ErrQueueFull], writing
    nothing at all, exactly when the limit is positive and the depth plus the
    batch size exceeds it; otherwise the job's hash, its status-set entry, its
    seven-day expiry and its place at the tail of the queue are all there. *)
Theorem admission_decision (job : ScanJob) (limit count : Z) (w : world) :
  healthy w →
  let r := EnqueueJobAtomicWithLimit job limit count w in
  if (0 <? limit) && (limit <? depth (db w) + count)
  then r.1 = Err (ESentinel ErrQueueFull) ∧ db r.2 = db w
  else r.1 = Ok tt ∧
       rlist (db r.2) jobQueueKey = rlist (db w) jobQueueKey ++ [ID job] ∧
       hash (db r.2) (jobKey (ID job)) = stored (hash (db w) (jobKey (ID job))) job ∧
       ID job ∈ rset (db r.2) (statusKey (Status job)) ∧
       db_ttls (db r.2) !! jobKey (ID job) = Some jobTTL.
Proof.
  intros Hh. cbv zeta.
  assert (Hok : wp (EnqueueJobAtomicWithLimit job limit count)
    (λ r w', (failed r → r = Err (ESentinel ErrQueueFull))) w).
  { unfold EnqueueJobAtomicWithLimit. apply wp_bind, wp_errorf, hwp_redisDo_roundtrip; [done|].
    intros w' _ _ _. by case_match. }
  pose proof (EnqueueJobAtomicWithLimit_outcome job limit count w) as Ho. unfold wp in *.
  destruct (EnqueueJobAtomicWithLimit job limit count w) as [r w']; simpl in *.
  destruct Ho as [(-> & -> & ->)|[(-> & -> & ->)|(Hf & Hr & _)]]; [done| |].
  - destruct (published_obs job (db w)) as (_ & Hq & Hs & Hx).
    rewrite Hq, Hs, Hx, !decide_True by done. split_and!; [done..|set_solver|].
    unfold published. simpl. unfold key_exists. rewrite bool_decide_eq_true_2.
    + simpl. by rewrite lookup_insert_eq.
    + left. simpl. rewrite lookup_insert_eq. eauto.
  - by destruct (Hr (Hok Hf)).
Qed.

End admission.

Lemma admission_bound_witness :
  let w := mem_world (set_list jobQueueKey ["j1"] empty_rdb) [ReplyLost] 0 in
  depth (db (submit_all 3 [(sample_job, 1); (sample_job, 1); (sample_job, 2); (sample_job, 1)] w).2) ≤ 3.
Proof.
  intros w.
  apply (admission_bound 3 [(sample_job, 1); (sample_job, 1); (sample_job, 2); (sample_job, 1)] w);
    [lia|]. repeat constructor; simpl; lia.
Defined.

Lemma admission_decision_witness :
  let w := mem_world (set_list jobQueueKey ["j1"; "j2"] empty_rdb) [] 0 in
  healthy w ∧ (EnqueueJobAtomicWithLimit sample_job 2 1 w).1 = Err (ESentinel ErrQueueFull).
Proof.
  intros w. split; [done|].
  exact (proj1 (admission_decision sample_job 2 1 w ltac:(done))).
Defined.

(** ** Status bookkeeping *)

Lemma elem_of_SREM k m d x k' :
  x ∈ rset (db_eff (SREM k m) d) k' ↔ x ∈ rset d k' ∧ ¬ (k' = k ∧ x = m).
Proof.
  simpl. destruct (decide (k' = k)) as [->|]; [rewrite rset_set_set_eq|rewrite rset_set_set_ne by done];
    set_solver.
Qed.

Lemma elem_of_SADD k m d x k' :
  x ∈ rset (db_eff (SADD k m) d) k' ↔ x ∈ rset d k' ∨ (k' = k ∧ x = m).
Proof.
  simpl. destruct (decide (k' = k)) as [->|]; [rewrite rset_set_set_eq|rewrite rset_set_set_ne by done];
    set_solver.
Qed.

(** The value of the status field, absent reading as "". *)
Definition status_of (d : rdb) (id : string) : string :=
  default "" (hash d (jobKey id) !! "status").

(** A job is listed under at most the status its hash carries. *)
Definition status_sound (d : rdb) : Prop :=
  ∀ id s, id ∈ rset d (statusKey s) → s ≠ "" ∧ hash d (jobKey id) !! "status" = Some s.

Section status.
Context `{S : RedisServer} `{!RedisLaws S} {codec : MapCodec}.
Implicit Types w : world.

(** The database a healthy [UpdateJob] leaves. *)
Definition updated (job : ScanJob) (d : rdb) : rdb :=
  let key := jobKey (ID job) in
  let old := status_of d (ID job) in
  let d := db_eff (EXPIRE key jobTTL) (set_hash key (stored (hash d key) job) d) in
  let d := if nonempty old && negb (bool_decide (old = Status job))
           then db_eff (SADD (statusKey (Status job)) (ID job))
                  (db_eff (SREM (statusKey old) (ID job)) d)
           else d in
  if isTerminalStatus (Status job)
  then db_eff (SREM (statusKey JobStatusProcessing) (ID job))
         (db_eff (SREM (statusKey JobStatusQueued) (ID job)) d)
  else d.

Lemma UpdateJob_healthy job w :
  healthy w →
  wp (UpdateJob job) (λ r w', r = Ok tt ∧ healthy w' ∧ same_clock w w' ∧
                              db w' = updated job (db w)) w.
Proof.
  intros Hh. unfold UpdateJob, updated. apply wp_bind, wp_attempt, hwp_command; [done|].
  intros p w1 Hh1 Hc1 Hd1 Hp. cbn in Hd1, Hp.
  assert (str_or_empty (Ok p) = status_of (db w) (ID job)) as Hold.
  { subst p. unfold status_of. by destruct (hash _ _ !! _). }
  rewrite Hold. apply wp_bind, wp_errorf, hwp_redisDo_command; [done|].
  intros p2 w2 Hh2 Hc2 Hd2 _. apply wp_bind, wp_ignore, hwp_command; [done|].
  intros p3 w3 Hh3 Hc3 Hd3 _. rewrite Hd2, Hd1 in Hd3. cbn [db_eff] in Hd3.
  change (hash_of job ∪ hash (db w) (jobKey (ID job)))
    with (stored (hash (db w) (jobKey (ID job))) job) in Hd3.
  apply wp_bind.
  eapply (wp_mono _ (λ r w4, r = Ok tt ∧ healthy w4 ∧ same_clock w w4 ∧
    db w4 = (if nonempty (status_of (db w) (ID job)) &&
                negb (bool_decide (status_of (db w) (ID job) = Status job))
           then db_eff (SADD (statusKey (Status job)) (ID job))
                  (db_eff (SREM (statusKey (status_of (db w) (ID job))) (ID job)) (db w3))
           else db w3))).
  - intros r w4 (-> & Hh4 & Hc4 & Hd4). rewrite Hd3 in Hd4.
    destruct (isTerminalStatus (Status job)).
    + simpl. apply wp_bind, wp_ignore, hwp_command; [done|]. intros ? w5 Hh5 Hc5 Hd5 _.
      apply wp_bind, wp_ignore, hwp_command; [done|]. intros ? w6 Hh6 Hc6 Hd6 _.
      apply wp_ret. split_and!; [done..| |by rewrite Hd6, Hd5, Hd4].
      do 2 (etrans; [|eassumption]). done.
    + apply wp_ret. by split_and!.
  - assert (same_clock w w3) by (do 2 (etrans; [|eassumption]); done).
    destruct (_ && _).
    + apply wp_bind, wp_ignore, hwp_command; [done|]. intros ? w5 Hh5 Hc5 Hd5 _.
      apply wp_ignore, hwp_command; [done|]. intros ? w6 Hh6 Hc6 Hd6 _.
      split_and!; [done..| |by rewrite Hd6, Hd5]. do 2 (etrans; [|eassumption]). done.
    + by apply wp_ret.
Qed.

Lemma updated_lists job d k : rlist (updated job d) k = rlist d k.
Proof.
  etrans; [|apply (proj1 (expire_obs (jobKey (ID job)) jobTTL
    (set_hash (jobKey (ID job)) (stored (hash d (jobKey (ID job))) job) d)))].
  unfold updated. by repeat case_match.
Qed.

Lemma updated_hash job d k :
  hash (updated job d) k = if decide (k = jobKey (ID job)) then stored (hash d k) job else hash d k.
Proof.
  destruct (expire_obs (jobKey (ID job)) jobTTL
    (set_hash (jobKey (ID job)) (stored (hash d (jobKey (ID job))) job) d)) as (_ & _ & Hh).
  transitivity (hash (set_hash (jobKey (ID job)) (stored (hash d (jobKey (ID job))) job) d) k).
  - rewrite <- Hh. unfold updated. by repeat case_match.
  - case_decide; subst; by autorewrite with rdb.
Qed.

(** Membership after an update, for a status [s]. *)
Lemma updated_member job d id s :
  id ∈ rset (updated job d) (statusKey s) ↔
  let old := status_of d (ID job) in
  let moved := old ≠ "" ∧ old ≠ Status job in
  ((id ∈ rset d (statusKey s) ∧ ¬ (moved ∧ s = old ∧ id = ID job)) ∨
   (moved ∧ s = Status job ∧ id = ID job)) ∧
  ¬ (isTerminalStatus (Status job) = true ∧ s ∈ nonTerminalStatuses ∧ id = ID job).
Proof.
  cbv zeta. unfold updated.
  set (d0 := db_eff (EXPIRE _ _) _).
  assert (He : rset d0 (statusKey s) = rset d (statusKey s)).
  { unfold d0. rewrite (proj1 (proj2 (expire_obs _ _ _))). done. }
  set (old := status_of d (ID job)). unfold nonempty.
  assert (Hk : ∀ a b, statusKey a = statusKey b ↔ a = b)
    by (intros; split; [apply (inj statusKey)|congruence]).
  assert (Ht : s ∈ nonTerminalStatuses ↔ s = JobStatusQueued ∨ s = JobStatusProcessing)
    by (unfold nonTerminalStatuses; set_solver).
  destruct (bool_decide_reflect (old = "")), (bool_decide_reflect (old = Status job));
    destruct (isTerminalStatus (Status job)); cbn [negb andb];
    rewrite ?elem_of_SREM, ?elem_of_SADD, ?elem_of_SREM, ?He, ?Hk, ?Ht; naive_solver.
Qed.

Lemma updated_sound job d :
  Status job ≠ "" → status_sound d → status_sound (updated job d).
Proof.
  intros Hne Hs id s. rewrite updated_member, updated_hash. cbv zeta.
  intros [[[Hin Hnot]|(_ & -> & ->)] Hterm].
  - destruct (Hs id s Hin) as [Hs0 Hst]. split; [done|]. case_decide as Hk; [|done].
    apply (inj jobKey) in Hk as ->. rewrite (proj1 (proj2 (stored_fields _ job))).
    assert (status_of d (ID job) = s) as Hold by (unfold status_of; by rewrite Hst).
    destruct (decide (Status job = s)) as [->|Hx]; [done|].
    exfalso. apply Hnot. rewrite Hold. auto.
  - split; [done|]. rewrite decide_True by done. apply stored_fields.
Qed.

(** A transition is recorded: the job ends up listed under its new status. *)
Lemma updated_listed job d :
  status_of d (ID job) ≠ "" → status_of d (ID job) ≠ Status job →
  Status job ∈ [JobStatusQueued; JobStatusProcessing; JobStatusCompleted; JobStatusFailed; JobStatusCancelled] →
  ID job ∈ rset (updated job d) (statusKey (Status job)).
Proof.
  intros Ho Hn Hst. apply updated_member. cbv zeta. split; [right; auto|].
  intros (Ht & Hin & _). unfold nonTerminalStatuses in Hin.
  apply list_elem_of_In in Hin. simpl in Hin.
  destruct Hin as [Hq|[Hq|[]]]; rewrite <- Hq in Ht; done.
Qed.

(** *** Cancellation *)

Definition cancellable (d : rdb) (id : string) : bool :=
  bool_decide (status_of d id ∈ ["queued"; "processing"]).

(** The database a successful cancel at time stamp [t] leaves. *)
Definition cancelled_db (id t : string) (d : rdb) : rdb :=
  let key := jobKey id in
  let d1 := set_hash key ((<["status" := JobStatusCancelled]> (<["failed_at" := t]>
              (<["error" := "Job cancelled by user"]> ∅))) ∪ hash d key) d in
  let d1 := db_eff (SREM (statusKey "queued") id) d1 in
  let d1 := db_eff (SREM (statusKey "processing") id) d1 in
  let d1 := db_eff (SADD (statusKey "cancelled") id) d1 in
  if decide (status_of d id = "queued") then db_eff (LREM1 jobQueueKey id) d1 else d1.

Lemma view_cancelJobScript id t r :
  let s := cancelJobScript id JobStatusCancelled t "Job cancelled by user" r in
  let d := view r in
  if negb (key_exists d (jobKey id)) then s.1 = RInt 0 ∧ view s.2 = d
  else if cancellable d id then s.1 = RInt 1 ∧ view s.2 = cancelled_db id t d
  else s.1 = RInt (-1) ∧ view s.2 = d.
Proof.
  cbv zeta. unfold cancelJobScript.
  pose proof (exec_reply (EXISTS (jobKey id)) r) as Hr1.
  pose proof (exec_eff (EXISTS (jobKey id)) r) as He1.
  destruct (exec (EXISTS (jobKey id)) r) as [p1 r1]. cbn [fst snd db_eff db_reply] in *. subst p1.
  destruct (key_exists (view r) (jobKey id)); cbn [negb reply_int Z.eqb]; [|done].
  pose proof (exec_reply (HGET (jobKey id) "status") r1) as Hr2.
  pose proof (exec_eff (HGET (jobKey id) "status") r1) as He2.
  destruct (exec (HGET (jobKey id) "status") r1) as [p2 r2]. cbn [fst snd db_eff db_reply] in *.
  rewrite He1 in *. subst p2.
  unfold cancellable, cancelled_db, status_of.
  destruct (hash (view r) (jobKey id) !! "status") as [st|]; cbn [default].
  - destruct (decide (st = "queued")) as [->|Hq]; [|destruct (decide (st = "processing")) as [->|Hp]].
    + rewrite !bool_decide_eq_true_2 by set_solver. cbn [negb andb fst snd].
      by rewrite !view_eff, He2.
    + rewrite (bool_decide_eq_false_2 (_ = "queued")) by done.
      rewrite !bool_decide_eq_true_2 by set_solver. cbn [negb andb fst snd].
      by rewrite !view_eff, He2.
    + rewrite !bool_decide_eq_false_2 by set_solver. done.
  - cbn. done.
Qed.

Lemma cancelled_obs id t d :
  hash (cancelled_db id t d) (jobKey id) !! "status" = Some JobStatusCancelled ∧
  hash (cancelled_db id t d) (jobKey id) !! "failed_at" = Some t ∧
  hash (cancelled_db id t d) (jobKey id) !! "error" = Some "Job cancelled by user" ∧
  (∀ k, k ≠ jobKey id → hash (cancelled_db id t d) k = hash d k) ∧
  (∀ x s, x ∈ rset (cancelled_db id t d) (statusKey s) ↔
     (x ∈ rset d (statusKey s) ∧ ¬ (s ∈ ["queued"; "processing"] ∧ x = id)) ∨
     (s = "cancelled" ∧ x = id)) ∧
  (∀ k, rlist (cancelled_db id t d) k =
     if decide (status_of d id = "queued" ∧ k = jobQueueKey)
     then remove_first id (rlist d k) else rlist d k).
Proof.
  unfold cancelled_db. set (h := <["status" := _]> _).
  assert (Hh : ∀ k, hash (set_hash (jobKey id) (h ∪ hash d (jobKey id)) d) k =
    if decide (k = jobKey id) then h ∪ hash d k else hash d k).
  { intros k. case_decide; subst; by autorewrite with rdb. }
  assert (Hd : ∀ k, hash (cancelled_db id t d) k =
    hash (set_hash (jobKey id) (h ∪ hash d (jobKey id)) d) k).
  { intros k. unfold cancelled_db. by case_decide. }
  unfold cancelled_db in Hd. fold h in Hd. rewrite !Hd, Hh, !decide_True by done.
  split_and!; try (apply lookup_union_Some_l; unfold h; by vm_compute).
  - intros k Hk. by rewrite Hd, Hh, decide_False.
  - intros x s.
    assert (Hk : ∀ a b, statusKey a = statusKey b ↔ a = b)
      by (intros; split; [apply (inj statusKey)|congruence]).
    transitivity (x ∈ rset (db_eff (SADD (statusKey "cancelled") id)
      (db_eff (SREM (statusKey "processing") id) (db_eff (SREM (statusKey "queued") id)
        (set_hash (jobKey id) (h ∪ hash d (jobKey id)) d)))) (statusKey s)).
    { by case_decide. }
    rewrite elem_of_SADD, !elem_of_SREM, !Hk, rset_set_hash, !elem_of_cons, elem_of_nil.
    naive_solver.
  - intros k. case_decide as Hst; cbn [db_eff].
    + destruct (decide (k = jobQueueKey)) as [->|Hk].
      * rewrite decide_True by done. by autorewrite with rdb.
      * rewrite decide_False by tauto. by autorewrite with rdb.
    + rewrite decide_False by tauto. by autorewrite with rdb.
Qed.

Lemma cancelled_sound id t d :
  cancellable d id = true → status_sound d → status_sound (cancelled_db id t d).
Proof.
  intros Hc%bool_decide_eq_true_1 Hs.
  destruct (cancelled_obs id t d) as (H1 & _ & _ & H2 & H3 & _). intros x s.
  rewrite H3. intros [[Hin Hn]|[-> ->]]; [|done]. destruct (Hs x s Hin) as [Hne Hst].
  split; [done|]. destruct (decide (x = id)) as [->|Hx].
  - exfalso. apply Hn. split; [|done]. unfold status_of in Hc. rewrite Hst in Hc. done.
  - rewrite H2; [done|]. intros ?%(inj jobKey). done.
Qed.

Lemma CancelJob_healthy id w :
  healthy w →
  let t := Format (time_Now w) in
  wp (CancelJob id) (λ r w', healthy w' ∧
    if negb (key_exists (db w) (jobKey id))
    then r = Err (ENew ("job not found: " +:+ id)) ∧ db w' = db w
    else if cancellable (db w) id then r = Ok tt ∧ db w' = cancelled_db id t (db w)
    else r = Err (ENew "cannot cancel job: not in a queued or processing state") ∧
         db w' = db w) w.
Proof.
  intros Hh. cbv zeta. unfold CancelJob. apply wp_bind, wp_reading.
  apply wp_bind, wp_errorf, hwp_redisDo_roundtrip; [done|]. intros w' Hh' Hc Hd.
  pose proof (view_cancelJobScript id (Format (time_Now w)) (w_db w)) as Hs. cbv zeta in Hs.
  fold (db w) in Hs.
  destruct (key_exists (db w) (jobKey id)); cbn [negb] in *; [destruct (cancellable (db w) id)|];
    destruct Hs as [Hr Hs]; rewrite Hr, Hs in *; cbn; done.
Qed.

(** Cancellation.  With Redis reachable, cancelling an unknown job or one
    that is neither queued nor processing fails and changes nothing.  Otherwise it
    succeeds: the hash says cancelled with the time and reason, the job is listed
    under the cancelled status and under neither of the other two, a queued job
    loses its first place in the main queue, and no other list and no other job's
    hash or status changes. *)
Theorem cancel_spec (id : string) (w : world) :
  healthy w →
  let r := (CancelJob id w).1 in
  let d := db w in
  let d' := db (CancelJob id w).2 in
  if negb (key_exists d (jobKey id) && cancellable d id)
  then failed r ∧ d' = d
  else r = Ok tt ∧ status_of d' id = JobStatusCancelled ∧
       hash d' (jobKey id) !! "failed_at" = Some (Format (time_Now w)) ∧
       (∀ k, k ≠ jobKey id → hash d' k = hash d k) ∧
       id ∈ rset d' (statusKey "cancelled") ∧ id ∉ rset d' (statusKey "queued") ∧
       id ∉ rset d' (statusKey "processing") ∧
       (∀ x s, x ≠ id → x ∈ rset d' (statusKey s) ↔ x ∈ rset d (statusKey s)) ∧
       (∀ k, rlist d' k = if decide (status_of d id = "queued" ∧ k = jobQueueKey)
                          then remove_first id (rlist d k) else rlist d k).
Proof.
  intros Hh. cbv zeta. pose proof (CancelJob_healthy id w Hh) as Hw. unfold wp in Hw.
  destruct (CancelJob id w) as [r w']; cbn [fst snd] in *. destruct Hw as [_ Hw].
  destruct (key_exists (db w) (jobKey id)); cbn [negb andb] in *;
    [destruct (cancellable (db w) id)|]; cbn [negb]; destruct Hw as [-> ->]; try done.
  destruct (cancelled_obs id (Format (time_Now w)) (db w)) as (H1 & H2 & _ & H4 & H5 & H6).
  split_and!; try done; [unfold status_of; by rewrite H1| | | |].
  all: try (intros x s Hx; rewrite H5). all: try rewrite H5. all: set_solver.
Qed.

(** *** Soundness of the status sets *)

(** The operations that write statuses. *)
Inductive jop :=
  | JUpdate (job : ScanJob)
  | JCancel (id : string)
  | JDead (id : string)
  | JEnqueue (job : ScanJob).

Definition run_jop (op : jop) : M unit :=
  match op with
  | JUpdate job => UpdateJob job
  | JCancel id => CancelJob id
  | JDead id => MoveToDLQ id
  | JEnqueue job => EnqueueJobAtomic job
  end.

(** A publication is for a job that is listed under no other status: a fresh
    identifier, or one taken off the dead-letter queue. *)
Definition jop_ok (op : jop) (d : rdb) : Prop :=
  match op with
  | JUpdate job => Status job ≠ ""
  | JEnqueue job => Status job ≠ "" ∧ ∀ s, ID job ∈ rset d (statusKey s) → s = Status job
  | _ => True
  end.

Lemma published_sound job d :
  jop_ok (JEnqueue job) d → status_sound d → status_sound (published job d).
Proof.
  intros [Hne Hok] Hs id s. destruct (published_obs job d) as (_ & _ & H1 & H2).
  rewrite H1, H2. intros Hin. destruct (decide (id = ID job)) as [->|Hid].
  - rewrite (decide_True (P := jobKey _ = jobKey _)) by done.
    rewrite (proj1 (proj2 (stored_fields _ job))).
    case_decide as Hk; [apply (inj statusKey) in Hk; naive_solver|].
    rewrite <- (Hok s Hin). destruct (Hs _ _ Hin). done.
  - rewrite (decide_False (P := jobKey _ = jobKey _)) by (intros ?%(inj jobKey); done).
    apply Hs. case_decide; set_solver.
Qed.

Lemma dead_sound id r :
  status_sound (view r) → status_sound (view (moveToDLQScript id r).2).
Proof.
  intros Hs x s. unfold moveToDLQScript. cbn [snd]. rewrite !view_eff.
  rewrite !elem_of_SREM. cbn [db_eff]. rewrite rset_set_list. intros [[[Hin _] _] _].
  destruct (Hs x s Hin). done.
Qed.

Lemma run_jop_sound op w :
  healthy w → status_sound (db w) → jop_ok op (db w) →
  wp (run_jop op) (λ _ w', healthy w' ∧ status_sound (db w')) w.
Proof.
  intros Hh Hs Hok. destruct op as [job|id|id|job]; cbn [run_jop].
  - eapply wp_mono; [|by apply UpdateJob_healthy].
    intros r w' (_ & Hh' & _ & ->). split; [done|]. by apply updated_sound.
  - eapply wp_mono; [|by apply CancelJob_healthy]. intros r w' [Hh' Hd]. split; [done|].
    destruct (negb _); [by destruct Hd as [_ ->]|].
    destruct (cancellable (db w) id) eqn:Hc; destruct Hd as [_ ->]; [|done].
    by apply cancelled_sound.
  - apply wp_bind, wp_errorf, hwp_redisDo_roundtrip; [done|]. intros w' Hh' _ Hd.
    apply wp_ret. split; [done|]. rewrite Hd. by apply dead_sound.
  - apply wp_bind, wp_errorf, hwp_redisDo_roundtrip; [done|]. intros w' Hh' _ Hd.
    apply wp_ret. split; [done|]. rewrite Hd, view_publish. by apply published_sound.
Qed.

(** Runs of status-writing operations, each admissible where it is issued. *)
Inductive jruns : world → world → Prop :=
  | jruns_nil w : jruns w w
  | jruns_cons op w w' : jop_ok op (db w) → jruns (run_jop op w).2 w' → jruns w w'.


End status.

(** A job on its way: published, picked up, completed. *)
Definition job_with (st : string) : ScanJob :=
  mk_job "job-1" st "/tmp/a.apk" "apk" "a.apk" (mk_time 1700000000000000000 0) None None None
    "" "" "" "" 0 "" "" 0 "" "" ∅.

Lemma rset_empty_rdb k : rset empty_rdb k = ∅.
Proof. unfold rset, empty_rdb. simpl. by rewrite lookup_empty. Qed.

Lemma empty_status_sound : status_sound empty_rdb.
Proof. intros id s H. rewrite rset_empty_rdb in H. by apply not_elem_of_empty in H. Qed.


Definition queued_world : world :=
  mem_world (set_list jobQueueKey ["job-0"; "job-1"] (set_set (statusKey "queued") {["job-1"]}
    (set_hash (jobKey "job-1") {["status" := "queued"]} empty_rdb))) [] 0.

Lemma cancel_spec_witness :
  healthy queued_world ∧ (CancelJob "job-1" queued_world).1 = Ok tt ∧
  rlist (db (CancelJob "job-1" queued_world).2) jobQueueKey = ["job-0"].
Proof.
  split; [done|].
  assert (Hb : negb (key_exists (db queued_world) (jobKey "job-1") &&
    cancellable (db queued_world) "job-1") = false) by (by vm_compute).
  pose proof (cancel_spec "job-1" queued_world ltac:(done)) as H. cbv zeta in H. rewrite Hb in H.
  destruct H as (H1 & _ & _ & _ & _ & _ & _ & _ & H2).
  split; [exact H1|]. rewrite (H2 jobQueueKey). by vm_compute.
Defined.

(** ** Reading back, and the dead-letter retry *)

Section retry.
Context `{S : RedisServer} `{!RedisLaws S} {codec : MapCodec}.
Implicit Types w : world.

Lemma GetJob_healthy id w :
  healthy w →
  wp (GetJob id) (λ r w', healthy w' ∧ same_clock w w' ∧ db w' = db w ∧
    r = if decide (hash (db w) (jobKey id) = ∅) then Err (ENew ("job not found: " +:+ id))
        else Ok (read_hash (hash (db w) (jobKey id)))) w.
Proof.
  intros Hh. unfold GetJob. apply wp_bind, wp_errorf, hwp_redisDo_command; [done|].
  intros p w' Hh' Hc Hd Hp. cbn [db_eff db_reply] in Hp, Hd. subst p. unfold wp.
  case_decide; by split_and!.
Qed.

Lemma stored_nonempty h j : stored h j ≠ ∅.
Proof.
  intros H. destruct (stored_fields h j) as [Hid _]. rewrite H, lookup_empty in Hid. done.
Qed.

(** Read your writes.  With Redis reachable, a job fetched right after an
    update is found and carries the values just written for its identity, status,
    error, worker and retry count and for the presence of its time stamps,
    whatever the hash held before. *)
Theorem update_then_get (job : ScanJob) (w : world) :
  healthy w → job_ok job →
  let w1 := (UpdateJob job w).2 in
  ∃ j, (GetJob (ID job) w1).1 = Ok j ∧ ID j = ID job ∧ Status j = Status job ∧
       JobError j = JobError job ∧ WorkerID j = WorkerID job ∧ RetryCount j = RetryCount job ∧
       StartedAt j = truncate_sec <$> StartedAt job ∧
       FailedAt j = truncate_sec <$> FailedAt job.
Proof.
  intros Hh (Hcr & Hst & Hcm & Hfa & Hrc & _). cbv zeta.
  destruct (UpdateJob_healthy job w Hh) as (_ & Hh1 & _ & Hd1).
  destruct (GetJob_healthy (ID job) _ Hh1) as (_ & _ & _ & Hr).
  rewrite Hr, Hd1, updated_hash, (decide_True (P := jobKey _ = jobKey _)) by done.
  rewrite decide_False by apply stored_nonempty.
  eexists; split; [done|].
  destruct (stored_fields (hash (db w) (jobKey (ID job))) job) as (E1%lookup_VStr & E2%lookup_VStr &
    E3%lookup_VStr & E4%lookup_VStr & E5%lookup_VStr & _ & E7%lookup_VStr & _ & E9%lookup_VStr & _).
  unfold read_hash, FromMap; simpl. unfold get_str.
  split_and!; try (by simplify_map_eq); eauto using get_int_itoa, get_time_ptr_format.
Qed.

Lemma remove_script_spec id r :
  let s := retryDLQRemoveScript id r in
  if decide (id ∈ rlist (view r) dlqKey)
  then s.1 = RInt 1 ∧ view s.2 = set_list dlqKey (remove_first id (rlist (view r) dlqKey)) (view r)
  else s.1 = RInt 0 ∧ view s.2 = set_list dlqKey (rlist (view r) dlqKey) (view r).
Proof.
  cbv zeta. unfold retryDLQRemoveScript.
  pose proof (exec_reply (LREM1 dlqKey id) r) as Hr. pose proof (exec_eff (LREM1 dlqKey id) r) as He.
  destruct (exec (LREM1 dlqKey id) r) as [p r']. cbn in *. subst p. case_decide.
  - rewrite bool_decide_eq_true_2 by done. cbn. done.
  - rewrite bool_decide_eq_false_2 by done. cbn. split; [done|].
    by rewrite He, remove_first_notin.
Qed.

Lemma RetryDLQJob_healthy id w :
  healthy w →
  let h := hash (db w) (jobKey id) in
  let d1 := set_list dlqKey (remove_first id (rlist (db w) dlqKey)) (db w) in
  wp (RetryDLQJob id) (λ r w', healthy w' ∧
    if decide (id ∈ rlist (db w) dlqKey) then
      if decide (h = ∅) then failed r ∧ db w' = d1
      else r = Ok tt ∧ db w' = published (reset_job (read_hash h)) d1
    else r = Err (ENew ("job not found in DLQ: " +:+ id)) ∧ absq (db w') ≡ absq (db w)) w.
Proof.
  intros Hh. cbv zeta. unfold RetryDLQJob. apply wp_bind, wp_errorf, hwp_redisDo_roundtrip; [done|].
  intros w1 Hh1 Hc1 Hd1. pose proof (remove_script_spec id (w_db w)) as Hs. cbv zeta in Hs.
  fold (db w) in Hs. destruct (decide (id ∈ rlist (db w) dlqKey)) as [Hin|Hin];
    destruct Hs as [Hr Hs]; rewrite Hr; rewrite Hs in Hd1; cbn [reply_int Z.eqb].
  - apply wp_bind, wp_errorf. eapply wp_mono; [|by apply GetJob_healthy].
    intros r w2 (Hh2 & _ & Hd2 & ->). rewrite Hd1, hash_set_list in *.
    destruct (decide (hash (db w) (jobKey id) = ∅)); [done|].
    apply wp_errorf, wp_bind, wp_errorf, hwp_redisDo_roundtrip; [done|].
    intros w3 Hh3 _ Hd3. apply wp_ret. split_and!; [done..|].
    rewrite Hd3, view_publish. fold (db w2). by rewrite Hd2.
  - apply wp_throw. split_and!; [done..|]. rewrite Hd1, absq_set_dlq. done.
Qed.

(** A dead-lettered job is retried once.  With Redis reachable, retrying a
    job that is on the dead-letter queue takes one occurrence off it, publishes
    the job at the tail of the main queue with status queued and a zero retry
    count, and touches no in-flight list; when that was the only occurrence, a
    second retry fails without queueing it again. *)
Theorem retry_dlq_once (id : string) (w : world) :
  healthy w → id ∈ rlist (db w) dlqKey → hash (db w) (jobKey id) !! "id" = Some id →
  let w1 := (RetryDLQJob id w).2 in
  (RetryDLQJob id w).1 = Ok tt ∧
  rlist (db w1) dlqKey = remove_first id (rlist (db w) dlqKey) ∧
  rlist (db w1) jobQueueKey = rlist (db w) jobQueueKey ++ [id] ∧
  (∀ wk, rlist (db w1) (processingKey wk) = rlist (db w) (processingKey wk)) ∧
  status_of (db w1) id = JobStatusQueued ∧
  hash (db w1) (jobKey id) !! "retry_count" = Some "0" ∧
  (count_occ_dec id (rlist (db w) dlqKey) = 1%nat →
   failed (RetryDLQJob id w1).1 ∧ absq (db (RetryDLQJob id w1).2) ≡ absq (db w1)).
Proof.
  intros Hh Hin Hid. cbv zeta.
  pose proof (RetryDLQJob_healthy id w Hh) as H1. unfold wp in H1.
  rewrite decide_True in H1 by done.
  set (h := hash (db w) (jobKey id)) in *.
  assert (Hne : h ≠ ∅) by (intros E; by rewrite E, lookup_empty in Hid).
  rewrite decide_False in H1 by done.
  destruct (RetryDLQJob id w) as [r w1]; cbn [fst snd] in *.
  destruct H1 as (Hh1 & -> & Hd1).
  set (job := reset_job (read_hash h)) in *.
  assert (Hjid : ID job = id).
  { unfold job, read_hash, FromMap, get_str. simpl. by rewrite lookup_fmap, Hid. }
  destruct (published_obs job (set_list dlqKey (remove_first id (rlist (db w) dlqKey)) (db w)))
    as (Hl & Hm & _ & Hx).
  rewrite Hjid in *.
  assert (Hdlq : rlist (db w1) dlqKey = remove_first id (rlist (db w) dlqKey)).
  { rewrite Hd1, Hl by done. by autorewrite with rdb. }
  split_and!; [done|done| | | | |].
  - rewrite Hd1, Hm. by autorewrite with rdb.
  - intros wk. rewrite Hd1, Hl by auto with morf. by autorewrite with rdb.
  - unfold status_of. rewrite Hd1, Hx, decide_True by done.
    by rewrite (proj1 (proj2 (stored_fields _ job))).
  - rewrite Hd1, Hx, decide_True by done.
    destruct (stored_fields (hash (set_list dlqKey (remove_first id (rlist (db w) dlqKey)) (db w))
      (jobKey id)) job) as (_&_&_&_&->&_). done.
  - intros Hone. pose proof (RetryDLQJob_healthy id w1 Hh1) as H2. unfold wp in H2.
    rewrite decide_False in H2.
    + destruct H2 as (_ & Hf & Ha). split; [by rewrite Hf|done].
    + rewrite Hdlq, count_occ_pos, remove_first_count, decide_True by done. lia.
Qed.

End retry.

Lemma update_then_get_witness :
  let w := mem_world empty_rdb [] 0 in
  healthy w ∧ job_ok sample_job ∧
  ∃ j, (GetJob "job-1" (UpdateJob sample_job w).2).1 = Ok j ∧ Status j = JobStatusProcessing.
Proof.
  intros w. split; [done|]. split; [exact sample_job_ok|].
  destruct (update_then_get sample_job w ltac:(done) sample_job_ok) as (j & Hj & _ & Hs & _).
  exists j. split; [exact Hj|exact Hs].
Defined.

(** A dead-lettered job, reachable by the queue's own operations. *)
Definition dead_world : world :=
  (run_jop (JDead "job-1") (run_jop (JUpdate (job_with "failed"))
     (run_op (OpPop "wk") (run_jop (JEnqueue (job_with "queued")) (mem_world empty_rdb [] 0)).2).2).2).2.

Lemma dead_world_healthy : healthy dead_world.
Proof. by vm_compute. Qed.

Lemma retry_dlq_once_witness :
  healthy dead_world ∧ rlist (db dead_world) dlqKey = ["job-1"] ∧
  (RetryDLQJob "job-1" dead_world).1 = Ok tt ∧
  rlist (db (RetryDLQJob "job-1" dead_world).2) jobQueueKey = ["job-1"] ∧
  failed (RetryDLQJob "job-1" (RetryDLQJob "job-1" dead_world).2).1.
Proof.
  split; [exact dead_world_healthy|]. split; [by vm_compute|].
  destruct (retry_dlq_once "job-1" dead_world) as (H1 & _ & H2 & _ & _ & _ & H3);
    [exact dead_world_healthy|apply (bool_decide_unpack _); by vm_compute|by vm_compute|].
  split; [exact H1|]. split; [rewrite H2; by vm_compute|].
  apply H3. by vm_compute.
Defined.

(** ** Where a failed round trip loses a job *)

(** A requeue is not atomic.  [RequeueProcessing] removes the job from the
    in-flight list and pushes it in two round trips; when the push fails after
    the removal, the job is in no list at all. *)
Theorem requeue_can_lose_job :
  let w := mem_world (set_list (processingKey "wk") ["job-1"] empty_rdb) [NetOk; RequestLost] 0 in
  let w' := (RequeueProcessing "wk" "job-1" w).2 in
  total ["wk"] "job-1" (absq (db w)) = 1%nat ∧
  failed (RequeueProcessing "wk" "job-1" w).1 ∧
  total ["wk"] "job-1" (absq (db w')) = 0%nat.
Proof. by vm_compute. Qed.

(** A dead-letter retry is not atomic.  When fetching the job fails after it
    was taken off the dead-letter queue, the retry reports an error and the job is
    in no list at all: a second retry does not find it either. *)
Theorem retry_can_lose_job :
  let w := set_net [NetOk; RequestLost] dead_world in
  let w' := (RetryDLQJob "job-1" w).2 in
  total [] "job-1" (absq (db w)) = 1%nat ∧ failed (RetryDLQJob "job-1" w).1 ∧
  total [] "job-1" (absq (db w')) = 0%nat ∧
  (RetryDLQJob "job-1" w').1 = Err (ENew "job not found in DLQ: job-1").
Proof. by vm_compute. Qed.
