(* ===== verification/Reaper.v ===== *)
(** * The dead-worker reaper ([queue/reaper.go])

    One sweep over the registered workers: a worker whose heartbeat is older than
    the threshold has its in-flight jobs put back on the main queue and its
    registration deleted. *)
From S2P Require Import Prelude GoStr GoErr GoTime Breaker ScanJob Redis Wp Queue QueueSpec.

Local Open Scope Z_scope.

Definition reaperScanCount : Z := 100.

(** [staleAfter / 2] truncates towards zero. *)
Definition reaperInterval (staleAfter : Z) : Z :=
  let interval := Z.quot staleAfter 2 in
  if interval <? seconds 1 then seconds 1 else interval.

(** [time.Since]: the difference saturates at the range of a duration. *)
Definition saturate (z : Z) : Z := Z.max int64_min (Z.min int64_max z).
Definition Since (now last : gotime) : Z := saturate (t_ns now - t_ns last).

Section reaper.
Context `{S : RedisServer}.

Definition reapWorker (wkey : string) (staleAfter : Z) : M unit :=
  let workerID := TrimPrefix wkey workerKeyPrefix in
  if bool_decide (workerID = wkey) || bool_decide (workerID = "") then mret tt else
  hb ← attempt (command (HGET wkey "last_heartbeat"));
  match hb with
  | Ok (RStr s) =>
      match Parse s with
      | None => mret tt
      | Some last =>
          now ← reading time_Now;
          if Since now last <? staleAfter then mret tt else
          ids ← attempt (command (LRANGE (processingKey workerID) 0 (-1)));
          match ids with
          | Err _ => mret tt
          | Ok p =>
              _ ← for_each (λ jobID, ignore (RequeueProcessing workerID jobID)) (reply_arr p);
              ignore (command (DEL wkey))
          end
      end
  | _ => mret tt
  end.

(** The [SCAN] loop; [None] when the fuel runs out before the cursor returns to
    zero. *)
Fixpoint reap_loop (fuel : nat) (cursor staleAfter : Z) : M (option unit) :=
  match fuel with
  | O => mret None
  | Datatypes.S fuel' =>
      p ← command (SCAN cursor workerKeyPrefix reaperScanCount);
      match p with
      | RScan next keys =>
          _ ← for_each (λ k, reapWorker k staleAfter) keys;
          if next =? 0 then mret (Some tt) else reap_loop fuel' next staleAfter
      | _ => mret (Some tt)
      end
  end.

Definition reapOnce (fuel : nat) (staleAfter : Z) : M (option unit) :=
  reap_loop fuel 0 staleAfter.

(** One tick of [StartReaper]: the sweep, then the status-set trim; errors are
    logged. *)
Definition reaper_tick (fuel : nat) (staleAfter : Z) : M unit :=
  _ ← ignore (reapOnce fuel staleAfter);
  ignore TrimTerminalStatusSets.

End reaper.

(** ** Facts *)

Lemma TrimPrefix_workerKey id : TrimPrefix (workerKey id) workerKeyPrefix = id.
Proof. unfold TrimPrefix, workerKey. by rewrite strip_prefix_app. Qed.

Lemma workerKey_ne id : workerKey id ≠ id.
Proof.
  intros E. apply (f_equal String.length) in E. unfold workerKey in E.
  rewrite string_length_app in E. simpl in E. lia.
Qed.

Lemma rlist_del_key k k' d : k ≠ k' → rlist (del_key k d) k' = rlist d k'.
Proof. intros. unfold rlist, del_key; simpl. by rewrite lookup_delete_ne. Qed.

Lemma hash_del_key k d : hash (del_key k d) k = ∅.
Proof. unfold hash, del_key; simpl. by rewrite lookup_delete_eq. Qed.

Lemma absq_del_worker id d : absq (del_key (workerKey id) d) ≡ absq d.
Proof. split_and!; simpl; intros; by rewrite rlist_del_key. Qed.

Lemma lrange_all l : lrange l 0 (-1) = l.
Proof.
  unfold lrange. simpl. destruct l as [|x l]; [done|].
  rewrite Z.max_id. destruct (Z.ltb_spec (Z.of_nat (length (x :: l)) + -1) 0); [simpl in *; lia|].
  apply take_ge. simpl. lia.
Qed.

Section reaper_facts.
Context `{S : RedisServer} `{!RedisLaws S} {codec : MapCodec}.
Implicit Types w : world.

(** The queue after a worker's whole in-flight list is put back in order. *)
Definition drained (wk : string) (q : aqueue) : aqueue :=
  upd_proc wk [] (mk_aq (a_main q ++ a_proc q wk) (a_dlq q) (a_proc q)).

Lemma requeue_all wk l w :
  healthy w → rlist (db w) (processingKey wk) = l →
  wp (for_each (λ j, ignore (RequeueProcessing wk j)) l)
     (λ r w', r = Ok tt ∧ healthy w' ∧ same_clock w w' ∧
              absq (db w') ≡ drained wk (absq (db w))) w.
Proof.
  revert w. induction l as [|j l IH]; intros w Hh Hl.
  - apply wp_ret. do 3 (split; [done|]). unfold drained. cbn [absq a_proc a_main].
    rewrite Hl, app_nil_r. split_and!; [done..|]. intros wk'. simpl.
    case_decide; [by subst|done].
  - simpl. apply wp_bind, wp_ignore. apply wp_intro. intros r w1 Er.
    pose proof (run_op_healthy (OpRequeue wk j) w Hh) as Hk.
    destruct (run_op_step (OpRequeue wk j) w Hh) as (w1' & E1 & Hh1 & Ha1).
    assert (w1' = w1 ∧ same_clock w w1) as [-> Hc1].
    { cbn [run_op] in E1, Hk. unfold wp, mbind, M_bind in *. rewrite Er in E1, Hk.
      destruct r as [a|e]; [|done]. split; [|apply Hk]. by injection E1. }
    assert (Hin : j ∈ a_proc (absq (db w)) wk) by (simpl; rewrite Hl; left).
    simpl in Ha1. simpl in Hin. rewrite decide_True in Ha1 by done. destruct Ha1 as (Hm & Hd & Hp). simpl in *.
    eapply wp_mono; [|apply IH; [done|]].
    + intros r2 w2 (-> & Hh2 & Hc2 & Ha2). split_and!; [done..|by etrans|].
      rewrite Ha2. unfold drained. split_and!; simpl; [|done|].
      * rewrite Hm, Hp, decide_True, Hl by done. simpl.
        rewrite decide_True by done. by rewrite <- (assoc_L (++)).
      * intros wk'. rewrite Hp. by repeat case_decide.
    + rewrite Hp, decide_True, Hl by done. simpl. by rewrite decide_True.
Qed.

Lemma Since_stale now t staleAfter :
  0 ≤ staleAfter ≤ int64_max →
  (Since now t <? staleAfter) = (t_ns now - t_ns t <? staleAfter).
Proof.
  unfold Since, saturate, int64_min, int64_max. intros.
  destruct (Z.ltb_spec (t_ns now - t_ns t) staleAfter);
    [apply Z.ltb_lt | apply Z.ltb_ge]; lia.
Qed.

Lemma truncate_bounds t : t_ns t - ns_per_sec < t_ns (truncate_sec t) ≤ t_ns t.
Proof.
  unfold truncate_sec, unix. simpl. unfold ns_per_sec.
  pose proof (Z.div_mod (t_ns t) 1000000000). pose proof (Z.mod_pos_bound (t_ns t) 1000000000). lia.
Qed.

#[local] Opaque Format Parse.

(** A dead worker's jobs come back.  With Redis reachable, reaping a
    registered worker whose heartbeat is at least [staleAfter] old puts every one
    of its in-flight jobs at the tail of the main queue, in the order they were
    taken, empties its in-flight list, leaves all other lists alone and deletes
    the registration. *)
Theorem reap_stale_worker (id : string) (t : gotime) (staleAfter : Z) (w : world) :
  healthy w → id ≠ "" → time_ok t → 0 ≤ staleAfter ≤ int64_max →
  hash (db w) (workerKey id) !! "last_heartbeat" = Some (Format t) →
  staleAfter ≤ w_now w - t_ns t →
  let w' := (reapWorker (workerKey id) staleAfter w).2 in
  healthy w' ∧ absq (db w') ≡ drained id (absq (db w)) ∧ hash (db w') (workerKey id) = ∅.
Proof.
  intros Hh Hid Ht Hs Hhb Hold.
  assert (H : wp (reapWorker (workerKey id) staleAfter)
    (λ _ w', healthy w' ∧ absq (db w') ≡ drained id (absq (db w)) ∧ hash (db w') (workerKey id) = ∅) w);
    [|exact H].
  unfold reapWorker. rewrite TrimPrefix_workerKey.
  rewrite (bool_decide_eq_false_2 (id = workerKey id)) by (intros E; by destruct (workerKey_ne id)).
  rewrite bool_decide_eq_false_2 by done. cbn [orb].
  apply wp_bind, wp_attempt, hwp_command; [done|]. intros p w1 Hh1 [Hc1 _] Hd1 Hp.
  cbn [db_reply db_eff] in *. rewrite Hhb in Hp. subst p. rewrite Parse_Format by done.
  apply wp_bind, wp_reading. rewrite Since_stale by done. cbn [t_ns time_Now]. rewrite Hc1.
  pose proof (truncate_bounds t). destruct (Z.ltb_spec (w_now w - t_ns (truncate_sec t)) staleAfter); [lia|].
  apply wp_bind, wp_attempt, hwp_command; [done|]. intros p w2 Hh2 _ Hd2 Hp.
  cbn [db_reply db_eff] in *. rewrite lrange_all, Hd1 in Hp. subst p. cbn [reply_arr].
  rewrite Hd1 in Hd2. apply wp_bind. eapply wp_mono; [|apply requeue_all; [done|by rewrite Hd2]].
  intros r w3 (-> & Hh3 & _ & Ha3). apply wp_ignore, hwp_command; [done|].
  intros p w4 Hh4 _ Hd4 _. cbn [db_eff] in Hd4. rewrite Hd4. split_and!; [done| |apply hash_del_key].
  rewrite absq_del_worker. by rewrite Ha3, Hd2.
Qed.

(** A live worker is left alone.  Whatever the network does, reaping a worker
    whose heartbeat, as stored to the second, is less than [staleAfter] old
    changes nothing in the database; it is enough that the heartbeat was written
    at most [staleAfter] minus one second ago. *)
Theorem reap_live_worker (id : string) (t : gotime) (staleAfter : Z) (w : world) :
  time_ok t → 0 ≤ staleAfter ≤ int64_max →
  hash (db w) (workerKey id) !! "last_heartbeat" = Some (Format t) →
  w_now w - t_ns t ≤ staleAfter - seconds 1 →
  db (reapWorker (workerKey id) staleAfter w).2 = db w.
Proof.
  intros Ht Hs Hhb Hlive.
  assert (H : wp (reapWorker (workerKey id) staleAfter) (λ _ w', db w' = db w) w); [|exact H].
  unfold reapWorker. case_match; [done|].
  apply wp_bind, wp_attempt, wp_command; [done..|].
  intros p w1 Hd1 Hp [Hc1 _]. cbn [db_reply db_eff] in *. rewrite Hhb in Hp. subst p.
  rewrite Parse_Format by done. apply wp_bind, wp_reading.
  rewrite Since_stale by done. cbn [t_ns time_Now]. rewrite Hc1.
  pose proof (truncate_bounds t). unfold seconds in Hlive.
  destruct (Z.ltb_spec (w_now w - t_ns (truncate_sec t)) staleAfter); [done|]. lia.
Qed.

End reaper_facts.

(** A worker that took two jobs at the epoch and was never heard of again, on a
    host whose clock says one minute later. *)
Definition dead_worker_db : rdb :=
  set_list (processingKey "wk") ["job-1"; "job-2"] (set_list jobQueueKey ["job-3"]
    (set_hash (workerKey "wk") {["last_heartbeat" := Format (mk_time 0 0)]} empty_rdb)).

Lemma epoch_ok : time_ok (mk_time 0 0).
Proof. by vm_compute. Qed.

Lemma reap_stale_worker_witness :
  let w := mem_world dead_worker_db [] (minutes 1) in
  healthy w ∧ absq (db (reapWorker (workerKey "wk") (seconds 30) w).2) ≡
    mk_aq ["job-3"; "job-1"; "job-2"] [] (λ _, []).
Proof.
  intros w. split; [done|].
  destruct (reap_stale_worker "wk" (mk_time 0 0) (seconds 30) w) as (_ & H & _);
    [done|done|exact epoch_ok|by vm_compute|by vm_compute|by vm_compute|].
  rewrite H. split_and!; [done..|]. intros wk'. simpl. case_decide; [done|].
  apply rlist_set_list_ne. intros ?%(inj processingKey). done.
Defined.

Lemma reap_live_worker_witness :
  let w := mem_world dead_worker_db [ReplyLost] (seconds 20) in
  db (reapWorker (workerKey "wk") (seconds 30) w).2 = dead_worker_db.
Proof.
  intros w. apply (reap_live_worker "wk" (mk_time 0 0) (seconds 30) w);
    [exact epoch_ok|by vm_compute|by vm_compute|by vm_compute].
Defined.

(** ** Reapers racing on the same worker

    Several processes run [RequeueProcessing] at once; between their two round
    trips anything else may happen.  Each racer is where it is in that function. *)
Inductive racer :=
  | Removing (wk j : string)
  | Pushing (j : string)
  | Returned.

Inductive race_step : rdb * list racer → rdb * list racer → Prop :=
  | race_removed d rs i wk j :
      rs !! i = Some (Removing wk j) → j ∈ rlist d (processingKey wk) →
      race_step (d, rs) (db_eff (LREM1 (processingKey wk) j) d, <[i := Pushing j]> rs)
  | race_missed d rs i wk j :
      rs !! i = Some (Removing wk j) → j ∉ rlist d (processingKey wk) →
      race_step (d, rs) (db_eff (LREM1 (processingKey wk) j) d, <[i := Returned]> rs)
  | race_pushed d rs i j :
      rs !! i = Some (Pushing j) →
      race_step (d, rs) (db_eff (RPUSH jobQueueKey j) d, <[i := Returned]> rs).

(** Jobs a racer holds between its round trips. *)
Definition holding (j : string) (r : racer) : nat :=
  match r with Pushing j' => if decide (j = j') then 1 else 0 | _ => 0 end.

Definition in_transit (ws : list string) (j : string) (c : rdb * list racer) : nat :=
  total ws j (absq c.1) + sum_list_with (holding j) c.2.

Definition racer_of (ws : list string) (r : racer) : Prop :=
  match r with Removing wk _ => wk ∈ ws | _ => True end.

Lemma sum_insert {A} (f : A → nat) (l : list A) i x y :
  l !! i = Some x → (sum_list_with f (<[i := y]> l) + f x = sum_list_with f l + f y)%nat.
Proof.
  revert i. induction l as [|z l IH]; intros [|i] Hi; simplify_eq/=; [lia|].
  specialize (IH i Hi). lia.
Qed.

Lemma total_push ws j j' d :
  total ws j (absq (db_eff (RPUSH jobQueueKey j') d)) =
  (total ws j (absq d) + if decide (j = j') then 1 else 0)%nat.
Proof.
  rewrite (total_proper ws j _ _ (absq_push j' d)). unfold total. simpl.
  rewrite count_occ_app, count_occ_cons, count_occ_nil. lia.
Qed.

Lemma total_remove ws wk j j' d :
  NoDup ws → wk ∈ ws → j' ∈ rlist d (processingKey wk) →
  (total ws j (absq (db_eff (LREM1 (processingKey wk) j') d)) +
   (if decide (j = j') then 1 else 0))%nat = total ws j (absq d).
Proof.
  intros Hnd Hwk Hin. rewrite (total_proper ws j _ _ (absq_ack wk j' d)).
  pose proof (sum_upd_proc ws wk (remove_first j' (a_proc (absq d) wk)) (absq d)
    (count_occ_dec j) Hnd Hwk) as Hs.
  unfold total. cbn [a_step snd upd_proc a_main a_dlq]. rewrite remove_first_count in Hs.
  apply count_occ_pos in Hin. cbn [a_proc a_main a_dlq absq upd_proc] in Hs |- *.
  destruct (decide (j = j')), (decide (j' = j)); subst; try congruence; lia.
Qed.

Lemma race_step_in_transit ws j c c' :
  NoDup ws → Forall (racer_of ws) c.2 → race_step c c' →
  in_transit ws j c' = in_transit ws j c ∧ Forall (racer_of ws) c'.2.
Proof.
  intros Hnd Hr Hs. destruct Hs as [d rs i wk j' Hi Hin|d rs i wk j' Hi Hin|d rs i j' Hi];
    cbn [fst snd] in *; unfold in_transit; cbn [fst snd];
    (split; [|by apply Forall_insert]).
  - pose proof (sum_insert (holding j) rs i _ (Pushing j') Hi) as Hsum. simpl in Hsum.
    pose proof (Forall_lookup_1 _ _ _ _ Hr Hi) as Hwk. simpl in Hwk.
    pose proof (total_remove ws wk j j' d Hnd Hwk Hin). lia.
  - pose proof (sum_insert (holding j) rs i _ Returned Hi) as Hsum. simpl in Hsum.
    rewrite (total_proper _ _ _ _ (absq_requeue_miss wk j' d Hin)). lia.
  - pose proof (sum_insert (holding j) rs i _ Returned Hi) as Hsum. simpl in Hsum.
    rewrite total_push. lia.
Qed.

(** Concurrent reapers are safe.  In every interleaving of any number of
    concurrent requeues, over any workers and jobs, every job is accounted for
    exactly once: in some list, or in the hands of a process between its removal
    and its push.  When all have returned nothing was lost or duplicated. *)
Theorem concurrent_requeues_conserve (ws : list string) (j : string) (d : rdb) (rs : list racer)
    (d' : rdb) (rs' : list racer) :
  NoDup ws → Forall (racer_of ws) rs → rtc race_step (d, rs) (d', rs') →
  in_transit ws j (d', rs') = in_transit ws j (d, rs) ∧
  (Forall (λ r, ∃ wk j, r = Removing wk j) rs → Forall (λ r, r = Returned) rs' →
   total ws j (absq d') = total ws j (absq d)).
Proof.
  intros Hnd Hr Hs.
  assert (H : in_transit ws j (d', rs') = in_transit ws j (d, rs)).
  { remember (d, rs) as c eqn:Hc. assert (Forall (racer_of ws) c.2) as Hrc by (by subst).
    clear Hc Hr d rs. induction Hs as [c|c1 c2 c3 H12 _ IH]; [done|].
    destruct (race_step_in_transit ws j c1 c2 Hnd Hrc H12) as [E Hr2]. rewrite <- E. auto. }
  split; [done|]. intros H0 H1. unfold in_transit in H. cbn [fst snd] in H.
  assert (sum_list_with (holding j) rs = 0%nat) as E0.
  { clear -H0. induction H0 as [|r rs (wk&j'&->) _ IH]; simpl; [done|]. by rewrite IH. }
  assert (sum_list_with (holding j) rs' = 0%nat) as E1.
  { clear -H1. induction H1 as [|r rs -> _ IH]; simpl; [done|]. by rewrite IH. }
  lia.
Qed.

(** Two reapers on one job: the loser's removal comes between the winner's two
    round trips. *)
Definition race_db : rdb := set_list (processingKey "wk") ["job-1"] empty_rdb.

Lemma concurrent_requeues_conserve_witness :
  ∃ d', rtc race_step (race_db, [Removing "wk" "job-1"; Removing "wk" "job-1"]) (d', [Returned; Returned]) ∧
        total ["wk"] "job-1" (absq d') = 1%nat.
Proof.
  set (d1 := db_eff (LREM1 (processingKey "wk") "job-1") race_db).
  set (d2 := db_eff (LREM1 (processingKey "wk") "job-1") d1).
  exists (db_eff (RPUSH jobQueueKey "job-1") d2).
  assert (Hs : rtc race_step (race_db, [Removing "wk" "job-1"; Removing "wk" "job-1"])
    (db_eff (RPUSH jobQueueKey "job-1") d2, [Returned; Returned])).
  { eapply rtc_l; [apply (race_removed _ _ 0 "wk" "job-1"); [done|]|].
    { apply (bool_decide_unpack _). by vm_compute. }
    eapply rtc_l; [apply (race_missed _ _ 1 "wk" "job-1"); [done|]|].
    { apply (bool_decide_unpack _). by vm_compute. }
    eapply rtc_l; [apply (race_pushed _ _ 0 "job-1"); done|]. apply rtc_refl. }
  split; [exact Hs|].
  destruct (concurrent_requeues_conserve ["wk"] "job-1" race_db
    [Removing "wk" "job-1"; Removing "wk" "job-1"] _ _
    (NoDup_singleton "wk") ltac:(repeat constructor; set_solver) Hs) as [_ H].
  rewrite H; [by vm_compute| |]; repeat constructor; eauto.
Defined.

(** A failed requeue orphans a job.  When the removal of an in-flight job
    fails during a sweep, the reaper still deletes the dead worker's registration;
    the job stays in the in-flight list, and later sweeps, which start from the
    registrations, never see it again. *)
Theorem reaper_can_orphan_job :
  let w := mem_world dead_worker_db [NetOk; NetOk; NetOk; RequestLost; RequestLost] (minutes 1) in
  let w1 := (reapOnce 5 (seconds 30) w).2 in
  let w2 := (reapOnce 5 (seconds 30) w1).2 in
  (reapOnce 5 (seconds 30) w).1 = Ok (Some tt) ∧
  rlist (db w1) (processingKey "wk") = ["job-1"; "job-2"] ∧ healthy w1 ∧
  (reapOnce 5 (seconds 30) w1).1 = Ok (Some tt) ∧
  rlist (db w2) (processingKey "wk") = ["job-1"; "job-2"].
Proof. by vm_compute. Qed.
