(* ===== verification/Worker.v ===== *)
(** * The worker ([worker/worker.go])

    What a worker does with one popped job: the idempotency and lease checks, the
    terminal transitions of success and failure, the retry and dead-letter
    decision and the acknowledgement.  The scan itself, together with everything
    other processes do while it runs, is a parameter: an arbitrary transformation
    of the world.  Effects outside Redis are recorded as events. *)
From S2P Require Import Prelude GoStr GoErr GoTime Breaker Retry ScanJob Redis Wp Queue QueueSpec JobLife.

Local Open Scope Z_scope.

(** ** [time.Duration.String] *)

(** Digits of a fraction of [width] digits, trailing zeros dropped. *)
Fixpoint frac_digits (width : nat) (v : Z) (acc : string) : string :=
  match width with
  | O => acc
  | S n => let d := v mod 10 in
           frac_digits n (v / 10)
             (if bool_decide (acc = "") && (d =? 0) then "" else String (digit d) acc)
  end.

Definition fmt_frac (width : nat) (whole frac : Z) : string :=
  let f := frac_digits width frac "" in
  utoa whole +:+ (if decide (f = "") then "" else "." +:+ f).

Definition Duration_String (d : Z) : string :=
  let u := Z.abs d in
  (if d <? 0 then "-" else "") +:+
  if u =? 0 then "0s"
  else if u <? 1000 then utoa u +:+ "ns"
  else if u <? 1000000 then fmt_frac 3 (u / 1000) (u mod 1000) +:+ "µs"
  else if u <? ns_per_sec then fmt_frac 6 (u / 1000000) (u mod 1000000) +:+ "ms"
  else
    let secs := u / ns_per_sec in
    let s := fmt_frac 9 (secs mod 60) (u mod ns_per_sec) +:+ "s" in
    let m := secs / 60 mod 60 in
    let h := secs / 3600 in
    if secs <? 60 then s
    else if secs <? 3600 then utoa m +:+ "m" +:+ s
    else utoa h +:+ "h" +:+ utoa m +:+ "m" +:+ s.

(** ** Updates of the job record *)

Definition set_processing (now : gotime) (workerID : string) (j : ScanJob) : ScanJob :=
  mk_job (ID j) JobStatusProcessing (APKPath j) (FileType j) (OriginalFilename j) (CreatedAt j)
    (Some now) (CompletedAt j) (FailedAt j) (JobError j) (Phase j) (Result j) workerID
    (RetryCount j) (WebhookURL j) (WebhookSecret j) (ScanTimeout j) (StorageKey j)
    (RequestID j) (TraceContext j).

Definition set_completed (now : gotime) (result : string) (j : ScanJob) : ScanJob :=
  mk_job (ID j) JobStatusCompleted (APKPath j) (FileType j) (OriginalFilename j) (CreatedAt j)
    (StartedAt j) (Some now) (FailedAt j) (JobError j) (Phase j) result (WorkerID j)
    (RetryCount j) (WebhookURL j) (WebhookSecret j) (ScanTimeout j) (StorageKey j)
    (RequestID j) (TraceContext j).

Definition set_failed (now : gotime) (e : error) (j : ScanJob) : ScanJob :=
  mk_job (ID j) JobStatusFailed (APKPath j) (FileType j) (OriginalFilename j) (CreatedAt j)
    (StartedAt j) (CompletedAt j) (Some now) (Error e) (Phase j) (Result j) (WorkerID j)
    (wrap64 (RetryCount j + 1)) (WebhookURL j) (WebhookSecret j) (ScanTimeout j)
    (StorageKey j) (RequestID j) (TraceContext j).

Definition set_requeued (j : ScanJob) : ScanJob :=
  mk_job (ID j) JobStatusQueued (APKPath j) (FileType j) (OriginalFilename j) (CreatedAt j)
    None (CompletedAt j) (FailedAt j) (JobError j) (Phase j) (Result j) ""
    (RetryCount j) (WebhookURL j) (WebhookSecret j) (ScanTimeout j) (StorageKey j)
    (RequestID j) (TraceContext j).

(** ** Effects outside Redis *)

Inductive event :=
  | EvDelete (key : string)
  | EvWebhook (job : ScanJob) (isFailure : bool)
  | EvSleep (d : Z)
  | EvMetric (name : string).

Section worker.
Context `{S : RedisServer} {codec : MapCodec}.

(** Computations of a worker: they handle their errors and leave events. *)
Definition P (A : Type) : Type := world → A * list event * world.

#[export] Instance P_ret : MRet P := λ A a w, (a, [], w).
#[export] Instance P_bind : MBind P := λ A B f m w,
  let '(a, es, w1) := m w in
  let '(b, es', w2) := f a w1 in (b, es ++ es', w2).

(** A call into the queue, its error returned to the caller. *)
Definition call {A} (m : M A) : P (res A) := λ w, let '(r, w') := m w in (r, [], w').
Definition emit (e : event) : P unit := λ w, (tt, [e], w).
Definition check_lease (jobID workerID : string) : P (bool * option error) := λ w,
  let '(owns, err, w') := CheckJobLease jobID workerID w in ((owns, err), [], w').
Definition now : P gotime := λ w, (time_Now w, [], w).

(** A context-aware sleep: cut short when the pool context is done. *)
Definition sleep (ctx_done : bool) (d : Z) : P unit := λ w,
  if ctx_done then (tt, [], w)
  else (tt, [EvSleep d], mk_world (w_db w) (w_reg w) (w_net w) (w_now w + d) (w_zone w)).

(** ** Parameters of the process *)

Context (workerMaxRetries workerRetryBase workerRetryMaxDur : Z).
(** The artifact store was constructed. *)
Context (have_store : bool).
(** The pool context is done (shutdown). *)
Context (ctx_done : bool).

(** JSON values of a scan result, and [encoding/json] on them. *)
Context {json : Type} (json_str : string → json).
Definition gin_H : Type := gmap string json.
Context (marshal : option gin_H → res string).

Definition scanResultSchemaVersion : string := "1".

(** What a scan returns: a result, an error (with whether the scan's deadline had
    passed), or a panic. *)
Inductive scan_outcome :=
  | Scanned (result : option gin_H)
  | ScanFailed (e : error) (deadline : bool)
  | Panicked (msg : string).

(** [scanIPA] or [scanAPK], and what the rest of the system does meanwhile. *)
Context (scanAPK scanIPA : ScanJob → P scan_outcome).

(** ** Terminal transitions *)

Definition deleteUploadedArtifact (job : ScanJob) : P unit :=
  if decide (StorageKey job = "") then mret tt
  else if have_store then emit (EvDelete (StorageKey job)) else mret tt.

Definition lost_lease (l : bool * option error) : bool :=
  match l with (owns, None) => negb owns | _ => false end.

Definition notify (job : ScanJob) (isFailure : bool) : P unit :=
  if decide (WebhookURL job = "") then mret tt else emit (EvWebhook job isFailure).

Definition handleJobFailure (workerID : string) (job : ScanJob) (err : error) : P bool :=
  l ← check_lease (ID job) workerID;
  if lost_lease l then mret true else
  t ← now;
  let job := set_failed t err job in
  let retryable := isRetryable (Some err) in
  p ← (if retryable && (RetryCount job <? workerMaxRetries) then
         _ ← sleep ctx_done (retryBackoff workerRetryBase workerRetryMaxDur (RetryCount job));
         let job := set_requeued job in
         u ← call (UpdateJob job);
         match u with
         | Ok _ => _ ← call (PushJob (ID job)); mret (true, job)
         | Err _ => mret (false, job)
         end
       else
         u ← call (UpdateJob job);
         match u with
         | Ok _ => _ ← call (MoveToDLQ (ID job));
                   _ ← deleteUploadedArtifact job; mret (true, job)
         | Err _ => mret (false, job)
         end);
  let '(ackJob, job) := p in
  _ ← emit (EvMetric "failed");
  _ ← notify job true;
  mret ackJob.

Definition handleJobSuccess (workerID : string) (job : ScanJob) (result : option gin_H) : P bool :=
  l ← check_lease (ID job) workerID;
  if lost_lease l then mret true else
  let result := <["schema_version" := json_str scanResultSchemaVersion]> <$> result in
  match marshal result with
  | Err e => handleJobFailure workerID job
               (EWrap ("failed to marshal result: " +:+ Error e) [e])
  | Ok resultJSON =>
      t ← now;
      let job := set_completed t resultJSON job in
      u ← call (UpdateJob job);
      match u with
      | Err _ => mret false
      | Ok _ =>
          _ ← call (ClearJobLease (ID job));
          _ ← emit (EvMetric "success");
          _ ← deleteUploadedArtifact job;
          _ ← notify job false;
          mret true
      end
  end.

(** ** One delivery *)

(** The per-job timeout; the multiplication is on [time.Duration]. *)
Definition scan_timeout (job : ScanJob) : Z :=
  if 0 <? ScanTimeout job then wrap64 (ScanTimeout job * ns_per_sec) else minutes 30.

(** From the claimed job to the acknowledgement decision. *)
Definition run_scan (workerID jobID : string) (job : ScanJob) : P bool :=
  l ← check_lease jobID workerID;
  if lost_lease l then mret true else
  out ← (if EqualFold (FileType job) "ipa" then scanIPA job else scanAPK job);
  match out with
  | Panicked m => handleJobFailure workerID job (ENew ("panic in scan: " +:+ m))
  | ScanFailed e deadline =>
      let err := if (deadline : bool)
                 then ENew ("scan timeout exceeded (" +:+ Duration_String (scan_timeout job)
                            +:+ "): " +:+ Error e)
                 else e in
      u ← call (GetJob jobID);
      match u with
      | Ok j => if decide (Status j = JobStatusCancelled)
                then _ ← deleteUploadedArtifact job; mret true
                else handleJobFailure workerID job err
      | Err _ => handleJobFailure workerID job err
      end
  | Scanned result => handleJobSuccess workerID job result
  end.

(** Everything between the deferred acknowledgement and its registration. *)
Definition attempt_job (workerID jobID : string) : P bool :=
  r ← call (GetJob jobID);
  match r with
  | Err _ => mret true
  | Ok job =>
      if decide (Status job ∈ [JobStatusCompleted; JobStatusFailed]) then mret true
      else if decide (Status job = JobStatusCancelled)
      then _ ← deleteUploadedArtifact job; mret true
      else
        t ← now;
        let job := set_processing t workerID job in
        u ← call (UpdateJob job);
        match u with
        | Err _ => mret true
        | Ok _ => _ ← call (SetJobLease jobID workerID); run_scan workerID jobID job
        end
  end.

Definition processJob (workerID jobID : string) : P unit :=
  ackJob ← attempt_job workerID jobID;
  if (ackJob : bool) then _ ← call (AckJob workerID jobID); mret tt else mret tt.

(** ** The loop *)

Definition popBackoffBase : Z := 500 * 1000000.
Definition popBackoffMax : Z := seconds 30.

(** One turn of the default branch of [Start]: pop, and process what was popped.
    The value is the backoff of the next turn. *)
Definition worker_turn (workerID : string) (popBackoff : Z) : P Z :=
  r ← call (PopJobReliable workerID);
  match r with
  | Err (ESentinel ErrNoJob) => mret popBackoffBase
  | Err _ =>
      _ ← sleep ctx_done popBackoff;
      let d := wrap64 (popBackoff * 2) in
      mret (if popBackoffMax <? d then popBackoffMax else d)
  | Ok jobID => _ ← processJob workerID jobID; mret popBackoffBase
  end.

(** The ready case a [select] of the loop takes: shutdown, the heartbeat ticker, or
    neither. *)
Inductive selected := CtxDone | HeartbeatTick | Default.
#[export] Instance selected_eq_dec : EqDecision selected.
Proof. solve_decision. Defined.

Fixpoint worker_loop (workerID : string) (popBackoff : Z) (l : list selected) : P unit :=
  match l with
  | [] => mret tt
  | CtxDone :: _ => _ ← call (UnregisterWorker workerID); mret tt
  | HeartbeatTick :: l => _ ← call (UpdateWorkerHeartbeat workerID); worker_loop workerID popBackoff l
  | Default :: l => b ← worker_turn workerID popBackoff; worker_loop workerID b l
  end.

(** The loop for as long as the cases [l] were taken. *)
Definition Start (workerID : string) (l : list selected) : P unit :=
  _ ← call (RegisterWorker workerID); worker_loop workerID popBackoffBase l.

(** ** Webhooks *)

(** [utils.DeliverWebhookWithRetry] and the JSON form of a dead-letter record. *)
Context (deliver : ScanJob → bool → option error) (marshal_failed : FailedWebhook → res string).

Definition deliverWebhook (job : ScanJob) (isFailure : bool) : P unit :=
  match deliver job isFailure with
  | None => mret tt
  | Some err =>
      t ← now;
      _ ← call (RecordFailedWebhook marshal_failed
             (mk_failed_webhook (ID job) (WebhookURL job) (Status job) (Error err) (unix t)));
      mret tt
  end.

End worker.
