(* ===== verification/WorkerSpec.v ===== *)
(** * What a worker guarantees

    The outcome of a delivery when Redis is reachable, idempotency of terminal
    redeliveries, fencing of superseded workers, what survives an unreliable
    network, and the error paths on which a job is lost. *)
From S2P Require Import Prelude GoStr GoErr GoTime Breaker Retry ScanJob Redis Wp Queue QueueSpec JobLife Worker.

Local Open Scope Z_scope.

(** ** Weakest preconditions for workers *)

Section pwp.
Context `{S : RedisServer} `{!RedisLaws S} {codec : MapCodec}.
Implicit Types w : world.

Definition pwp {A} (m : P A) (Q : A → list event → world → Prop) w : Prop :=
  let '(a, es, w') := m w in Q a es w'.

Lemma pwp_mono {A} (m : P A) (Q Q' : A → list event → world → Prop) w :
  (∀ a es w', Q a es w' → Q' a es w') → pwp m Q w → pwp m Q' w.
Proof. unfold pwp. destruct (m w) as [[a es] w']. auto. Qed.

Lemma pwp_ret {A} (a : A) (Q : A → list event → world → Prop) w : Q a [] w → pwp (mret a) Q w.
Proof. done. Qed.

Lemma pwp_bind {A B} (m : P A) (f : A → P B) (Q : B → list event → world → Prop) w :
  pwp m (λ a es w1, pwp (f a) (λ b es' w2, Q b (es ++ es') w2) w1) w → pwp (m ≫= f) Q w.
Proof.
  unfold pwp, mbind, P_bind. destruct (m w) as [[a es] w1]. by destruct (f a w1) as [[b es'] w2].
Qed.

Lemma pwp_call {A} (m : M A) (Q : res A → list event → world → Prop) w :
  wp m (λ r w', Q r [] w') w → pwp (call m) Q w.
Proof. unfold pwp, call, wp. by destruct (m w). Qed.

Lemma pwp_emit e (Q : unit → list event → world → Prop) w : Q tt [e] w → pwp (emit e) Q w.
Proof. done. Qed.

Lemma pwp_now (Q : gotime → list event → world → Prop) w : Q (time_Now w) [] w → pwp now Q w.
Proof. done. Qed.

(** ** Leases *)

(** A worker is superseded when somebody else's name is on the lease. *)
Definition superseded (d : rdb) (jobID workerID : string) : bool :=
  match db_strs d !! jobLeaseKey jobID with
  | Some o => nonempty o && negb (bool_decide (o = workerID))
  | None => false
  end.

Lemma pwp_check_lease id wid (Q : bool * option error → list event → world → Prop) w :
  (∀ l w', db w' = db w → same_clock w w' →
           (lost_lease l = true → superseded (db w) id wid = true) → Q l [] w') →
  pwp (check_lease id wid) Q w.
Proof.
  intros HQ.
  assert (H : wp (redisDo (command (GET (jobLeaseKey id)))) (λ r w', db w' = db w ∧ same_clock w w' ∧
    ∀ p, r = Ok p → db_reply (GET (jobLeaseKey id)) (db w) p) w).
  { apply wp_redisDo; [by intros; split_and!|].
    apply wp_command; intros; split_and!; try congruence; try (by etrans); naive_solver. }
  unfold pwp, check_lease, CheckJobLease. unfold wp in H.
  destruct (redisDo (command (GET (jobLeaseKey id))) w) as [[p|e] w']; simpl in *;
    destruct H as (Hd & Hc & Hp); apply HQ; try done.
  specialize (Hp p eq_refl). simpl in Hp. subst p. unfold superseded, lost_lease, nonempty.
  destruct (db_strs (db w) !! jobLeaseKey id) as [o|]; simpl; [|done].
  by case_decide; repeat case_bool_decide.
Qed.

Lemma pwp_check_lease_healthy id wid (Q : bool * option error → list event → world → Prop) w :
  healthy w →
  (∀ l w', healthy w' → db w' = db w → same_clock w w' →
           lost_lease l = superseded (db w) id wid → Q l [] w') →
  pwp (check_lease id wid) Q w.
Proof.
  intros Hh HQ.
  assert (H : wp (redisDo (command (GET (jobLeaseKey id)))) (λ r w', db w' = db w ∧ same_clock w w' ∧
    healthy w' ∧ ∃ p, r = Ok p ∧ db_reply (GET (jobLeaseKey id)) (db w) p) w).
  { apply hwp_redisDo_command; [done|]. intros p w' Hh' Hc Hd Hp. split_and!; eauto. }
  unfold pwp, check_lease, CheckJobLease. unfold wp in H.
  destruct (redisDo (command (GET (jobLeaseKey id))) w) as [r w']; simpl in *.
  destruct H as (Hd & Hc & Hh' & p & -> & Hp). simpl in Hp. subst p. apply HQ; [done..|].
  unfold superseded, lost_lease, nonempty.
  destruct (db_strs (db w) !! jobLeaseKey id) as [o|]; simpl; [|done].
  by case_decide; repeat case_bool_decide.
Qed.

Lemma pwp_delete have_store job (Q : unit → list event → world → Prop) w :
  (∀ es, (∀ e, e ∈ es → e = EvDelete (StorageKey job)) → Q tt es w) →
  pwp (deleteUploadedArtifact have_store job) Q w.
Proof.
  intros HQ. unfold deleteUploadedArtifact. case_decide; [|destruct have_store];
    apply HQ; set_solver.
Qed.

Lemma pwp_notify job b (Q : unit → list event → world → Prop) w :
  (∀ es, (∀ e, e ∈ es → e = EvWebhook job b) → Q tt es w) → pwp (notify job b) Q w.
Proof. intros HQ. unfold notify. case_decide; apply HQ; set_solver. Qed.

End pwp.

(** ** Terminal transitions with Redis reachable *)

Section healthy.
Context `{S : RedisServer} `{!RedisLaws S} {codec : MapCodec}.
Context (workerMaxRetries workerRetryBase workerRetryMaxDur : Z) (have_store ctx_done : bool).
Context {json : Type} (json_str : string → json) (marshal : option (gin_H (json := json)) → res string).
Implicit Types w : world.

#[local] Notation handleJobFailure :=
  (handleJobFailure workerMaxRetries workerRetryBase workerRetryMaxDur have_store ctx_done).
#[local] Notation handleJobSuccess :=
  (handleJobSuccess workerMaxRetries workerRetryBase workerRetryMaxDur have_store ctx_done
     json_str marshal).

(** Whether a failure is retried. *)
Definition will_retry (job : ScanJob) (err : error) : bool :=
  isRetryable (Some err) && (wrap64 (RetryCount job + 1) <? workerMaxRetries).

Lemma pwp_sleep d (Q : unit → list event → world → Prop) w :
  (∀ es w', db w' = db w → (healthy w → healthy w') → (∀ e, e ∈ es → e = EvSleep d) → Q tt es w') →
  pwp (sleep ctx_done d) Q w.
Proof.
  intros HQ. unfold sleep, pwp. destruct ctx_done; apply HQ; set_solver.
Qed.

Lemma status_of_updated job d : status_of (updated job d) (ID job) = Status job.
Proof.
  unfold status_of. rewrite updated_hash, decide_True by done.
  by rewrite (proj1 (proj2 (stored_fields _ job))).
Qed.

Lemma absq_updated job d : absq (updated job d) ≡ absq d.
Proof. apply absq_equiv. intros k. apply updated_lists. Qed.

Lemma hash_moveToDLQScript j r k :
  hash (view (moveToDLQScript j r).2) k = hash (view r) k.
Proof. unfold moveToDLQScript. cbn [snd]. by rewrite !view_eff. Qed.

Lemma hash_dead j r id : status_of (view (moveToDLQScript j r).2) id = status_of (view r) id.
Proof. unfold status_of. by rewrite hash_moveToDLQScript. Qed.

(** What a terminal transition makes of the records: the job's own is rewritten,
    with the given retry count; no other job's changes. *)
Definition record_left (id : string) (retries : Z) (d d' : rdb) : Prop :=
  (∃ h j, hash d' (jobKey id) = stored h j ∧ ID j = id ∧ RetryCount j = retries) ∧
  ∀ id', id' ≠ id → jobKey id' ≠ jobLeaseKey id → hash d' (jobKey id') = hash d (jobKey id').

Lemma record_left_trans id r d1 d2 d3 :
  (∀ id', id' ≠ id → jobKey id' ≠ jobLeaseKey id → hash d2 (jobKey id') = hash d1 (jobKey id')) →
  record_left id r d2 d3 → record_left id r d1 d3.
Proof. intros H1 [H2 H3]. split; [done|]. intros id' Hi Hl. by rewrite H3, H1. Qed.

Lemma record_left_hashes id r d d1 d2 :
  (∀ id', jobKey id' ≠ jobLeaseKey id → hash d2 (jobKey id') = hash d1 (jobKey id')) →
  jobKey id ≠ jobLeaseKey id → record_left id r d d1 → record_left id r d d2.
Proof.
  intros He Hne [H1 H2]. split; [by rewrite He|]. intros id' Hi Hl. rewrite He by done. auto.
Qed.

Lemma record_left_updated job d : record_left (ID job) (RetryCount job) d (updated job d).
Proof.
  split.
  - eexists _, job. by rewrite updated_hash, decide_True.
  - intros id' Hi _. rewrite updated_hash, decide_False; [done|]. by intros ?%(inj jobKey).
Qed.

Lemma jobKey_ne_lease id : jobKey id ≠ jobLeaseKey id.
Proof.
  intros E. apply (f_equal String.length) in E. unfold jobLeaseKey, jobKey in E.
  rewrite !string_length_app in E. simpl in E. lia.
Qed.

(** The queue operation a failure performs. *)
Definition failure_op (job : ScanJob) (err : error) : qop :=
  if will_retry job err then OpPush (ID job) else OpDead (ID job).

Lemma handleJobFailure_healthy wid job err w :
  healthy w → superseded (db w) (ID job) wid = false →
  pwp (handleJobFailure wid job err) (λ ack es w', ack = true ∧ healthy w' ∧
    absq (db w') ≡ (a_step (failure_op job err) (absq (db w))).2 ∧
    status_of (db w') (ID job) =
      (if will_retry job err then JobStatusQueued else JobStatusFailed) ∧
    record_left (ID job) (wrap64 (RetryCount job + 1)) (db w) (db w')) w.
Proof.
  intros Hh Hl. unfold Worker.handleJobFailure. apply pwp_bind, pwp_check_lease_healthy; [done|].
  intros l w1 Hh1 Hd1 _ Hll. rewrite Hll, Hl. apply pwp_bind, pwp_now, pwp_bind.
  set (j' := set_failed (time_Now w1) err job).
  eapply (pwp_mono _ (λ p es w', p.1 = true ∧ healthy w' ∧
    absq (db w') ≡ (a_step (failure_op job err) (absq (db w))).2 ∧
    status_of (db w') (ID job) =
      (if will_retry job err then JobStatusQueued else JobStatusFailed) ∧
    record_left (ID job) (wrap64 (RetryCount job + 1)) (db w) (db w'))).
  { intros [ack j2] es w' (Hack & Hh' & Ha & Hs & Hr). simpl in Hack. subst ack.
    apply pwp_bind, pwp_emit, pwp_bind, pwp_notify. intros es' _. by apply pwp_ret. }
  unfold failure_op, will_retry. cbn [RetryCount j' set_failed].
  destruct (isRetryable (Some err) && (wrap64 (RetryCount job + 1) <? workerMaxRetries)) eqn:Er.
  - apply pwp_bind, pwp_sleep. intros es2 w2 Hd2 Hh2 _. specialize (Hh2 Hh1).
    apply pwp_bind, pwp_call. eapply wp_mono; [|by apply UpdateJob_healthy].
    intros r w3 (-> & Hh3 & _ & Hd3). apply pwp_bind, pwp_call.
    apply wp_bind, hwp_redisDo_command; [done|]. intros p w4 Hh4 _ Hd4 _. apply wp_ret, pwp_ret.
    split_and!; [done|done| | |].
    + rewrite Hd4. rewrite absq_push.
      pose proof (absq_updated (set_requeued j') (db w2)) as Hau. rewrite Hd2, Hd1 in Hau.
      rewrite Hd3, Hd2, Hd1.
      apply (a_step_proper (OpPush (ID job)) _ _ Hau).
    + rewrite Hd4. cbn [db_eff]. unfold status_of. rewrite hash_set_list, Hd3.
      apply (status_of_updated (set_requeued j')).
    + rewrite <- Hd1, <- Hd2. eapply record_left_hashes; [|apply jobKey_ne_lease|].
      2: exact (record_left_updated (set_requeued j') (db w2)).
      intros id' _. rewrite Hd4, <- Hd3. apply hash_set_list.
  - apply pwp_bind, pwp_call. eapply wp_mono; [|by apply UpdateJob_healthy].
    intros r w3 (-> & Hh3 & _ & Hd3). apply pwp_bind, pwp_call.
    apply wp_bind, wp_errorf, hwp_redisDo_roundtrip; [done|]. intros w4 Hh4 _ Hd4. apply wp_ret.
    apply pwp_bind, pwp_delete. intros es' _. apply pwp_ret.
    split_and!; [done|done| | |].
    + rewrite Hd4. rewrite absq_moveToDLQScript. fold (db w3). rewrite Hd3, Hd1.
      apply (a_step_proper (OpDead (ID job)) _ _ (absq_updated j' (db w))).
    + rewrite Hd4, hash_dead. fold (db w3). rewrite Hd3. apply (status_of_updated j').
    + rewrite <- Hd1. eapply record_left_hashes; [|apply jobKey_ne_lease|].
      2: exact (record_left_updated j' (db w1)).
      intros id' _. rewrite Hd4, hash_moveToDLQScript. fold (db w3). by rewrite Hd3.
Qed.

Lemma absq_del_lease id d : absq (del_key (jobLeaseKey id) d) ≡ absq d.
Proof.
  split_and!; simpl; intros; unfold rlist, del_key; simpl; by rewrite lookup_delete_ne.
Qed.

Lemma status_del_lease id d : status_of (del_key (jobLeaseKey id) d) id = status_of d id.
Proof.
  unfold status_of, hash, del_key; simpl. rewrite lookup_delete_ne; [done|]. apply not_eq_sym, jobKey_ne_lease.
Qed.

Lemma hash_del_lease id d id' : jobKey id' ≠ jobLeaseKey id →
  hash (del_key (jobLeaseKey id) d) (jobKey id') = hash d (jobKey id').
Proof. intros H. unfold hash, del_key; simpl. by rewrite lookup_delete_ne. Qed.

Lemma handleJobSuccess_healthy wid job result js w :
  healthy w → superseded (db w) (ID job) wid = false →
  marshal (<["schema_version" := json_str scanResultSchemaVersion]> <$> result) = Ok js →
  pwp (handleJobSuccess wid job result) (λ ack es w', ack = true ∧ healthy w' ∧
    absq (db w') ≡ absq (db w) ∧ status_of (db w') (ID job) = JobStatusCompleted ∧
    record_left (ID job) (RetryCount job) (db w) (db w')) w.
Proof.
  intros Hh Hl Hm. unfold Worker.handleJobSuccess. apply pwp_bind, pwp_check_lease_healthy; [done|].
  intros l w1 Hh1 Hd1 _ Hll. rewrite Hll, Hl, Hm. apply pwp_bind, pwp_now, pwp_bind, pwp_call.
  set (j' := set_completed (time_Now w1) js job).
  eapply wp_mono; [|by apply UpdateJob_healthy]. intros r w3 (-> & Hh3 & _ & Hd3).
  apply pwp_bind, pwp_call. apply wp_ignore, hwp_command; [done|]. intros p w4 Hh4 _ Hd4 _.
  apply pwp_bind, pwp_emit, pwp_bind, pwp_delete. intros es1 _.
  apply pwp_bind, pwp_notify. intros es2 _. apply pwp_ret.
  cbn [db_eff] in Hd4. change (ID j') with (ID job) in *.
  split_and!; [done|done| | |]; rewrite Hd4.
  - rewrite absq_del_lease. rewrite Hd3, Hd1. apply absq_updated.
  - rewrite status_del_lease, Hd3. apply (status_of_updated j').
  - rewrite <- Hd1. eapply record_left_hashes; [|apply jobKey_ne_lease|].
    2: exact (record_left_updated j' (db w1)).
    intros id' Hl'. rewrite hash_del_lease by done. by rewrite Hd3.
Qed.

End healthy.

(** ** Deliveries *)

Lemma Status_read_hash `{MapCodec} h : Status (read_hash h) = default "" (h !! "status").
Proof. unfold read_hash, FromMap, get_str. simpl. rewrite lookup_fmap. by destruct (h !! "status"). Qed.

Lemma ID_read_hash `{MapCodec} h id : h !! "id" = Some id → ID (read_hash h) = id.
Proof. intros E. unfold read_hash, FromMap, get_str. simpl. by rewrite lookup_fmap, E. Qed.

Section delivery.
Context `{S : RedisServer} `{!RedisLaws S} {codec : MapCodec}.
Context (workerMaxRetries workerRetryBase workerRetryMaxDur : Z) (have_store ctx_done : bool).
Context {json : Type} (json_str : string → json) (marshal : option (gin_H (json := json)) → res string).
Context (scanAPK scanIPA : ScanJob → P (scan_outcome (json := json))).
Implicit Types w : world.

#[local] Notation handleJobFailure :=
  (handleJobFailure workerMaxRetries workerRetryBase workerRetryMaxDur have_store ctx_done).
#[local] Notation handleJobSuccess :=
  (handleJobSuccess workerMaxRetries workerRetryBase workerRetryMaxDur have_store ctx_done
     json_str marshal).
#[local] Notation run_scan :=
  (run_scan workerMaxRetries workerRetryBase workerRetryMaxDur have_store ctx_done
     json_str marshal scanAPK scanIPA).
#[local] Notation processJob :=
  (processJob workerMaxRetries workerRetryBase workerRetryMaxDur have_store ctx_done
     json_str marshal scanAPK scanIPA).
#[local] Notation will_retry := (will_retry workerMaxRetries).
#[local] Notation failure_op := (failure_op workerMaxRetries).

(** The error a scan's outcome amounts to, if any. *)
Definition failure_of (job : ScanJob) (o : scan_outcome (json := json)) : option error :=
  match o with
  | Panicked m => Some (ENew ("panic in scan: " +:+ m))
  | ScanFailed e deadline =>
      Some (if (deadline : bool)
            then ENew ("scan timeout exceeded (" +:+ Duration_String (scan_timeout job)
                       +:+ "): " +:+ Error e)
            else e)
  | Scanned r =>
      match marshal (<["schema_version" := json_str scanResultSchemaVersion]> <$> r) with
      | Ok _ => None
      | Err e => Some (EWrap ("failed to marshal result: " +:+ Error e) [e])
      end
  end.

(** A scan during which nobody else touches this job, its lease or the lists. *)
Definition quiet_scan (scan : ScanJob → P (scan_outcome (json := json))) : Prop :=
  ∀ job w, healthy w →
    pwp (scan job) (λ _ _ w', healthy w' ∧ absq (db w') ≡ absq (db w) ∧
      db_strs (db w') = db_strs (db w) ∧
      status_of (db w') (ID job) = status_of (db w) (ID job)) w.

Definition scan_gives (o : scan_outcome (json := json)) (scan : ScanJob → P scan_outcome) : Prop :=
  ∀ job w, (scan job w).1.1 = o.

(** A scan that also leaves alone the records of the other jobs that satisfy [F],
    and whose outcome satisfies, for the job, [O]. *)
Definition calm_scan (F : string → Prop) (O : ScanJob → scan_outcome (json := json) → Prop)
    (scan : ScanJob → P (scan_outcome (json := json))) : Prop :=
  ∀ job w, healthy w →
    pwp (scan job) (λ o _ w', healthy w' ∧ absq (db w') ≡ absq (db w) ∧
      db_strs (db w') = db_strs (db w) ∧
      status_of (db w') (ID job) = status_of (db w) (ID job) ∧ O job o ∧
      ∀ id, F id → id ≠ ID job → hash (db w') (jobKey id) = hash (db w) (jobKey id)) w.

Lemma quiet_calm o scan : quiet_scan scan → scan_gives o scan → calm_scan (λ _, False) (λ _, (o =.)) scan.
Proof.
  intros Hq Hg job w Hh. specialize (Hq job w Hh). specialize (Hg job w). unfold pwp in *.
  destruct (scan job w) as [[o' es] w']. naive_solver.
Qed.

(** The abstract queue and the status after the outcome [f] of a scan. *)
Definition settled (job : ScanJob) (f : option error) (q : aqueue) : aqueue :=
  match f with None => q | Some e => (a_step (failure_op job e) q).2 end.

Definition settled_status (job : ScanJob) (f : option error) : string :=
  match f with
  | None => JobStatusCompleted
  | Some e => if will_retry job e then JobStatusQueued else JobStatusFailed
  end.

Definition retries_after (job : ScanJob) (f : option error) : Z :=
  match f with None => RetryCount job | Some _ => wrap64 (RetryCount job + 1) end.

(** Everything a delivery that ends with [f] leaves. *)
Definition settled_db (job : ScanJob) (f : option error) (d d' : rdb) : Prop :=
  absq d' ≡ settled job f (absq d) ∧ status_of d' (ID job) = settled_status job f ∧
  record_left (ID job) (retries_after job f) d d'.

Lemma settled_proper job f p q : p ≡ q → settled job f p ≡ settled job f q.
Proof. intros H. destruct f; [|done]. by apply a_step_proper. Qed.

(** Handling any outcome of a scan while the lease is held. *)
Lemma settle_healthy wid job o w :
  healthy w → superseded (db w) (ID job) wid = false →
  status_of (db w) (ID job) ≠ JobStatusCancelled →
  pwp (match o with
       | Panicked m => handleJobFailure wid job (ENew ("panic in scan: " +:+ m))
       | ScanFailed e deadline =>
           u ← call (GetJob (ID job));
           match u with
           | Ok j => if decide (Status j = JobStatusCancelled)
                     then _ ← deleteUploadedArtifact have_store job; mret true
                     else handleJobFailure wid job
                            (default (ENew "") (failure_of job (ScanFailed e deadline)))
           | Err _ => handleJobFailure wid job
                        (default (ENew "") (failure_of job (ScanFailed e deadline)))
           end
       | Scanned r => handleJobSuccess wid job r
       end)
    (λ ack _ w', ack = true ∧ healthy w' ∧ settled_db job (failure_of job o) (db w) (db w')) w.
Proof.
  intros Hh Hl Hst. destruct o as [r|e dl|m].
  - unfold failure_of.
    destruct (marshal (<["schema_version" := json_str scanResultSchemaVersion]> <$> r)) as [js|e] eqn:Hm.
    + by apply handleJobSuccess_healthy with js.
    + unfold Worker.handleJobSuccess. apply pwp_bind, pwp_check_lease_healthy; [done|].
      intros l w1 Hh1 Hd1 _ Hll. rewrite Hll, Hl, Hm. rewrite <- Hd1.
      apply handleJobFailure_healthy; [done|by rewrite Hd1].
  - apply pwp_bind, pwp_call. eapply wp_mono; [|by apply GetJob_healthy].
    intros u w1 (Hh1 & _ & Hd1 & ->). rewrite <- Hd1.
    assert (Hf : pwp (handleJobFailure wid job (default (ENew "") (failure_of job (ScanFailed e dl))))
      (λ ack _ w', ack = true ∧ healthy w' ∧
       settled_db job (failure_of job (ScanFailed e dl)) (db w1) (db w')) w1)
      by (apply handleJobFailure_healthy; [done|by rewrite Hd1]).
    case_decide; [exact Hf|]. rewrite Status_read_hash. rewrite decide_False; [exact Hf|].
    unfold status_of in Hst. by rewrite Hd1.
  - by apply handleJobFailure_healthy.
Qed.

Lemma absq_set_str k v t d : absq (set_ttl k t (set_str k v d)) ≡ absq d.
Proof. done. Qed.

Lemma superseded_own d id wid :
  superseded (set_ttl (jobLeaseKey id) jobLeaseTTL (set_str (jobLeaseKey id) wid d)) id wid = false.
Proof.
  unfold superseded. simpl. rewrite lookup_insert_eq. rewrite bool_decide_eq_true_2 by done.
  simpl. apply andb_false_r.
Qed.

Lemma superseded_strs d d' id wid :
  db_strs d = db_strs d' → superseded d id wid = superseded d' id wid.
Proof. unfold superseded. by intros ->. Qed.

Section calm.
Context (F : string → Prop) (O : ScanJob → scan_outcome (json := json) → Prop).

Lemma pwp_scan scan job (Q : scan_outcome → list event → world → Prop) w :
  calm_scan F O scan → healthy w →
  (∀ o es w', healthy w' → O job o → absq (db w') ≡ absq (db w) → db_strs (db w') = db_strs (db w) →
     status_of (db w') (ID job) = status_of (db w) (ID job) →
     (∀ id, F id → id ≠ ID job → hash (db w') (jobKey id) = hash (db w) (jobKey id)) → Q o es w') →
  pwp (scan job) Q w.
Proof.
  intros Hq Hh HQ. specialize (Hq job w Hh). unfold pwp in *.
  destruct (scan job w) as [[o' es] w']. naive_solver.
Qed.

(** What processing a popped job leaves: [settled_db], up to the acknowledgement
    and to the records the scan may touch. *)
Definition delivered (job : ScanJob) (o : scan_outcome (json := json)) (d d' : rdb) : Prop :=
  absq d' ≡ settled job (failure_of job o) (absq d) ∧
  status_of d' (ID job) = settled_status job (failure_of job o) ∧
  (∃ h j, hash d' (jobKey (ID job)) = stored h j ∧ ID j = ID job ∧
          RetryCount j = retries_after job (failure_of job o)) ∧
  ∀ id, F id → id ≠ ID job → jobKey id ≠ jobLeaseKey (ID job) →
        hash d' (jobKey id) = hash d (jobKey id).

Lemma delivered_from job o d1 d2 d3 :
  absq d2 ≡ absq d1 →
  (∀ id, F id → id ≠ ID job → hash d2 (jobKey id) = hash d1 (jobKey id)) →
  settled_db job (failure_of job o) d2 d3 → delivered job o d1 d3.
Proof.
  intros Ha Hf (Ha' & Hs & Hr & Hk). split_and!; [|done|done|].
  - rewrite Ha'. by apply settled_proper.
  - intros id HF Hi Hl. rewrite Hk, Hf; done.
Qed.

Lemma run_scan_healthy wid job w :
  calm_scan F O scanAPK → calm_scan F O scanIPA →
  healthy w → superseded (db w) (ID job) wid = false →
  status_of (db w) (ID job) = JobStatusProcessing →
  pwp (run_scan wid (ID job) job) (λ ack _ w', ack = true ∧ healthy w' ∧
    ∃ o, O job o ∧ delivered job o (db w) (db w')) w.
Proof.
  intros Hq1 Hq2 Hh Hl Hst. unfold Worker.run_scan.
  apply pwp_bind, pwp_check_lease_healthy; [done|]. intros l w1 Hh1 Hd1 _ Hll. rewrite Hll, Hl.
  apply pwp_bind.
  destruct (EqualFold (FileType job) "ipa"); (apply pwp_scan; [done|done|]);
    intros o es w2 Hh2 HO Ha2 Hs2 Hst2 Hf2; rewrite Hd1 in *;
    (eapply pwp_mono; [|apply (settle_healthy wid job o w2 Hh2);
       [by rewrite (superseded_strs _ _ _ _ Hs2)|by rewrite Hst2, Hst]]);
    intros ack es' w' (-> & Hh' & Hdb); (split_and!; [done..|]; exists o; split; [done|]);
    by apply (delivered_from _ _ _ (db w2)).
Qed.

(** Processing a popped job that is queued or processing. *)
Lemma processJob_healthy (wid id : string) (w : world) :
  calm_scan F O scanAPK → calm_scan F O scanIPA →
  healthy w →
  hash (db w) (jobKey id) !! "id" = Some id →
  status_of (db w) id ∈ [JobStatusQueued; JobStatusProcessing] →
  let job := set_processing (time_Now w) wid (read_hash (hash (db w) (jobKey id))) in
  pwp (processJob wid id) (λ _ _ w', healthy w' ∧ ∃ o d, O job o ∧
    delivered job o (db w) d ∧ db w' = db_eff (LREM1 (processingKey wid) id) d) w.
Proof.
  intros Hq1 Hq2 Hh Hid Hst. cbv zeta. unfold Worker.processJob, attempt_job.
  set (h := hash (db w) (jobKey id)) in *.
  apply pwp_bind, pwp_bind, pwp_call. eapply wp_mono; [|by apply GetJob_healthy].
  intros r w1 (Hh1 & [Hn1 Hz1] & Hd1 & ->). fold h.
  assert (Hne : h ≠ ∅) by (intros E; by rewrite E, lookup_empty in Hid).
  rewrite decide_False by done. rewrite !Status_read_hash. unfold status_of in Hst. fold h in Hst.
  assert (default "" (h !! "status") ∉ [JobStatusCompleted; JobStatusFailed] ∧
    default "" (h !! "status") ≠ JobStatusCancelled) as [H1 H2].
  { rewrite !elem_of_cons, elem_of_nil in *. destruct Hst as [->|[->|[]]]; split; by intuition. }
  rewrite decide_False by done. rewrite decide_False by done.
  apply pwp_bind, pwp_now, pwp_bind, pwp_call.
  assert (time_Now w1 = time_Now w) as Ht by (unfold time_Now; by rewrite Hn1, Hz1). rewrite Ht.
  set (job := set_processing (time_Now w) wid (read_hash h)).
  assert (Hjid : ID job = id) by (by apply ID_read_hash).
  eapply wp_mono; [|by apply UpdateJob_healthy]. intros r2 w2 (-> & Hh2 & _ & Hd2). rewrite Hd1 in Hd2.
  apply pwp_bind, pwp_call, wp_bind, hwp_redisDo_command; [done|]. intros p3 w3 Hh3 _ Hd3 _.
  apply wp_ret. cbn [db_eff] in Hd3. rewrite <- Hjid in *.
  assert (Hk3 : ∀ k, hash (db w3) k = hash (db w2) k) by (intros k; by rewrite Hd3).
  eapply pwp_mono; [|apply (run_scan_healthy wid job w3); try done].
  - intros ack es w4 (-> & Hh4 & o & HO & Ha4 & Hs4 & Hr4 & Hf4).
    apply pwp_bind, pwp_call, wp_bind, hwp_redisDo_command; [done|].
    intros p5 w5 Hh5 _ Hd5 _. apply wp_ret, pwp_ret. split; [done|]. exists o, (db w4).
    split; [done|]. split; [|done]. split_and!; [|done|done|].
    + rewrite Ha4. apply settled_proper. rewrite Hd3, absq_set_str, Hd2. apply absq_updated.
    + intros id' HF Hi Hl. rewrite Hf4, Hk3, Hd2 by done.
      by apply (proj2 (record_left_updated job (db w))).
  - rewrite Hd3. apply superseded_own.
  - unfold status_of. rewrite Hk3, Hd2. apply (status_of_updated job).
Qed.

End calm.

(** C5: the outcome of a delivery.  With Redis reachable and nobody interfering,
    processing a popped job that is queued or processing ends in exactly one of
    three ways: a successful scan leaves it completed; a failure worth retrying
    with retries left (a panic included) leaves it queued and at the tail of the
    main queue; any other failure leaves it failed and on the dead-letter queue.
    In each case the delivery is acknowledged and no other list changes. *)
Theorem processJob_outcome (wid id : string) (o : scan_outcome) (w : world) :
  quiet_scan scanAPK → quiet_scan scanIPA → scan_gives o scanAPK → scan_gives o scanIPA →
  healthy w →
  hash (db w) (jobKey id) !! "id" = Some id →
  status_of (db w) id ∈ [JobStatusQueued; JobStatusProcessing] →
  let job := set_processing (time_Now w) wid (read_hash (hash (db w) (jobKey id))) in
  let f := failure_of job o in
  pwp (processJob wid id) (λ _ _ w', healthy w' ∧
    absq (db w') ≡ (a_step (OpAck wid id) (settled job f (absq (db w)))).2 ∧
    status_of (db w') id = settled_status job f) w.
Proof.
  intros Hq1 Hq2 Ho1 Ho2 Hh Hid Hst. cbv zeta.
  set (job := set_processing _ _ _).
  assert (Hjid : ID job = id) by (by apply ID_read_hash).
  eapply pwp_mono; [|by apply (processJob_healthy (λ _, False) (λ _, (o =.))); try apply quiet_calm].
  intros _ es w' (Hh' & o' & d & <- & (Ha & Hs & _) & Hd'). fold job in Ha, Hs. rewrite Hjid in Hs.
  split_and!; [done| |by rewrite Hd'].
  rewrite Hd', absq_ack. by apply a_step_proper.
Qed.

(** Redelivery is idempotent.  With Redis reachable, a job that is already
    completed or failed and is delivered again is acknowledged and otherwise left
    exactly as it is: no scan runs, its hash, status sets and lease are unchanged
    and nothing happens outside Redis. *)
Theorem terminal_redelivery (wid id : string) (w : world) :
  healthy w → hash (db w) (jobKey id) ≠ ∅ →
  status_of (db w) id ∈ [JobStatusCompleted; JobStatusFailed] →
  pwp (processJob wid id) (λ _ es w',
    es = [] ∧ db w' = db_eff (LREM1 (processingKey wid) id) (db w)) w.
Proof.
  intros Hh Hne Hst. unfold Worker.processJob, attempt_job.
  apply pwp_bind, pwp_bind, pwp_call. eapply wp_mono; [|by apply GetJob_healthy].
  intros r w1 (Hh1 & _ & Hd1 & ->). rewrite decide_False by done. rewrite Status_read_hash.
  rewrite decide_True by done. apply pwp_ret.
  apply pwp_bind, pwp_call, wp_bind, hwp_redisDo_command; [done|].
  intros p w2 Hh2 _ Hd2 _. apply wp_ret, pwp_ret. by rewrite Hd2, Hd1.
Qed.


(** What an update does to the job's own hash on any network. *)
Lemma UpdateJob_any job w :
  wp (UpdateJob job) (λ r w', (∀ k, rlist (db w') k = rlist (db w) k) ∧
    (r = Ok tt → status_of (db w') (ID job) = Status job)) w.
Proof.
  unfold UpdateJob.
  set (R := λ w', (∀ k, rlist (db w') k = rlist (db w) k) ∧ status_of (db w') (ID job) = Status job).
  assert (Hset : ∀ c w', (∀ d k, rlist (db_eff c d) k = rlist d k) →
    (∀ d k, hash (db_eff c d) k = hash d k) → R w' →
    wp (ignore (command c)) (λ r w'', r = Ok tt ∧ R w'') w').
  { intros c w' Hc1 Hc2 [HR1 HR2]. unfold status_of in *.
    apply wp_ignore, wp_command; [intros w'' Hd _|intros w'' Hd _|intros p w'' Hd _ _];
      (split; [done|]); unfold R, status_of; rewrite Hd, ?Hc2; (split; [|done]);
      intros k; by rewrite ?Hc1. }
  assert (Hsrem : ∀ st w', R w' → wp (ignore (command (SREM (statusKey st) (ID job))))
    (λ r w'', r = Ok tt ∧ R w'') w') by (intros st w'; by apply Hset).
  apply wp_bind, wp_attempt.
  apply (wp_mono _ (λ _ w', ∀ k, rlist (db w') k = rlist (db w) k)).
  2: { apply wp_command; [intros w' Hd _|intros w' Hd _|intros p w' Hd _ _]; by rewrite Hd. }
  intros old w1 Hl1. apply wp_bind, wp_errorf.
  apply (wp_mono _ (λ r w', (∀ k, rlist (db w') k = rlist (db w) k) ∧ (is_ok r = true → R w'))).
  2: { apply wp_redisDo; [intros w' Hd _; rewrite Hd; by split|].
       apply wp_command.
       - intros w2 H2 _ w3 H3 _. rewrite H3, H2. by split.
       - intros w2 H2 _ w3 H3 _. rewrite H3, H2. by split.
       - intros p w2 H2 _ _ w3 H3 _. unfold R. rewrite H3, H2. split; [done|]. intros _. split; [done|].
         unfold status_of. cbn [db_eff]. rewrite hash_set_hash_eq.
         change (hash_of job ∪ hash (db w1) (jobKey (ID job)))
           with (stored (hash (db w1) (jobKey (ID job))) job).
         by rewrite (proj1 (proj2 (stored_fields _ job))). }
  intros [p|e] w2 [Hl2 HR2]; [specialize (HR2 eq_refl)|by split].
  apply wp_bind, wp_ignore. apply (wp_mono _ (λ _ w', R w')).
  2: { destruct HR2 as [HR2 HR3]. destruct (expire_obs (jobKey (ID job)) jobTTL (db w2)) as (E1 & _ & E2).
       unfold R, status_of in *.
       apply wp_command; [intros w' Hd _|intros w' Hd _|intros q w' Hd _ _]; rewrite Hd, ?E2;
         (split; [|done]); intros k; by rewrite ?E1. }
  intros r3 w3 HR3. apply wp_bind.
  apply (wp_mono _ (λ r w', r = Ok tt ∧ R w')).
  2: { destruct (_ && _); [|by apply wp_ret]. apply wp_bind. eapply wp_mono; [|by apply Hsrem].
       intros r w' [-> HR']. by apply Hset. }
  intros r4 w4 [-> HR4]. destruct (isTerminalStatus _); [|apply wp_ret; split; [apply HR4|intros _; apply HR4]].
  simpl. apply wp_bind. eapply wp_mono; [|by apply Hsrem]. intros r5 w5 [-> HR5].
  apply wp_bind. eapply wp_mono; [|by apply Hsrem]. intros r6 w6 [-> HR6].
  apply wp_ret. split; [apply HR6|intros _; apply HR6].
Qed.


End delivery.

(** ** Concrete workers *)

Definition ok_scan `{RedisServer} : ScanJob → P (scan_outcome (json := string)) :=
  λ _, mret (Scanned (Some ∅)).
Definition bad_scan `{RedisServer} (e : error) : ScanJob → P (scan_outcome (json := string)) :=
  λ _, mret (ScanFailed e false).

Definition marshal_ok : option (gmap string string) → res string := λ _, Ok "{}".

Lemma quiet_mret `{RedisServer} (o : scan_outcome (json := string)) : quiet_scan (λ _, mret o).
Proof. intros job w Hh. by apply pwp_ret. Qed.

(** A worker with three attempts, delivering a job with the given scan. *)
Definition worker_run (scan : ScanJob → P (scan_outcome (json := string))) : P unit :=
  processJob 3 0 0 true true (λ s, s) marshal_ok scan scan "wk" "job-1".

(** "job-1" queued in Redis and popped by worker "wk". *)
Definition popped_db (fields : gmap string string) : rdb :=
  set_list (processingKey "wk") ["job-1"] (set_set (statusKey "queued") {["job-1"]}
    (set_hash (jobKey "job-1") (fields ∪ {["id" := "job-1"; "status" := "queued";
       "storage_key" := "uploads/a.apk"; "retry_count" := "0"]}) empty_rdb)).

Definition popped_world (net : list fault) : world := mem_world (popped_db ∅) net 0.

Lemma popped_world_facts net :
  (net = [] → healthy (popped_world net)) ∧
  hash (db (popped_world net)) (jobKey "job-1") !! "id" = Some "job-1" ∧
  status_of (db (popped_world net)) "job-1" ∈ [JobStatusQueued; JobStatusProcessing].
Proof.
  split; [by intros ->|]. split; [by vm_compute|]. apply (bool_decide_unpack _). by vm_compute.
Qed.

Lemma processJob_outcome_witness :
  healthy (popped_world []) ∧
  pwp (worker_run (bad_scan (ENew "connection reset"))) (λ _ _ w',
    a_main (absq (db w')) = ["job-1"] ∧ status_of (db w') "job-1" = "queued") (popped_world []).
Proof.
  destruct (popped_world_facts []) as (Hh & Hid & Hst). split; [by apply Hh|].
  pose proof (processJob_outcome 3 0 0 true true (λ s, s) marshal_ok
    (bad_scan (ENew "connection reset")) (bad_scan (ENew "connection reset")) "wk" "job-1"
    (ScanFailed (ENew "connection reset") false) (popped_world []) (quiet_mret _) (quiet_mret _)
    (λ _ _, eq_refl) (λ _ _, eq_refl) (Hh eq_refl) Hid Hst) as H.
  revert H. apply pwp_mono.
  intros _ es w' (_ & (Hm & _ & _) & Hs). rewrite Hm, Hs. split; by vm_compute.
Defined.

Definition completed_world : world := mem_world (popped_db {["status" := "completed"]}) [] 0.

Lemma terminal_redelivery_witness :
  status_of (db completed_world) "job-1" = JobStatusCompleted ∧
  pwp (worker_run ok_scan) (λ _ es w', es = [] ∧
    db w' = db_eff (LREM1 (processingKey "wk") "job-1") (db completed_world)) completed_world.
Proof.
  assert (Hst : status_of (db completed_world) "job-1" = JobStatusCompleted) by (by vm_compute).
  split; [exact Hst|].
  assert (Hh : healthy completed_world) by (by split).
  assert (Hne : hash (db completed_world) (jobKey "job-1") ≠ ∅).
  { intros E. apply (f_equal (.!! "id")) in E. by vm_compute in E. }
  assert (Hin : status_of (db completed_world) "job-1" ∈ [JobStatusCompleted; JobStatusFailed])
    by (rewrite Hst; left).
  exact (terminal_redelivery 3 0 0 true true (λ s, s) marshal_ok ok_scan ok_scan "wk" "job-1"
    completed_world Hh Hne Hin).
Defined.

Definition taken_world : world :=
  mem_world (set_str (jobLeaseKey "job-1") "other" (popped_db ∅)) [] 0.

Definition taken_job : ScanJob := job_with "processing".


(** The update that records the success is lost. *)
Definition flaky_world : world := popped_world [NetOk; NetOk; RequestLost].

Definition flaky_success : bool * list event * world :=
  handleJobSuccess 3 0 0 true true (λ s : string, s) marshal_ok "wk" taken_job (Some ∅) flaky_world.


(** ** Error paths on which a job is lost *)

(** A failed lookup drops the job.  When fetching the job's hash fails, the
    worker returns with the acknowledgement still armed: the job leaves the
    in-flight list although it never ran, its status still says queued and it is
    in no list. *)
Theorem lookup_error_drops_job :
  let w := popped_world [RequestLost] in
  let w' := (worker_run ok_scan w).2 in
  total ["wk"] "job-1" (absq (db w)) = 1%nat ∧ total ["wk"] "job-1" (absq (db w')) = 0%nat ∧
  status_of (db w') "job-1" = JobStatusQueued.
Proof. by vm_compute. Qed.

(** A failed requeue drops the job.  When the push of a job to be retried
    fails after its hash was updated, the error is ignored and the delivery
    acknowledged: the job's status says queued and it is in no list. *)
Theorem push_error_drops_job :
  let w := popped_world (replicate 15 NetOk ++ [RequestLost]) in
  let w' := (worker_run (bad_scan (ENew "connection reset")) w).2 in
  total ["wk"] "job-1" (absq (db w)) = 1%nat ∧ total ["wk"] "job-1" (absq (db w')) = 0%nat ∧
  status_of (db w') "job-1" = JobStatusQueued ∧ w_net w' = [].
Proof. by vm_compute. Qed.

(** A cancel can be overwritten.  A worker that has read a queued job writes
    it back as processing without looking again: a cancel that succeeded in
    between is undone. *)
Theorem cancel_can_be_overwritten :
  let w := popped_world [] in
  let '(r1, w1) := GetJob "job-1" w in
  let '(r2, w2) := CancelJob "job-1" w1 in
  match r1 with
  | Ok job => let '(r3, w3) := UpdateJob (set_processing (time_Now w2) "wk" job) w2 in
              r2 = Ok tt ∧ status_of (db w2) "job-1" = JobStatusCancelled ∧
              r3 = Ok tt ∧ status_of (db w3) "job-1" = JobStatusProcessing
  | Err _ => False
  end.
Proof. by vm_compute. Qed.
