(* ===== verification/Drain.v ===== *)
(** * Progress of the pipeline

    A worker that keeps running empties its queue: every job it is given, however
    its scans end, reaches a terminal state after a bounded number of deliveries.
    The measure is the number of attempts the retry policy leaves.  Likewise the
    reaper's sweep ends, because the server's cursor does. *)
From S2P Require Import Prelude GoStr GoErr GoTime Breaker Retry ScanJob Redis Wp Queue QueueSpec JobLife Reaper Worker WorkerSpec.

Local Open Scope Z_scope.

(** ** Records of jobs *)

Definition retries `{MapCodec} (d : rdb) (id : string) : Z :=
  RetryCount (read_hash (hash d (jobKey id))).

Lemma retries_stored `{MapCodec} d id h j :
  hash d (jobKey id) = stored h j → in_int64 (RetryCount j) → retries d id = RetryCount j.
Proof.
  intros E Hr. unfold retries. rewrite E.
  destruct (stored_fields h j) as (_ & _ & _ & _ & E5%lookup_VStr & _).
  unfold read_hash, FromMap; simpl. by apply get_int_itoa.
Qed.

Section drain.
Context `{S : RedisServer} `{!RedisLaws S} {codec : MapCodec}.
Context (workerMaxRetries workerRetryBase workerRetryMaxDur : Z) (have_store ctx_done : bool).
Context {json : Type} (json_str : string → json) (marshal : option (gin_H (json := json)) → res string).
Context (scanAPK scanIPA : ScanJob → P (scan_outcome (json := json))).
Implicit Types (w : world) (d : rdb).

#[local] Notation worker_turn := (worker_turn workerMaxRetries workerRetryBase workerRetryMaxDur
  have_store ctx_done json_str marshal scanAPK scanIPA).
#[local] Notation worker_loop := (worker_loop workerMaxRetries workerRetryBase workerRetryMaxDur
  have_store ctx_done json_str marshal scanAPK scanIPA).
#[local] Notation Start := (Start workerMaxRetries workerRetryBase workerRetryMaxDur
  have_store ctx_done json_str marshal scanAPK scanIPA).
#[local] Notation failure_of := (failure_of json_str marshal).
#[local] Notation settled := (settled workerMaxRetries).
#[local] Notation delivered := (delivered workerMaxRetries json_str marshal).
#[local] Notation will_retry := (will_retry workerMaxRetries).

(** A job that waits for a delivery. *)
Definition pending d (id : string) : Prop :=
  hash d (jobKey id) !! "id" = Some id ∧
  status_of d id ∈ [JobStatusQueued; JobStatusProcessing] ∧
  0 ≤ retries d id < int64_max.

(** A job that is done with: completed, or failed and dead-lettered. *)
Definition finished d (id : string) : Prop :=
  status_of d id = JobStatusCompleted ∨
  (status_of d id = JobStatusFailed ∧ id ∈ a_dlq (absq d)).

(** The deliveries the retry policy still allows a job. *)
Definition attempts d (id : string) : nat := Z.to_nat (Z.max 1 (workerMaxRetries - retries d id)).
Definition work d : nat := sum_list (attempts d <$> a_main (absq d)).

(** The job identifiers [ids] this is about; none is the key of another's lease. *)
Context (ids : list string).
Context (leases_apart : ∀ a b, a ∈ ids → b ∈ ids → jobKey a ≠ jobLeaseKey b).

(** Every job is either waiting in the main queue, once, or finished; the worker
    has nothing in flight. *)
Definition accounted (wid : string) d : Prop :=
  NoDup (a_main (absq d)) ∧ a_proc (absq d) wid = [] ∧
  (∀ id, id ∈ a_main (absq d) → id ∈ ids) ∧
  ∀ id, id ∈ ids → if decide (id ∈ a_main (absq d)) then pending d id else finished d id.

Lemma hash_pop d src dst k : hash (db_eff (LMOVE_LR src dst) d) k = hash d k.
Proof. cbn. by destruct (rlist d src). Qed.

Lemma pending_hash d d' id :
  hash d' (jobKey id) = hash d (jobKey id) → pending d id → pending d' id.
Proof. unfold pending, retries, status_of. by intros ->. Qed.

Lemma finished_hash d d' id :
  hash d' (jobKey id) = hash d (jobKey id) → (∀ x, x ∈ a_dlq (absq d) → x ∈ a_dlq (absq d')) →
  finished d id → finished d' id.
Proof. unfold finished, status_of. intros ->. naive_solver. Qed.

Lemma attempts_hash d d' (l : list string) :
  (∀ id, id ∈ l → hash d' (jobKey id) = hash d (jobKey id)) → attempts d' <$> l = attempts d <$> l.
Proof.
  intros H. apply list_fmap_ext. intros i x Hx. unfold attempts, retries.
  rewrite H; [done|]. by eapply list_elem_of_lookup_2.
Qed.

(** The part of [accounted] about the jobs a delivery does not handle. *)
Lemma accounted_cons wid d d' j l :
  accounted wid d → a_main (absq d) = j :: l →
  (∀ id, id ∈ ids → id ≠ j → hash d' (jobKey id) = hash d (jobKey id)) →
  (∀ x, x ∈ a_dlq (absq d) → x ∈ a_dlq (absq d')) →
  a_proc (absq d') wid = [] →
  (a_main (absq d') = l ∧ finished d' j ∨ a_main (absq d') = l ++ [j] ∧ pending d' j) →
  accounted wid d'.
Proof.
  intros (Hnd & _ & Hsub & Hall) Hm Hh Hdlq Hproc Hcase. rewrite Hm in *.
  apply NoDup_cons in Hnd as [Hj Hnd].
  assert (Hperm : ∀ id, id ∈ a_main (absq d') → id ∈ j :: l)
    by (destruct Hcase as [[-> _]|[-> _]]; set_solver).
  split_and!; [|done|by auto|].
  - destruct Hcase as [[-> _]|[-> _]]; [done|]. apply NoDup_app. split_and!; [done| |apply NoDup_singleton].
    set_solver.
  - intros id Hid. specialize (Hall id Hid). destruct (decide (id = j)) as [->|Hne].
    + destruct Hcase as [[-> Hf]|[-> Hp]]; [by rewrite decide_False|]. rewrite decide_True; [done|set_solver].
    + assert (Hin : id ∈ a_main (absq d') ↔ id ∈ j :: l) by (destruct Hcase as [[-> _]|[-> _]]; set_solver).
      do 2 case_decide; try (exfalso; tauto).
      * by eapply pending_hash; [apply Hh|].
      * by eapply finished_hash; [apply Hh| |].
Qed.

(** How a delivery's outcome moves the job and its measure. *)
Lemma delivered_progress d0 d1 d2 j l o job F wid :
  a_main (absq d0) = j :: l → a_dlq (absq d1) = a_dlq (absq d0) → a_main (absq d1) = l →
  in_int64 workerMaxRetries → pending d0 j →
  ID job = j → RetryCount job = retries d0 j →
  delivered F job o d1 d2 →
  absq d2 ≡ settled job (failure_of job o) (absq d1) ∧
  let d' := db_eff (LREM1 (processingKey wid) j) d2 in
  (∀ x, x ∈ a_dlq (absq d0) → x ∈ a_dlq (absq d')) ∧
  ((a_main (absq d') = l ∧ finished d' j) ∨
   (a_main (absq d') = l ++ [j] ∧ pending d' j ∧ (attempts d' j < attempts d0 j)%nat)).
Proof.
  intros Hm0 Hq1 Hm1 Hmax (_ & _ & Hr0) Hid Hrc (Ha & Hs & (h & j' & Hst & Hidj & Hrj) & _).
  split; [done|]. cbv zeta. set (d' := db_eff _ _). rewrite Hid in *.
  assert (Hd' : absq d' ≡ (a_step (OpAck wid j) (settled job (failure_of job o) (absq d1))).2).
  { unfold d'. rewrite absq_ack. by apply a_step_proper. }
  destruct Hd' as (Hm & Hq & _). rewrite Hm, Hq. cbn [a_step upd_proc a_main a_dlq snd].
  assert (Hhd : ∀ k, hash d' k = hash d2 k) by (intros k; unfold d'; cbn; by rewrite hash_set_list).
  assert (Hs' : status_of d' j = settled_status workerMaxRetries job (failure_of job o))
    by (unfold status_of; by rewrite Hhd).
  unfold in_int64, int64_min in *.
  assert (Hw : wrap64 (RetryCount job + 1) = retries d0 j + 1)
    by (rewrite Hrc; apply wrap64_id; unfold in_int64, int64_min; lia).
  unfold settled, settled_status, retries_after, failure_op in *.
  destruct (failure_of job o) as [e|]; [|by split; [rewrite <- Hq1|left; split; [|left]]].
  unfold will_retry in *. rewrite Hw in Hs', Hrj, Hm, Hq |- *.
  destruct (isRetryable (Some e) && (retries d0 j + 1 <? workerMaxRetries)) eqn:Er;
    cbn [a_step a_main a_dlq snd]; (split; [rewrite Hq1; set_solver|]).
  - right. apply andb_true_iff in Er as [_ Hlt%Z.ltb_lt].
    assert (Hret : retries d' j = retries d0 j + 1).
    { unfold retries at 1. rewrite Hhd. rewrite <- Hrj. eapply retries_stored; [done|].
      unfold in_int64, int64_min. lia. }
    split_and!; [by rewrite Hm1, Hid| |].
    + unfold pending. rewrite Hhd, Hst, Hret, Hs'. split_and!; [|left|lia..].
      by rewrite (proj1 (stored_fields h j')), Hidj.
    + unfold attempts. rewrite Hret. lia.
  - left. split; [done|]. right. split; [done|]. rewrite Hq, Hid. by left.
Qed.

(** The scans leave the other jobs alone; how they end is arbitrary. *)
Context (calmA : calm_scan (.∈ ids) (λ _ _, True) scanAPK) (calmI : calm_scan (.∈ ids) (λ _ _, True) scanIPA).
Context (max_ok : in_int64 workerMaxRetries).

Lemma turn_delivers wid b j l w :
  healthy w → accounted wid (db w) → a_main (absq (db w)) = j :: l →
  pwp (worker_turn wid b) (λ _ _ w', healthy w' ∧ accounted wid (db w') ∧
    (work (db w') < work (db w))%nat) w.
Proof.
  intros Hh Hacc Hm. pose proof Hacc as (Hnd & Hproc & Hsub & Hall).
  unfold Worker.worker_turn. apply pwp_bind, pwp_call, wp_bind, hwp_command; [done|].
  intros p w1 Hh1 _ Hd1 Hp. cbn [db_reply] in Hp. unfold absq in Hm; cbn [a_main] in Hm.
  rewrite Hm in Hp. subst p. apply wp_ret.
  destruct (absq_pop wid (db w)) as (Hm1 & Hq1 & Hp1). rewrite <- Hd1 in *.
  cbn [a_step] in Hm1, Hq1, Hp1. unfold absq at 2 in Hm1. unfold absq at 2 in Hq1.
  unfold absq at 2 in Hp1. cbn [a_main] in Hm1, Hq1, Hp1. rewrite Hm in Hm1, Hq1, Hp1.
  cbn [snd a_main a_dlq a_proc upd_proc] in Hm1, Hq1, Hp1.
  assert (Hk1 : ∀ k, hash (db w1) k = hash (db w) k) by (intros k; rewrite Hd1; apply hash_pop).
  assert (Hin : j ∈ ids) by (apply Hsub; unfold absq; cbn; rewrite Hm; left).
  assert (Hpend : pending (db w) j).
  { specialize (Hall j Hin). rewrite decide_True in Hall; [done|]. unfold absq; cbn. rewrite Hm. left. }
  pose proof Hpend as (Hid & Hst & _).
  apply pwp_bind. eapply pwp_mono;
    [|apply (processJob_healthy _ _ _ _ _ _ _ _ _ (.∈ ids) (λ _ _, True));
      [done|done|done|by rewrite Hk1|unfold status_of; by rewrite Hk1]].
  set (job := set_processing _ _ _). intros _ es w' (Hh' & o & d2 & _ & Hdel & Hd').
  assert (Hjid : ID job = j) by (apply ID_read_hash; by rewrite Hk1).
  assert (Hjrc : RetryCount job = retries (db w) j) by (unfold retries; by rewrite <- Hk1).
  destruct (delivered_progress (db w) (db w1) d2 j l o job (.∈ ids) wid) as (Ha2 & Hdlq & Hcase); try done.
  rewrite <- Hd' in Hdlq, Hcase. apply pwp_ret.
  assert (Hothers : ∀ id, id ∈ ids → id ≠ j → hash (db w') (jobKey id) = hash (db w) (jobKey id)).
  { intros id Hi Hne. rewrite Hd'. cbn [db_eff]. rewrite hash_set_list. rewrite <- Hk1.
    destruct Hdel as (_ & _ & _ & Hf). apply Hf; rewrite ?Hjid; auto. }
  assert (Hproc' : a_proc (absq (db w')) wid = []).
  { rewrite Hd', (proj2 (proj2 (absq_ack _ _ _))). cbn [a_step upd_proc a_proc snd].
    rewrite decide_True by done. rewrite (proj2 (proj2 Ha2)).
    assert (∀ f q, a_proc (settled job f q) wid = a_proc q wid) as ->.
    { intros [e|] q; [|done]. cbn [WorkerSpec.settled]. unfold failure_op. by case_match. }
    rewrite Hp1, decide_True by done. rewrite Hproc. cbn. by rewrite decide_True. }
  split_and!; [done| |].
  - apply (accounted_cons wid (db w) (db w') j l); try done. naive_solver.
  - change (NoDup (rlist (db w) jobQueueKey)) in Hnd. rewrite Hm in Hnd.
    apply NoDup_cons in Hnd as [Hj _]. unfold work.
    assert (El : attempts (db w') <$> l = attempts (db w) <$> l).
    { apply attempts_hash. intros id Hi. apply Hothers; [|set_solver].
      apply Hsub. unfold absq; cbn. rewrite Hm. by right. }
    change (a_main (absq (db w))) with (rlist (db w) jobQueueKey). rewrite Hm.
    assert (Hpos : (1 ≤ attempts (db w) j)%nat) by (unfold attempts; lia).
    destruct Hcase as [[-> _]|(-> & _ & Hlt)]; rewrite ?fmap_app, !fmap_cons, El,
      ?sum_list_with_app; cbn [sum_list_with]; unfold id; [lia|]. cbn. lia.
Qed.

Lemma turn_idle wid b w :
  healthy w → a_main (absq (db w)) = [] →
  pwp (worker_turn wid b) (λ _ _ w', healthy w' ∧ db w' = db w) w.
Proof.
  intros Hh Hm. unfold Worker.worker_turn. apply pwp_bind, pwp_call, wp_bind, hwp_command; [done|].
  intros p w1 Hh1 _ Hd1 Hp. cbn [db_reply db_eff] in Hp, Hd1. change (rlist (db w) jobQueueKey = []) in Hm.
  rewrite Hm in Hp, Hd1. subst p. by apply wp_throw, pwp_ret.
Qed.

Lemma workerKey_ne_job wk id : jobKey id ≠ workerKey wk.
Proof. done. Qed.

(** Registration and heartbeats write only the worker's own hash. *)
Lemma accounted_worker_hash wid wk h d : accounted wid d → accounted wid (set_hash (workerKey wk) h d).
Proof.
  intros (Hnd & Hproc & Hsub & Hall). split_and!; [done..|]. intros id Hid. specialize (Hall id Hid).
  assert (Hk : hash (set_hash (workerKey wk) h d) (jobKey id) = hash d (jobKey id))
    by (by rewrite hash_set_hash_ne by (intros ?; by apply (workerKey_ne_job wk id))).
  change (absq (set_hash (workerKey wk) h d)) with (absq d). case_decide.
  - by eapply pending_hash.
  - by eapply (finished_hash d).
Qed.

Lemma work_worker_hash wk h d : work (set_hash (workerKey wk) h d) = work d.
Proof.
  unfold work. change (absq (set_hash (workerKey wk) h d)) with (absq d). f_equal. apply attempts_hash.
  intros id _. by rewrite hash_set_hash_ne by (intros ?; by apply (workerKey_ne_job wk id)).
Qed.

Definition turns_of (l : list selected) : nat :=
  count_occ_dec Default l.

(** The loop consumes the measure. *)
Lemma loop_drains wid l b w :
  healthy w → accounted wid (db w) → CtxDone ∉ l → (work (db w) ≤ turns_of l)%nat →
  pwp (worker_loop wid b l) (λ _ _ w', a_main (absq (db w')) = [] ∧ accounted wid (db w')) w.
Proof.
  revert b w. induction l as [|s l IH]; intros b w Hh Hacc Hn Hw.
  - apply pwp_ret. split; [|done]. unfold work in Hw. destruct (a_main (absq (db w))) as [|j l]; [done|].
    unfold turns_of in Hw. cbn in Hw. unfold attempts in Hw. lia.
  - apply not_elem_of_cons in Hn as [Hs Hn]. destruct s; [done| |]; cbn [Worker.worker_loop].
    + apply pwp_bind, pwp_call. unfold UpdateWorkerHeartbeat.
      apply wp_bind, wp_reading, wp_bind, hwp_command; [done|]. intros p w1 Hh1 _ Hd1 _.
      apply wp_ret. eapply pwp_mono; [intros ? ? ? H; exact H|]. cbn [db_eff] in Hd1.
      apply IH; [done| |done|]; rewrite Hd1; [by apply accounted_worker_hash|by rewrite work_worker_hash].
    + assert (Ht : turns_of (Default :: l) = Datatypes.S (turns_of l)) by done. rewrite Ht in Hw.
      apply pwp_bind. destruct (a_main (absq (db w))) as [|j q] eqn:Hm.
      * eapply pwp_mono; [|by apply turn_idle]. intros b' es w1 [Hh1 Hd1].
        apply IH; [done|by rewrite Hd1|done|]. rewrite Hd1. unfold work. rewrite Hm. cbn. lia.
      * eapply pwp_mono; [|by eapply turn_delivers]. intros b' es w1 (Hh1 & Hacc1 & Hlt).
        apply IH; [done..|]. lia.
Qed.

(** C6: the queue is drained.  With Redis reachable and nobody else touching the
    given jobs, a worker that is not shut down and makes at least as many turns as
    the jobs have attempts left (for each [workerMaxRetries] minus its retry count,
    and at least one), whatever the scans do (succeed, fail, time out or panic, in
    any order) and however heartbeats fall in between, leaves the main queue empty
    and every job completed, or failed and on the dead-letter queue. *)
Theorem worker_drains_queue (wid : string) (l : list selected) (w : world) :
  healthy w → accounted wid (db w) → CtxDone ∉ l → (work (db w) ≤ turns_of l)%nat →
  pwp (Start wid l) (λ _ _ w', a_main (absq (db w')) = [] ∧ a_proc (absq (db w')) wid = [] ∧
    ∀ id, id ∈ ids → finished (db w') id) w.
Proof.
  intros Hh Hacc Hn Hw. unfold Worker.Start. apply pwp_bind, pwp_call. unfold RegisterWorker.
  apply wp_bind, wp_reading, wp_bind, hwp_command; [done|]. intros p w1 Hh1 _ Hd1 _. apply wp_ret.
  cbn [db_eff] in Hd1. eapply pwp_mono;
    [|apply loop_drains; [done| |done|]; rewrite Hd1;
      [by apply accounted_worker_hash|by rewrite work_worker_hash]].
  intros _ es w' (Hm & _ & Hproc & _ & Hall). split_and!; [done..|].
  intros id Hid. specialize (Hall id Hid). rewrite Hm in Hall. by rewrite decide_False in Hall by set_solver.
Qed.

End drain.

(** ** The reaper's sweep *)

(** What the server documents about [SCAN]: an iteration ends.  Every reply either
    ends it (cursor zero) or moves the cursor down a rank. *)
Class ScanTerminates (S : RedisServer) := {
  cursor_rank : Z → nat;
  scan_advances c p n (r : rstate) next l :
    (exec (SCAN c p n) r).1 = RScan next l → next ≠ 0 → (cursor_rank next < cursor_rank c)%nat }.

Section sweep.
Context `{S : RedisServer} `{!ScanTerminates S}.
Implicit Types w : world.

Lemma command_SCAN c p n w next l w' :
  command (SCAN c p n) w = (Ok (RScan next l), w') → next ≠ 0 → (cursor_rank next < cursor_rank c)%nat.
Proof.
  unfold command, roundtrip. intros E. apply (scan_advances c p n (w_db w) next l).
  destruct (next_fault w), (exec (SCAN c p n) (w_db w)); simplify_eq/=; done.
Qed.

Lemma for_each_total {A} (f : A → M unit) (l : list A) w : ∃ r w', for_each f l w = (r, w').
Proof. destruct (for_each f l w) as [r w']. eauto. Qed.


End sweep.

(** ** Instances *)

#[export] Instance mem_scan : ScanTerminates mem_server.
Proof.
  refine {| cursor_rank := λ _, 0%nat |}. intros c p n r next l E Hn. cbn in E. by simplify_eq.
Defined.


(** Two jobs whose scans always fail; the policy allows three attempts. *)
Definition two_jobs_db : rdb :=
  set_list jobQueueKey ["job-1"; "job-2"]
    (set_hash (jobKey "job-1") {["id" := "job-1"; "status" := "queued"; "retry_count" := "1"]}
      (set_hash (jobKey "job-2") {["id" := "job-2"; "status" := "queued"; "retry_count" := "0"]} empty_rdb)).

Definition failing_scan : ScanJob → P (scan_outcome (json := string)) :=
  bad_scan (ENew "connection reset").

Definition drain_run : unit * list event * world :=
  Start 3 0 0 true true (λ s, s) marshal_ok failing_scan failing_scan "wk"
    [Default; HeartbeatTick; Default; Default; Default; Default]
    (mem_world two_jobs_db [] 0).

Lemma two_jobs_accounted : accounted ["job-1"; "job-2"] "wk" two_jobs_db.
Proof.
  split_and!; [|done|set_solver|].
  - apply (bool_decide_unpack _). by vm_compute.
  - intros id Hid. rewrite decide_True by done. apply elem_of_cons in Hid as [->|Hid%list_elem_of_singleton];
      subst; (split_and!; [by vm_compute| |by vm_compute|by vm_compute]);
      apply (bool_decide_unpack _); by vm_compute.
Qed.

Lemma worker_drains_queue_witness :
  work 3 two_jobs_db = 5%nat ∧
  rlist (db drain_run.2) jobQueueKey = [] ∧ rlist (db drain_run.2) dlqKey = ["job-2"; "job-1"] ∧
  finished (db drain_run.2) "job-1".
Proof.
  split; [by vm_compute|]. split; [by vm_compute|]. split; [by vm_compute|].
  assert (Hcalm : calm_scan (.∈ ["job-1"; "job-2"]) (λ _ _, True) failing_scan)
    by (intros job w Hh; by apply pwp_ret).
  assert (H : pwp (Start 3 0 0 true true (λ s, s) marshal_ok failing_scan failing_scan "wk"
    [Default; HeartbeatTick; Default; Default; Default; Default])
    (λ _ _ w', a_main (absq (db w')) = [] ∧ a_proc (absq (db w')) "wk" = [] ∧
      ∀ id, id ∈ ["job-1"; "job-2"] → finished (db w') id) (mem_world two_jobs_db [] 0)).
  2: { unfold drain_run. unfold pwp in H. destruct (Start _ _ _ _ _ _ _ _ _ _ _ _) as [[[] es] w'].
       apply H. left. }
  apply (worker_drains_queue 3 0 0 true true (λ s, s) marshal_ok failing_scan failing_scan
    ["job-1"; "job-2"]); [|done|done| | |exact two_jobs_accounted| |].
  - intros a b Ha Hb. apply elem_of_cons in Ha as [->|Ha%list_elem_of_singleton]; subst; done.
  - by vm_compute.
  - by split.
  - set_solver.
  - apply Nat.leb_le. by vm_compute.
Defined.
