(* ===== verification/Storage.v ===== *)
(** * The artifact store ([storage/storage.go], [storage/local.go])

    The store interface, and the local backend over a file system whose
    operations can fail.  A file system maps absolute paths to file contents;
    directories are implicit.  Error texts leave out the quoted operands. *)
From S2P Require Import Prelude GoStr GoErr GoPath.

Local Open Scope Z_scope.

Notation filesys := (gmap string string).

(** The interface, as its clients see it: reading an object, its size, and the
    local path of a local backend. *)
Class StorageOps := {
  st_Open : string → filesys → res string;
  st_Stat : string → filesys → res Z;
  st_LocalPath : string → option string;
  st_Delete : string → filesys → res unit * filesys }.

(** What a client relies on: a size is that of the object it can open, and
    deletion makes the object unavailable. *)
Class StorageLaws (O : StorageOps) : Prop := {
  stat_open k f n : st_Stat k f = Ok n → ∃ c, st_Open k f = Ok c ∧ n = len c;
  open_deleted k f f' : st_Delete k f = (Ok tt, f') → is_ok (st_Open k f') = false }.

(** ** Backend selection *)

Inductive backend := BackendLocal | BackendS3.

Definition parse_backend (env : string) : option backend :=
  let b := ToLower (TrimSpace env) in
  if decide (b = "" ∨ b = "local") then Some BackendLocal
  else if decide (b = "s3") then Some BackendS3 else None.

(** [NewFromEnv] and [ValidateConfiguredBackend], given the constructors of the
    two backends. *)
Definition NewFromEnv {A} (env : string) (newLocal newS3 : res A) : res A :=
  match parse_backend env with
  | Some BackendLocal => newLocal
  | Some BackendS3 => newS3
  | None => Err (ENew "storage: unknown MORF_STORAGE_BACKEND")
  end.

Definition ValidateConfiguredBackend {A} (env : string) (newLocal newS3 : res A) : option error :=
  let b := ToLower (TrimSpace env) in
  if decide (b = "" ∨ b = "local") then None
  else match NewFromEnv env newLocal newS3 with
       | Ok _ => None
       | Err e => Some (EWrap "MORF_STORAGE_BACKEND is misconfigured" [e])
       end.

(** ** The local backend *)

Section local.
(** The absolute base directory. *)
Context (base : string).

Definition sanitizeKey (key : string) : res string :=
  if decide (TrimSpace key = "") then Err (ENew "storage: empty key")
  else if IsAbs key || HasPrefix key "/" then Err (ENew "storage: absolute key not allowed")
  else
    let cleaned := Clean key in
    if existsb (λ seg, bool_decide (seg = "..")) (Split cleaned slash)
    then Err (ENew "storage: key must not contain a path segment")
    else Ok cleaned.

Definition resolve (key : string) : res string :=
  rel ← sanitizeKey key; Ok (Join base rel).

(** Where a [Put] fails, if it does; a failed copy leaves some of the bytes in
    the temporary file. *)
Inductive put_fault :=
  | FailCtx | FailMkdir | FailTemp | FailCopy (written : nat) | FailSync | FailClose
  | FailRename.

(** [io.CopyN] when a size is given: the bytes, or an error on a short read. *)
Definition copied (r : string) (size : Z) : option string :=
  if 0 <=? size then
    if len r <? size then None else Some (take_str (Z.to_nat size) r)
  else Some r.

Definition err_io : error := ENew "input/output error".

(** [Put]; [tmp] is the name [os.CreateTemp] picks. *)
Definition Put (fault : option put_fault) (tmp key r : string) (size : Z) (f : filesys) : res unit * filesys :=
  match fault with
  | Some FailCtx => (Err (ESentinel ContextCanceled), f)
  | _ =>
    match resolve key with
    | Err e => (Err e, f)
    | Ok full =>
      match fault with
      | Some FailMkdir | Some FailTemp => (Err err_io, f)
      | _ =>
        let created := <[tmp := ""]> f in
        let remove g := delete tmp g in
        match fault, copied r size with
        | Some (FailCopy n), _ => (Err err_io, remove (<[tmp := take_str n r]> created))
        | _, None => (Err err_io, remove (<[tmp := r]> created))
        | Some _, Some data => (Err err_io, remove (<[tmp := data]> created))
        | None, Some data => (Ok tt, <[full := data]> (remove (<[tmp := data]> created)))
        end
      end
    end
  end.

Definition err_not_exist : error := EWrap "storage: object does not exist" [ESentinel ErrNotExist].

Definition Open (ctx_ok : bool) (key : string) (f : filesys) : res string :=
  if negb ctx_ok then Err (ESentinel ContextCanceled) else
  full ← resolve key;
  match f !! full with Some c => Ok c | None => Err err_not_exist end.

Definition Stat (ctx_ok : bool) (key : string) (f : filesys) : res Z :=
  if negb ctx_ok then Err (ESentinel ContextCanceled) else
  full ← resolve key;
  match f !! full with Some c => Ok (len c) | None => Err err_not_exist end.

(** A missing key is not an error. *)
Definition Delete (ctx_ok : bool) (key : string) (f : filesys) : res unit * filesys :=
  if negb ctx_ok then (Err (ESentinel ContextCanceled), f) else
  match resolve key with
  | Err e => (Err e, f)
  | Ok full => (Ok tt, delete full f)
  end.

Definition LocalPath (key : string) : option string :=
  match sanitizeKey key with
  | Ok rel => Some (Join base rel)
  | Err _ => None
  end.

(** The interface, outside any cancelled context. *)
Definition local_ops : StorageOps := {|
  st_Open := Open true; st_Stat := Stat true;
  st_LocalPath := LocalPath; st_Delete := Delete true |}.

#[export] Instance local_laws : StorageLaws local_ops.
Proof.
  split; cbn [local_ops st_Open st_Stat st_Delete]; unfold Stat, Open, Delete; cbn [negb].
  - intros k f n. destruct (resolve k) as [full|]; cbn [mbind res_bind]; [|done].
    destruct (f !! full); naive_solver.
  - intros k f f'. destruct (resolve k) as [full|]; cbn [mbind res_bind]; [|done]. intros [= <-].
    by rewrite lookup_delete_eq.
Qed.

End local.

(** [NewLocalStorage]: the base directory; [Abs] is [filepath.Abs]. *)
Definition DefaultUploadDir : string := "/tmp/morf/uploads".
Definition local_base (Abs : string → string) (dir : string) : string :=
  let b := TrimSpace dir in Abs (if decide (b = "") then DefaultUploadDir else b).

(** ** Containment and atomicity *)

Lemma clean_no_dotdot cs st :
  ".." ∉ cs → ".." ∉ st → ".." ∉ clean_comps false st cs.
Proof.
  revert st. induction cs as [|c cs IH]; intros st Hcs Hst; [done|]. rewrite clean_comps_cons.
  apply IH; [set_solver|]. unfold push_comp. repeat case_decide; set_solver.
Qed.

Lemma sanitizeKey_segments key rel :
  sanitizeKey key = Ok rel → ".." ∉ Split rel slash.
Proof.
  unfold sanitizeKey. case_decide; [done|]. destruct (_ || _); [done|].
  destruct (existsb _ _) eqn:He; [done|]. intros [= <-] Hin.
  apply not_true_iff_false in He. apply He, existsb_exists. exists "..". split; [by apply list_elem_of_In|].
  by apply bool_decide_eq_true_2.
Qed.

(** Keys cannot escape the upload directory.  Every key the local store
    accepts resolves to the base directory or to a path below it; keys with a
    leading slash or a parent-directory segment are refused. *)
Theorem keys_stay_inside base key p :
  IsAbs base = true → base ≠ "/" → Clean base = base → resolve base key = Ok p →
  p = base ∨ HasPrefix p (base +:+ "/") = true.
Proof.
  intros Habs Hne Hcl. unfold resolve. destruct (sanitizeKey key) as [rel|e] eqn:Hs; [|done].
  intros [= <-]. apply clean_under; [done..|].
  apply clean_no_dotdot; [by eapply sanitizeKey_segments|apply not_elem_of_nil].
Qed.

(** Uploads are atomic.  Whatever step of a [Put] fails, the object's previous
    contents are intact and no other path changes; when it succeeds the object has
    the new contents, and again nothing else changed.  [tmp] is a name that did
    not exist, as [os.CreateTemp] guarantees. *)
Theorem put_atomic base fault tmp key r size f full :
  resolve base key = Ok full → f !! tmp = None → tmp ≠ full →
  let '(out, f') := Put base fault tmp key r size f in
  (∀ p, p ≠ full → f' !! p = f !! p) ∧
  f' !! full = match out with Ok _ => copied r size | Err _ => f !! full end.
Proof.
  intros Hr Htmp Hne. unfold Put. rewrite Hr.
  assert (Hback : ∀ v p, delete tmp (<[tmp := v]> (<[tmp := ""]> f)) !! p = f !! p).
  { intros v p. destruct (decide (p = tmp)) as [->|]; [by rewrite lookup_delete_eq|].
    by rewrite lookup_delete_ne, !lookup_insert_ne. }
  destruct fault as [[]|]; try done; destruct (copied r size) as [data|]; try done.
  split; [|by rewrite lookup_insert_eq]. intros p Hp. by rewrite lookup_insert_ne.
Qed.

(** What was stored is what is read.  After a successful [Put] of a whole
    object, [Open] returns its bytes and [Stat] its length, until a [Delete],
    after which [Open] reports that it does not exist. *)
Theorem put_open_delete base tmp key r f :
  (Put base None tmp key r (len r) f).1 = Ok tt →
  let f1 := (Put base None tmp key r (len r) f).2 in
  Open base true key f1 = Ok r ∧ Stat base true key f1 = Ok (len r) ∧
  Open base true key (Delete base true key f1).2 = Err err_not_exist.
Proof.
  unfold Put. destruct (resolve base key) as [full|e] eqn:Hr; [|done].
  assert (copied r (len r) = Some r) as ->.
  { unfold copied, len. rewrite (proj2 (Z.leb_le _ _)) by lia. rewrite Z.ltb_irrefl.
    rewrite Nat2Z.id. by rewrite take_str_all. }
  intros _. cbn [fst snd]. unfold Open, Stat, Delete. cbn [negb]. rewrite Hr. cbn [mbind res_bind snd].
  by rewrite lookup_insert_eq, lookup_delete_eq.
Qed.

Lemma keys_stay_inside_witness :
  resolve "/tmp/morf/uploads" "a/../b/app-1.2..0.apk" = Ok "/tmp/morf/uploads/b/app-1.2..0.apk" ∧
  HasPrefix "/tmp/morf/uploads/b/app-1.2..0.apk" "/tmp/morf/uploads/" = true.
Proof.
  assert (H : resolve "/tmp/morf/uploads" "a/../b/app-1.2..0.apk" =
    Ok "/tmp/morf/uploads/b/app-1.2..0.apk") by (by vm_compute).
  split; [exact H|].
  destruct (keys_stay_inside "/tmp/morf/uploads" "a/../b/app-1.2..0.apk" _ eq_refl
    ltac:(done) eq_refl H) as [E|E]; [done|exact E].
Defined.

Lemma put_atomic_witness :
  let f : filesys := {["/up/a.apk" := "old"]} in
  let '(out, f') := Put "/up" (Some (FailCopy 2)) "/up/.morf-tmp-1" "a.apk" "new" 3 f in
  is_ok out = false ∧ f' !! "/up/a.apk" = Some "old".
Proof.
  intros f.
  pose proof (put_atomic "/up" (Some (FailCopy 2)) "/up/.morf-tmp-1" "a.apk" "new" 3 f "/up/a.apk"
    eq_refl ltac:(by vm_compute) ltac:(done)) as H.
  assert (E : is_ok (Put "/up" (Some (FailCopy 2)) "/up/.morf-tmp-1" "a.apk" "new" 3 f).1 = false)
    by (by vm_compute).
  destruct (Put "/up" (Some (FailCopy 2)) "/up/.morf-tmp-1" "a.apk" "new" 3 f) as [out f'].
  destruct H as [_ H]. cbn in E. destruct out as [|e]; [done|]. split; [done|].
  rewrite H. by vm_compute.
Defined.

Lemma put_open_delete_witness :
  Open "/up" true "a.apk" (Put "/up" None "/up/.morf-tmp-1" "a.apk" "bytes" 5 ∅).2 = Ok "bytes".
Proof.
  exact (proj1 (put_open_delete "/up" "/up/.morf-tmp-1" "a.apk" "bytes" ∅ ltac:(by vm_compute))).
Defined.
