(* ===== verification/Artifact.v ===== *)
(** * Locating the artifact of a job ([worker/worker.go], [utils/jobcontext.go])

    The per-job workspace, the disk-space admission check, and [resolveAPKPath],
    which turns a job's storage key into a path the tools can read. *)
From S2P Require Import Prelude GoStr GoErr GoTime GoPath ScanJob Storage Config.

Local Open Scope Z_scope.

(** ** The workspace *)

Record JobContext := mk_ctx { JobID : string; Workspace : string }.

(** [uuid] is the identifier used when none is given. *)
Definition NewJobContextForID (uuid jobID : string) : JobContext :=
  let id := if decide (TrimSpace jobID = "") then uuid else jobID in
  mk_ctx id (Join "/tmp/morf/jobs" id).

Definition GetInputDir (jc : JobContext) : string := Join (Workspace jc) "input".
Definition GetOutputDir (jc : JobContext) : string := Join (Workspace jc) "output".
Definition GetSourceDir (jc : JobContext) : string := Join (Workspace jc) "output/apk/source".
Definition GetResDir (jc : JobContext) : string := Join (Workspace jc) "output/apk/appres".
Definition GetFilesDir (jc : JobContext) : string := GetSourceDir jc.
Definition GetIOSDir (jc : JobContext) : string := Join (Workspace jc) "output/ipa".
Definition GetIOSBinDir (jc : JobContext) : string := Join (GetIOSDir jc) "bin".
Definition GetTmpDir (jc : JobContext) : string := Workspace jc.

(** The directories [CreateWorkspace] makes, in order. *)
Definition workspace_dirs (jc : JobContext) : list string :=
  [Workspace jc; GetInputDir jc; GetOutputDir jc; GetSourceDir jc; GetResDir jc;
   GetFilesDir jc; GetIOSDir jc; GetIOSBinDir jc].

(** [RemoveAll]: the directory and everything below it. *)
Definition CleanupWorkspace (jc : JobContext) (f : filesys) : filesys :=
  filter (λ kv, kv.1 ≠ Workspace jc ∧ HasPrefix kv.1 (Workspace jc +:+ "/") = false) f.

(** ** Disk admission *)

(** [statfs] of the workspace's file system: available blocks and block size. *)
Definition freeBytesOnFS (statfs : string → option (Z * Z)) (dir : string) : option Z :=
  match statfs dir with
  | Some (bavail, bsize) => Some (uwrap64 (uwrap64 bavail * uwrap64 bsize))
  | None => None
  end.

(** [None] admits; [Some required] refuses. *)
Definition checkDiskAdmission (LookupEnv : string → option string)
    (statfs : string → option (Z * Z)) (workspaceDir : string) (objSize : Z) : option Z :=
  if objSize <=? 0 then None
  else
    let factor := IntPositive LookupEnv "MORF_DISK_DECOMPILE_FACTOR" 20 in
    let required := uwrap64 (uwrap64 objSize * uwrap64 factor) in
    match freeBytesOnFS statfs workspaceDir with
    | None => None
    | Some free => if free <? required then Some required else None
    end.

(** ** Resolution *)

Section resolve.
Context (LookupEnv : string → option string) (statfs : string → option (Z * Z)).
(** The store, when it could be constructed. *)
Context (store : option StorageOps).
(** The name [os.CreateTemp] picks in a directory, and whether creating and
    filling the file works. *)
Context (temp_name : string → string) (temp_ok copy_ok close_ok : bool).

#[local] Notation admission := (checkDiskAdmission LookupEnv statfs).

Definition err_disk : error := ENew "insufficient disk for scan".

(** The last checks, on the resolved path. *)
Definition check_local (jc : JobContext) (localPath : string) (f : filesys) : res string :=
  match f !! localPath with
  | None => Err (ENew "apk artifact is unavailable")
  | Some c => match admission (GetTmpDir jc) (len c) with
              | Some _ => Err err_disk
              | None => Ok localPath
              end
  end.

(** The result, and the file system when the function has returned and its
    deferred calls have run. *)
Definition resolveAPKPath (job : ScanJob) (jc : JobContext) (f : filesys) : res string * filesys :=
  let key := StorageKey job in
  if decide (key = "") then (check_local jc (APKPath job) f, f)
  else match store with
  | None => (Err (ENew "storage backend unavailable; cannot resolve APK"), f)
  | Some ops =>
      match st_LocalPath key with
      | Some p => (check_local jc p f, f)
      | None =>
          let refused := match st_Stat key f with
                         | Ok size => bool_decide (is_Some (admission (GetTmpDir jc) size))
                         | Err _ => false
                         end in
          if refused then (Err err_disk, f)
          else match st_Open key f with
          | Err e => (Err (EWrap "failed to open APK object from storage" [e]), f)
          | Ok content =>
              if negb temp_ok then (Err (ENew "failed to create temp APK file"), f) else
              let tmpPath := temp_name (GetTmpDir jc) in
              (* the deferred os.Remove(tmpPath) runs on every return below *)
              let remove := delete tmpPath in
              if negb copy_ok then (Err (ENew "failed to copy APK object to temp file"),
                                    remove (<[tmpPath := ""]> f))
              else
                let f1 := <[tmpPath := content]> f in
                if negb close_ok then (Err (ENew "failed to finalize temp APK file"), remove f1)
                else (check_local jc tmpPath f1, remove f1)
          end
      end
  end.

End resolve.

(** ** What resolution guarantees *)

Lemma check_local_Ok LookupEnv statfs jc p q f :
  check_local LookupEnv statfs jc p f = Ok q →
  q = p ∧ ∃ c, f !! p = Some c ∧ checkDiskAdmission LookupEnv statfs (GetTmpDir jc) (len c) = None.
Proof.
  unfold check_local. destruct (f !! p) as [c|]; [|done].
  destruct (checkDiskAdmission _ _ _ _) eqn:E; [done|]. intros [= <-]. eauto.
Qed.

(** A missing artifact is never scanned.  For a direct path or a local store,
    a successful resolution names a file that exists and fits the disk-space
    requirement, and resolution changes no file. *)
Theorem resolved_local_exists LookupEnv statfs (ops : StorageOps) temp_name t c cl job jc f p :
  (StorageKey job = "" ∨ is_Some (st_LocalPath (StorageKey job))) →
  let '(r, f') := resolveAPKPath LookupEnv statfs (Some ops) temp_name t c cl job jc f in
  r = Ok p →
  f' = f ∧ ∃ bytes, f' !! p = Some bytes ∧
  checkDiskAdmission LookupEnv statfs (GetTmpDir jc) (len bytes) = None.
Proof.
  intros Hk. unfold resolveAPKPath. case_decide as Hkey.
  - intros [-> (b & Hb & Ha)]%check_local_Ok. eauto.
  - destruct Hk as [?|[q ->]]; [done|].
    intros [-> (b & Hb & Ha)]%check_local_Ok. eauto.
Qed.

(** A remote artifact is gone before it is scanned.  With a backend that has
    no local paths, the temporary copy is removed by a deferred call of
    [resolveAPKPath] itself: whenever resolution succeeds, the path it returns no
    longer exists. *)
Theorem resolved_remote_missing LookupEnv statfs (ops : StorageOps) temp_name t c cl job jc f p :
  StorageKey job ≠ "" → st_LocalPath (StorageKey job) = None →
  (resolveAPKPath LookupEnv statfs (Some ops) temp_name t c cl job jc f).1 = Ok p →
  (resolveAPKPath LookupEnv statfs (Some ops) temp_name t c cl job jc f).2 !! p = None.
Proof.
  intros Hkey Hl. unfold resolveAPKPath. rewrite decide_False, Hl by done.
  destruct (match st_Stat _ _ with Ok _ => _ | Err _ => _ end); [done|].
  destruct (st_Open (StorageKey job) f) as [content|e]; [|done].
  destruct t, c, cl; try done. cbn [negb fst snd].
  intros [-> _]%check_local_Ok. apply lookup_delete_eq.
Qed.

(** The disk check is exact.  For an object of known size whose required space
    does not overflow, a scan is refused exactly when the workspace's file system
    has measurably less free space than the size times the expansion factor. *)
Theorem disk_admission_exact LookupEnv statfs dir objSize bavail bsize :
  let factor := IntPositive LookupEnv "MORF_DISK_DECOMPILE_FACTOR" 20 in
  0 < objSize → 0 < factor → objSize * factor < two64 →
  0 ≤ bavail < two64 → 0 ≤ bsize < two64 → bavail * bsize < two64 →
  statfs dir = Some (bavail, bsize) →
  checkDiskAdmission LookupEnv statfs dir objSize =
  if bavail * bsize <? objSize * factor then Some (objSize * factor) else None.
Proof.
  intros factor Ho Hf Hof Hba Hbs Hb Hs. unfold checkDiskAdmission, freeBytesOnFS. rewrite Hs.
  fold factor. destruct (Z.leb_spec objSize 0); [lia|].
  rewrite (uwrap64_id objSize), (uwrap64_id factor), (uwrap64_id bavail), (uwrap64_id bsize) by nia.
  by rewrite !uwrap64_id by nia.
Qed.

(** ** Instances *)

Definition plain_env : string → option string := λ _, None.
Definition big_disk : string → option (Z * Z) := λ _, Some (1000000000, 4096).

(** A store with one remote object. *)
Definition remote_ops : StorageOps := {|
  st_Open k _ := if decide (k = "obj") then Ok "PK..." else Err err_not_exist;
  st_Stat k _ := if decide (k = "obj") then Ok 5 else Err err_not_exist;
  st_LocalPath _ := None;
  st_Delete _ f := (Ok tt, f) |}.

Definition stored_job (key : string) : ScanJob :=
  mk_job "job-1" JobStatusProcessing "" "apk" "a.apk" zero_time None None None
    "" "" "" "wk" 0 "" "" 0 key "" ∅.

Definition job_ctx : JobContext := NewJobContextForID "uuid" "job-1".

Lemma resolved_local_exists_witness :
  let f : filesys := {["/up/a.apk" := "PK..."]} in
  ∃ bytes, f !! "/up/a.apk" = Some bytes ∧
    (resolveAPKPath plain_env big_disk (Some (local_ops "/up")) (λ d, d +:+ "/apk-1.apk") true true true
       (stored_job "a.apk") job_ctx f).1 = Ok "/up/a.apk".
Proof.
  intros f.
  pose proof (resolved_local_exists plain_env big_disk (local_ops "/up") (λ d, d +:+ "/apk-1.apk")
    true true true (stored_job "a.apk") job_ctx f "/up/a.apk" (or_intror (ex_intro _ _ eq_refl))) as H.
  assert (E : (resolveAPKPath plain_env big_disk (Some (local_ops "/up")) (λ d, d +:+ "/apk-1.apk")
    true true true (stored_job "a.apk") job_ctx f).1 = Ok "/up/a.apk") by (by vm_compute).
  destruct (resolveAPKPath plain_env big_disk (Some (local_ops "/up")) (λ d, d +:+ "/apk-1.apk")
    true true true (stored_job "a.apk") job_ctx f) as [r f'].
  cbn in E. destruct (H E) as (-> & b & Hb & _). exists b. split; [exact Hb|exact E].
Defined.

Lemma resolved_remote_missing_witness :
  (resolveAPKPath plain_env big_disk (Some remote_ops) (λ d, d +:+ "/apk-1.apk") true true true
     (stored_job "obj") job_ctx ∅).1 = Ok "/tmp/morf/jobs/job-1/apk-1.apk" ∧
  (resolveAPKPath plain_env big_disk (Some remote_ops) (λ d, d +:+ "/apk-1.apk") true true true
     (stored_job "obj") job_ctx ∅).2 !! "/tmp/morf/jobs/job-1/apk-1.apk" = None.
Proof.
  assert (E : (resolveAPKPath plain_env big_disk (Some remote_ops) (λ d, d +:+ "/apk-1.apk")
    true true true (stored_job "obj") job_ctx ∅).1 = Ok "/tmp/morf/jobs/job-1/apk-1.apk")
    by (by vm_compute).
  split; [exact E|].
  exact (resolved_remote_missing plain_env big_disk remote_ops (λ d, d +:+ "/apk-1.apk")
    true true true (stored_job "obj") job_ctx ∅ _ ltac:(done) eq_refl E).
Defined.

Lemma disk_admission_exact_witness :
  checkDiskAdmission plain_env big_disk "/tmp" 1000000000000 = Some 20000000000000.
Proof.
  exact (disk_admission_exact plain_env big_disk "/tmp" 1000000000000 1000000000 4096
    ltac:(done) ltac:(done) ltac:(by vm_compute) ltac:(by vm_compute) ltac:(by vm_compute)
    ltac:(by vm_compute) eq_refl).
Defined.
