(* ===== verification/Archive.v ===== *)
(** * The archive guard ([utils/zipbomb.go])

    [CheckAPKSafe] inspects the central directory of an uploaded archive before
    anything is extracted: entry count, names, sizes and compression ratios.
    Floating-point ratios are IEEE doubles ([SpecFloat]); the zip reader is a
    parameter that yields the directory's entries. *)
From Stdlib Require Import Ascii.
From S2P Require Import Prelude GoStr GoErr GoFloat GoPath.

Local Open Scope Z_scope.

(** ** The guard *)

(** A central-directory entry; the sizes are [uint64]. *)
Record zip_entry := mk_entry {
  Name : string;
  UncompressedSize64 : Z;
  CompressedSize64 : Z }.

Record limits := mk_limits {
  APKMaxEntries : Z;
  APKMaxTotalUncompressed : Z;
  APKMaxRatio : spec_float;
  APKMaxEntryUncompressed : Z }.

Definition default_limits : limits :=
  mk_limits 100000 (4 * 1024 * 1024 * 1024) (float_of_Z 200) (500 * 1024 * 1024).

(** The [init] function: overrides from the environment.  [ParseFloat] is
    [strconv.ParseFloat]. *)
Definition init_limits (getenv : string → string) (ParseFloat : string → option spec_float)
    : limits :=
  let int_env name def := match Atoi (getenv name) with
                          | Some n => if 0 <? n then n else def
                          | None => def
                          end in
  mk_limits (int_env "MORF_ZIP_MAX_ENTRIES" (APKMaxEntries default_limits))
    (int_env "MORF_ZIP_MAX_TOTAL_UNCOMPRESSED" (APKMaxTotalUncompressed default_limits))
    (let v := getenv "MORF_ZIP_MAX_RATIO" in
     if decide (v = "") then APKMaxRatio default_limits
     else match ParseFloat v with
          | Some f => if SFltb (float_of_Z 0) f then f else APKMaxRatio default_limits
          | None => APKMaxRatio default_limits
          end)
    (int_env "MORF_ZIP_MAX_ENTRY_UNCOMPRESSED" (APKMaxEntryUncompressed default_limits)).

(** Why an archive is rejected. *)
Inductive rejection :=
  | CannotOpen (e : error)
  | TooManyEntries (count : Z)
  | AbsolutePath (name : string)
  | ParentSegment (name : string)
  | EntryTooLarge (name : string) (size : Z)
  | EntryRatio (name : string) (ratio : spec_float)
  | TotalTooLarge (total : Z)
  | OverallRatio (ratio : spec_float).

(** The ratio, as [float64]s. *)
Definition ratio (unc cmp : Z) : spec_float := float_div (float_of_Z unc) (float_of_Z cmp).

Definition ratio_exceeds (lim : limits) (unc cmp : Z) : bool :=
  (0 <? cmp) && (0 <? unc) && SFltb (APKMaxRatio lim) (ratio unc cmp).

Definition is_absolute (name : string) : bool :=
  IsAbs name || HasPrefix name "/" || HasPrefix name "\".

Definition has_parent (name : string) : bool :=
  let cleaned := Clean name in
  bool_decide (cleaned = "..") || HasPrefix cleaned "../" || Contains cleaned "/../".

(** The loop over the entries, with its running totals. *)
Fixpoint check_entries (lim : limits) (fs : list zip_entry) (totalUncomp totalComp : Z)
    : rejection + (Z * Z) :=
  match fs with
  | [] => inr (totalUncomp, totalComp)
  | f :: fs' =>
      if is_absolute (Name f) then inl (AbsolutePath (Name f))
      else if has_parent (Name f) then inl (ParentSegment (Name f))
      else
        let unc := wrap64 (UncompressedSize64 f) in
        let cmp := wrap64 (CompressedSize64 f) in
        if APKMaxEntryUncompressed lim <? unc then inl (EntryTooLarge (Name f) unc)
        else if ratio_exceeds lim unc cmp then inl (EntryRatio (Name f) (ratio unc cmp))
        else
          let totalUncomp := wrap64 (totalUncomp + unc) in
          let totalComp := wrap64 (totalComp + cmp) in
          if APKMaxTotalUncompressed lim <? totalUncomp then inl (TotalTooLarge totalUncomp)
          else check_entries lim fs' totalUncomp totalComp
  end.

(** [CheckAPKSafe]; [OpenReader] is [zip.OpenReader]. *)
Definition CheckAPKSafe (lim : limits) (OpenReader : string → res (list zip_entry))
    (apkPath : string) : option rejection :=
  match OpenReader apkPath with
  | Err e => Some (CannotOpen e)
  | Ok fs =>
      let entryCount := Z.of_nat (length fs) in
      if APKMaxEntries lim <? entryCount then Some (TooManyEntries entryCount)
      else match check_entries lim fs 0 0 with
           | inl r => Some r
           | inr (totalUncomp, totalComp) =>
               if ratio_exceeds lim totalUncomp totalComp then Some (OverallRatio (ratio totalUncomp totalComp)) else None
           end
  end.

(** The error of a rejection; [fixed1] formats a ratio under [%.1f]. *)
Definition rejection_error (lim : limits) (fixed1 : spec_float → string) (apkPath : string) (r : rejection) : error :=
  match r with
  | CannotOpen e => EWrap ("CheckAPKSafe: cannot open " +:+ Quote apkPath +:+ " as zip: " +:+ Error e) [e]
  | TooManyEntries n =>
      ENew ("CheckAPKSafe: entry count " +:+ itoa n +:+ " exceeds limit " +:+ itoa (APKMaxEntries lim) +:+ " (zip bomb suspected)")
  | AbsolutePath name => ENew ("CheckAPKSafe: entry " +:+ Quote name +:+ " has an absolute path (zip-slip suspected)")
  | ParentSegment name =>
      ENew ("CheckAPKSafe: entry " +:+ Quote name +:+ " contains a parent-directory (" +:+ Quote ".." +:+
            ") segment (zip-slip suspected)")
  | EntryTooLarge name unc =>
      ENew ("CheckAPKSafe: entry " +:+ Quote name +:+ " declares uncompressed size " +:+ itoa unc +:+
            " bytes, exceeds per-entry limit " +:+ itoa (APKMaxEntryUncompressed lim) +:+ " bytes (zip bomb suspected)")
  | EntryRatio name q =>
      ENew ("CheckAPKSafe: entry " +:+ Quote name +:+ " has compression ratio " +:+ fixed1 q +:+ ":1, exceeds limit " +:+
            fixed1 (APKMaxRatio lim) +:+ ":1 (zip bomb suspected)")
  | TotalTooLarge total =>
      ENew ("CheckAPKSafe: cumulative uncompressed size " +:+ itoa total +:+ " bytes exceeds limit " +:+
            itoa (APKMaxTotalUncompressed lim) +:+ " bytes (zip bomb suspected)")
  | OverallRatio q =>
      ENew ("CheckAPKSafe: overall compression ratio " +:+ fixed1 q +:+ ":1 exceeds limit " +:+ fixed1 (APKMaxRatio lim) +:+
            ":1 (zip bomb suspected)")
  end.

(** ** Names *)

(** The string conditions of the guard exclude a climbing path. *)
Lemma has_parent_false name :
  IsAbs name = false → has_parent name = false → ".." ∉ clean_comps false [] (Split name slash).
Proof.
  intros Habs Hp. destruct (clean_comps_shape (Split name slash) []) as (ns & k & E & Hns).
  { exists [], 0%nat. split; [done|apply not_elem_of_nil]. }
  destruct k as [|k]; [by rewrite E, app_nil_r|]. exfalso.
  unfold has_parent, Clean in Hp. rewrite Habs, E in Hp.
  rewrite replicate_S_end, rev_app_distr, rev_app_distr in Hp. cbn [rev app] in Hp.
  destruct (rev (replicate k "..") ++ rev ns) as [|c cs]; [done|].
  cbn [join_slash] in Hp. apply orb_false_iff in Hp as [Hp _]. apply orb_false_iff in Hp as [_ Hp].
  apply not_true_iff_false in Hp. apply Hp, HasPrefix_spec. by exists (join_slash (c :: cs)).
Qed.

(** ** What an accepted archive satisfies *)

Definition entry_safe (lim : limits) (f : zip_entry) : Prop :=
  is_absolute (Name f) = false ∧ has_parent (Name f) = false ∧
  wrap64 (UncompressedSize64 f) ≤ APKMaxEntryUncompressed lim ∧
  ratio_exceeds lim (wrap64 (UncompressedSize64 f)) (wrap64 (CompressedSize64 f)) = false.

Lemma check_entries_ok lim fs tu tc res :
  check_entries lim fs tu tc = inr res → Forall (entry_safe lim) fs.
Proof.
  revert tu tc. induction fs as [|f fs IH]; intros tu tc H; [constructor|]. cbn in H.
  repeat case_match; simplify_eq. apply Z.ltb_ge in H2. constructor; [|by eapply IH].
  by split_and!.
Qed.

(** Total declared size. *)
Definition total_size (fs : list zip_entry) : Z :=
  foldr (λ f t, UncompressedSize64 f + t) 0 fs.

(** With sizes that fit a signed word the running total is exact. *)
Lemma check_entries_total lim fs tu tc res :
  APKMaxTotalUncompressed lim + APKMaxEntryUncompressed lim ≤ int64_max →
  Forall (λ f, 0 ≤ UncompressedSize64 f ≤ int64_max) fs →
  0 ≤ tu ≤ APKMaxTotalUncompressed lim →
  check_entries lim fs tu tc = inr res →
  res.1 = tu + total_size fs ∧ 0 ≤ res.1 ≤ APKMaxTotalUncompressed lim.
Proof.
  intros Hlim Hfs. revert tu tc. induction Hfs as [|f fs Hf Hfs IH]; intros tu tc Htu H.
  { cbn in *. simplify_eq/=. lia. }
  cbn in H. repeat case_match; simplify_eq. apply Z.ltb_ge in H2, H4.
  assert (Hu : wrap64 (UncompressedSize64 f) = UncompressedSize64 f).
  { apply wrap64_id. unfold in_int64, int64_min in *. lia. }
  rewrite Hu in *.
  assert (Ht : wrap64 (tu + UncompressedSize64 f) = tu + UncompressedSize64 f).
  { apply wrap64_id. unfold in_int64, int64_min in *. lia. }
  rewrite Ht in *. apply IH in H; [|lia]. unfold total_size in *. cbn [foldr]. lia.
Qed.


(** Extraction stays inside its directory.  For every entry of an accepted
    archive and every cleaned absolute extraction directory, joining the entry's
    name to the directory and cleaning gives the directory itself or a path below
    it. *)
Theorem accepted_names_stay_inside lim OpenReader path fs f root :
  OpenReader path = Ok fs → CheckAPKSafe lim OpenReader path = None → f ∈ fs →
  IsAbs root = true → root ≠ "/" → Clean root = root →
  let p := Clean (root +:+ "/" +:+ Name f) in
  p = root ∨ HasPrefix p (root +:+ "/") = true.
Proof.
  intros Ho H Hf Habs Hne Hcl. cbv zeta.
  assert (Hs : entry_safe lim f).
  { unfold CheckAPKSafe in H. rewrite Ho in H. case_match; [done|].
    destruct (check_entries lim fs 0 0) as [?|[tu tc]] eqn:Hc; [done|].
    pose proof (check_entries_ok _ _ _ _ _ Hc) as Hok. by eapply Forall_forall in Hok. }
  destruct Hs as (Ha & Hp & _). unfold is_absolute in Ha.
  apply orb_false_iff in Ha as [Ha _]. apply orb_false_iff in Ha as [Ha _].
  pose proof (has_parent_false _ Ha Hp) as Hdd.
  apply clean_under; done.
Qed.

(** A small archive, with the default limits. *)
Definition tiny_archive : string → res (list zip_entry) :=
  λ _, Ok [mk_entry "AndroidManifest.xml" 1000 300; mk_entry "res/../lib/a.so" 4096 4096].


Lemma accepted_names_stay_inside_witness :
  CheckAPKSafe default_limits tiny_archive "a.apk" = None ∧
  (Clean "/tmp/job-1/res/../lib/a.so" = "/tmp/job-1" ∨
   HasPrefix (Clean "/tmp/job-1/res/../lib/a.so") "/tmp/job-1/" = true).
Proof.
  assert (H : CheckAPKSafe default_limits tiny_archive "a.apk" = None) by (by vm_compute).
  split; [exact H|].
  exact (accepted_names_stay_inside default_limits tiny_archive "a.apk" _
    (mk_entry "res/../lib/a.so" 4096 4096) "/tmp/job-1" eq_refl H ltac:(set_solver)
    eq_refl ltac:(done) eq_refl).
Defined.

(** A size of 2^63 or more passes the guard.  The sizes are converted to
    signed words before they are compared: an entry that declares eight exbibytes
    reads as negative, is under every limit and is not subject to the ratio check. *)
Theorem huge_entry_accepted :
  let bomb := mk_entry "classes.dex" 9223372036854775808 1 in
  CheckAPKSafe default_limits (λ _, Ok [bomb]) "bomb.apk" = None ∧
  APKMaxTotalUncompressed default_limits < UncompressedSize64 bomb.
Proof. by vm_compute. Qed.
