(* ===== verification/Pool.v ===== *)
(** * Worker-pool sizing and life cycle ([worker/pool.go], [utils/cpu.go]) *)
From S2P Require Import Prelude GoStr GoErr GoFloat Config.

Local Open Scope Z_scope.

Section cpu.
(** The files under /sys/fs/cgroup, [strconv.ParseFloat], and the host. *)
Context (ReadFile : string → option string) (ParseFloat : string → option spec_float).
Context (linux : bool) (NumCPU : Z) (target : arch).

Definition cgroupV2Path : string := "/sys/fs/cgroup/cpu.max".
Definition cgroupV1QuotaPath : string := "/sys/fs/cgroup/cpu/cpu.cfs_quota_us".
Definition cgroupV1PeriodPath : string := "/sys/fs/cgroup/cpu/cpu.cfs_period_us".

(** A number the code accepts: it parses and is not [<= 0]. *)
Definition positive_float (s : string) : option spec_float :=
  match ParseFloat s with
  | Some f => if SFleb f (S754_zero false) then None else Some f
  | None => None
  end.

Definition readCgroupV2 : option spec_float :=
  data ← ReadFile cgroupV2Path;
  match Fields (TrimSpace data) with
  | f0 :: f1 :: _ =>
      if decide (f0 = "max") then None
      else quota ← positive_float f0;
           period ← positive_float f1;
           Some (float_div quota period)
  | _ => None
  end.

Definition readCgroupV1 : option spec_float :=
  quotaData ← ReadFile cgroupV1QuotaPath;
  periodData ← ReadFile cgroupV1PeriodPath;
  quota ← positive_float (TrimSpace quotaData);
  period ← positive_float (TrimSpace periodData);
  Some (float_div quota period).

Definition EffectiveCPUs : spec_float :=
  if linux then
    match readCgroupV2 with
    | Some c => c
    | None => default (float_of_Z NumCPU) readCgroupV1
    end
  else float_of_Z NumCPU.

(** The value [MaxProcs] leaves in [GOMAXPROCS]; [current] is the one in force. *)
Definition MaxProcs (gomaxprocs_env : string) (current : Z) : Z :=
  let computed := let n := int_of_round target EffectiveCPUs in if n <? 1 then 1 else n in
  if decide (gomaxprocs_env = "") then computed
  else match Atoi gomaxprocs_env with
       | Some n => if 1 <=? n then current else computed
       | None => computed
       end.

(** ** Sizing *)

Context (LookupEnv : string → option string).

#[local] Notation envInt := (IntPositive LookupEnv).
#[local] Notation envFloat := (FloatPositive LookupEnv ParseFloat).

Definition at_least (lo z : Z) : Z := if z <? lo then lo else z.
Definition at_most (hi z : Z) : Z := if hi <? z then hi else z.

Lemma at_least_max lo z : at_least lo z = Z.max lo z.
Proof. unfold at_least. destruct (Z.ltb_spec z lo); lia. Qed.
Lemma at_most_min hi z : at_most hi z = Z.min hi z.
Proof. unfold at_most. destruct (Z.ltb_spec hi z); lia. Qed.

(** The upper bound of the pool. *)
Definition maxWorkers : Z :=
  at_least 2 (envInt "MORF_WORKER_MAX" (wrap64 (int_of_round target EffectiveCPUs * 4))).

(** The per-scan memory estimate in megabytes. *)
Definition scan_mem : Z :=
  envInt "MORF_SCAN_MEM_MB" (wrap64 (2 * envInt "MORF_JVM_MAX_HEAP_MB" 2048 + 512)).

(** The worker count [NewWorkerPool] settles on. *)
Definition pool_size : Z :=
  let ioFactor := envFloat "MORF_IO_FACTOR" (float_lit 125 100) in
  let defaultWorkers := at_least 2 (int_of_round target (float_mul EffectiveCPUs ioFactor)) in
  let workerCount := at_least 2 (envInt "MORF_WORKER_COUNT" defaultWorkers) in
  let workerCount := at_most maxWorkers workerCount in
  let memBudget := envInt "MORF_WORKER_MEM_BUDGET_MB" 0 in
  if 0 <? memBudget then
    if 0 <? scan_mem then at_most (at_least 2 (Z.quot memBudget scan_mem)) workerCount
    else workerCount
  else workerCount.

(** Pool sizing.  Whatever the environment and the cgroup files say, the pool
    has at least two workers and at most the configured maximum (itself at least
    two); and with a memory budget, the workers' estimated memory fits the budget
    unless the minimum of two is in force. *)
Theorem pool_size_bounds :
  2 ≤ pool_size ≤ maxWorkers ∧
  (let budget := envInt "MORF_WORKER_MEM_BUDGET_MB" 0 in
   0 < budget → 0 < scan_mem → pool_size = 2 ∨ pool_size * scan_mem ≤ budget).
Proof.
  unfold pool_size. set (wc := at_least 2 (envInt "MORF_WORKER_COUNT" _)).
  set (b := envInt "MORF_WORKER_MEM_BUDGET_MB" 0). set (m := scan_mem).
  assert (Hmax : 2 ≤ maxWorkers) by (unfold maxWorkers; rewrite at_least_max; lia).
  assert (Hwc : 2 ≤ wc) by (unfold wc; rewrite at_least_max; lia).
  rewrite !at_most_min, at_least_max. clearbody wc b m.
  destruct (Z.ltb_spec 0 b) as [Hb|Hb], (Z.ltb_spec 0 m) as [Hm|Hm];
    (split; [lia|]); intros; try lia.
  pose proof (Z.mul_quot_le b m ltac:(lia) ltac:(lia)) as Hq.
  destruct (Z.le_gt_cases (Z.quot b m) 2) as [Hs|Hs]; [left; lia|right].
  assert (Z.min (Z.max 2 (Z.quot b m)) (Z.min maxWorkers wc) ≤ Z.quot b m) by lia. nia.
Qed.

End cpu.

(** ** Life cycle *)

(** The pool's fields, and whether its context has been cancelled. *)
Record WorkerPool := mk_pool {
  workerCount : Z;
  workers : list Z;
  started : bool;
  cancelled : bool }.

Definition NewWorkerPool (size : Z) : WorkerPool := mk_pool size [] false false.

(** The worker numbers are appended in order; each runs until the context is
    cancelled. *)
Definition Start (p : WorkerPool) : WorkerPool :=
  if started p then p
  else mk_pool (workerCount p)
         (workers p ++ ((λ i, Z.of_nat i + 1) <$> seq 0 (Z.to_nat (workerCount p))))
         true (cancelled p).

Definition Stop (p : WorkerPool) : WorkerPool :=
  if started p then mk_pool (workerCount p) (workers p) false true else p.

Definition SetWorkerCount (count : Z) (p : WorkerPool) : WorkerPool :=
  if negb (started p) && (0 <? count)
  then mk_pool count (workers p) (started p) (cancelled p) else p.

Inductive pool_op := PStart | PStop | PSet (count : Z).

Definition run_pool_op (o : pool_op) : WorkerPool → WorkerPool :=
  match o with PStart => Start | PStop => Stop | PSet c => SetWorkerCount c end.

(** One start, one fleet.  Until the pool is stopped, any sequence of starts
    and count changes launches exactly one worker per unit of the count in force
    at the first start, numbered from one; later starts and count changes do
    nothing. *)
Theorem pool_starts_once size (before after : list Z) :
  let set l p := foldl (λ p c, SetWorkerCount c p) p l in
  let p := Start (set before (NewWorkerPool size)) in
  let n := foldl (λ n c, if 0 <? c then c else n) size before in
  workers p = (λ i, Z.of_nat i + 1) <$> seq 0 (Z.to_nat n) ∧ cancelled p = false ∧
  Start (set after p) = p.
Proof.
  cbv zeta.
  assert (Hset : ∀ l s, foldl (λ p c, SetWorkerCount c p) (mk_pool s [] false false) l =
    mk_pool (foldl (λ n c, if 0 <? c then c else n) s l) [] false false).
  { induction l as [|c l IH]; intros s; [done|]. cbn. unfold SetWorkerCount at 2. cbn.
    destruct (0 <? c); apply IH. }
  assert (Hfix : ∀ l p, started p = true → foldl (λ p c, SetWorkerCount c p) p l = p).
  { induction l as [|c l IH]; intros p Hp; [done|]. cbn. unfold SetWorkerCount at 2.
    rewrite Hp. cbn. by apply IH. }
  unfold NewWorkerPool. rewrite Hset. cbn. split_and!; [done..|]. rewrite Hfix; done.
Qed.

(** A pool does not come back.  Starting a stopped pool launches its workers
    on the context that the stop cancelled: they all quit at once. *)
Theorem restarted_pool_is_cancelled size :
  0 < size →
  let p := Start (Stop (Start (NewWorkerPool size))) in
  started p = true ∧ cancelled p = true ∧ length (workers p) = (2 * Z.to_nat size)%nat.
Proof.
  intros Hs. cbn. split_and!; [done..|]. rewrite length_app, !length_fmap, length_seq. lia.
Qed.

Lemma restarted_pool_is_cancelled_witness :
  let p := Start (Stop (Start (NewWorkerPool 2))) in
  started p = true ∧ cancelled p = true ∧ length (workers p) = 4%nat.
Proof. exact (restarted_pool_is_cancelled 2 ltac:(done)). Defined.
