(* ===== verification/Detect.v ===== *)
(** * Pattern detection ([detect/detect.go], [models/SecretModel.go])

    The pattern set (scoping, combined regular expression and its group map), the
    conversion of a matched line into findings, the ripgrep pass and the
    de-duplication.  The regular-expression engine, YAML and ripgrep are
    parameters. *)
From Stdlib Require Import Ascii.
From S2P Require Import Prelude GoStr GoErr GoFloat.

Local Open Scope Z_scope.

(** ** Findings *)

Record SecretModel := mk_secret {
  Type_ : string;
  LineNo : Z;
  FileLocation : string;
  SecretType : string;
  SecretString : string;
  SecretConfidence : string;
  Score : spec_float;
  Tier : string;
  VerificationStatus : string;
  MASVSID : string }.

(** ** Regular expressions ([regexp]) *)

Class RegexEngine := {
  regexp : Type;
  Compile : string → option regexp;
  NumSubexp : regexp → nat;
  MatchString : regexp → string → bool;
  (** Pairs of bounds, negative for a group that did not participate. *)
  FindStringSubmatchIndex : regexp → string → option (list Z);
  FindAllStringSubmatchIndex : regexp → string → list (list Z);
  FindAllString : regexp → string → list string }.

(** [s] occurs in [t]. *)
Definition infix_of (s t : string) : Prop := ∃ a b, t = a +:+ s +:+ b.

(** What the line scanner relies on: the strings [FindAllString] returns are
    substrings of its argument. *)
Class RegexLaws (E : RegexEngine) : Prop := {
  FindAllString_infix r s m : m ∈ FindAllString r s → infix_of m s }.

(** ** The pattern set *)

(** One pattern of a YAML file; [y_enabled] is [None] when absent. *)
Record yaml_pattern := mk_yaml_pattern {
  y_name : string; y_regex : string; y_confidence : string; y_masvs : string;
  y_enabled : option bool }.

Record SecretPatterns := mk_patterns {
  sp_Platform : string; sp_MASVS : string; sp_Patterns : list yaml_pattern }.

Definition normalizePlatform (s : string) : string :=
  let l := ToLower (TrimSpace s) in
  if decide (l = "ios") then "ios" else if decide (l = "android") then "android" else "any".

Definition filePlatform (fileName declared : string) : string :=
  let p := normalizePlatform declared in
  if decide (p = "any") then
    let lower := ToLower fileName in
    if HasPrefix lower "ios-" then "ios"
    else if HasPrefix lower "android-" then "android" else "any"
  else p.

Definition patternApplies (patternPlatform scanPlatform : string) : bool :=
  bool_decide (patternPlatform = "any") || bool_decide (patternPlatform = scanPlatform).

Section detect.
Context {E : RegexEngine}.

Record PatternInfo := mk_pattern {
  p_Name : string; p_Regex : string; p_Confidence : string; p_Platform : string;
  p_MASVS : string; p_Compiled : option regexp }.

Definition is_yaml (name : string) : bool := HasSuffix name ".yaml" || HasSuffix name ".yml".

(** The patterns one file contributes to a scan. *)
Definition file_patterns (platform name : string) (sp : SecretPatterns) : list PatternInfo :=
  let fp := filePlatform name (sp_Platform sp) in
  if patternApplies fp platform then
    (λ y, mk_pattern (y_name y) (y_regex y) (y_confidence y) fp
            (if decide (y_masvs y = "") then sp_MASVS sp else y_masvs y)
            (Compile (y_regex y)))
    <$> filter (λ y, y_enabled y ≠ Some false) (sp_Patterns sp)
  else [].

(** All patterns of the directory, in file order; [unmarshal] reads and parses a
    file, [None] for a malformed one. *)
Definition load_patterns (unmarshal : string → option SecretPatterns) (platform : string)
    (files : list string) : list PatternInfo :=
  flat_map (λ name,
    if is_yaml name then
      match unmarshal name with
      | Some sp => file_patterns platform name sp
      | None => []
      end
    else []) files.

(** The alternation and the owner of each of its groups, scanning from pattern
    index [i]. *)
Fixpoint combine (i : Z) (ps : list PatternInfo) (wrote : bool) : string * list Z * bool :=
  match ps with
  | [] => ("", [], wrote)
  | p :: ps' =>
      match p_Compiled p with
      | None => combine (i + 1) ps' wrote
      | Some r =>
          let '(s, g, w) := combine (i + 1) ps' true in
          ((if wrote then "|" else "") +:+ "(" +:+ p_Regex p +:+ ")" +:+ s,
           replicate (1 + NumSubexp r) i ++ g, w)
      end
  end.

Definition BuildCombinedRegex (ps : list PatternInfo) : option (regexp * list Z) :=
  let '(s, g, wrote) := combine 0 ps false in
  if (wrote : bool) then match Compile s with Some c => Some (c, -1 :: g) | None => None end
  else None.

Record PatternCache := mk_cache {
  Patterns : list PatternInfo;
  Combined : option (regexp * list Z);
  PatternsTxt : string;
  BuiltFrom : Z }.

Definition newline : string := String (ascii_of_nat 10) "".

Definition patterns_txt (ps : list PatternInfo) : string :=
  concat_str ((λ p, p_Regex p +:+ newline) <$> ps).

Definition buildPatternCache (unmarshal : string → option SecretPatterns) (files : list string)
    (maxMod : Z) (platform : string) : res PatternCache :=
  let all := load_patterns unmarshal platform files in
  if decide (all = []) then Err (ENew "no secret patterns found")
  else Ok (mk_cache all (BuildCombinedRegex all) (patterns_txt all) maxMod).

(** [GetPatternCache]: the per-platform caches are shared state; a directory
    listing gives names with modification times. *)
Definition GetPatternCache (unmarshal : string → option SecretPatterns)
    (files : list (string * Z)) (platform : string) (caches : gmap string PatternCache)
    : res PatternCache * gmap string PatternCache :=
  let platform := normalizePlatform platform in
  let maxMod := foldr (λ f m, Z.max f.2 m) 0 files in
  let rebuild :=
    match buildPatternCache unmarshal files.*1 maxMod platform with
    | Ok c => (Ok c, <[platform := c]> caches)
    | Err e => (Err e, caches)
    end in
  match caches !! platform with
  | Some c => if maxMod <=? BuiltFrom c then (Ok c, caches) else rebuild
  | None => rebuild
  end.

(** ** Attribution *)

(** The first participating group of a match that the group map resolves to a
    loaded pattern; groups are numbered from [g]. *)
Fixpoint owner_of (gmap_ : list Z) (npatterns : nat) (g : nat) (loc : list Z) : option nat :=
  match loc with
  | lo :: _ :: loc' =>
      if lo <? 0 then owner_of gmap_ npatterns (S g) loc'
      else match gmap_ !! g with
           | Some pi => if (0 <=? pi) && (pi <? Z.of_nat npatterns) then Some (Z.to_nat pi)
                        else owner_of gmap_ npatterns (S g) loc'
           | None => owner_of gmap_ npatterns (S g) loc'
           end
  | _ => None
  end.

Definition first_uncompiled (ps : list PatternInfo) : option nat :=
  fst <$> list_find (λ p, p_Compiled p = None) ps.

Definition pattern_matches (content : string) (p : PatternInfo) : bool :=
  match p_Compiled p with Some r => MatchString r content | None => false end.

(** The index of the pattern [FindMatchingPattern] returns. *)
Definition FindMatchingPattern (c : PatternCache) (content : string) : option nat :=
  let direct :=
    match Combined c with
    | Some (r, gm) =>
        match FindStringSubmatchIndex r content with
        | Some (_ :: _ :: loc) => owner_of gm (length (Patterns c)) 1 loc
        | _ => None
        end
    | None =>
        fst <$> list_find (λ p, pattern_matches content p = true) (Patterns c)
    end in
  match direct with
  | Some i => Some i
  | None => first_uncompiled (Patterns c)
  end.

(** ** Values *)

Definition quote : ascii := ascii_of_nat 34.
Definition lt_ : ascii := "<".
Definition gt_ : ascii := ">".
Definition colon_ : ascii := ":".

Definition ExtractSecret (content : string) : string :=
  let tail :=
    if Nat.leb 2 (CountByte content quote) then
      match SplitN 3 content quote with
      | _ :: v :: _ => v
      | _ => content
      end
    else match LastIndexByte content colon_ with
         | Some n => TrimSpace (slice_from content (S n))
         | None => content
         end in
  match IndexByte content gt_, LastIndexByte content lt_ with
  | Some b, Some e => if Nat.ltb (S b) e then TrimSpace (slice content (S b) e) else tail
  | _, _ => tail
  end.

(** The finding for a span of pattern [idx]. *)
Definition finding (c : PatternCache) (fileLocation : string) (lineNo : Z)
    (idx : option nat) (span : string) : SecretModel :=
  let p := i ← idx; Patterns c !! i in
  let secretType := default "unattributed" (p_Name <$> p) in
  let value := ExtractSecret span in
  let value := if decide (TrimSpace value = "") then span else value in
  mk_secret secretType lineNo fileLocation secretType value
    (default "low" (p_Confidence <$> p)) (S754_zero false) "" "" (default "" (p_MASVS <$> p)).

(** The findings of the combined expression's matches. *)
Definition combined_findings (c : PatternCache) (file : string) (lineNo : Z) (content : string)
    (r : regexp) (gm : list Z) : list SecretModel :=
  flat_map (λ loc,
    match loc with
    | a :: b :: loc' =>
        if (a <? 0) || (b <? a) then []
        else [finding c file lineNo (owner_of gm (length (Patterns c)) 1 loc')
                (slice content (Z.to_nat a) (Z.to_nat b))]
    | _ => []
    end) (FindAllStringSubmatchIndex r content).

Definition single_findings (c : PatternCache) (file : string) (lineNo : Z) (content : string)
    : list SecretModel :=
  concat (imap (λ i p, match p_Compiled p with
                       | Some r => finding c file lineNo (Some i) <$> FindAllString r content
                       | None => []
                       end) (Patterns c)).

Definition FindingsForLine (c : PatternCache) (file : string) (lineNo : Z) (content : string)
    : list SecretModel :=
  let out := match Combined c with
             | Some (r, gm) => combined_findings c file lineNo content r gm
             | None => single_findings c file lineNo content
             end in
  match out with
  | [] => [finding c file lineNo (first_uncompiled (Patterns c)) content]
  | _ => out
  end.

(** ** The ripgrep pass *)

Record ScanOptions := mk_opts { Text : bool; ExtraExcludes : list string; MaxFileSizeMB : Z }.

Definition binaryPassMaxFileSizeMB (env : string) : Z :=
  let v := TrimSpace env in
  if decide (v = "") then 50 else default 50 (Atoi v).

Definition buildRgArgs (patternFilePath : string) (excludeGlobs existing : list string)
    (opts : ScanOptions) : list string :=
  ["-n"; "--file"; patternFilePath] ++
  (if Text opts then
     ["-a"; "-o"] ++
     (if 0 <? MaxFileSizeMB opts then ["--max-filesize"; itoa (MaxFileSizeMB opts) +:+ "M"] else [])
   else []) ++
  excludeGlobs ++ ExtraExcludes opts ++ existing.

Definition excludeGlobs : list string :=
  flat_map (λ g, ["-g"; g])
    ["!**/res/drawable*/**"; "!**/res/mipmap*/**"; "!**/res/color*/**";
     "!**/res/anim*/**"; "!**/res/animator*/**"; "!**/res/font*/**"].

(** One line of output: "file:lineno:content". *)
Definition onLine (c : PatternCache) (b : string) : list SecretModel :=
  let line := TrimSpace b in
  if decide (line = "") then [] else
  match SplitN 3 line colon_ with
  | [file; n; content] =>
      match Atoi n with
      | Some lineNumber => FindingsForLine c file lineNumber (TrimSpace content)
      | None => []
      end
  | _ => []
  end.

(** How the ripgrep process ends. *)
Inductive rg_exit := RgOk | RgFailed (code : Z).

(** [scanCorpusWithOpts]: [cache] is the result of [GetPatternCache], [is_dir]
    tells the roots that exist, [tmp_file] is the pattern file (or why it could
    not be written), [rg] runs ripgrep on the arguments and gives the lines it
    printed. *)
Definition scanCorpusWithOpts (cache : res PatternCache) (is_dir : string → bool)
    (tmp_file : res string) (rg : list string → list string * rg_exit)
    (roots : list string) (opts : ScanOptions) : res (list SecretModel) :=
  match cache with
  | Err _ => Ok []
  | Ok c =>
      let existing := filter (λ d, is_dir d = true) roots in
      if decide (existing = []) then Ok []
      else match tmp_file with
      | Err e => Err (EWrap "failed to create pattern file" [e])
      | Ok path =>
          let '(lines, exit) := rg (buildRgArgs path excludeGlobs existing opts) in
          match exit with
          | RgOk => Ok (flat_map (onLine c) lines)
          | RgFailed code =>
              if code =? 1 then Ok []
              else Err (EWrap ("ripgrep failed (exit " +:+ itoa code +:+ ")") [ENew "exit status"])
          end
      end
  end.

End detect.

(** ** De-duplication *)

Definition secretKey (s : SecretModel) : string * string := (SecretType s, SecretString s).

Fixpoint sanitize_go (seen : gset (string * string)) (l : list SecretModel) : list SecretModel :=
  match l with
  | [] => []
  | s :: l' => if decide (secretKey s ∈ seen) then sanitize_go seen l'
               else s :: sanitize_go ({[secretKey s]} ∪ seen) l'
  end.

Definition SanitizeSecrets (scannerData : list SecretModel) : list SecretModel :=
  sanitize_go ∅ scannerData.
