(* ===== verification/DetectSpec.v ===== *)
(** * What detection guarantees

    Values come from the scanned line, no hit is dropped, attribution follows the
    group numbering, patterns are scoped to their platform, a failed ripgrep run
    is never reported as a clean scan, and de-duplication keeps the first finding
    of every (type, value) pair. *)
From Stdlib Require Import Ascii.
From S2P Require Import Prelude GoStr GoErr GoFloat Detect.

Local Open Scope Z_scope.

(** ** Substrings *)

#[export] Instance infix_of_preorder : PreOrder infix_of.
Proof.
  split.
  - intros s. exists "", "". simpl. by rewrite string_app_nil_r.
  - intros s t u (a & b & ->) (a' & b' & ->). exists (a' +:+ a), (b +:+ b').
    by rewrite !string_app_assoc.
Qed.

Lemma infix_TrimSpace s : infix_of (TrimSpace s) s.
Proof. apply TrimSpace_infix. Qed.

Lemma infix_substring s i n : infix_of (String.substring i n s) s.
Proof.
  revert i n. induction s as [|c s IH]; intros i n.
  - exists "", "". destruct i; by destruct n.
  - destruct i as [|i]; simpl.
    + destruct n as [|n]; [by exists "", (String c s)|].
      (* a substring at offset zero is a prefix *)
      assert (∃ b, s = String.substring 0 n s +:+ b) as [b Hb].
      { clear. revert n. induction s as [|c s IH]; intros n.
        - exists "". by destruct n.
        - destruct n as [|n]; [by exists (String c s)|]. destruct (IH n) as [b Hb].
          exists b. simpl. by rewrite <- Hb. }
      exists "", b. simpl. by rewrite <- Hb.
    + destruct (IH i n) as (a & b & Hab). exists (String c a), b. simpl. by rewrite <- Hab.
Qed.

Lemma infix_slice s i j : infix_of (slice s i j) s.
Proof. apply infix_substring. Qed.

Lemma infix_SplitN_second s c x v l : SplitN 3 s c = x :: v :: l → infix_of v s.
Proof.
  simpl. pose proof (Cut_spec s c) as H1. destruct (Cut s c) as [h [t|]]; [|done].
  pose proof (Cut_spec t c) as H2. destruct (Cut t c) as [h' [t'|]]; intros [= <- <- <-]; subst.
  - exists (h +:+ String c ""), (String c t'). by rewrite string_app_assoc.
  - exists (h +:+ String c ""), "". by rewrite string_app_nil_r, string_app_assoc.
Qed.

(** The extracted value is part of the text it was extracted from. *)
Lemma ExtractSecret_infix s : infix_of (ExtractSecret s) s.
Proof.
  unfold ExtractSecret.
  assert (Ht : infix_of (if Nat.leb 2 (CountByte s quote) then
      match SplitN 3 s quote with _ :: v :: _ => v | _ => s end
    else match LastIndexByte s colon_ with
         | Some n => TrimSpace (slice_from s (S n)) | None => s end) s).
  { destruct (Nat.leb 2 (CountByte s quote)).
    - destruct (SplitN 3 s quote) as [|x [|v l]] eqn:Hs; try reflexivity.
      by eapply infix_SplitN_second.
    - case_match; [|reflexivity]. etrans; [apply infix_TrimSpace|apply infix_slice]. }
  destruct (IndexByte s gt_) as [b|], (LastIndexByte s lt_) as [e|]; try exact Ht.
  destruct (Nat.ltb (S b) e); [|exact Ht]. etrans; [apply infix_TrimSpace|apply infix_slice].
Qed.

Section facts.
Context {E : RegexEngine}.

Lemma finding_value c file n idx span :
  let f := finding c file n idx span in
  infix_of (SecretString f) span ∧ FileLocation f = file ∧ LineNo f = n ∧
  (TrimSpace span ≠ "" → TrimSpace (SecretString f) ≠ "") ∧
  (SecretType f = "unattributed" ∨ SecretType f ∈ p_Name <$> Patterns c).
Proof.
  unfold finding. cbn. split_and!; try done.
  - case_decide; [reflexivity|apply ExtractSecret_infix].
  - by case_decide.
  - destruct idx as [i|]; [|by left]. cbn. destruct (Patterns c !! i) as [p|] eqn:Hp; [right|by left].
    cbn. apply list_elem_of_fmap. exists p. split; [done|]. by eapply list_elem_of_lookup_2.
Qed.

Definition good_finding (c : PatternCache) (file : string) (n : Z) (content : string)
    (f : SecretModel) : Prop :=
  infix_of (SecretString f) content ∧ FileLocation f = file ∧ LineNo f = n ∧
  (SecretType f = "unattributed" ∨ SecretType f ∈ p_Name <$> Patterns c).

Lemma finding_good c file n idx span content :
  infix_of span content → good_finding c file n content (finding c file n idx span).
Proof.
  intros Hs. destruct (finding_value c file n idx span) as (Hv & Hf & Hn & _ & Ht).
  split_and!; [by etrans|done..].
Qed.

(** Recall and precision of a matched line.  Every line ripgrep reports yields
    at least one finding; every finding carries the line's file and number, its
    value is literally part of the line, and its type is that of a loaded pattern
    or "unattributed". *)
Theorem findings_for_line `{!RegexLaws E} (c : PatternCache) file n content :
  FindingsForLine c file n content ≠ [] ∧
  Forall (good_finding c file n content) (FindingsForLine c file n content).
Proof.
  unfold FindingsForLine.
  set (out := match Combined c with Some _ => _ | None => _ end).
  assert (Hout : Forall (good_finding c file n content) out).
  { unfold out. destruct (Combined c) as [[r gm]|].
    - apply Forall_forall. intros f Hf. unfold combined_findings in Hf.
      apply list_elem_of_In, in_flat_map in Hf as (loc & _ & Hf).
      destruct loc as [|a [|b loc]]; try done. case_match; [done|].
      destruct Hf as [<-|[]]. apply finding_good, infix_slice.
    - apply Forall_forall. intros f Hf. unfold single_findings in Hf.
      apply list_elem_of_In, in_concat in Hf as (l & Hl & Hf).
      apply list_elem_of_In, elem_of_lookup_imap in Hl as (i & p & -> & _).
      destruct (p_Compiled p) as [r|]; [|done]. apply list_elem_of_In, list_elem_of_fmap in Hf as (span & -> & Hs).
      apply finding_good. by eapply FindAllString_infix. }
  destruct out as [|f out]; [|done]. split; [done|].
  apply Forall_singleton, finding_good. reflexivity.
Qed.

(** *** Attribution *)

(** Capture groups a pattern occupies in the combined expression: the wrapping
    group and its own. *)
Definition groups_of (p : PatternInfo) : nat :=
  match p_Compiled p with Some r => 1 + NumSubexp r | None => 0 end.

Definition groups_before (i : nat) (ps : list PatternInfo) : nat :=
  sum_list_with groups_of (take i ps).

Lemma combine_lookup ps start w i p r j :
  ps !! i = Some p → p_Compiled p = Some r → (j ≤ NumSubexp r)%nat →
  (combine start ps w).1.2 !! (groups_before i ps + j)%nat = Some (start + Z.of_nat i).
Proof.
  revert start w i. induction ps as [|q ps IH]; intros start w i Hi Hr Hj; [done|].
  destruct i as [|i]; cbn [lookup list_lookup] in Hi.
  - simplify_eq. unfold groups_before. cbn [take sum_list_with Nat.add combine]. rewrite Hr.
    destruct (combine (start + 1) ps true) as [[s g] w']. cbn [fst snd].
    rewrite lookup_app_l by (rewrite length_replicate; lia).
    rewrite lookup_replicate_2 by lia. f_equal. lia.
  - unfold groups_before in *. cbn [take sum_list_with]. cbn [combine]. unfold groups_of at 1.
    destruct (p_Compiled q) as [rq|].
    + specialize (IH (start + 1) true i Hi Hr Hj).
      destruct (combine (start + 1) ps true) as [[s g] w']. cbn [fst snd] in *.
      rewrite lookup_app_r by (rewrite length_replicate; lia). rewrite length_replicate.
      replace (1 + NumSubexp rq + sum_list_with groups_of (take i ps) + j - (1 + NumSubexp rq))%nat
        with (sum_list_with groups_of (take i ps) + j)%nat by lia.
      rewrite IH. f_equal. lia.
    + specialize (IH (start + 1) w i Hi Hr Hj). cbn. rewrite IH. f_equal. lia.
Qed.

(** Attribution.  In the combined expression "(p0)|(p1)|...", where each
    compilable pattern owns its wrapping group and its own capture groups, the
    group map sends every one of those groups to the index of its pattern,
    whatever patterns that do not compile are interleaved. *)
Theorem group_map_attribution (ps : list PatternInfo) c gm i p r j :
  BuildCombinedRegex ps = Some (c, gm) →
  ps !! i = Some p → p_Compiled p = Some r → (j ≤ NumSubexp r)%nat →
  gm !! (1 + groups_before i ps + j)%nat = Some (Z.of_nat i).
Proof.
  unfold BuildCombinedRegex. intros Hb Hi Hr Hj.
  pose proof (combine_lookup ps 0 false i p r j Hi Hr Hj) as Hl.
  destruct (combine 0 ps false) as [[s g] w]. cbn in Hl. destruct w; [|done].
  destruct (Compile s); [|done]. simplify_eq. exact Hl.
Qed.

(** *** Scoping *)

(** Platform scoping.  The patterns compiled for a scan are exactly the enabled
    patterns of the well-formed YAML files that apply to the scanned platform: no
    rule of the other platform runs, and no applicable enabled rule is left out. *)
Theorem load_patterns_scoped unmarshal platform files p :
  p ∈ load_patterns unmarshal platform files ↔
  ∃ name sp y, name ∈ files ∧ is_yaml name = true ∧ unmarshal name = Some sp ∧
    y ∈ sp_Patterns sp ∧ y_enabled y ≠ Some false ∧
    patternApplies (filePlatform name (sp_Platform sp)) platform = true ∧
    p = mk_pattern (y_name y) (y_regex y) (y_confidence y) (filePlatform name (sp_Platform sp))
          (if decide (y_masvs y = "") then sp_MASVS sp else y_masvs y) (Compile (y_regex y)).
Proof.
  unfold load_patterns. rewrite list_elem_of_In, in_flat_map. split.
  - intros (name & Hn & Hp). destruct (is_yaml name) eqn:Hy; [|done].
    destruct (unmarshal name) as [sp|] eqn:Hu; [|done]. unfold file_patterns in Hp.
    destruct (patternApplies _ _) eqn:Ha; [|done].
    apply list_elem_of_In, list_elem_of_fmap in Hp as (y & -> & Hf).
    apply list_elem_of_filter in Hf as [He Hin]. exists name, sp, y.
    rewrite list_elem_of_In. by split_and!.
  - intros (name & sp & y & Hn & Hy & Hu & Hin & He & Ha & ->). exists name.
    split; [by apply list_elem_of_In|]. rewrite Hy, Hu. unfold file_patterns. rewrite Ha.
    apply list_elem_of_In, list_elem_of_fmap. exists y. split; [done|].
    by apply list_elem_of_filter.
Qed.

(** *** The ripgrep pass *)

(** A failed scan is not a clean scan.  With patterns loaded, a root to scan
    and the pattern file written: a run of ripgrep that fails with anything but
    exit code one gives an error; exit code one, which means no match, gives no
    findings; and a successful run gives the findings of all printed lines, in
    order. *)
Theorem scan_outcome_faithful c is_dir path rg roots opts :
  filter (λ d, is_dir d = true) roots ≠ [] →
  let run := rg (buildRgArgs path excludeGlobs (filter (λ d, is_dir d = true) roots) opts) in
  let r := scanCorpusWithOpts (Ok c) is_dir (Ok path) rg roots opts in
  match run.2 with
  | RgOk => r = Ok (flat_map (onLine c) run.1)
  | RgFailed code => if code =? 1 then r = Ok [] else is_ok r = false
  end.
Proof.
  intros Hne. cbv zeta. unfold scanCorpusWithOpts. rewrite decide_False by done.
  destruct (rg _) as [lines [|code]]; cbn [snd fst]; [done|]. by destruct (code =? 1).
Qed.

End facts.

(** ** De-duplication *)

Lemma sanitize_go_spec seen l :
  let out := sanitize_go seen l in
  out `sublist_of` l ∧ NoDup (secretKey <$> out) ∧
  (∀ s, s ∈ out → secretKey s ∉ seen) ∧
  (∀ s, s ∈ l → secretKey s ∈ seen ∨ secretKey s ∈ secretKey <$> out).
Proof.
  cbv zeta. revert seen. induction l as [|x l IH]; intros seen; cbn [sanitize_go].
  { split_and!; [done|constructor|..]; by intros s Hs%elem_of_nil. }
  case_decide as Hx.
  - destruct (IH seen) as (H1 & H2 & H3 & H4). split_and!; [by apply sublist_cons|done..|].
    intros s [->|Hs]%elem_of_cons; auto.
  - destruct (IH ({[secretKey x]} ∪ seen)) as (H1 & H2 & H3 & H4).
    split_and!; [by apply sublist_skip| | |].
    + rewrite fmap_cons. apply NoDup_cons. split; [|done].
      intros (s & Hk & Hs)%list_elem_of_fmap. apply (H3 s Hs).
      rewrite <- Hk. by apply elem_of_union_l, elem_of_singleton.
    + intros s [->|Hs]%elem_of_cons; [done|]. specialize (H3 s Hs).
      by apply not_elem_of_union in H3 as [_ H3].
    + intros s [->|Hs]%elem_of_cons; [right; rewrite fmap_cons; left|].
      rewrite fmap_cons, elem_of_cons.
      destruct (H4 s Hs) as [[Hk%elem_of_singleton|Hk]%elem_of_union|Hk]; auto.
Qed.

Lemma sanitize_go_id seen l :
  NoDup (secretKey <$> l) → (∀ s, s ∈ l → secretKey s ∉ seen) → sanitize_go seen l = l.
Proof.
  revert seen. induction l as [|x l IH]; intros seen Hnd Hs; [done|]. cbn [sanitize_go].
  rewrite fmap_cons in Hnd. apply NoDup_cons in Hnd as [Hx Hnd].
  rewrite decide_False by (apply Hs; left). f_equal. apply IH; [done|].
  intros s Hin. rewrite elem_of_union, elem_of_singleton. intros [Hk|Hk].
  - apply Hx, list_elem_of_fmap. eauto.
  - apply (Hs s); [by right|done].
Qed.

(** De-duplication.  The sanitized findings are a subsequence of the raw ones
    in their original order, no two of them have the same type and value, every
    type and value that was found is still represented, and sanitizing again
    changes nothing. *)
Theorem sanitize_spec l :
  let out := SanitizeSecrets l in
  out `sublist_of` l ∧ NoDup (secretKey <$> out) ∧
  (∀ s, s ∈ l → secretKey s ∈ secretKey <$> out) ∧ SanitizeSecrets out = out.
Proof.
  cbv zeta. unfold SanitizeSecrets.
  destruct (sanitize_go_spec ∅ l) as (H1 & H2 & H3 & H4). split_and!; [done..| |].
  - intros s Hs. by destruct (H4 s Hs) as [Hk%not_elem_of_empty|Hk].
  - by apply sanitize_go_id.
Qed.

(** ** An engine of literals *)

(** Every expression stands for itself; "(?" marks one that does not compile. *)
#[export] Instance literal_engine : RegexEngine := {|
  regexp := string;
  Compile s := if HasPrefix s "(?" then None else Some s;
  NumSubexp r := CountByte r "(";
  MatchString r s := Contains s r;
  FindStringSubmatchIndex r s := (λ i, [Z.of_nat i; Z.of_nat i + len r]) <$> Index s r;
  FindAllStringSubmatchIndex r s :=
    match Index s r with Some i => [[Z.of_nat i; Z.of_nat i + len r]] | None => [] end;
  FindAllString r s := if Contains s r then [r] else [] |}.

#[export] Instance literal_laws : RegexLaws literal_engine.
Proof.
  split. intros r s m. cbn. destruct (Contains s r) eqn:Hc; [|by intros ?%elem_of_nil].
  intros ->%list_elem_of_singleton. by apply Contains_spec in Hc as (a & b & ->); exists a, b.
Qed.

Definition sample_yaml : string → option SecretPatterns := λ name,
  if decide (name = "aws.yaml") then Some (mk_patterns "" "MASVS-1"
    [mk_yaml_pattern "AWS" "AKIA" "high" "" None; mk_yaml_pattern "Look" "(?=x)" "low" "" (Some true);
     mk_yaml_pattern "Off" "zzz" "low" "" (Some false); mk_yaml_pattern "Pair" "(k)(v)" "low" "M2" None])
  else if decide (name = "ios-keys.yaml") then Some (mk_patterns "" ""
    [mk_yaml_pattern "Keychain" "kSec" "low" "" None])
  else None.

Definition sample_files : list string := ["aws.yaml"; "ios-keys.yaml"; "README.md"].

Definition sample_patterns : list PatternInfo := load_patterns sample_yaml "android" sample_files.

Definition sample_cache : PatternCache :=
  mk_cache sample_patterns None (patterns_txt sample_patterns) 0.

(** Android scans see the three enabled cross-platform rules only. *)
Example sample_names : p_Name <$> sample_patterns = ["AWS"; "Look"; "Pair"].
Proof. by vm_compute. Qed.

Lemma findings_for_line_witness :
  RegexLaws literal_engine ∧
  FindingsForLine sample_cache "a.smali" 7 "key = AKIA" ≠ [] ∧
  SecretType <$> FindingsForLine sample_cache "a.smali" 7 "key = AKIA" = ["AWS"].
Proof.
  split; [exact literal_laws|].
  split; [exact (proj1 (findings_for_line sample_cache "a.smali" 7 "key = AKIA"))|by vm_compute].
Defined.

Lemma group_map_attribution_witness :
  ∃ c gm, BuildCombinedRegex sample_patterns = Some (c, gm) ∧ gm !! 4%nat = Some 2.
Proof.
  destruct (BuildCombinedRegex sample_patterns) as [[c gm]|] eqn:Hb; [|by vm_compute in Hb].
  exists c, gm. split; [done|].
  exact (group_map_attribution sample_patterns c gm 2
    (mk_pattern "Pair" "(k)(v)" "low" "any" "M2" (Some "(k)(v)")) "(k)(v)" 2 Hb
    ltac:(by vm_compute) eq_refl ltac:(vm_compute; lia)).
Defined.

Lemma scan_outcome_faithful_witness :
  is_ok (scanCorpusWithOpts (Ok sample_cache) (λ _, true) (Ok "/tmp/p.txt")
    (λ _, (["a:1:AKIA"], RgFailed 2)) ["/src"] (mk_opts false [] 0)) = false.
Proof.
  exact (scan_outcome_faithful sample_cache (λ _, true) "/tmp/p.txt"
    (λ _, (["a:1:AKIA"], RgFailed 2)) ["/src"] (mk_opts false [] 0) ltac:(done)).
Defined.

(** ** A colon in a path *)

(** Hits in files whose path contains a colon are dropped.  Output lines are
    split at the first two colons, so such a path leaves no line number and the
    line yields no finding, although lines of other files always yield one. *)
Theorem colon_path_dropped :
  onLine sample_cache "res/raw/a:b.txt:12:AKIA" = [] ∧
  SecretString <$> onLine sample_cache "res/raw/ab.txt:12:AKIA" = ["AKIA"].
Proof. by vm_compute. Qed.
