(* ===== verification/Command.v ===== *)
(** * Running tools ([utils/command.go])

    A child process is what it prints, how it ends and the state of the context then;
    its standard output is read through a buffer of fixed size and handed on line by
    line, each line up to a maximal length.  Starting, waiting and killing belong to the
    operating system. *)
From Stdlib Require Import ZArith Ascii.
From S2P Require Import Prelude GoStr GoErr Detect.

Local Open Scope Z_scope.

Definition lf : ascii := byte_of 10.
Definition cr : ascii := byte_of 13.
#[local] Arguments lf : simpl never.
#[local] Arguments cr : simpl never.

(** ** Reading lines *)

(** [bufio.ReadLine] drops a carriage return before the newline. *)
Fixpoint last_char (s : string) : option ascii :=
  match s with "" => None | String c "" => Some c | String _ r => last_char r end.
Definition ends_cr (s : string) : bool := bool_decide (last_char s = Some cr).
Definition drop_last (s : string) : string := take_str (String.length s - 1) s.
Definition strip_cr (s : string) : string := if ends_cr s then drop_last s else s.

(** [ReadLine] on what is left, which is not empty, with a buffer of [size] bytes: the
    fragment, whether the line goes on, and what is left then.  A carriage return at the
    end of a full buffer is put back. *)
Definition ReadLine (size : nat) (s : string) : string * bool * string :=
  match IndexByte s lf with
  | Some i => if (i <? size)%nat then (strip_cr (take_str i s), false, drop_str (S i) s)
              else let frag := take_str size s in
                   let n := if ends_cr frag then (size - 1)%nat else size in (take_str n s, true, drop_str n s)
  | None => if (size <=? String.length s)%nat
            then let frag := take_str size s in
                 let n := if ends_cr frag then (size - 1)%nat else size in (take_str n s, true, drop_str n s)
            else (s, false, "")
  end.

(** A fragment goes to the line as far as there is room. *)
Definition append_frag (max : nat) (lineBuf frag : string) : string :=
  lineBuf +:+ take_str (max - String.length lineBuf) frag.

Section stream.
Context {St : Type} (onLine : string → St → option error * St).

(** The loop of [RunWithContextStream]: the error of the callback, the error of the pipe
    ([last], when it is not the end), and the callback's state.  [None]: out of fuel. *)
Fixpoint read_loop (fuel size max : nat) (last : option error) (s lineBuf : string) (st : St)
    : option (option error * option error * St) :=
  match fuel with
  | O => None
  | S fuel =>
      match s with
      | "" => if decide (lineBuf = "") then Some (None, last, st)
              else match onLine lineBuf st with
                   | (Some e, st) => Some (Some e, None, st)
                   | (None, st) => Some (None, last, st)
                   end
      | _ =>
          let '(frag, isPrefix, rest) := ReadLine size s in
          let lineBuf := append_frag max lineBuf frag in
          if isPrefix || bool_decide (lineBuf = "") then read_loop fuel size max last rest lineBuf st
          else match onLine lineBuf st with
               | (Some e, st) => Some (Some e, None, st)
               | (None, st) => read_loop fuel size max last rest "" st
               end
      end
  end.

(** ** The reference: whole lines *)

Fixpoint lines_go (line s : string) : list string :=
  match s with
  | "" => [line]
  | String c r => if decide (c = lf) then strip_cr line :: lines_go "" r else lines_go (line +:+ String c "") r
  end.

(** The lines of the output that are not empty, each cut at [max]. *)
Definition delivered (max : nat) (l : list string) : list string := filter (λ s, s ≠ "") (take_str max <$> l).

Fixpoint hand_over (last : option error) (l : list string) (st : St) : option error * option error * St :=
  match l with
  | [] => (None, last, st)
  | s :: l => match onLine s st with
              | (Some e, st) => (Some e, None, st)
              | (None, st) => hand_over last l st
              end
  end.

Lemma lines_go_app x p r : IndexByte x lf = None → lines_go p (x +:+ r) = lines_go (p +:+ x) r.
Proof.
  revert p. induction x as [|c x IH]; intros p Hx; [by rewrite string_app_nil_r|].
  cbn in Hx |- *. destruct (decide (c = lf)); [done|]. destruct (IndexByte x lf); [done|].
  rewrite IH by done. by rewrite string_app_assoc.
Qed.

Lemma IndexByte_split s c i : IndexByte s c = Some i →
  s = take_str i s +:+ String c (drop_str (S i) s) ∧ IndexByte (take_str i s) c = None ∧ (i < String.length s)%nat.
Proof.
  revert i. induction s as [|a s IH]; intros i; cbn; [done|]. case_decide as Ha.
  - intros [= <-]. subst a. split_and!; [by destruct s|by destruct s|lia].
  - destruct (IndexByte s c) as [j|] eqn:E; [|done]. intros [= <-]. destruct (IH j eq_refl) as (H1 & H2 & H3). split_and!.
    + change (String a s = String a (take_str j s +:+ String c (drop_str (S j) s))). by rewrite <- H1.
    + cbn. by rewrite decide_False, H2.
    + cbn. lia.
Qed.

Lemma IndexByte_take s c n i : IndexByte s c = Some i → (n ≤ i)%nat → IndexByte (take_str n s) c = None.
Proof.
  revert n i. induction s as [|a s IH]; intros [|n] i; cbn; try done. case_decide; [intros [= <-]; lia|].
  destruct (IndexByte s c) as [j|] eqn:E; [|done]. intros [= <-] Hn. rewrite (IH n j) by (done || lia). done.
Qed.

Lemma IndexByte_take_None s c n : IndexByte s c = None → IndexByte (take_str n s) c = None.
Proof.
  revert n. induction s as [|a s IH]; intros [|n]; cbn; try done. case_decide; [done|].
  destruct (IndexByte s c) eqn:E; [done|]. intros _. by rewrite IH.
Qed.

Lemma take_str_app_ge n a b : (String.length a ≤ n)%nat → take_str n (a +:+ b) = a +:+ take_str (n - String.length a) b.
Proof. revert n. induction a as [|c a IH]; intros n Hn; cbn in *; [by rewrite Nat.sub_0_r|]. destruct n; [lia|]. cbn. rewrite IH by lia. done. Qed.

Lemma take_str_app_le n a b : (n ≤ String.length a)%nat → take_str n (a +:+ b) = take_str n a.
Proof. revert a. induction n as [|n IH]; intros [|c a] Hn; cbn in *; try done; [lia|]. rewrite IH by lia. done. Qed.

Lemma take_str_big n s : (String.length s ≤ n)%nat → take_str n s = s.
Proof. revert n. induction s as [|c s IH]; intros [|n] Hn; cbn in *; try done; [lia|]. by rewrite IH by lia. Qed.

(** The buffer is what fits of the line so far. *)
Lemma append_frag_take max p frag : append_frag max (take_str max p) frag = take_str max (p +:+ frag).
Proof.
  unfold append_frag. destruct (Nat.le_ge_cases (String.length p) max) as [Hp|Hp].
  - by rewrite (take_str_big max p), take_str_app_ge by done.
  - rewrite take_str_length, Nat.sub_diag, (take_str_app_le max) by done. by destruct frag; rewrite string_app_nil_r.
Qed.

Lemma last_char_app a b : b ≠ "" → last_char (a +:+ b) = last_char b.
Proof.
  intros Hb. induction a as [|c a IH]; [done|]. cbn. rewrite IH. destruct a, b; done.
Qed.

Lemma ends_cr_app a b : b ≠ "" → ends_cr (a +:+ b) = ends_cr b.
Proof. intros Hb. unfold ends_cr. by rewrite last_char_app. Qed.

(** The line so far can end in a carriage return only if one is waiting to be read. *)
Definition pending (p s : string) : Prop := ends_cr p = true → ∃ r, s = String cr r.

Lemma strip_cr_app p x : (x = "" → ends_cr p = false) → strip_cr (p +:+ x) = p +:+ strip_cr x.
Proof.
  intros Hp. unfold strip_cr. destruct x as [|c x].
  - rewrite string_app_nil_r, Hp by done. cbn. by rewrite string_app_nil_r.
  - rewrite ends_cr_app by done. destruct (ends_cr (String c x)); [|done]. unfold drop_last.
    rewrite string_length_app, take_str_app_ge by (cbn; lia). f_equal. f_equal. cbn. lia.
Qed.

Lemma lines_go_line x p r : IndexByte x lf = None → lines_go p (x +:+ String lf r) = strip_cr (p +:+ x) :: lines_go "" r.
Proof. intros Hx. rewrite lines_go_app by done. cbn. by rewrite decide_True. Qed.

(** The character at the end of a prefix is the first one after the shorter prefix. *)
Lemma cr_put_back n s : (0 < n ≤ String.length s)%nat → ends_cr (take_str n s) = true → ∃ r, drop_str (n - 1) s = String cr r.
Proof.
  revert n. induction s as [|c s IH]; intros [|n] Hn; cbn in Hn; try lia. cbn [take_str]. destruct n as [|n].
  - cbn. unfold ends_cr. rewrite bool_decide_eq_true. cbn. intros [= ->]. eauto.
  - destruct s as [|c' s]; [cbn in Hn; lia|]. intros He. destruct (IH (S n)) as [r Hr]; [cbn; cbn in Hn; lia| |].
    + rewrite <- He. symmetry. apply (ends_cr_app (String c "")). done.
    + exists r. cbn [Nat.sub] in *. rewrite Nat.sub_0_r in Hr. exact Hr.
Qed.

(** A fragment that does not end the line. *)
Lemma prefix_step size s : (2 ≤ size ≤ String.length s)%nat → (∀ i, IndexByte s lf = Some i → (size ≤ i)%nat) →
  let n := if ends_cr (take_str size s) then (size - 1)%nat else size in
  (1 ≤ n ≤ String.length s)%nat ∧ IndexByte (take_str n s) lf = None ∧
  ∀ p, pending (p +:+ take_str n s) (drop_str n s).
Proof.
  intros Hs Hi n. assert (Hn : (1 ≤ n ≤ size)%nat) by (unfold n; destruct (ends_cr _); lia).
  split; [lia|]. split.
  - destruct (IndexByte s lf) as [i|] eqn:E; [|by apply IndexByte_take_None]. eapply IndexByte_take; [done|]. specialize (Hi i eq_refl). lia.
  - intros p. unfold pending. assert (Ht : take_str n s ≠ "").
    { intros Ht. apply (f_equal String.length) in Ht. rewrite take_str_length in Ht by lia. cbn in Ht. lia. }
    rewrite ends_cr_app by done. unfold n in *. destruct (ends_cr (take_str size s)) eqn:E; [|congruence].
    intros _. apply cr_put_back; [lia|done].
Qed.

Lemma ReadLine_cases size s : (2 ≤ size)%nat → s ≠ "" →
  (∃ x r, s = x +:+ String lf r ∧ IndexByte x lf = None ∧ ReadLine size s = (strip_cr x, false, r)) ∨
  (∃ x r, s = x +:+ r ∧ x ≠ "" ∧ IndexByte x lf = None ∧ ReadLine size s = (x, true, r) ∧ ∀ p, pending (p +:+ x) r) ∨
  (IndexByte s lf = None ∧ ReadLine size s = (s, false, "")).
Proof.
  intros Hsize Hs.
  assert (Hprefix : (size ≤ String.length s)%nat → (∀ i, IndexByte s lf = Some i → (size ≤ i)%nat) →
    let n := if ends_cr (take_str size s) then (size - 1)%nat else size in
    ∃ x r, s = x +:+ r ∧ x ≠ "" ∧ IndexByte x lf = None ∧ (take_str n s, true, drop_str n s) = (x, true, r) ∧ ∀ p, pending (p +:+ x) r).
  { intros Hl Hi n. destruct (prefix_step size s) as (Hn & Hx & Hp); [lia|done|]. fold n in Hn, Hx, Hp.
    exists (take_str n s), (drop_str n s). split_and!; try done; [by rewrite take_drop_str|].
    intros Ht. apply (f_equal String.length) in Ht. rewrite take_str_length in Ht by lia. cbn in Ht. lia. }
  unfold ReadLine. destruct (IndexByte s lf) as [i|] eqn:E.
  - destruct (Nat.ltb_spec i size) as [Hi|Hi].
    + left. destruct (IndexByte_split s lf i E) as (H1 & H2 & _). eauto.
    + right. left. destruct (IndexByte_split s lf i E) as (_ & _ & H3). apply Hprefix; [lia|]. intros j [= <-]. done.
  - destruct (Nat.leb_spec size (String.length s)); right; [left; apply Hprefix; [done|by intros]|by right].
Qed.

Lemma hand_over_cons max last line l st :
  hand_over last (delivered max (line :: l)) st =
  if decide (take_str max line = "") then hand_over last (delivered max l) st
  else match onLine (take_str max line) st with
       | (Some e, st) => (Some e, None, st)
       | (None, st) => hand_over last (delivered max l) st
       end.
Proof.
  unfold delivered. cbn [fmap list_fmap]. rewrite filter_cons. destruct (decide (take_str max line = "")) as [Ht|Ht].
  - rewrite decide_False by (intros Hn; by apply Hn). done.
  - by rewrite decide_True.
Qed.

Lemma read_loop_spec fuel size max last s p st : (2 ≤ size)%nat → IndexByte p lf = None → pending p s → (String.length s < fuel)%nat →
  read_loop fuel size max last s (take_str max p) st = Some (hand_over last (delivered max (lines_go p s)) st).
Proof.
  intros Hsize. revert s p st. induction fuel as [|fuel IH]; intros s p st Hlf Hp Hf; [lia|].
  destruct (decide (s = "")) as [->|Hs].
  { cbn [read_loop lines_go]. rewrite hand_over_cons. case_decide; [done|]. by destruct (onLine _ st) as [[e|] st']. }
  cbn [read_loop]. destruct s as [|c s0]; [done|]. set (s := String c s0) in *.
  destruct (ReadLine_cases size s Hsize Hs) as [(x & r & Es & Hx & ->)|[(x & r & Es & Hx & Hl & -> & Hp')|[Hl ->]]].
  - assert (Hr : (String.length r < fuel)%nat) by (rewrite Es, string_length_app in Hf; cbn in Hf; lia).
    assert (Hstrip : p +:+ strip_cr x = strip_cr (p +:+ x)).
    { rewrite (strip_cr_app p x); [done|]. intros ->. apply not_true_iff_false. intros Hc. destruct (Hp Hc) as [r' Hr'].
      rewrite Es in Hr'. discriminate Hr'. }
    rewrite append_frag_take, Hstrip, Es, lines_go_line, hand_over_cons by done. cbn [orb].
    destruct (decide (take_str max (strip_cr (p +:+ x)) = "")) as [->|Hn].
    + rewrite bool_decide_eq_true_2 by done. rewrite <- (IH r "" st); [by destruct max|done|by intros [=]|done].
    + rewrite bool_decide_eq_false_2 by done. destruct (onLine _ st) as [[e|] st']; [done|].
      rewrite <- (IH r "" st'); [by destruct max|done|by intros [=]|done].
  - rewrite append_frag_take. cbn [orb]. rewrite IH.
    + by rewrite Es, lines_go_app.
    + clear -Hlf Hl. induction p as [|a p IHp]; [done|]. cbn in Hlf |- *. case_decide; [done|].
      destruct (IndexByte p lf); [done|]. by rewrite IHp.
    + apply Hp'.
    + rewrite Es, string_length_app in Hf. destruct x; [done|]. cbn in Hf. lia.
  - rewrite append_frag_take. cbn [orb].
    assert (El : lines_go p s = [p +:+ s]) by (rewrite <- (string_app_nil_r s) at 1; by rewrite lines_go_app).
    rewrite El, hand_over_cons. destruct (decide (take_str max (p +:+ s) = "")) as [->|Hn].
    + rewrite bool_decide_eq_true_2 by done. destruct fuel; [cbn in Hf; lia|]. done.
    + rewrite bool_decide_eq_false_2 by done. destruct (onLine _ st) as [[e|] st']; [done|].
      destruct fuel; [cbn in Hf; lia|]. done.
Qed.
End stream.

(** ** Running *)

Definition bufferSize : nat := Z.to_nat (256 * 1024).
Definition maxLineBytes : nat := Z.to_nat (8 * 1024 * 1024).

(** A child: why its pipe could not be opened or it not be started, what it prints, how
    the pipe ends ([None]: at the end of the output), its error text, what [Wait] returns,
    and the error of the context then. *)
Record child := mk_child {
  pipe_err : option error; start_err : option error;
  c_stdout : string; read_err : option error; c_stderr : string;
  wait_err : option error; ctx_Err : option error }.

Section run.
(** [*exec.ExitError] with its code. *)
Context (exit_status : error → option Z).

(** [errors.As(e, &exitErr)], in pre-order. *)
Fixpoint errors_As_Exit (e : error) : option Z :=
  let fix first (l : list error) : option Z :=
    match l with
    | [] => None
    | x :: l' => match errors_As_Exit x with Some c => Some c | None => first l' end
    end in
  match exit_status e with
  | Some c => Some c
  | None => match e with
            | ENew _ | ESentinel _ => None
            | EWrap _ l | ENet _ l => first l
            | ERetryable i _ | EURL _ i => errors_As_Exit i
            end
  end.

Definition ExitCodeOf (err : option error) : Z :=
  match err with
  | None => 0
  | Some e => match errors_As_Exit e with
              | Some code => code
              | None => if errors_Is e ContextDeadlineExceeded then -2 else -1
              end
  end.

Definition mapRunError (name : string) (ch : child) (waitErr : error) : error :=
  let stderrText := TrimSpace (c_stderr ch) in
  match ctx_Err ch with
  | Some ctxErr =>
      EWrap (if decide (stderrText ≠ "")
             then "command " +:+ Quote name +:+ " did not complete (" +:+ Error ctxErr +:+ "); stderr: " +:+ stderrText
             else "command " +:+ Quote name +:+ " did not complete: " +:+ Error ctxErr) [ctxErr]
  | None =>
      EWrap ("command " +:+ Quote name +:+ " failed: " +:+ Error waitErr +:+
             (if decide (stderrText ≠ "") then "; stderr: " +:+ stderrText else "")) [waitErr]
  end.

Definition not_started (name : string) (e : error) : error := EWrap ("failed to start command " +:+ Quote name +:+ ": " +:+ Error e) [e].

Definition RunWithContext (name : string) (ch : child) : string * option error :=
  match start_err ch with
  | Some e => ("", Some (not_started name e))
  | None => (c_stdout ch, mapRunError name ch <$> wait_err ch)
  end.

(** Any failure discards what was printed. *)
Definition ExecuteCommandWithTimeout (name : string) (ch : child) : res string :=
  match RunWithContext name ch with (_, Some err) => Err err | (stdout, None) => Ok stdout end.

(** What the run returns once reading has ended. *)
Definition run_error (name : string) (ch : child) (callbackErr scanErr : option error) : option error :=
  match callbackErr, scanErr, wait_err ch with
  | Some e, _, _ => Some e
  | None, Some _, Some waitErr => Some (mapRunError name ch waitErr)
  | None, Some e, None => Some (EWrap ("error reading stdout of command " +:+ Quote name +:+ ": " +:+ Error e) [e])
  | None, None, waitErr => mapRunError name ch <$> waitErr
  end.

Definition RunWithContextStream {St} (onLine : string → St → option error * St) (name : string) (ch : child) (st : St)
    : option error * St :=
  match pipe_err ch, start_err ch with
  | Some e, _ => (Some (EWrap ("failed to open stdout pipe for command " +:+ Quote name +:+ ": " +:+ Error e) [e]), st)
  | None, Some e => (Some (not_started name e), st)
  | None, None =>
      match read_loop onLine (S (String.length (c_stdout ch))) bufferSize maxLineBytes (read_err ch) (c_stdout ch) "" st with
      | Some (callbackErr, scanErr, st) => (run_error name ch callbackErr scanErr, st)
      | None => (None, st)
      end
  end.

(** The arguments of the call of [prlimit], if the limit is set and the tool is there. *)
Definition applyMemoryLimitBestEffort (Getenv : string → string) (windows : bool) (LookPath : option string) (pid : Z)
    : option (list string) :=
  let raw := Getenv "MORF_SUBPROC_MEM_BYTES" in
  if windows || bool_decide (raw = "") then None
  else match Atoi raw, LookPath with
       | Some n, Some prlimit => if n <=? 0 then None else Some [prlimit; "--pid"; itoa pid; "--as=" +:+ itoa n]
       | _, _ => None
       end.

(** ** ripgrep, as the detection engine runs it *)

(** The lines handed to a callback that keeps them, and how the process ended. *)
Definition rg_run (ch : child) : list string * rg_exit :=
  let '(err, lines) := RunWithContextStream (λ l acc, (None, acc ++ [l])) "rg" ch [] in
  (lines, match err with None => RgOk | Some e => RgFailed (ExitCodeOf (Some e)) end).

Lemma hand_over_keeps last l acc :
  hand_over (λ s acc, (None, acc ++ [s])) last l acc = (None, last, acc ++ l).
Proof. revert acc. induction l as [|s l IH]; intros acc; cbn; [by rewrite app_nil_r|]. by rewrite IH, <- app_assoc. Qed.

(** A child that was started and whose output was read to its end. *)
Definition ran (ch : child) : Prop := pipe_err ch = None ∧ start_err ch = None ∧ read_err ch = None.

(** C40: A tool's output reaches the callback whole, whatever buffer it is read through:
    the callback is given the non-empty lines, in order, each cut at eight mebibytes, up
    to the first it refuses, whose error is returned; reading ends on every output. *)
Theorem stream_delivers {St} (onLine : string → St → option error * St) name ch st : pipe_err ch = None → start_err ch = None →
  RunWithContextStream onLine name ch st =
  let '(callbackErr, scanErr, st') := hand_over onLine (read_err ch) (delivered maxLineBytes (lines_go "" (c_stdout ch))) st in
  (run_error name ch callbackErr scanErr, st').
Proof.
  intros Hp Hs. unfold RunWithContextStream. rewrite Hp, Hs.
  pose proof (read_loop_spec onLine (S (String.length (c_stdout ch))) bufferSize maxLineBytes (read_err ch) (c_stdout ch) "" st) as Hr.
  replace (take_str maxLineBytes "") with "" in Hr by (by destruct maxLineBytes). rewrite Hr; [|unfold bufferSize; lia|done|by intros [=]|lia].
  by destruct (hand_over _ _ _ _) as [[c sc] st'].
Qed.

(** The exit code a run is classified by. *)
Definition exit_class (ch : child) : Z :=
  match wait_err ch, ctx_Err ch with
  | None, _ => 0
  | Some _, Some e => if errors_Is e ContextDeadlineExceeded then -2 else -1
  | Some w, None => default (-1) (exit_status w)
  end.

(** What the detection engine is told about a run of ripgrep is true: it gets the
    non-empty lines of the output, and an exit code that is the child's own, or -2 when
    the deadline passed, or -1 when the run was cancelled; success is reported exactly
    when the child succeeded. *)
Theorem rg_run_faithful ch : ran ch →
  (∀ e, ctx_Err ch = Some e → e = ESentinel ContextDeadlineExceeded ∨ e = ESentinel ContextCanceled) →
  (∀ m l, exit_status (EWrap m l) = None) → (∀ s, exit_status (ESentinel s) = None) →
  (∀ w, wait_err ch = Some w → ctx_Err ch = None → is_Some (exit_status w)) →
  rg_run ch = (delivered maxLineBytes (lines_go "" (c_stdout ch)),
               match wait_err ch with None => RgOk | Some _ => RgFailed (exit_class ch) end).
Proof.
  intros (Hp & Hs & Hr) Hctx Hwrap Hsent Hexit. unfold rg_run. rewrite (stream_delivers _ "rg" ch [] Hp Hs), hand_over_keeps, Hr.
  cbn [app run_error]. unfold exit_class. destruct (wait_err ch) as [w|] eqn:Ew; [|done]. cbn [fmap option_fmap option_map].
  f_equal. f_equal. unfold mapRunError, ExitCodeOf. destruct (ctx_Err ch) as [c|] eqn:Ec.
  - destruct (Hctx c eq_refl) as [-> | ->]; cbn [errors_As_Exit]; by rewrite Hwrap, Hsent.
  - destruct (Hexit w eq_refl eq_refl) as [code Hc]. cbn [errors_As_Exit]. rewrite Hwrap.
    destruct w; cbn [errors_As_Exit]; by rewrite Hc.
Qed.
End run.

(** ** Instances *)

(** Exit code 2 is this error. *)
Definition sample_status (e : error) : option Z := match e with ENew "exit status 2" => Some 2 | _ => None end.

Definition rg_child (out : string) (w c : option error) : child := mk_child None None out None "" w c.

Definition count_line (refuse : string) (l : string) (acc : list string) : option error * list string :=
  if decide (l = refuse) then (Some (ENew "stop"), acc) else (None, acc ++ [l]).

(** A line that ends in a carriage return, an empty one, and one without an end; read
    through a buffer of four bytes, each cut at five. *)
Definition sample_output : string :=
  "abcdefg" +:+ String cr (String lf "") +:+ String lf ("xy" +:+ String cr (String lf "tail")).
Example small_buffer : read_loop (count_line "") 30 4 5 None sample_output "" [] = Some (None, None, ["abcde"; "xy"; "tail"]).
Proof. by vm_compute. Qed.
Example refused_line : read_loop (count_line "xy") 30 4 5 None sample_output "" [] = Some (Some (ENew "stop"), None, ["abcde"]).
Proof. by vm_compute. Qed.

Lemma delivered_short max l : Forall (λ s, s ≠ "" ∧ (String.length s ≤ max)%nat) l → delivered max l = l.
Proof.
  induction 1 as [|s l [Hs Hl] _ IH]; [done|]. unfold delivered in *. cbn [fmap list_fmap].
  rewrite take_str_big, filter_cons_True, IH by done. done.
Qed.

Lemma short_letters max : (1 ≤ max)%nat → Forall (λ s, s ≠ "" ∧ (String.length s ≤ max)%nat) ["a"; "b"].
Proof. intros Hm. repeat (apply Forall_cons_2; [by split|]). apply Forall_nil_2. Qed.

Lemma stream_delivers_witness :
  RunWithContextStream (count_line "b") "rg" (rg_child ("a" +:+ String lf "b") None None) [] = (Some (ENew "stop"), ["a"]).
Proof.
  rewrite (stream_delivers (count_line "b") "rg" (rg_child ("a" +:+ String lf "b") None None) []); [|reflexivity|reflexivity].
  assert (El : lines_go "" (c_stdout (rg_child ("a" +:+ String lf "b") None None)) = ["a"; "b"]) by reflexivity.
  rewrite El, delivered_short; [reflexivity|].
  apply short_letters. unfold maxLineBytes. lia.
Defined.

Lemma rg_run_faithful_witness :
  rg_run sample_status (rg_child "" (Some (ENew "exit status 2")) None) = ([], RgFailed 2).
Proof.
  rewrite (rg_run_faithful sample_status (rg_child "" (Some (ENew "exit status 2")) None)).
  - cbn [c_stdout rg_child lines_go]. unfold delivered. cbn [fmap list_fmap]. replace (take_str maxLineBytes "") with "" by (by destruct maxLineBytes).
    reflexivity.
  - done.
  - intros e [=].
  - done.
  - done.
  - intros w [= <-] _. by eexists.
Defined.
