(* ===== verification/Precision.v ===== *)
(** * Precision post-processing ([detect/precision.go])

    Findings are dropped, downgraded or kept by a fixed list of checks on their
    type and value, and scored.  Regular expressions, base64url and the JSON
    header of a token are parameters; so is [math.Log2], and the order in which
    Go iterates over a map. *)
From Stdlib Require Import Ascii.
From S2P Require Import Prelude GoStr GoErr GoFloat Detect.

Local Open Scope Z_scope.

Inductive precisionVerdict := precisionDrop | precisionInfo | precisionKeep.

#[export] Instance precisionVerdict_eq_dec : EqDecision precisionVerdict.
Proof. solve_decision. Defined.

Section precision.
Context {E : RegexEngine} (ReplaceAllString : regexp → string → string → string).
Context (URLDecode RawURLDecode : string → option string) (json_keys : string → option (gset string)).
Context (Log2 : spec_float → spec_float) (map_order : gmap Z Z → list (Z * Z)).

(** ** Expressions *)

Definition placeholderRE : string :=
  "(?i)\b(test|example|sample|fake|dummy|placeholder|xxxx|changeme|your[_-]?key)\b".
Definition bcryptRE : string := "^\$2[abxy]\$".
Definition benignDomainRE : string := "(?i)(sentry\.io|googleapis\.com|apple\.com|crashlytics)".
Definition validKeychainRE : string := "^[A-Z0-9]{10}\.".
Definition pemMarkerRE : string := "-----(BEGIN|END)[^-]*-----".
Definition pemBodyRE : string := "[A-Za-z0-9+/]{40,}".

(** A match of an expression that [regexp.MustCompile] compiled at start-up. *)
Definition re_match (re v : string) : bool :=
  match Compile re with Some r => MatchString r v | None => false end.

Definition re_delete (re v : string) : string :=
  match Compile re with Some r => ReplaceAllString r v "" | None => v end.

Definition publicTypes : list string :=
  ["Google Cloud Platform OAuth"; "iOS Google Reversed Client ID Scheme"; "Firebase Database URL"].

(** ** Signals *)

(** Occurrences of each rune. *)
Definition rune_counts (s : string) : gmap Z Z :=
  foldr (λ r m, <[r := default 0 (m !! r) + 1]> m) ∅ (to_runes s).

Definition shannonEntropy (s : string) : spec_float :=
  if decide (s = "") then S754_zero false
  else
    let fn := float_of_Z (Z.of_nat (length (to_runes s))) in
    foldl (λ ent rc, let p := float_div (float_of_Z rc.2) fn in
                     float_sub ent (float_mul p (Log2 p)))
      (S754_zero false) (map_order (rune_counts s)).

Definition countDigits (s : string) : Z :=
  Z.of_nat (length (filter (λ r, 48 ≤ r ≤ 57) (to_runes s))).

Definition precisionScore (entropy : spec_float) (digits length : Z) : spec_float :=
  let e := float_div entropy (float_of_Z 6) in
  let e := if SFltb float_one e then float_one else e in
  let score := float_mul (float_lit 7 10) e in
  let score := if 2 <=? digits then float_add score (float_lit 15 100) else score in
  let score := if 20 <=? length then float_add score (float_lit 15 100) else score in
  let score := if SFltb float_one score then float_one else score in
  if SFltb score (S754_zero false) then S754_zero false else score.

(** ** Shapes *)

Definition isAllAlpha (w : string) : bool :=
  negb (bool_decide (w = "")) &&
  forallb (λ r, ((97 <=? r) && (r <=? 122)) || ((65 <=? r) && (r <=? 90))) (to_runes w).

Definition tab : ascii := ascii_of_nat 9.
Definition blank : ascii := " ".

Definition looksNaturalLanguage (v : string) : bool :=
  let t := TrimSpace v in
  if bool_decide (is_Some (IndexByte t blank)) || bool_decide (is_Some (IndexByte t tab)) then
    Nat.leb 2 (length (filter (λ w, (4 <=? len w) && isAllAlpha w = true) (Fields v)))
  else false.

Definition hasPEMBody (v : string) : bool := re_match pemBodyRE (re_delete pemMarkerRE v).

Definition repeat_eq (n : nat) : string := Nat.iter n (String "=") "".

(** [strings.TrimRight(s, "=")] *)
Fixpoint trim_eq (s : string) : string :=
  match s with
  | EmptyString => ""
  | String c s' => let t := trim_eq s' in
                   if bool_decide (t = "") && bool_decide (c = "="%char) then "" else String c t
  end.

Definition dot : ascii := ".".

Definition jwtIsPublicCert (v : string) : bool :=
  let seg := match IndexByte v dot with Some i => slice v 0 i | None => v end in
  let pad := len seg mod 4 in
  let seg := if pad =? 0 then seg else seg +:+ repeat_eq (Z.to_nat (4 - pad)) in
  let raw := match URLDecode seg with Some r => Some r | None => RawURLDecode (trim_eq seg) end in
  match raw with
  | None => false
  | Some r =>
      match json_keys r with
      | None => false
      | Some ks => bool_decide ("x5c" ∈ ks ∨ "x5u" ∈ ks ∨ "jku" ∈ ks)
      end
  end.

Definition isPrivateKeyType (t : string) : bool := Contains (ToLower t) "private key".

Definition isKeychainGroupType (t : string) : bool := HasPrefix t "iOS Keychain Access Group".

Definition jwtType : string := "JSON Web Token (JWT)".

Definition isCredentialType (t : string) : bool :=
  negb (isPrivateKeyType t || bool_decide (t = jwtType) || isKeychainGroupType t).

(** ** Classification *)

Definition newline_ : ascii := ascii_of_nat 10.

(** The value the checks see. *)
Definition normalized (s : SecretModel) : string :=
  TrimSpace (ReplaceByte (SecretString s) newline_ blank).

Definition classifyPrecision (s : SecretModel) : precisionVerdict * spec_float :=
  let t := SecretType s in
  let v := normalized s in
  let score := precisionScore (shannonEntropy v) (countDigits v) (len v) in
  let zero := S754_zero false in
  if re_match placeholderRE v then (precisionDrop, zero)
  else if re_match bcryptRE v then (precisionDrop, zero)
  else if isCredentialType t && looksNaturalLanguage v then (precisionDrop, zero)
  else if isPrivateKeyType t && negb (hasPEMBody v) then (precisionDrop, zero)
  else if bool_decide (t = jwtType) && jwtIsPublicCert v then (precisionDrop, zero)
  else if isKeychainGroupType t &&
          (bool_decide (v = "keychain-access-groups") || re_match benignDomainRE v ||
           negb (re_match validKeychainRE v)) then (precisionDrop, zero)
  else if bool_decide (t ∈ publicTypes) then (precisionInfo, score)
  else if isKeychainGroupType t then (precisionInfo, score)
  else (precisionKeep, score).

Definition set_tier (tier conf : string) (score : spec_float) (s : SecretModel) : SecretModel :=
  mk_secret (Type_ s) (LineNo s) (FileLocation s) (SecretType s) (SecretString s) conf score
    tier (VerificationStatus s) (MASVSID s).

Definition apply_one (s : SecretModel) : option SecretModel :=
  match classifyPrecision s with
  | (precisionDrop, _) => None
  | (precisionInfo, score) => Some (set_tier "info" "low" score s)
  | (precisionKeep, score) => Some (set_tier "keep" (SecretConfidence s) score s)
  end.

Definition ApplyPrecision (secrets : list SecretModel) : list SecretModel := omap apply_one secrets.

(** ** Facts *)

(** Scores lie in the unit interval: for any entropy, digit count and length
    the score is neither above one nor below zero. *)
Theorem precisionScore_range entropy digits length_ :
  let r := precisionScore entropy digits length_ in
  SFltb float_one r = false ∧ SFltb r (S754_zero false) = false.
Proof.
  cbv zeta. unfold precisionScore.
  set (s := if 20 <=? length_ then _ else _).
  destruct (SFltb float_one s) eqn:H1; [by vm_compute|].
  destruct (SFltb s (S754_zero false)) eqn:H2; [by vm_compute|done].
Qed.

(** The verdict looks at the type and the value only. *)
Lemma classify_set_tier tier conf score s :
  classifyPrecision (set_tier tier conf score s) = classifyPrecision s.
Proof. done. Qed.

Lemma apply_one_id s s' : apply_one s = Some s' → apply_one s' = Some s'.
Proof.
  unfold apply_one. destruct (classifyPrecision s) as [[] sc] eqn:Hc; intros [= <-];
    by rewrite classify_set_tier, Hc.
Qed.

(** Precision only filters and labels.  The findings that survive are, in
    their order, findings of the input with the same type, value, location and
    attribution; each is either kept with its confidence or downgraded to
    informational with low confidence; a finding is dropped exactly when its type
    and value are classified as a false positive; and applying the stage twice is
    the same as applying it once. *)
Theorem ApplyPrecision_spec secrets :
  let out := ApplyPrecision secrets in
  secretKey <$> out =
    secretKey <$> filter (λ s, (classifyPrecision s).1 ≠ precisionDrop) secrets ∧
  Forall (λ s', ∃ s, s ∈ secrets ∧ FileLocation s' = FileLocation s ∧ LineNo s' = LineNo s ∧
            MASVSID s' = MASVSID s ∧
            ((Tier s' = "keep" ∧ SecretConfidence s' = SecretConfidence s) ∨
             (Tier s' = "info" ∧ SecretConfidence s' = "low"))) out ∧
  ApplyPrecision out = out.
Proof.
  cbv zeta. induction secrets as [|s l (IH1 & IH2 & IH3)]; [done|].
  assert (Hw : Forall (λ s', ∃ s0, s0 ∈ s :: l ∧ FileLocation s' = FileLocation s0 ∧
    LineNo s' = LineNo s0 ∧ MASVSID s' = MASVSID s0 ∧
    ((Tier s' = "keep" ∧ SecretConfidence s' = SecretConfidence s0) ∨
     (Tier s' = "info" ∧ SecretConfidence s' = "low"))) (ApplyPrecision l)).
  { eapply Forall_impl; [exact IH2|]. intros s' (s0 & Hin & H). exists s0. split; [by right|done]. }
  unfold ApplyPrecision in *. cbn [omap list_omap]. rewrite filter_cons.
  destruct (apply_one s) as [s'|] eqn:Hs; unfold apply_one in Hs;
    destruct (classifyPrecision s) as [[] sc] eqn:Hc; simplify_eq; cbn [fst].
  - rewrite decide_True by done. rewrite !fmap_cons, IH1. split_and!; [done| |].
    + constructor; [|done]. exists s. cbn. split_and!; [left|done..|auto].
    + cbn [omap list_omap].
      rewrite (apply_one_id s) by (unfold apply_one; by rewrite Hc). by rewrite IH3.
  - rewrite decide_True by done. rewrite !fmap_cons, IH1. split_and!; [done| |].
    + constructor; [|done]. exists s. cbn. split_and!; [left|done..|auto].
    + cbn [omap list_omap].
      rewrite (apply_one_id s) by (unfold apply_one; by rewrite Hc). by rewrite IH3.
  - rewrite decide_False by (intros H; by apply H). by split_and!.
Qed.

End precision.
