(* ===== verification/Gate.v ===== *)
(** * The build gate ([gate/gate.go])

    Findings of a scan against a baseline of accepted fingerprints and an
    allowlist, under a policy.  The fingerprint function and the JSON encoding of
    the baseline file are parameters. *)
From S2P Require Import Prelude GoStr GoErr GoFloat Detect.

Local Open Scope Z_scope.

Definition statusActive : string := "active".
Definition tierKeep : string := "keep".

Definition FailOnNewVerified : string := "new_verified".
Definition FailOnNewAny : string := "new_any".
Definition FailOnTierKeep : string := "new_tier_keep".
Definition NonePolicy : string := "none".
Definition DefaultPolicy : string := FailOnNewVerified.

Record Baseline := mk_baseline {
  Fingerprints : gset string;
  AllowedFingerprints : gset string;
  AllowedTypes : gset string }.

Definition NewBaseline : Baseline := mk_baseline ∅ ∅ ∅.

(** The slices of the on-disk form. *)
Record baselineJSON := mk_bj {
  bj_Fingerprints : list string;
  bj_AllowedFingerprints : list string;
  bj_AllowedTypes : list string }.

(** Byte order on strings, as [sort.Strings] uses it. *)
Definition string_le (a b : string) : Prop := String.leb a b = true.
#[export] Instance string_le_dec : RelDecision string_le.
Proof. intros a b. unfold string_le. apply _. Defined.

Definition setToSortedSlice (m : gset string) : list string := merge_sort string_le (elements m).
Definition sliceToSet (s : list string) : gset string := list_to_set s.

Definition to_json (b : Baseline) : baselineJSON :=
  mk_bj (setToSortedSlice (Fingerprints b)) (setToSortedSlice (AllowedFingerprints b))
    (setToSortedSlice (AllowedTypes b)).

Definition of_json (j : baselineJSON) : Baseline :=
  mk_baseline (sliceToSet (bj_Fingerprints j)) (sliceToSet (bj_AllowedFingerprints j))
    (sliceToSet (bj_AllowedTypes j)).

(** A nil baseline knows nothing. *)
Definition isKnown (b : option Baseline) (fp secretType : string) : bool :=
  match b with
  | None => false
  | Some b => bool_decide (fp ∈ Fingerprints b) || bool_decide (fp ∈ AllowedFingerprints b) ||
              bool_decide (secretType ∈ AllowedTypes b)
  end.

Definition Allow (fp : string) (b : Baseline) : Baseline :=
  mk_baseline (Fingerprints b) ({[fp]} ∪ AllowedFingerprints b) (AllowedTypes b).

Definition AllowType (t : string) (b : Baseline) : Baseline :=
  mk_baseline (Fingerprints b) (AllowedFingerprints b) ({[t]} ∪ AllowedTypes b).

Record GateResult := mk_result {
  NewFindings : list SecretModel;
  NewVerified : list SecretModel;
  Failed : bool;
  Reason : string }.

Section gate.
Context (Fingerprint : string → string).

(** ** Files *)

Section files.
Context (marshal : baselineJSON → string) (unmarshal : string → option baselineJSON).

Definition Save (b : Baseline) : string := marshal (to_json b).

(** The contents of the file, [None] when it cannot be read. *)
Definition LoadBaseline (data : option string) : res Baseline :=
  match data with
  | None => Err (ENew "gate: read baseline")
  | Some d => match unmarshal d with
              | Some j => Ok (of_json j)
              | None => Err (ENew "gate: parse baseline")
              end
  end.

End files.

(** ** Evaluation *)

Definition BaselineFromScan (current : list SecretModel) : Baseline :=
  mk_baseline (list_to_set ((λ s, Fingerprint (SecretString s)) <$> current)) ∅ ∅.

Definition is_new (base : option Baseline) (s : SecretModel) : bool :=
  negb (isKnown base (Fingerprint (SecretString s)) (SecretType s)).

Definition count_str (l : list SecretModel) : string := itoa (Z.of_nat (length l)).

Definition Evaluate (current : list SecretModel) (base : option Baseline) (policy : string)
    : GateResult :=
  let policy := if decide (policy = "") then DefaultPolicy else policy in
  let newF := filter (λ s, is_new base s = true) current in
  let newV := filter (λ s, VerificationStatus s = statusActive) newF in
  let newK := filter (λ s, Tier s = tierKeep) newF in
  let some l := negb (bool_decide (l = @nil SecretModel)) in
  if decide (policy = FailOnNewAny) then
    mk_result newF newV (some newF)
      (if some newF then count_str newF +:+ " new finding(s) detected (policy=" +:+ policy +:+ ")"
       else "no new findings")
  else if decide (policy = FailOnTierKeep) then
    mk_result newF newV (some newK)
      (if some newK
       then count_str newK +:+ " new keep-tier finding(s) detected (policy=" +:+ policy +:+ ")"
       else "no new keep-tier findings")
  else if decide (policy = NonePolicy) then
    mk_result newF newV false
      ("gate disabled (policy=" +:+ policy +:+ "); " +:+ count_str newF +:+ " new finding(s), "
       +:+ count_str newV +:+ " new verified")
  else
    mk_result newF newV (some newV)
      (if some newV
       then count_str newV +:+ " new verified-active finding(s) detected (policy=" +:+ policy +:+ ")"
       else "no new verified-active findings").

(** ** Facts *)

(** The decision in terms of the new findings. *)
Definition gating (policy : string) (s : SecretModel) : bool :=
  let policy := if decide (policy = "") then DefaultPolicy else policy in
  if decide (policy = FailOnNewAny) then true
  else if decide (policy = FailOnTierKeep) then bool_decide (Tier s = tierKeep)
  else if decide (policy = NonePolicy) then false
  else bool_decide (VerificationStatus s = statusActive).

Lemma nonempty_filter (P : SecretModel → Prop) `{!∀ x, Decision (P x)} l :
  negb (bool_decide (filter P l = [])) = true ↔ ∃ s, s ∈ l ∧ P s.
Proof.
  rewrite negb_true_iff, bool_decide_eq_false. split.
  - intros Hne. destruct (filter P l) as [|s l'] eqn:Hf; [done|]. exists s.
    assert (s ∈ filter P l) as [? ?]%list_elem_of_filter by (rewrite Hf; left). done.
  - intros (s & Hs & HP) Hf. assert (s ∈ filter P l) as Hin by (by apply list_elem_of_filter).
    rewrite Hf in Hin. by apply elem_of_nil in Hin.
Qed.

Lemma Evaluate_failed current base policy :
  Failed (Evaluate current base policy) = true ↔
  ∃ s, s ∈ current ∧ is_new base s = true ∧ gating policy s = true.
Proof.
  unfold Evaluate, gating. set (p := if decide (policy = "") then _ else _).
  repeat case_decide; cbn [Failed].
  - rewrite nonempty_filter. naive_solver.
  - rewrite nonempty_filter. setoid_rewrite list_elem_of_filter.
    setoid_rewrite bool_decide_eq_true. naive_solver.
  - naive_solver.
  - rewrite nonempty_filter. setoid_rewrite list_elem_of_filter.
    setoid_rewrite bool_decide_eq_true. naive_solver.
Qed.

(** The gate fails exactly for new gating findings.  A build fails if and only
    if some finding is neither in the baseline nor allowlisted, by fingerprint or
    by type, and meets the policy's condition: any finding, a keep-tier finding,
    a finding verified active (also for the empty and for unknown policies), or
    none at all. *)
Theorem gate_decision current base policy :
  Failed (Evaluate current base policy) = true ↔
  ∃ s, s ∈ current ∧ isKnown base (Fingerprint (SecretString s)) (SecretType s) = false ∧
       gating policy s = true.
Proof.
  rewrite Evaluate_failed. unfold is_new. setoid_rewrite negb_true_iff. done.
Qed.

(** One baseline accepts at least what another does. *)
Definition accepts_more (b b' : Baseline) : Prop :=
  Fingerprints b ⊆ Fingerprints b' ∧ AllowedFingerprints b ⊆ AllowedFingerprints b' ∧
  AllowedTypes b ⊆ AllowedTypes b'.

Lemma isKnown_mono b b' fp t :
  accepts_more b b' → isKnown (Some b) fp t = true → isKnown (Some b') fp t = true.
Proof.
  intros (H1 & H2 & H3). cbn. rewrite !orb_true_iff, !bool_decide_eq_true. set_solver.
Qed.

(** Accepting more never breaks a build.  Under any policy, extending the
    baseline or the allowlists cannot turn a passing build into a failing one. *)
Theorem gate_monotone current b b' policy :
  accepts_more b b' →
  Failed (Evaluate current (Some b') policy) = true →
  Failed (Evaluate current (Some b) policy) = true.
Proof.
  intros Hb. rewrite !Evaluate_failed. intros (s & Hs & Hn & Hg). exists s.
  split_and!; [done| |done]. unfold is_new in *. rewrite negb_true_iff in *.
  apply not_true_iff_false. intros Hk. apply not_true_iff_false in Hn. apply Hn.
  by eapply isKnown_mono.
Qed.

(** An accepted scan passes.  After accepting a scan as the baseline, saving it
    and loading it back, no policy fails a scan whose secret values all occurred
    in the accepted one, wherever they are found now. *)
Theorem accepted_scan_passes (marshal : baselineJSON → string)
    (unmarshal : string → option baselineJSON) (old current : list SecretModel) (policy : string) b :
  (∀ j, unmarshal (marshal j) = Some j) →
  (∀ s, s ∈ current → ∃ s0, s0 ∈ old ∧ SecretString s0 = SecretString s) →
  LoadBaseline unmarshal (Some (Save marshal (BaselineFromScan old))) = Ok b →
  Failed (Evaluate current (Some b) policy) = false.
Proof.
  intros Hj Hc Hl. unfold LoadBaseline, Save in Hl. rewrite Hj in Hl. simplify_eq.
  apply not_true_iff_false. rewrite Evaluate_failed. intros (s & Hs & Hn & _).
  unfold is_new in Hn. apply negb_true_iff, not_true_iff_false in Hn. apply Hn. cbn.
  apply orb_true_iff; left. apply orb_true_iff; left. apply bool_decide_eq_true.
  unfold sliceToSet, setToSortedSlice. rewrite elem_of_list_to_set, merge_sort_Permutation.
  rewrite elem_of_elements, elem_of_list_to_set, list_elem_of_fmap.
  destruct (Hc s Hs) as (s0 & Hs0 & <-). eauto.
Qed.

End gate.

(** ** Instances *)

Definition sample_secret (v st : string) : SecretModel :=
  mk_secret "AWS" 1 "a.smali" "AWS" v "high" (S754_zero false) "keep" st "".

Lemma gate_monotone_witness :
  let cur := [sample_secret "k1" "active"] in
  Failed (Evaluate id cur (Some (mk_baseline ∅ {["k2"]} ∅)) "") = true.
Proof.
  intros cur.
  apply (gate_monotone id cur (mk_baseline ∅ {["k2"]} ∅) (mk_baseline ∅ {["k2"]} {["IOS"]}) "");
    [by split_and!; set_solver|by vm_compute].
Defined.

(** The slices as decimal numerals of their code. *)
Definition bj_code (j : baselineJSON) : list string * (list string * list string) :=
  (bj_Fingerprints j, (bj_AllowedFingerprints j, bj_AllowedTypes j)).
Definition marshal_num (j : baselineJSON) : string := itoa (Z.pos (encode (bj_code j))).
Definition unmarshal_num (s : string) : option baselineJSON :=
  match scan_signed s with
  | Some (Z.pos p, _) => (λ '(a, (b, c)), mk_bj a b c) <$> decode p
  | _ => None
  end.

Lemma unmarshal_marshal_num j : unmarshal_num (marshal_num j) = Some j.
Proof.
  unfold unmarshal_num, marshal_num. rewrite scan_signed_itoa, decode_encode. by destruct j.
Qed.

Lemma accepted_scan_passes_witness :
  ∃ b, LoadBaseline unmarshal_num (Some (Save marshal_num
         (BaselineFromScan id [sample_secret "k1" "active"]))) = Ok b ∧
    Failed (Evaluate id [sample_secret "k1" "active"] (Some b) FailOnNewAny) = false.
Proof.
  destruct (LoadBaseline unmarshal_num (Some (Save marshal_num
    (BaselineFromScan id [sample_secret "k1" "active"])))) as [b|e] eqn:Hl.
  - exists b. split; [reflexivity|].
    apply (accepted_scan_passes id marshal_num unmarshal_num [sample_secret "k1" "active"]
      [sample_secret "k1" "active"] FailOnNewAny b unmarshal_marshal_num); [|exact Hl].
    intros s Hs. exists s. split; [exact Hs|reflexivity].
  - exfalso. unfold LoadBaseline, Save in Hl. rewrite unmarshal_marshal_num in Hl. discriminate Hl.
Defined.
