(* ===== verification/Auth.v ===== *)
(** * Authentication and authorization ([auth/middleware.go], [models/APIKey.go])

    The API-key middlewares as functions of the request and the process's shared
    state: the validation cache, the pending usage and the rate limiters.  The
    hash function, the database and the token bucket are parameters. *)
From Stdlib Require Import Ascii.
From S2P Require Import Prelude GoStr GoErr GoTime.

Local Open Scope Z_scope.

(** ** Keys and requests *)

Record APIKey := mk_key {
  k_ID : Z;
  k_Name : string;
  k_Scopes : list string;
  k_RateLimit : Z;
  k_ExpiresAt : option Z;
  k_IsActive : bool }.

(** Times are nanoseconds. *)
Definition IsExpired (now : Z) (k : APIKey) : bool :=
  match k_ExpiresAt k with None => false | Some t => t <? now end.

Definition IsValid (now : Z) (k : APIKey) : bool := k_IsActive k && negb (IsExpired now k).

(** What [c.Get("scopes")] can hold. *)
Inductive scopes_value := ScopesArray (l : list string) | ScopesString (s : string) | ScopesOther.

(** The values the middlewares put on the request context. *)
Record context := mk_context {
  c_key_id : option Z;
  c_key_name : option string;
  c_scopes : option scopes_value;
  c_rate_limit : option Z }.

Definition no_context : context := mk_context None None None None.

Record request := mk_request {
  FullPath : string;
  Method : string;
  X_API_Key : string;
  Query_api_key : string }.

(** What a middleware decides: the rest of the chain runs, or the request is
    answered with a status code. *)
Inductive decision := Next (c : context) | Abort_ (status : Z).

(** ** Shared state *)

Record auth_state := mk_auth {
  s_cache : gmap string (APIKey * Z);
  s_ttl : Z;
  s_usage : gmap Z (Z * Z) }.

Definition defaultAPIKeyCacheTTL : Z := seconds 60.

Definition set_cache (m : gmap string (APIKey * Z)) (s : auth_state) : auth_state :=
  mk_auth m (s_ttl s) (s_usage s).

Definition SetAPIKeyCacheTTL (ttl : Z) (s : auth_state) : auth_state :=
  mk_auth (s_cache s) ttl (s_usage s).

Definition recordKeyUsage (now keyID : Z) (s : auth_state) : auth_state :=
  let u := default (0, 0) (s_usage s !! keyID) in
  mk_auth (s_cache s) (s_ttl s) (<[keyID := (now, u.2 + 1)]> (s_usage s)).

(** [flushPendingUsage]: the batch written to the database and the empty map. *)
Definition flushPendingUsage (have_db : bool) (s : auth_state)
    : list (Z * Z) * auth_state :=
  (if have_db then (λ '(id, (seen, _)), (id, seen)) <$> map_to_list (s_usage s) else [],
   mk_auth (s_cache s) (s_ttl s) ∅).

Section auth.
(** [hashAPIKey], and the key row with a given hash (or the query's error). *)
Context (hashAPIKey : string → string) (lookup_key : string → res APIKey).

Definition ValidateAPIKey (apiKey : string) : res APIKey := lookup_key (hashAPIKey apiKey).

Definition validateAPIKeyCached (now : Z) (apiKey : string) (s : auth_state)
    : res APIKey * auth_state :=
  let ttl := s_ttl s in
  let hashed := hashAPIKey apiKey in
  let slow s :=
    match ValidateAPIKey apiKey with
    | Err e => (Err e, s)
    | Ok key => (Ok key, if 0 <? ttl then set_cache (<[hashed := (key, now + ttl)]> (s_cache s)) s
                         else s)
    end in
  if 0 <? ttl then
    match s_cache s !! hashed with
    | Some (key, expiresAt) =>
        if now <? expiresAt then (Ok key, s) else slow (set_cache (delete hashed (s_cache s)) s)
    | None => slow s
    end
  else slow s.

Definition InvalidateAPIKeyCache (apiKey : string) (s : auth_state) : auth_state :=
  set_cache (delete (hashAPIKey apiKey) (s_cache s)) s.

Definition presented_key (r : request) : string :=
  if decide (X_API_Key r = "") then Query_api_key r else X_API_Key r.

Definition APIKeyAuth (now : Z) (r : request) (c : context) (s : auth_state)
    : decision * auth_state :=
  let apiKey := presented_key r in
  if decide (apiKey = "") then (Abort_ 401, s)
  else
    match validateAPIKeyCached now apiKey s with
    | (Err _, s) => (Abort_ 401, s)
    | (Ok key, s) =>
        if IsValid now key then
          (Next (mk_context (Some (k_ID key)) (Some (k_Name key)) (Some (ScopesArray (k_Scopes key)))
                   (Some (k_RateLimit key))),
           recordKeyUsage now (k_ID key) s)
        else (Abort_ 401, s)
    end.

(** ** Route classes *)

Definition isSensitiveAPIPath (r : request) : bool :=
  bool_decide (FullPath r ∈ ["/api/jira"; "/api/slackscan"]) ||
  (HasPrefix (FullPath r) "/api/patterns" && negb (bool_decide (Method r = "GET"))).

Definition isProtectedDataPath (r : request) : bool :=
  HasPrefix (FullPath r) "/api/results" || HasPrefix (FullPath r) "/api/secrets" ||
  HasPrefix (FullPath r) "/api/compare".

Definition APIKeyAuthSelective (enforceAll : bool) (now : Z) (r : request) (c : context)
    (s : auth_state) : decision * auth_state :=
  if enforceAll || isSensitiveAPIPath r || isProtectedDataPath r then APIKeyAuth now r c s
  else (Next c, s).

End auth.

(** ** Scopes *)

Definition comma : ascii := ",".

Definition normalizeScopes (raw : scopes_value) : list string :=
  match raw with
  | ScopesArray l => l
  | ScopesString v => if decide (v = "") then []
                      else filter (λ p, p ≠ "") (TrimSpace <$> Split v comma)
  | ScopesOther => []
  end.

Definition RequireScope (scope : string) (c : context) : decision :=
  if decide (scope = "") then Next c
  else match c_scopes c with
       | None => Abort_ 401
       | Some raw =>
           if existsb (λ s, bool_decide (s = "*") || bool_decide (s = scope)) (normalizeScopes raw)
           then Next c else Abort_ 403
       end.

Definition RequireScopeForSensitive (scope : string) (r : request) (c : context) : decision :=
  if isSensitiveAPIPath r then RequireScope scope c else Next c.

(** ** Rate limiting *)

Section rate.
(** A token bucket ([golang.org/x/time/rate]): creation from the refill interval
    and the burst, and one request against it. *)
Context {limiter : Type} (NewLimiter : Z → Z → limiter) (AllowReq : Z → limiter → bool * limiter).

(** The interval and the burst for a number of requests per hour. *)
Definition limiter_params (requestsPerHour : Z) : Z * Z :=
  let n := if requestsPerHour <=? 0 then 100 else requestsPerHour in
  (Z.quot (hours 1) n, n).

Definition GetLimiter (keyID requestsPerHour : Z) (m : gmap Z limiter) : limiter * gmap Z limiter :=
  match m !! keyID with
  | Some l => (l, m)
  | None => let '(every, burst) := limiter_params requestsPerHour in
            let l := NewLimiter every burst in (l, <[keyID := l]> m)
  end.

Definition RateLimitMiddleware (now : Z) (c : context) (m : gmap Z limiter)
    : decision * gmap Z limiter :=
  match c_key_id c with
  | None => (Next c, m)
  | Some keyID =>
      let '(l, m) := GetLimiter keyID (default 100 (c_rate_limit c)) m in
      let '(ok, l') := AllowReq now l in
      (if ok then Next c else Abort_ 429, <[keyID := l']> m)
  end.

End rate.

(** ** Facts *)

Section facts.
Context (hashAPIKey : string → string).

(** Scope enforcement.  A request passes the scope check exactly when no scope
    is required, or its key carries the wildcard or the required scope; an
    unauthenticated request is answered 401 and an underprivileged one 403. *)
Theorem RequireScope_spec scope c :
  RequireScope scope c =
  if decide (scope = "") then Next c
  else match c_scopes c with
       | None => Abort_ 401
       | Some raw => if decide ("*" ∈ normalizeScopes raw ∨ scope ∈ normalizeScopes raw)
                     then Next c else Abort_ 403
       end.
Proof.
  unfold RequireScope. case_decide; [done|]. destruct (c_scopes c) as [raw|]; [|done].
  assert (Hex : existsb (λ s, bool_decide (s = "*") || bool_decide (s = scope)) (normalizeScopes raw) = true
    ↔ "*" ∈ normalizeScopes raw ∨ scope ∈ normalizeScopes raw).
  { rewrite existsb_exists. setoid_rewrite orb_true_iff. setoid_rewrite bool_decide_eq_true.
    setoid_rewrite <- list_elem_of_In. naive_solver. }
  destruct (existsb _ _); case_decide; naive_solver.
Qed.

(** The key rows over time: the database as it is at each instant. *)
Context (history : Z → string → res APIKey).

(** Every cached row was in the database at most one lifetime before it expires. *)
Definition cache_ok (ttl now : Z) (s : auth_state) : Prop :=
  s_ttl s = ttl ∧
  ∀ h k e, s_cache s !! h = Some (k, e) → ∃ t, t ≤ now ∧ e = t + ttl ∧ history t h = Ok k.

Lemma cache_ok_later ttl now now' s : now ≤ now' → cache_ok ttl now s → cache_ok ttl now' s.
Proof.
  intros Hn [Ht Hs]. split; [done|]. intros h k e Hk. destruct (Hs h k e Hk) as (t & ?&?&?).
  exists t. split_and!; [lia|done..].
Qed.

Lemma validate_cached_ok ttl now apiKey s :
  cache_ok ttl now s →
  let '(r, s') := validateAPIKeyCached hashAPIKey (history now) now apiKey s in
  cache_ok ttl now s' ∧
  ∀ k, r = Ok k → ∃ t, now - Z.max 0 ttl ≤ t ≤ now ∧ history t (hashAPIKey apiKey) = Ok k.
Proof.
  intros [Ht Hs]. unfold validateAPIKeyCached, ValidateAPIKey. rewrite Ht.
  set (h := hashAPIKey apiKey).
  assert (Hslow : ∀ s0, s_ttl s0 = ttl →
    (∀ h k e, s_cache s0 !! h = Some (k, e) → ∃ t, t ≤ now ∧ e = t + ttl ∧ history t h = Ok k) →
    let '(r, s') := match history now h with
      | Ok key => (Ok key, if 0 <? ttl then set_cache (<[h := (key, now + ttl)]> (s_cache s0)) s0 else s0)
      | Err e => (Err e, s0) end in
    cache_ok ttl now s' ∧ ∀ k, r = Ok k → ∃ t, now - Z.max 0 ttl ≤ t ≤ now ∧ history t h = Ok k).
  { intros s0 Ht0 Hs0. destruct (history now h) as [key|e] eqn:Hh; (split; [|try done]).
    - destruct (0 <? ttl); [|done]. split; [done|]. cbn. intros h' k e Hk.
      destruct (decide (h' = h)) as [->|Hne].
      + rewrite lookup_insert_eq in Hk. simplify_eq. exists now. split_and!; [lia|done..].
      + rewrite lookup_insert_ne in Hk by done. eauto.
    - intros k [= <-]. exists now. split; [lia|done].
    - done. }
  destruct (Z.ltb_spec 0 ttl) as [Hpos|Hpos]; [|by apply Hslow].
  destruct (s_cache s !! h) as [[key e]|] eqn:Hc; [|by apply Hslow].
  destruct (Z.ltb_spec now e) as [He|He].
  - split; [done|]. intros k [= <-]. destruct (Hs h key e Hc) as (t & H1 & -> & H2).
    exists t. split; [lia|done].
  - apply Hslow; [done|]. cbn. intros h' k e' Hk. apply lookup_delete_Some in Hk as [_ Hk]. eauto.
Qed.

(** Requests served over time. *)
Inductive served (ttl : Z) : Z → auth_state → Prop :=
  | served_init s now : s_ttl s = ttl → s_cache s = ∅ → served ttl now s
  | served_request s now now' enforceAll r c :
      served ttl now s → now ≤ now' →
      served ttl now' (APIKeyAuthSelective hashAPIKey (history now') enforceAll now' r c s).2
  | served_evict s now now' apiKey :
      served ttl now s → now ≤ now' → served ttl now' (InvalidateAPIKeyCache hashAPIKey apiKey s)
  | served_flush s now now' b :
      served ttl now s → now ≤ now' → served ttl now' (flushPendingUsage b s).2.

Lemma served_cache_ok ttl now s : served ttl now s → cache_ok ttl now s.
Proof.
  induction 1 as [s now Ht Hc|s now now' b r c _ IH Hn|s now now' k _ IH Hn|s now now' b _ IH Hn].
  - split; [done|]. intros h k e Hk. by rewrite Hc, lookup_empty in Hk.
  - apply (cache_ok_later _ _ now') in IH; [|done].
    unfold APIKeyAuthSelective. destruct (b || _ || _); [|done]. unfold APIKeyAuth.
    case_decide; [done|].
    pose proof (validate_cached_ok ttl now' (presented_key r) s IH) as Hv.
    destruct (validateAPIKeyCached _ _ _ _ _) as [[k|e] s']; destruct Hv as [Hv _]; [|done].
    by destruct (IsValid now' k).
  - apply (cache_ok_later _ _ now') in IH; [|done]. destruct IH as [Ht Hs]. split; [done|].
    cbn. intros h k' e Hk. apply lookup_delete_Some in Hk as [_ Hk]. eauto.
  - by apply (cache_ok_later _ _ now') in IH.
Qed.

(** Protected routes fail closed, and revocation is bounded.  At any point of
    any history of requests, evictions and flushes, a request to a protected route
    (every route when authentication is global; the integration and
    pattern-mutation routes and everything that exposes findings otherwise) gets
    past the middleware only with a non-empty key whose row was in the database
    within the last cache lifetime, was active then and has not expired now, and
    the request carries that key's identity and scopes. *)
Theorem protected_routes_authenticated (ttl now0 now : Z) (s : auth_state) (enforceAll : bool)
    (r : request) (c c' : context) :
  served ttl now0 s → now0 ≤ now →
  enforceAll || isSensitiveAPIPath r || isProtectedDataPath r = true →
  (APIKeyAuthSelective hashAPIKey (history now) enforceAll now r c s).1 = Next c' →
  presented_key r ≠ "" ∧
  ∃ t k, now - Z.max 0 ttl ≤ t ≤ now ∧ history t (hashAPIKey (presented_key r)) = Ok k ∧
         k_IsActive k = true ∧ IsExpired now k = false ∧
         c_key_id c' = Some (k_ID k) ∧ c_scopes c' = Some (ScopesArray (k_Scopes k)).
Proof.
  intros Hs Hn Hp. apply served_cache_ok in Hs.
  apply (cache_ok_later _ _ now) in Hs; [|done].
  unfold APIKeyAuthSelective. rewrite Hp. unfold APIKeyAuth. case_decide as Hk; [done|].
  pose proof (validate_cached_ok ttl now (presented_key r) s Hs) as Hv.
  destruct (validateAPIKeyCached _ _ _ _ _) as [[k|e] s']; [|done].
  destruct Hv as [_ Hv]. destruct (Hv k eq_refl) as (t & Ht & Hh).
  destruct (IsValid now k) eqn:Hval; [|done]. cbn. intros [= <-].
  apply andb_true_iff in Hval as [Ha He%negb_true_iff].
  split; [done|]. exists t, k. split_and!; try done; lia.
Qed.

End facts.

(** The refill interval is positive.  For any configured limit, including zero
    and negative ones, of at most one request per nanosecond, the limiter is
    created with a positive interval and burst, so the division never traps. *)
Theorem limiter_params_positive n :
  n ≤ hours 1 → let '(every, burst) := limiter_params n in 0 < every ∧ 0 < burst.
Proof.
  intros Hn. unfold limiter_params. destruct (Z.leb_spec n 0); cbn [fst snd].
  - split; [by vm_compute|lia].
  - split; [|lia]. apply Z.quot_str_pos. lia.
Qed.

(** ** Instances *)

Definition row : APIKey := mk_key 7 "ci" ["scan"] 100 None true.

(** A key that is revoked at time 100. *)
Definition sample_history : Z → string → res APIKey := λ t h,
  if decide (h = "h:secret") then Ok (mk_key 7 "ci" ["scan"] 100 None (t <? 100))
  else Err (ESentinel ErrRecordNotFound).

Definition fresh_state : auth_state := mk_auth ∅ (seconds 60) ∅.

Lemma protected_routes_authenticated_witness :
  ∃ t k, 50 - Z.max 0 (seconds 60) ≤ t ≤ 50 ∧ sample_history t "h:secret" = Ok k ∧
         k_IsActive k = true.
Proof.
  destruct (protected_routes_authenticated (String.append "h:") sample_history (seconds 60) 0 50
    fresh_state false (mk_request "/api/results/:jobID" "GET" "secret" "") no_context
    (mk_context (Some 7) (Some "ci") (Some (ScopesArray ["scan"])) (Some 100))
    (served_init (String.append "h:") sample_history (seconds 60) fresh_state 0 eq_refl eq_refl)
    ltac:(done) ltac:(by vm_compute) ltac:(by vm_compute))
    as (_ & t & k & Ht & Hk & Ha & _).
  exists t, k. exact (conj Ht (conj Hk Ha)).
Defined.

Lemma limiter_params_positive_witness :
  let '(every, burst) := limiter_params 0 in 0 < every ∧ 0 < burst.
Proof. exact (limiter_params_positive 0 ltac:(done)). Defined.
