(* ===== verification/Compare.v ===== *)
(** * Comparison of two scans ([utils/comparison.go])

    The secrets of two stored results, keyed by value, file and line, and split
    into added, removed and unchanged.  The text of a result is decoded by
    [encoding/json], an argument here; the decoded values are modelled. *)
From Stdlib Require Import Ascii.
From S2P Require Import Prelude GoStr GoErr GoFloat GoJson.

Local Open Scope Z_scope.

(** ** Numbers *)

(** The integer a finite double rounds to, ties to even. *)
Definition nearest_even (m : positive) (e : Z) : Z :=
  if 0 <=? e then Z.pos m * 2 ^ e
  else
    let q := Z.pos m / 2 ^ (- e) in
    let r := Z.pos m mod 2 ^ (- e) in
    match 2 * r ?= 2 ^ (- e) with
    | Lt => q
    | Gt => q + 1
    | Eq => if Z.even q then q else q + 1
    end.

(** [fmt.Sprintf("%.0f", f)]: the sign is kept on a zero. *)
Definition sprintf_0f (f : spec_float) : string :=
  match f with
  | S754_zero s => (if s then "-" else "") +:+ "0"
  | S754_infinity s => (if s then "-" else "+") +:+ "Inf"
  | S754_nan => "NaN"
  | S754_finite s m e => (if s then "-" else "") +:+ itoa (nearest_even m e)
  end.

(** ** Secrets and keys *)

Definition extractSecrets (resultData : object) : list object :=
  match get resultData "data" with
  | JObject data =>
      match get data "secrets" with
      | JArray secrets => omap (λ v, match v with JObject m => Some m | _ => None end) secrets
      | _ => []
      end
  | _ => []
  end.

Definition string_of (v : json) : string := match v with JString s => s | _ => "" end.

Definition line_of (v : json) : string :=
  match v with JString s => s | JNumber f => sprintf_0f f | _ => "" end.

Definition getSecretKey (secret : object) : string :=
  string_of (get secret "secretString") +:+ "|" +:+ string_of (get secret "fileLocation")
  +:+ "|" +:+ line_of (get secret "lineNo").

(** ** The comparison *)

Record ComparisonResult := mk_cmp {
  JobID1 : string; JobID2 : string;
  Added : list object; Removed : list object; Unchanged : list object;
  TotalJob1 : Z; TotalJob2 : Z;
  AddedCount : Z; RemovedCount : Z; UnchangedCount : Z }.

Definition zlen {A} (l : list A) : Z := Z.of_nat (length l).

(** [idx]: the set of the keys of a scan's secrets. *)
Definition index (secrets : list object) : gset string := list_to_set (getSecretKey <$> secrets).

(** The two loops on the secrets: not in the other index, and in it. *)
Definition missing_from (idx : gset string) (l : list object) : list object :=
  filter (λ s, getSecretKey s ∉ idx) l.
Definition present_in (idx : gset string) (l : list object) : list object :=
  filter (λ s, getSecretKey s ∈ idx) l.

Definition compare_secrets (id1 id2 : string) (secrets1 secrets2 : list object) : ComparisonResult :=
  let added := missing_from (index secrets1) secrets2 in
  let removed := missing_from (index secrets2) secrets1 in
  let unchanged := present_in (index secrets2) secrets1 in
  mk_cmp id1 id2 added removed unchanged (zlen secrets1) (zlen secrets2)
    (zlen added) (zlen removed) (zlen unchanged).

(** A job is its id and the text of its result; [Unmarshal] decodes an object, or
    fails with a message. *)
Definition CompareScans (Unmarshal : string → res object) (job1 job2 : string * string)
    : res ComparisonResult :=
  match Unmarshal job1.2 with
  | Err e => Err (ENew ("failed to parse job1 result: " +:+ Error e))
  | Ok data1 =>
      match Unmarshal job2.2 with
      | Err e => Err (ENew ("failed to parse job2 result: " +:+ Error e))
      | Ok data2 => Ok (compare_secrets job1.1 job2.1 (extractSecrets data1) (extractSecrets data2))
      end
  end.

(** ** Facts *)

Lemma elem_of_index k l : k ∈ index l ↔ ∃ s, s ∈ l ∧ getSecretKey s = k.
Proof.
  unfold index. rewrite elem_of_list_to_set, list_elem_of_fmap. naive_solver.
Qed.

Lemma partition_perm idx l : present_in idx l ++ missing_from idx l ≡ₚ l.
Proof.
  induction l as [|s l IH]; [done|]. unfold present_in, missing_from in *. rewrite !filter_cons.
  destruct (decide (getSecretKey s ∈ idx)) as [H|H].
  - rewrite decide_False by (intros Hn; contradiction). cbn. by rewrite IH.
  - rewrite decide_True by done. by rewrite <- Permutation_middle, IH.
Qed.

(** The split of a comparison, stated without the indexes: a secret is matched
    when the other scan has a secret with its key. *)
Definition matched (l : list object) (s : object) : Prop :=
  ∃ s', s' ∈ l ∧ getSecretKey s' = getSecretKey s.

(** A comparison classifies every finding.  A comparison that succeeds reports
    as added exactly the findings of the second scan with no counterpart in the
    first, as removed and unchanged exactly those of the first without and with a
    counterpart in the second; removed and unchanged together are a permutation of
    the first scan, nothing is lost or duplicated, and the counts agree. *)
Theorem CompareScans_classifies (Unmarshal : string → res object) (job1 job2 : string * string) r :
  CompareScans Unmarshal job1 job2 = Ok r →
  ∃ d1 d2, Unmarshal job1.2 = Ok d1 ∧ Unmarshal job2.2 = Ok d2 ∧
  let s1 := extractSecrets d1 in let s2 := extractSecrets d2 in
  (∀ s, s ∈ Added r ↔ s ∈ s2 ∧ ¬ matched s1 s) ∧
  (∀ s, s ∈ Removed r ↔ s ∈ s1 ∧ ¬ matched s2 s) ∧
  (∀ s, s ∈ Unchanged r ↔ s ∈ s1 ∧ matched s2 s) ∧
  Unchanged r ++ Removed r ≡ₚ s1 ∧ Added r `sublist_of` s2 ∧
  RemovedCount r + UnchangedCount r = TotalJob1 r ∧ AddedCount r ≤ TotalJob2 r.
Proof.
  unfold CompareScans. destruct (Unmarshal job1.2) as [d1|] eqn:E1; [|done].
  destruct (Unmarshal job2.2) as [d2|] eqn:E2; [|done]. intros [= <-].
  exists d1, d2. split; [done|]. split; [done|]. cbn zeta.
  cbn [Added Removed Unchanged RemovedCount UnchangedCount TotalJob1 AddedCount TotalJob2
       compare_secrets].
  pose proof (partition_perm (index (extractSecrets d2)) (extractSecrets d1)) as Hp.
  assert (Hs : missing_from (index (extractSecrets d1)) (extractSecrets d2)
               `sublist_of` extractSecrets d2) by apply sublist_filter.
  assert (Hm : ∀ l s, getSecretKey s ∈ index l ↔ matched l s) by (intros; apply elem_of_index).
  split_and!; try done.
  - intros s. unfold missing_from. rewrite list_elem_of_filter, Hm. tauto.
  - intros s. unfold missing_from. rewrite list_elem_of_filter, Hm. tauto.
  - intros s. unfold present_in. rewrite list_elem_of_filter, Hm. tauto.
  - apply Permutation_length in Hp. rewrite length_app in Hp. unfold zlen. lia.
  - apply sublist_length in Hs. unfold zlen. lia.
Qed.

(** A scan compared with itself reports no change. *)
Lemma compare_same id1 id2 l :
  Added (compare_secrets id1 id2 l l) = [] ∧ Removed (compare_secrets id1 id2 l l) = [].
Proof.
  cbn. split; unfold missing_from;
    (apply elem_of_nil_inv; intros s [Hn Hs]%list_elem_of_filter;
     apply Hn, elem_of_index; eauto).
Qed.

(** ** Instances *)

Definition finding (value file : string) (line : Z) : object :=
  [("secretString", JString value); ("fileLocation", JString file);
   ("lineNo", JNumber (float_of_Z line))].

Definition result_with (secrets : list object) : object :=
  [("data", JObject [("secrets", JArray (JObject <$> secrets))])].

(** The key separator is not escaped: two findings of different values in
    different files are the same finding to the comparison. *)
Theorem getSecretKey_not_injective :
  getSecretKey (finding "tok" "a|b.txt" 3) = getSecretKey (finding "tok|a" "b.txt" 3).
Proof. by vm_compute. Qed.

Definition decode_sample (s : string) : res object :=
  if decide (s = "old") then Ok (result_with [finding "k1" "f" 1; finding "k2" "f" 2])
  else if decide (s = "new") then Ok (result_with [finding "k2" "f" 2; finding "k3" "g" 12])
  else Err (ENew "invalid character").

Lemma CompareScans_classifies_witness :
  ∃ d1 d2, decode_sample "old" = Ok d1 ∧ decode_sample "new" = Ok d2 ∧
  ¬ matched (extractSecrets d1) (finding "k3" "g" 12).
Proof.
  destruct (CompareScans_classifies decode_sample ("1", "old") ("2", "new")
    (compare_secrets "1" "2" [finding "k1" "f" 1; finding "k2" "f" 2]
       [finding "k2" "f" 2; finding "k3" "g" 12]) ltac:(by vm_compute))
    as (d1 & d2 & H1 & H2 & Ha & _).
  exists d1, d2. split; [exact H1|]. split; [exact H2|].
  refine (proj2 (proj1 (Ha (finding "k3" "g" 12)) _)). apply list_elem_of_here.
Defined.
