(* ===== verification/Sbom.v ===== *)
(** * Components of the bill of materials ([models/SBOMComponent.go], [models/PurlMap.go])

    The evidence graph of a component and its constructors, and the curated map
    from library names to package URLs. *)
From Stdlib Require Import Ascii ZArith.
From S2P Require Import Prelude GoStr GoErr GoFloat.

Local Open Scope Z_scope.

(** ** Package URLs *)

Record purlEntry := mk_purl {
  cocoapods : string; swiftHost : string; mavenGroup : string; mavenArtifact : string }.

Definition purlTable : gmap string purlEntry := list_to_map
  [("Alamofire", mk_purl "Alamofire" "github.com/Alamofire/Alamofire" "" "");
   ("AFNetworking", mk_purl "AFNetworking" "github.com/AFNetworking/AFNetworking" "" "");
   ("SDWebImage", mk_purl "SDWebImage" "github.com/SDWebImage/SDWebImage" "" "");
   ("Kingfisher", mk_purl "Kingfisher" "github.com/onevcat/Kingfisher" "" "");
   ("RxSwift", mk_purl "RxSwift" "github.com/ReactiveX/RxSwift" "" "");
   ("RxCocoa", mk_purl "RxCocoa" "github.com/ReactiveX/RxSwift" "" "");
   ("SnapKit", mk_purl "SnapKit" "github.com/SnapKit/SnapKit" "" "");
   ("Lottie", mk_purl "lottie-ios" "github.com/airbnb/lottie-ios" "" "");
   ("lottie-ios", mk_purl "lottie-ios" "github.com/airbnb/lottie-ios" "" "");
   ("Realm", mk_purl "Realm" "github.com/realm/realm-swift" "" "");
   ("RealmSwift", mk_purl "RealmSwift" "github.com/realm/realm-swift" "" "");
   ("FirebaseCore", mk_purl "FirebaseCore" "github.com/firebase/firebase-ios-sdk" "" "");
   ("FirebaseAnalytics", mk_purl "FirebaseAnalytics" "github.com/firebase/firebase-ios-sdk" "" "");
   ("FirebaseCrashlytics", mk_purl "FirebaseCrashlytics" "github.com/firebase/firebase-ios-sdk" "" "");
   ("GoogleUtilities", mk_purl "GoogleUtilities" "github.com/google/GoogleUtilities" "" "");
   ("GTMSessionFetcher", mk_purl "GTMSessionFetcher" "github.com/google/gtm-session-fetcher" "" "");
   ("FBSDKCoreKit", mk_purl "FBSDKCoreKit" "github.com/facebook/facebook-ios-sdk" "" "");
   ("Crashlytics", mk_purl "Crashlytics" "" "" "");
   ("Parse", mk_purl "Parse" "github.com/parse-community/Parse-SDK-iOS-OSX" "" "");
   ("Bolts", mk_purl "Bolts" "" "" "");
   ("Flurry_iOS_SDK", mk_purl "Flurry-iOS-SDK" "" "" "");
   ("Flurry-iOS-SDK", mk_purl "Flurry-iOS-SDK" "" "" "");
   ("Sentry", mk_purl "Sentry" "github.com/getsentry/sentry-cocoa" "" "");
   ("Nimble", mk_purl "Nimble" "github.com/Quick/Nimble" "" "");
   ("Quick", mk_purl "Quick" "github.com/Quick/Quick" "" "");
   ("Moya", mk_purl "Moya" "github.com/Moya/Moya" "" "");
   ("SwiftyJSON", mk_purl "SwiftyJSON" "github.com/SwiftyJSON/SwiftyJSON" "" "");
   ("Charts", mk_purl "Charts" "github.com/danielgindi/Charts" "" "");
   ("firebase-core", mk_purl "" "" "com.google.firebase" "firebase-core");
   ("firebase-analytics", mk_purl "" "" "com.google.firebase" "firebase-analytics");
   ("firebase-crashlytics", mk_purl "" "" "com.google.firebase" "firebase-crashlytics");
   ("firebase-messaging", mk_purl "" "" "com.google.firebase" "firebase-messaging");
   ("firebase-bom", mk_purl "" "" "com.google.firebase" "firebase-bom");
   ("okhttp", mk_purl "" "" "com.squareup.okhttp3" "okhttp");
   ("retrofit", mk_purl "" "" "com.squareup.retrofit2" "retrofit");
   ("gson", mk_purl "" "" "com.google.code.gson" "gson");
   ("glide", mk_purl "" "" "com.github.bumptech.glide" "glide")].

Definition FirebaseCocoaPodsPurl : string := "pkg:cocoapods/Firebase".
Definition FirebaseMavenBOMPurl : string := "pkg:maven/com.google.firebase/firebase-bom".

Definition bundleIDIsCocoaPods (bundleID : string) : bool := HasPrefix bundleID "org.cocoapods.".

(** [@version], when there is one. *)
Definition versioned (purl version : string) : string :=
  if decide (version = "") then purl else purl +:+ "@" +:+ version.

Definition cocoaPodsPurl (pod version : string) : string := versioned ("pkg:cocoapods/" +:+ pod) version.
Definition swiftPurl (host version : string) : string := versioned ("pkg:swift/" +:+ host) version.
Definition mavenPurl (group artifact version : string) : string :=
  versioned ("pkg:maven/" +:+ group +:+ "/" +:+ artifact) version.

(** [(purl, group, matched)] *)
Definition PurlFor (name bundleID version : string) : string * string * bool :=
  if decide (name = "") then ("", "", false)
  else match purlTable !! name with
  | None => ("", "", false)
  | Some entry =>
      if negb (bool_decide (mavenArtifact entry = "")) && negb (bool_decide (mavenGroup entry = ""))
      then (mavenPurl (mavenGroup entry) (mavenArtifact entry) version, mavenGroup entry, true)
      else
        let cocoaPodsHinted := bundleIDIsCocoaPods bundleID in
        if negb (bool_decide (cocoapods entry = "")) &&
           (cocoaPodsHinted || bool_decide (swiftHost entry = ""))
        then (cocoaPodsPurl (cocoapods entry) version, "", true)
        else if negb (bool_decide (swiftHost entry = ""))
        then (swiftPurl (swiftHost entry) version, "", true)
        else ("", "", false)
  end.

Definition genericPurl (name version : string) : string :=
  if decide (name = "") then "" else versioned ("pkg:generic/" +:+ name) version.

(** ** Components *)

Record SBOMHash := mk_hash { Alg : string; Content : string }.
Record SBOMMethod := mk_method { Technique : string; m_Confidence : spec_float; Value : string }.
Record SBOMIdentity := mk_identity {
  Field : string; Confidence : spec_float; ConcludedValue : string; Methods : list SBOMMethod }.

(** The occurrences of the evidence are their locations. *)
Record SBOMComponent := mk_component {
  comp_Type : string; Name : string; Version : string; BomRef : string; Purl : string;
  Hashes : list SBOMHash; Group : string; Scope : string;
  Identity : list SBOMIdentity; Occurrences : list string }.

Definition ConfidenceHigh : spec_float := float_lit 9 10.
Definition ConfidenceMedium : spec_float := float_lit 6 10.
Definition ConfidenceLow : spec_float := float_lit 35 100.

Definition TechniqueBinaryAnalysis : string := "binary-analysis".
Definition TechniqueManifestAnalysis : string := "manifest-analysis".
Definition TechniqueASTFingerprint : string := "ast-fingerprint".
Definition TechniqueHashComparison : string := "hash-comparison".
Definition TechniqueFilename : string := "filename".

(** An identity backed by one method with the same confidence and value. *)
Definition one_method (field : string) (confidence : spec_float) (value technique : string) : SBOMIdentity :=
  mk_identity field confidence value [mk_method technique confidence value].

Definition occurrence (path : string) : list string := if decide (path = "") then [] else [path].
Definition nonempty_paths (l : list string) : list string := filter (λ p, p ≠ "") l.

Definition NewFrameworkComponent (name version bundleID path : string) : SBOMComponent :=
  let identity :=
    if decide (version = "") then [one_method "name" ConfidenceLow name TechniqueFilename]
    else [one_method "name" ConfidenceMedium name TechniqueManifestAnalysis;
          one_method "version" ConfidenceMedium version TechniqueManifestAnalysis] in
  let '(purl, group, matched) := PurlFor name bundleID version in
  if (matched : bool) then
    let technique := if bundleIDIsCocoaPods bundleID then TechniqueManifestAnalysis
                     else TechniqueASTFingerprint in
    mk_component "framework" name version ("framework:" +:+ name) purl [] group ""
      (identity ++ [one_method "purl" ConfidenceMedium purl technique]) (occurrence path)
  else mk_component "framework" name version ("framework:" +:+ name) (genericPurl name version) [] "" ""
         identity (occurrence path).

Definition NewDylibComponent (name path : string) : SBOMComponent :=
  mk_component "library" name "" ("dylib:" +:+ name) (genericPurl name "") [] "" ""
    [one_method "name" ConfidenceLow name TechniqueFilename] (occurrence path).

Definition NewNativeLibComponent (name : string) (abis : list string) (sha256 : string) : SBOMComponent :=
  mk_component "library" name "" ("native:" +:+ name) (genericPurl name "")
    (if decide (sha256 = "") then [] else [mk_hash "SHA-256" sha256]) "" ""
    (one_method "name" ConfidenceMedium name TechniqueFilename ::
     if decide (sha256 = "") then []
     else [one_method "hash" ConfidenceHigh sha256 TechniqueHashComparison])
    ((λ abi, "lib/" +:+ abi +:+ "/" +:+ name) <$> nonempty_paths abis).

Definition NewRuntimeComponent (name : string) (evidencePaths : list string) : SBOMComponent :=
  mk_component "framework" name "" ("runtime:" +:+ name) (genericPurl name "") [] "" ""
    [one_method "name" ConfidenceLow name TechniqueFilename] (nonempty_paths evidencePaths).

Definition FirebaseSourceAndroid : string := "android".
Definition FirebaseSourceIOS : string := "ios".

Definition firebaseRef (projectID : string) : string :=
  if decide (projectID = "") then "Firebase" else projectID.

Definition NewFirebaseComponent (projectID : string) (sdks : list string) (source evidencePath : string)
    : SBOMComponent :=
  let name := if decide (projectID = "") then "Firebase" else "Firebase (" +:+ projectID +:+ ")" in
  let '(purl, group) := if decide (source = FirebaseSourceAndroid)
    then (FirebaseMavenBOMPurl, "com.google.firebase") else (FirebaseCocoaPodsPurl, "") in
  let group := if Nat.ltb 0 (length sdks) && bool_decide (group = "")
               then "sdks: " +:+ Join sdks ", " else group in
  let concluded := if decide (projectID = "") then purl
                   else purl +:+ " (projectID=" +:+ projectID +:+ ")" in
  mk_component "library" name "" ("firebase:" +:+ firebaseRef projectID) purl [] group ""
    [mk_identity "purl" ConfidenceMedium concluded
       [mk_method TechniqueManifestAnalysis ConfidenceMedium purl]] (occurrence evidencePath).

Definition NewImportedLibraryComponent (name path : string) : SBOMComponent :=
  let '(purl, group, matched) := PurlFor name "" "" in
  mk_component "library" name "" ("import:" +:+ name)
    (if (matched : bool) then purl else genericPurl name "") []
    (if (matched : bool) then group else "") ""
    [one_method "name" ConfidenceLow name TechniqueBinaryAnalysis] (occurrence path).

(** ** Reading a package URL back *)

(** The part before the last [c] and the part after it. *)
Definition cut_last (s : string) (c : ascii) : string * string :=
  match LastIndexByte s c with
  | None => (s, "")
  | Some i => (take_str i s, drop_str (S i) s)
  end.

(** pkg:type/namespace/.../name@version: type, namespace, name and version. *)
Definition parse_purl (s : string) : option (string * list string * string * string) :=
  rest ← strip_prefix "pkg:" s;
  let '(path, version) := cut_last rest "@"%char in
  match Split path "/"%char with
  | ty :: segs => match rev segs with
                  | nm :: ns => Some (ty, rev ns, nm, version)
                  | [] => None
                  end
  | [] => None
  end.

Definition no_at (s : string) : Prop := LastIndexByte s "@"%char = None.

Lemma cut_last_versioned base v : no_at base → no_at v → cut_last (versioned base v) "@"%char = (base, v).
Proof.
  intros Hb Hv. unfold cut_last, versioned. case_decide as H.
  - subst v. by rewrite Hb.
  - change ("@" +:+ v) with (String "@"%char v). rewrite (LastIndexByte_app _ _ _ Hv), take_str_app.
    f_equal. clear Hb. induction base as [|x base IH]; [by destruct v|exact IH].
Qed.

Lemma parse_versioned base v ty ns nm v0 : no_at base → no_at v →
  parse_purl base = Some (ty, ns, nm, v0) → parse_purl (versioned base v) = Some (ty, ns, nm, v).
Proof.
  intros Hb Hv. unfold parse_purl.
  destruct (strip_prefix "pkg:" base) as [rest|] eqn:E; [|done].
  apply strip_prefix_Some in E as ->.
  assert (versioned ("pkg:" +:+ rest) v = "pkg:" +:+ versioned rest v) as ->.
  { unfold versioned. case_decide; [done|]. by rewrite string_app_assoc. }
  rewrite strip_prefix_app. cbn [mbind option_bind].
  assert (Hr : no_at rest).
  { unfold no_at in *. cbn in Hb. by destruct (LastIndexByte rest "@"%char). }
  rewrite cut_last_versioned by done. unfold cut_last. rewrite Hr.
  destruct (Split rest "/"%char) as [|ty' segs]; [done|]. by destruct (rev segs); intros [= <- <- <- <-].
Qed.

(** The coordinate an entry gives, with or without a CocoaPods hint. *)
Definition coordinate (entry : purlEntry) (hinted : bool) : option (string * string) :=
  if negb (bool_decide (mavenArtifact entry = "")) && negb (bool_decide (mavenGroup entry = ""))
  then Some ("pkg:maven/" +:+ mavenGroup entry +:+ "/" +:+ mavenArtifact entry, mavenGroup entry)
  else if negb (bool_decide (cocoapods entry = "")) && (hinted || bool_decide (swiftHost entry = ""))
  then Some ("pkg:cocoapods/" +:+ cocoapods entry, "")
  else if negb (bool_decide (swiftHost entry = "")) then Some ("pkg:swift/" +:+ swiftHost entry, "")
  else None.

Lemma PurlFor_coordinate name bundleID version :
  PurlFor name bundleID version =
  match purlTable !! name with
  | None => ("", "", false)
  | Some e => match coordinate e (bundleIDIsCocoaPods bundleID) with
              | Some (base, group) => (versioned base version, group, true)
              | None => ("", "", false)
              end
  end.
Proof.
  unfold PurlFor, coordinate. case_decide as H; [by subst|].
  destruct (purlTable !! name) as [e|]; [|done]. by repeat case_match; simplify_eq.
Qed.

(** The shape the registries require of a coordinate. *)
Definition shape_ok (ty : string) (ns : list string) (nm group : string) : Prop :=
  nm ≠ "" ∧
  (ty = "cocoapods" ∧ ns = [] ∧ group = "" ∨
   ty = "swift" ∧ head ns = Some "github.com" ∧ length ns = 2%nat ∧ group = "" ∨
   ty = "maven" ∧ ns = [group] ∧ group ≠ "").
#[local] Instance shape_ok_dec ty ns nm group : Decision (shape_ok ty ns nm group).
Proof. unfold shape_ok. apply _. Defined.

Definition coordinate_ok (c : option (string * string)) : Prop :=
  match c with
  | Some (base, group) => no_at base ∧
      match parse_purl base with Some (ty, ns, nm, _) => shape_ok ty ns nm group | None => False end
  | None => False
  end.
#[local] Instance coordinate_ok_dec c : Decision (coordinate_ok c).
Proof.
  unfold coordinate_ok, no_at. destruct c as [[base group]|]; [|apply _].
  destruct (parse_purl base) as [[[[ty ns] nm] v]|]; apply _.
Defined.

Lemma table_ok name e hinted : purlTable !! name = Some e → coordinate_ok (coordinate e hinted).
Proof.
  intros H.
  assert (Hall : map_Forall (λ _ e, coordinate_ok (coordinate e true) ∧ coordinate_ok (coordinate e false)) purlTable).
  { apply (bool_decide_unpack _). by vm_compute. }
  destruct (Hall name e H). by destruct hinted.
Qed.

(** Package URLs are never made up and always resolvable in form.  A match is
    reported exactly for the names of the curated table; without one nothing is
    returned; and a matched URL reads back as a coordinate with the shape its
    registry requires (no namespace for CocoaPods, a host and an organisation for
    Swift, the group for Maven, which is also the group returned), with the
    version that was given. *)
Theorem PurlFor_resolvable (name bundleID version : string) :
  no_at version →
  let '(purl, group, matched) := PurlFor name bundleID version in
  (matched = true ↔ is_Some (purlTable !! name)) ∧
  (matched = false → purl = "" ∧ group = "") ∧
  (matched = true → ∃ ty ns nm, parse_purl purl = Some (ty, ns, nm, version) ∧ shape_ok ty ns nm group).
Proof.
  intros Hv. rewrite PurlFor_coordinate. destruct (purlTable !! name) as [e|] eqn:E.
  - pose proof (table_ok name e (bundleIDIsCocoaPods bundleID) E) as H.
    destruct (coordinate e _) as [[base group]|]; [|done]. destruct H as [Hb H].
    destruct (parse_purl base) as [[[[ty ns] nm] v]|] eqn:Ep; [|done].
    split_and!; [done|done|]. intros _. exists ty, ns, nm. split; [|done]. by eapply parse_versioned.
  - split_and!; [|done|done]. split; [done|]. by intros [? ?].
Qed.

Lemma PurlFor_resolvable_witness :
  no_at "5.4.0" ∧ parse_purl (PurlFor "Lottie" "" "5.4.0").1.1 =
    Some ("swift", ["github.com"; "airbnb"], "lottie-ios", "5.4.0") ∧
  is_Some (purlTable !! "Lottie").
Proof.
  split; [done|]. split; [by vm_compute|].
  exact (proj1 (proj1 (PurlFor_resolvable "Lottie" "" "5.4.0" eq_refl)) eq_refl).
Defined.

(** The generic fallback does not escape its parts: two different observations can
    get the same package URL. *)
Theorem genericPurl_ambiguous : genericPurl "libfoo@2" "" = genericPurl "libfoo" "2".
Proof. reflexivity. Qed.

(** ** What a component claims *)

(** The observations components are made from. *)
Inductive observation :=
  | ObsFramework (name version bundleID path : string)
  | ObsDylib (name path : string)
  | ObsNativeLib (name : string) (abis : list string) (sha256 : string)
  | ObsRuntime (name : string) (paths : list string)
  | ObsFirebase (projectID : string) (sdks : list string) (source path : string)
  | ObsImport (name path : string).

Definition component_of (o : observation) : SBOMComponent :=
  match o with
  | ObsFramework n v b p => NewFrameworkComponent n v b p
  | ObsDylib n p => NewDylibComponent n p
  | ObsNativeLib n a h => NewNativeLibComponent n a h
  | ObsRuntime n ps => NewRuntimeComponent n ps
  | ObsFirebase pr s src p => NewFirebaseComponent pr s src p
  | ObsImport n p => NewImportedLibraryComponent n p
  end.

(** The kind of an observation and the identifier it is known by. *)
Definition obs_key (o : observation) : nat * string :=
  match o with
  | ObsFramework n _ _ _ => (0%nat, n)
  | ObsDylib n _ => (1%nat, n)
  | ObsNativeLib n _ _ => (2%nat, n)
  | ObsRuntime n _ => (3%nat, n)
  | ObsFirebase pr _ _ _ => (4%nat, firebaseRef pr)
  | ObsImport n _ => (5%nat, n)
  end.

(** An identity states something the component really has, with a confidence no
    higher than its technique allows: high only for a digest, medium only for a
    manifest field, a native library's name or a curated coordinate. *)
Definition identity_ok (c : SBOMComponent) (i : SBOMIdentity) : Prop :=
  (∃ technique v, Methods i = [mk_method technique (Confidence i) v]) ∧
  ((Field i = "name" ∧ ConcludedValue i = Name c ∧
      (Confidence i = ConfidenceLow ∨ Confidence i = ConfidenceMedium)) ∨
   (Field i = "version" ∧ ConcludedValue i = Version c ∧ Version c ≠ "" ∧ Confidence i = ConfidenceMedium) ∨
   (Field i = "hash" ∧ mk_hash "SHA-256" (ConcludedValue i) ∈ Hashes c ∧ Confidence i = ConfidenceHigh) ∨
   (Field i = "purl" ∧ HasPrefix (ConcludedValue i) (Purl c) = true ∧ Confidence i = ConfidenceMedium)).

(** The package URL is the generic one of the name and version, or a curated
    coordinate, or one of the two Firebase umbrellas. *)
Definition purl_ok (c : SBOMComponent) : Prop :=
  Purl c = genericPurl (Name c) (Version c) ∨
  (∃ hint, PurlFor (Name c) hint (Version c) = (Purl c, Group c, true)) ∨
  Purl c ∈ [FirebaseCocoaPodsPurl; FirebaseMavenBOMPurl].

Lemma HasPrefix_refl s : HasPrefix s s = true.
Proof. apply HasPrefix_spec. exists "". by rewrite string_app_nil_r. Qed.

(** [set_solver]-free membership in short lists of identities. *)
Ltac each_identity :=
  repeat match goal with
  | H : _ ∈ _ ++ _ |- _ => apply elem_of_app in H as [H|H]
  | H : _ ∈ _ :: _ |- _ => apply elem_of_cons in H as [->|H]
  | H : _ ∈ [] |- _ => by apply elem_of_nil in H
  end.

Lemma identities_ok o i : i ∈ Identity (component_of o) → identity_ok (component_of o) i.
Proof.
  destruct o as [n v b p|n p|n abis h|n ps|pr sdks src p|n p]; cbn [component_of].
  - unfold NewFrameworkComponent. destruct (PurlFor n b v) as [[purl group] []] eqn:E; cbn [Identity];
      case_decide as Hv; intros Hi; each_identity; (split; [by eexists _, _|]); cbn;
      rewrite ?HasPrefix_refl; naive_solver.
  - intros Hi; cbn in Hi; each_identity. split; [by eexists _, _|]. left. cbn. auto.
  - unfold NewNativeLibComponent. cbn [Identity]. case_decide as Hh; intros Hi; each_identity;
      (split; [by eexists _, _|]); cbn; [by auto..|]. right; right; left. rewrite list_elem_of_singleton. auto.
  - intros Hi; cbn in Hi; each_identity. split; [by eexists _, _|]. left. cbn. auto.
  - unfold NewFirebaseComponent. destruct (decide (src = FirebaseSourceAndroid)); cbn [Identity]; intros Hi;
      each_identity; (split; [by eexists _, _|]); right; right; right; cbn -[HasPrefix];
      (split; [done|]); case_decide; rewrite ?HasPrefix_refl, ?HasPrefix_app; auto.
  - unfold NewImportedLibraryComponent. destruct (PurlFor n "" "") as [[purl group] []]; cbn [Identity];
      intros Hi; each_identity; (split; [by eexists _, _|]); left; cbn; auto.
Qed.

Lemma purls_ok o : purl_ok (component_of o).
Proof.
  destruct o as [n v b p|n p|n abis h|n ps|pr sdks src p|n p]; unfold purl_ok; cbn [component_of].
  - unfold NewFrameworkComponent. destruct (PurlFor n b v) as [[purl group] []] eqn:E; cbn; [|by left].
    right; left. by exists b.
  - by left.
  - by left.
  - by left.
  - right; right. unfold NewFirebaseComponent. case_decide; cbn [Purl]; [right; left|left].
  - unfold NewImportedLibraryComponent. destruct (PurlFor n "" "") as [[purl group] []] eqn:E; cbn; [|by left].
    right; left. by exists "".
Qed.

Lemma occurrence_nonempty p x : x ∈ occurrence p → x ≠ "".
Proof. unfold occurrence. case_decide; [by intros ?%elem_of_nil|]. by intros ->%list_elem_of_singleton. Qed.

Lemma occurrences_nonempty o x : x ∈ Occurrences (component_of o) → x ≠ "".
Proof.
  destruct o as [n v b p|n p|n abis h|n ps|pr sdks src p|n p]; cbn [component_of].
  - unfold NewFrameworkComponent. destruct (PurlFor n b v) as [[purl group] []]; apply occurrence_nonempty.
  - apply occurrence_nonempty.
  - cbn. by intros (abi & -> & _)%list_elem_of_fmap.
  - cbn. by intros [? _]%list_elem_of_filter.
  - unfold NewFirebaseComponent. destruct (decide (src = FirebaseSourceAndroid)); apply occurrence_nonempty.
  - unfold NewImportedLibraryComponent. destruct (PurlFor n "" "") as [[purl group] []]; apply occurrence_nonempty.
Qed.

Lemma BomRef_key o : BomRef (component_of o) =
  match obs_key o with
  | (0%nat, n) => "framework:" +:+ n | (1%nat, n) => "dylib:" +:+ n | (2%nat, n) => "native:" +:+ n
  | (3%nat, n) => "runtime:" +:+ n | (4%nat, n) => "firebase:" +:+ n | (_, n) => "import:" +:+ n
  end.
Proof.
  destruct o as [n v b p|n p|n abis h|n ps|pr sdks src p|n p]; cbn [component_of obs_key]; try done.
  - unfold NewFrameworkComponent. by destruct (PurlFor n b v) as [[purl group] []].
  - unfold NewFirebaseComponent. by destruct (decide (src = FirebaseSourceAndroid)).
  - unfold NewImportedLibraryComponent. by destruct (PurlFor n "" "") as [[purl group] []].
Qed.

