(* ===== verification/Sigv4.v ===== *)
(** * Request signing ([storage/sigv4.go])

    AWS Signature Version 4 in the Authorization header.  The digests are
    parameters; header names are kept in lower case, in which they are signed and
    in which they are equal. *)
From Stdlib Require Import Ascii ZArith.
From S2P Require Import Prelude GoStr GoTime GoUrl Sbom.

Local Open Scope Z_scope.

(** SHA-256 in lower-case hexadecimal and HMAC-SHA-256 in bytes. *)
Class Digests := {
  sha256Hex : string → string;
  hmacSHA256 : string → string → string }.

(** [hex.EncodeToString] *)
Definition lower_hex (d : Z) : ascii := byte_of (if d <? 10 then 48 + d else 87 + d).
Definition hex_encode : string → string :=
  escape_with (λ c, String (lower_hex (byte c / 16)) (String (lower_hex (byte c mod 16)) "")).

(** A request: [Header] and [URL.Query()] are multimaps. *)
Record http_request := mk_http {
  Method : string; Host : string; URL_Host : string; URL_Path : string;
  Query : gmap string (list string); Header : gmap string (list string) }.

Definition Header_Set (k v : string) (r : http_request) : http_request :=
  mk_http (Method r) (Host r) (URL_Host r) (URL_Path r) (Query r) (<[k := [v]]> (Header r)).

Record credentials := mk_creds { AccessKeyID : string; SecretAccessKey : string; SessionToken : string }.

Definition algorithm : string := "AWS4-HMAC-SHA256".
Definition emptyPayloadHash : string := "e3b0c44298fc1c149afbf4c8996fb92427ae41e4649b934ca495991b7852b855".
Definition unsignedPayload : string := "UNSIGNED-PAYLOAD".

Definition nl : string := String (byte_of 10) "".

(** The layouts 20060102T150405Z and 20060102, in UTC. *)
Definition date_basic (t : gotime) : string :=
  let c := civil_of_days (unix t / 86400) in pad4 (c_year c) +:+ pad2 (c_month c) +:+ pad2 (c_day c).
Definition amz_date (t : gotime) : string :=
  let sod := unix t mod 86400 in
  date_basic t +:+ "T" +:+ pad2 (sod / 3600) +:+ pad2 (sod / 60 mod 60) +:+ pad2 (sod mod 60) +:+ "Z".

Definition uriEncode (s : string) (encodeSlash : bool) : string :=
  escape_with (λ c, if unreserved c then String c ""
                    else if bool_decide (c = "/"%char) && negb encodeSlash then "/" else percent c) s.

Definition canonicalURIPath (path : string) : string :=
  if decide (path = "") then "/" else uriEncode path false.

(** The keys of a map in order. *)
Definition sorted_keys {A} (m : gmap string A) : list string := sort_strings (map_to_list m).*1.

Definition canonicalQuery (values : gmap string (list string)) : string :=
  Join (k ← sorted_keys values;
        (λ v, uriEncode k true +:+ "=" +:+ uriEncode v true) <$> sort_strings (default [] (values !! k))) "&".

Definition trimAll (v : string) : string := Join (Fields v) " ".

Section signing.
Context `{Digests}.

Definition deriveSigningKey (secret dateStamp region service : string) : string :=
  let kDate := hmacSHA256 ("AWS4" +:+ secret) dateStamp in
  let kRegion := hmacSHA256 kDate region in
  let kService := hmacSHA256 kRegion service in
  hmacSHA256 kService "aws4_request".

(** The headers to sign: the host and every header of the request. *)
Definition signable (r : http_request) : gmap string string :=
  ((λ vals, trimAll (Join vals ",")) <$> Header r) ∪
  {["host" := if decide (Host r = "") then URL_Host r else Host r]}.

Definition canonical_headers (names : list string) (headers : gmap string string) : string :=
  concat_str ((λ n, n +:+ ":" +:+ default "" (headers !! n) +:+ nl) <$> names).

Definition canonical_request (r : http_request) (names : list string) (payloadHash : string) : string :=
  Join [Method r; canonicalURIPath (URL_Path r); canonicalQuery (Query r);
        canonical_headers names (signable r); Join names ";"; payloadHash] nl.

(** The signature of a request over the headers [names]. *)
Definition signature (r : http_request) (names : list string) (payloadHash secret region service : string)
    (t : gotime) : string :=
  let scope := date_basic t +:+ "/" +:+ region +:+ "/" +:+ service +:+ "/aws4_request" in
  let stringToSign := Join [algorithm; amz_date t; scope; sha256Hex (canonical_request r names payloadHash)] nl in
  hex_encode (hmacSHA256 (deriveSigningKey secret (date_basic t) region service) stringToSign).

Definition authorization (creds : credentials) (scope sig : string) (names : list string) : string :=
  algorithm +:+ " Credential=" +:+ AccessKeyID creds +:+ "/" +:+ scope
  +:+ ", SignedHeaders=" +:+ Join names ";" +:+ ", Signature=" +:+ sig.

Definition signRequest (req : http_request) (payloadHash : string) (creds : credentials)
    (region service : string) (t : gotime) : http_request :=
  let req := Header_Set "x-amz-date" (amz_date t) req in
  let req := if decide (SessionToken creds = "") then req
             else Header_Set "x-amz-security-token" (SessionToken creds) req in
  let names := sorted_keys (signable req) in
  let scope := date_basic t +:+ "/" +:+ region +:+ "/" +:+ service +:+ "/aws4_request" in
  let sig := signature req names payloadHash (SecretAccessKey creds) region service t in
  Header_Set "authorization" (authorization creds scope sig names) req.

End signing.

(** ** Encoding *)

(** The query encoding and the path encoding decode to what was encoded. *)
Lemma uriEncode_keep s encodeSlash :
  uriEncode s encodeSlash =
  escape_with (λ c, if unreserved c || (bool_decide (c = "/"%char) && negb encodeSlash)
                    then String c "" else percent c) s.
Proof.
  unfold uriEncode. induction s as [|c s IH]; [done|]. cbn [escape_with]. rewrite IH. f_equal.
  destruct (unreserved c); [done|]. cbn [orb]. case_bool_decide; [|done]. subst. by destruct encodeSlash.
Qed.

Lemma uriEncode_decodes s encodeSlash : unescape (uriEncode s encodeSlash) = Some s.
Proof. rewrite uriEncode_keep. by apply unescape_escape_with. Qed.

Lemma uriEncode_inj s t e : uriEncode s e = uriEncode t e → s = t.
Proof.
  intros E. pose proof (uriEncode_decodes s e) as Hs. rewrite E, uriEncode_decodes in Hs. by simplify_eq.
Qed.

(** ** What the signature covers *)

Section facts.
Context `{Digests}.

Lemma signable_insert r k v :
  k ≠ "host" → signable (Header_Set k v r) = <[k := trimAll v]> (signable r).
Proof.
  intros Hk. unfold signable, Header_Set. cbn [Header Host URL_Host].
  rewrite fmap_insert. by rewrite insert_union_l.
Qed.

Lemma elem_of_sorted_keys {A} (m : gmap string A) k : k ∈ sorted_keys m ↔ is_Some (m !! k).
Proof.
  unfold sorted_keys, sort_strings. rewrite merge_sort_Permutation, list_elem_of_fmap. split.
  - intros ([k' v] & -> & Hm). apply elem_of_map_to_list in Hm. by exists v.
  - intros [v Hv]. exists (k, v). split; [done|]. by apply elem_of_map_to_list.
Qed.

Lemma canonical_headers_ext names h h' :
  (∀ n, n ∈ names → h !! n = h' !! n) → canonical_headers names h = canonical_headers names h'.
Proof.
  intros E. unfold canonical_headers. f_equal. apply list_fmap_ext. intros i n Hn.
  by rewrite E by (by eapply list_elem_of_lookup_2).
Qed.


End facts.

(** ** An instance *)

(** Stand-ins for the digests, for evaluation only. *)
Definition toy_digests : Digests := {|
  sha256Hex := λ s, itoa (len s); hmacSHA256 := λ k s, itoa (len k) +:+ s |}.

Definition sample_request : http_request :=
  mk_http "PUT" "" "s3.us-east-1.amazonaws.com" "/bucket/uploads/a b.apk" ∅
    {["x-amz-content-sha256" := [unsignedPayload]]}.

