(* ===== verification/S3.v ===== *)
(** * The remote store ([storage/s3.go])

    The S3 client: construction from the environment, object URLs, signed requests,
    the retried exchange, uploads streamed or buffered, and the byte budget they
    share.  The HTTP exchange, the clock and URL parsing are parameters; error texts
    leave out the operands quoted with [%q]. *)
From Stdlib Require Import Ascii ZArith.
From S2P Require Import Prelude GoStr GoErr GoTime GoFloat GoUrl Config Retry Sigv4.

Local Open Scope Z_scope.

Definition defaultS3Region : string := "us-east-1".
Definition maxS3UploadBytes : Z := Z.shiftl 2 30.
Definition defaultS3MaxInflightBytes : Z := Z.shiftl 4 30.

Definition s3RetryConfig : RetryConfig :=
  {| MaxRetries := 3; InitialDelay := 200 * 1000000; MaxDelay := seconds 5;
     Multiplier := float_of_Z 2; Jitter := true |}.

(** ** The byte budget *)

Record byteSemaphore := mk_sem { cap : Z; avail : Z }.

Definition newByteSemaphore (capacity : Z) : byteSemaphore :=
  let capacity := if capacity <? 1 then 1 else capacity in mk_sem capacity capacity.

(** The clamped weight of a request. *)
Definition weight (b : byteSemaphore) (n : Z) : Z :=
  let n := if n <? 0 then 0 else n in if cap b <? n then cap b else n.

(** The loop test of [acquire] and what follows when it lets the caller through. *)
Definition try_acquire (b : byteSemaphore) (n : Z) : option (Z * byteSemaphore) :=
  let n := weight b n in
  if avail b <? n then None else Some (n, mk_sem (cap b) (avail b - n)).

Definition release (b : byteSemaphore) (n : Z) : byteSemaphore :=
  let n := weight b n in
  let a := avail b + n in mk_sem (cap b) (if cap b <? a then cap b else a).

(** The uploads of several goroutines: who holds budget, who waits for it. *)
Record uploads := mk_uploads { budget : byteSemaphore; held : list Z; waiting : list Z }.

Inductive budget_step : uploads → uploads → Prop :=
  | Enter_free b h w n k b' : try_acquire b n = Some (k, b') →
      budget_step (mk_uploads b h w) (mk_uploads b' (k :: h) w)
  | Enter_wait b h w n : try_acquire b n = None →
      budget_step (mk_uploads b h w) (mk_uploads b h (n :: w))
  | Wake b h w1 n w2 k b' : try_acquire b n = Some (k, b') →
      budget_step (mk_uploads b h (w1 ++ n :: w2)) (mk_uploads b' (k :: h) (w1 ++ w2))
  | Cancel b h w1 n w2 :
      budget_step (mk_uploads b h (w1 ++ n :: w2)) (mk_uploads b h (w1 ++ w2))
  | Leave b h1 k h2 w :
      budget_step (mk_uploads b (h1 ++ k :: h2) w) (mk_uploads (release b k) (h1 ++ h2) w).

(** ** The client *)

Record URL := mk_url { Scheme : string; u_Host : string; u_Path : string; u_Query : gmap string (list string) }.

Record S3Storage := mk_s3 {
  endpoint : URL; bucket : string; region : string; creds : credentials;
  pathStyle : bool; inflight : byteSemaphore }.

Record S3Config := mk_s3_config {
  Endpoint : string; Bucket : string; Region : string; c_creds : credentials;
  ForcePathStyle : bool; MaxInflightBytes : Z }.

Section construction.
Context (LookupEnv : string → option string) (url_Parse : string → res URL).

Definition Getenv (name : string) : string := default "" (LookupEnv name).

Definition envInt64Default (name : string) (def : Z) : Z := Int64Positive LookupEnv name def.
Definition envBoolDefault (name : string) (def : bool) : bool := Bool LookupEnv name def.

(** [strings.TrimRight(s, "/")] *)
Fixpoint trim_slashes (s : string) : string :=
  match s with
  | "" => ""
  | String c s => let t := trim_slashes s in
                  if bool_decide (t = "") && bool_decide (c = "/"%char) then "" else String c t
  end.

Definition NewS3Storage (cfg : S3Config) : res S3Storage :=
  if decide (TrimSpace (Bucket cfg) = "") then
    Err (ENew "storage: MORF_S3_BUCKET is required for the s3 backend")
  else if decide (TrimSpace (AccessKeyID (c_creds cfg)) = "" ∨ TrimSpace (SecretAccessKey (c_creds cfg)) = "") then
    Err (ENew "storage: AWS_ACCESS_KEY_ID and AWS_SECRET_ACCESS_KEY are required for the s3 backend")
  else
    let region := TrimSpace (Region cfg) in
    let region := if decide (region = "") then defaultS3Region else region in
    let endpointRaw := TrimSpace (Endpoint cfg) in
    let '(endpointRaw, pathStyle) :=
      if decide (endpointRaw = "") then ("https://s3." +:+ region +:+ ".amazonaws.com", false)
      else (endpointRaw, ForcePathStyle cfg) in
    match url_Parse (trim_slashes endpointRaw) with
    | Err e => Err (EWrap ("storage: invalid MORF_S3_ENDPOINT: " +:+ Error e) [e])
    | Ok ep =>
        if decide (Scheme ep = "" ∨ u_Host ep = "") then
          Err (ENew "storage: MORF_S3_ENDPOINT must include scheme and host")
        else
          let inflightCap := if MaxInflightBytes cfg <=? 0 then defaultS3MaxInflightBytes else MaxInflightBytes cfg in
          Ok (mk_s3 ep (Bucket cfg) region (c_creds cfg) pathStyle (newByteSemaphore inflightCap))
    end.

Definition NewS3StorageFromEnv : res S3Storage :=
  NewS3Storage {|
    Endpoint := Getenv "MORF_S3_ENDPOINT"; Bucket := Getenv "MORF_S3_BUCKET"; Region := Getenv "MORF_S3_REGION";
    c_creds := mk_creds (Getenv "AWS_ACCESS_KEY_ID") (Getenv "AWS_SECRET_ACCESS_KEY") (Getenv "AWS_SESSION_TOKEN");
    ForcePathStyle := envBoolDefault "MORF_S3_FORCE_PATH_STYLE" true;
    MaxInflightBytes := envInt64Default "MORF_S3_MAX_INFLIGHT_BYTES" defaultS3MaxInflightBytes |}.

End construction.

(** ** Requests *)

Definition objectURL (s : S3Storage) (key : string) : res URL :=
  if decide (TrimSpace key = "") then Err (ENew "storage: empty key")
  else
    let key := TrimPrefix key "/" in
    let u := endpoint s in
    Ok (if pathStyle s then mk_url (Scheme u) (u_Host u) ("/" +:+ bucket s +:+ "/" +:+ key) (u_Query u)
        else mk_url (Scheme u) (bucket s +:+ "." +:+ u_Host u) ("/" +:+ key) (u_Query u)).

(** A request with its body; [streamed]: the body is the caller's reader. *)
Record s3_request := mk_req {
  http : http_request; body : string; ContentLength : Z; streamed : bool }.

Record response := mk_resp { StatusCode : Z; r_Body : string; r_ContentLength : Z }.

Definition retryableStatus (code : Z) : bool := (code =? 429) || (500 <=? code).

Definition httpErr (op : string) (resp : response) : error :=
  ENew ("storage: s3 " +:+ op +:+ ": status " +:+ itoa (StatusCode resp) +:+ ": "
        +:+ TrimSpace (take_str 2048 (r_Body resp))).

(** The reader of an upload: its bytes and position, whether it seeks, whether it
    is an [io.Closer], whether it is closed, and the error its reads end with. *)
Record upload := mk_upload {
  u_data : string; u_pos : nat; u_seeker : bool; u_closer : bool; u_closed : bool; u_fail : option error }.

Definition rest (u : upload) : string := drop_str (u_pos u) (u_data u).

(** What a call returns, or a [nil] dereference. *)
Inductive outcome (A : Type) := Panics | Returns (r : res A).
Arguments Panics {A}.
Arguments Returns {A} _.

(** [io.LimitReader(r, n)], read to the end. *)
Definition limited (n : Z) (s : string) : string := if len s <=? n then s else take_str (Z.to_nat n) s.

Section operations.
Context `{Digests} {W : Type} (target : arch).
(** [time.Now]; building a request from a URL; [http.Client.Do], which answers or
    fails and says how much of the body it read; waiting for budget; the context;
    the sleep of the retry loop and its jitter. *)
Context (Now : W → gotime) (NewRequest_err : string → URL → option error)
  (Do : s3_request → W → res response * nat * W)
  (wait : Z → byteSemaphore → W → res byteSemaphore * W)
  (ctx_Err : W → option error) (sleep : Z → W → option error * W) (Int63n : Z → W → Z * W).
Context (s : S3Storage).

Record st := mk_st {
  world : W; reader : upload; sema : byteSemaphore;
  sent : list (s3_request * res Z); out : option response }.

Definition set_world (w : W) (x : st) : st := mk_st w (reader x) (sema x) (sent x) (out x).
Definition set_reader (r : upload) (x : st) : st := mk_st (world x) r (sema x) (sent x) (out x).
Definition set_sema (b : byteSemaphore) (x : st) : st := mk_st (world x) (reader x) b (sent x) (out x).
Definition set_out (o : option response) (x : st) : st := mk_st (world x) (reader x) (sema x) (sent x) o.

(** A signed request for [key] whose payload hash is [payloadHash]. *)
Definition signed (method key payloadHash : string) (t : gotime) : res http_request :=
  u ← objectURL s key;
  match NewRequest_err method u with
  | Some e => Err e
  | None =>
      let req := mk_http method (u_Host u) (u_Host u) (u_Path u) (u_Query u) ∅ in
      Ok (signRequest (Header_Set "x-amz-content-sha256" payloadHash req) payloadHash (creds s) (region s) "s3" t)
  end.

Definition newSignedRequest (method key : string) (body : option string) (x : st) : res s3_request * st :=
  let payloadHash := match body with Some b => sha256Hex b | None => emptyPayloadHash end in
  (req ← signed method key payloadHash (Now (world x));
   Ok (mk_req req (default "" body) (match body with Some b => len b | None => 0 end) false), x).

Definition newStreamingRequest (key : string) (size : Z) (x : st) : res s3_request * st :=
  (req ← signed "PUT" key unsignedPayload (Now (world x));
   Ok (mk_req req (rest (reader x)) size true), x).

(** The client reads a streamed body and closes it if it can be closed. *)
Definition consumed (n : nat) (r : upload) : upload :=
  mk_upload (u_data r) (u_pos r + n) (u_seeker r) (u_closer r) (u_closed r || u_closer r) (u_fail r).

Definition client_Do (req : s3_request) (x : st) : res response * st :=
  let '(r, n, w) := Do req (world x) in
  (r, mk_st w (if streamed req then consumed n (reader x) else reader x) (sema x)
        (sent x ++ [(req, match r with Ok resp => Ok (StatusCode resp) | Err e => Err e end)]) (out x)).

Definition attempt (op : string) (build : st → res s3_request * st) (x : st) : option error * st :=
  let '(req, x) := build x in
  match req with
  | Err berr => (Some (ERetryable berr false), x)
  | Ok req =>
      let '(r, x) := client_Do req x in
      match r with
      | Err derr => (Some derr, x)
      | Ok resp =>
          if retryableStatus (StatusCode resp) then (Some (ERetryable (httpErr op resp) true), x)
          else (None, set_out (Some resp) x)
      end
  end.

Definition doWithRetry (op : string) (build : st → res s3_request * st) (x : st) : outcome (option response) * st :=
  let '(r, _, _, x) :=
    RetryWithContext target (attempt op build) (λ x, ctx_Err (world x))
      (λ d x, let '(e, w) := sleep d (world x) in (e, set_world w x))
      (λ q x, let '(j, w) := Int63n q (world x) in (j, set_world w x)) s3RetryConfig (set_out None x) in
  (match r with
   | Returned None => Returns (Ok (out x))
   | Returned (Some e) => Returns (Err e)
   | NilDereference => Panics
   end, x).

(** The caller's part: [doWithRetry], then its answer. *)
Definition exchange {A} (op : string) (build : st → res s3_request * st) (k : response → res A) (x : st)
    : outcome A * st :=
  let '(r, x) := doWithRetry op build x in
  (match r with
   | Panics => Panics
   | Returns (Err e) => Returns (Err (EWrap ("storage: s3 " +:+ op +:+ ": " +:+ Error e) [e]))
   | Returns (Ok None) => Panics
   | Returns (Ok (Some resp)) => Returns (k resp)
   end, x).

Definition ok_status (resp : response) : bool := Z.quot (StatusCode resp) 100 =? 2.

Definition put_answer (resp : response) : res unit :=
  if negb (ok_status resp) then Err (httpErr "PUT" resp) else Ok tt.

(** [acquire] *)
Definition acquire (n : Z) (x : st) : res Z * st :=
  match try_acquire (sema x) n with
  | Some (k, b) => (Ok k, set_sema b x)
  | None =>
      let '(r, w) := wait (weight (sema x) n) (sema x) (world x) in
      match r with
      | Err e => (Err e, set_world w x)
      | Ok b => (Ok (weight b n), set_sema (mk_sem (cap b) (avail b - weight b n)) (set_world w x))
      end
  end.

(** An upload under the budget: [acquire], the exchange, [release]. *)
Definition budgeted (n : Z) (build : st → res s3_request * st) (x : st) : outcome unit * st :=
  let '(weight, x) := acquire n x in
  match weight with
  | Err e => (Returns (Err (EWrap ("storage: acquiring upload budget: " +:+ Error e) [e])), x)
  | Ok weight =>
      let '(r, x) := exchange "PUT" build put_answer x in
      (r, set_sema (release (sema x) weight) x)
  end.

Definition err_closed : error := ENew "seek: file already closed".

(** Seek to [start], then build. *)
Definition rewind_build (key : string) (start : nat) (size : Z) (x : st) : res s3_request * st :=
  let r := reader x in
  if u_closed r then (Err (EWrap ("storage: rewinding upload: " +:+ Error err_closed) [err_closed]), x)
  else newStreamingRequest key size
         (set_reader (mk_upload (u_data r) start (u_seeker r) (u_closer r) (u_closed r) (u_fail r)) x).

Definition putStreaming (key : string) (size : Z) (x : st) : outcome unit * st :=
  if u_closed (reader x) then
    (Returns (Err (EWrap ("storage: seeking upload: " +:+ Error err_closed) [err_closed])), x)
  else
    let start := u_pos (reader x) in
    budgeted size (rewind_build key start size) x.

Definition read_failed (e : error) : error := EWrap ("storage: reading upload: " +:+ Error e) [e].

Definition putBuffered (key : string) (size : Z) (x : st) : outcome unit * st :=
  let r := reader x in
  let body := limited (maxS3UploadBytes + 1) (rest r) in
  let x := set_reader (mk_upload (u_data r) (u_pos r + String.length body) (u_seeker r) (u_closer r) (u_closed r) (u_fail r)) x in
  if u_closed r then (Returns (Err (read_failed err_closed)), x)
  else match u_fail r with
  | Some e =>
      if len (rest r) <=? maxS3UploadBytes then (Returns (Err (read_failed e)), x)
      else (Returns (Err (ENew "storage: upload exceeds the limit")), x)
  | None =>
      if maxS3UploadBytes <? len body then (Returns (Err (ENew "storage: upload exceeds the limit")), x)
      else if (0 <=? size) && negb (len body =? size) then (Returns (Err (ENew "storage: upload size mismatch")), x)
      else budgeted (len body) (newSignedRequest "PUT" key (Some body)) x
  end.

Definition Put (key : string) (size : Z) (x : st) : outcome unit * st :=
  if maxS3UploadBytes <? size then (Returns (Err (ENew "storage: upload exceeds the limit")), x)
  else if (0 <=? size) && u_seeker (reader x) then putStreaming key size x
  else putBuffered key size x.

Definition not_exist : error := EWrap "storage: object does not exist" [ESentinel ErrNotExist].

Definition open_answer (resp : response) : res string :=
  if StatusCode resp =? 404 then Err not_exist
  else if negb (ok_status resp) then Err (httpErr "GET" resp) else Ok (r_Body resp).

Definition Open (key : string) : st → outcome string * st :=
  exchange "GET" (newSignedRequest "GET" key None) open_answer.

Definition delete_answer (resp : response) : res unit :=
  if StatusCode resp =? 404 then Ok tt
  else if negb (ok_status resp) then Err (httpErr "DELETE" resp) else Ok tt.

Definition Delete (key : string) : st → outcome unit * st :=
  exchange "DELETE" (newSignedRequest "DELETE" key None) delete_answer.

Definition stat_answer (resp : response) : res Z :=
  if StatusCode resp =? 404 then Err not_exist
  else if negb (ok_status resp) then Err (httpErr "HEAD" resp)
  else if r_ContentLength resp <? 0 then Err (ENew "storage: s3 HEAD: missing Content-Length")
  else Ok (r_ContentLength resp).

Definition Stat (key : string) : st → outcome Z * st :=
  exchange "HEAD" (newSignedRequest "HEAD" key None) stat_answer.

Definition LocalPath (key : string) : option string := None.

(** ** The retried exchange *)

(** [P k]: after [k] failed attempts.  Waiting changes only the world. *)
Lemma doWithRetry_spec (P : nat → st → Prop) op build x r x' :
  (∀ k y e y', P k y → attempt op build y = (Some e, y') → P (S k) y') →
  (∀ k d y, P k y → P k (set_world (sleep d (world y)).2 y)) →
  (∀ k q y, P k y → P k (set_world (Int63n q (world y)).2 y)) →
  P O (set_out None x) → doWithRetry op build x = (r, x') →
  (∃ k e, (k ≤ 4)%nat ∧ r = Returns (Err e) ∧ P k x') ∨
  (∃ k y, (k ≤ 3)%nat ∧ P k y ∧ attempt op build y = (None, x') ∧ r = Returns (Ok (out x'))).
Proof.
  intros Ha Hs Hj H0 E. unfold doWithRetry in E.
  destruct (RetryWithContext _ _ _ _ _ _ _) as [[[o ran] delays] y] eqn:ER. simplify_eq.
  unfold RetryWithContext in ER.
  pose proof ER as E0. apply retry_loop_result in E0 as (Hran & Hnil & _).
  apply (retry_loop_indexed _ _ _ _ _ P) in ER; [|done| | |done].
  - change (Z.to_nat (MaxRetries s3RetryConfig + 1)) with 4%nat in *.
    destruct o as [[e|]|]; [|right|by destruct (Hnil eq_refl)].
    + left. exists ran, e. split_and!; [lia|done|done].
    + destruct ER as (k & w0 & -> & Hk & Hw). exists k, w0. split_and!; [lia|done..].
  - intros k d w Hk. specialize (Hs k d w Hk). by destruct (sleep d (world w)).
  - intros k q w Hk. specialize (Hj k q w Hk). by destruct (Int63n q (world w)).
Qed.

(** One attempt, by what happened to its request. *)
Lemma attempt_cases op build y e y' :
  attempt op build y = (e, y') →
  (∃ err, build y = (Err err, y') ∧ e = Some (ERetryable err false)) ∨
  ∃ req y1 r n w, build y = (Ok req, y1) ∧ Do req (world y1) = (r, n, w) ∧
    let y2 := mk_st w (if streamed req then consumed n (reader y1) else reader y1) (sema y1)
                (sent y1 ++ [(req, match r with Ok resp => Ok (StatusCode resp) | Err e => Err e end)]) (out y1) in
    match r with
    | Err err => e = Some err ∧ y' = y2
    | Ok resp => if retryableStatus (StatusCode resp)
                 then e = Some (ERetryable (httpErr op resp) true) ∧ y' = y2
                 else e = None ∧ y' = set_out (Some resp) y2
    end.
Proof.
  unfold attempt, client_Do. intros E. destruct (build y) as [[req|err] y1]; [|left; naive_solver].
  right. destruct (Do req (world y1)) as [[r n] w] eqn:ED. exists req, y1, r, n, w.
  split_and!; [done|done|]. cbn zeta. destruct r as [resp|err]; [destruct (retryableStatus _)|]; by simplify_eq.
Qed.

(** An attempt that failed for a transient reason. *)
Definition transient (a : res Z) : Prop :=
  match a with Ok code => retryableStatus code = true | Err _ => True end.

(** What the requests of one operation share: [Q] holds of each. *)
Definition logged (Q : s3_request → Prop) (x : st) (k : nat) (y : st) : Prop :=
  sema y = sema x ∧
  ∃ log, sent y = sent x ++ log ∧ (length log ≤ k)%nat ∧ Forall (λ a, Q a.1 ∧ transient a.2) log.

(** A final answer: the requests before it failed for transient reasons. *)
Definition answered (Q : s3_request → Prop) (x x' : st) (resp : response) : Prop :=
  ∃ log req, sent x' = sent x ++ log ++ [(req, Ok (StatusCode resp))] ∧ (length log ≤ 3)%nat ∧
    Forall (λ a, Q a.1 ∧ transient a.2) log ∧ Q req ∧ retryableStatus (StatusCode resp) = false.

(** [R] is what the build of a request relies on and every attempt keeps. *)
Lemma exchange_logged {A} (Q : s3_request → Prop) (R : upload → Prop) op build (k : response → res A) x r x' :
  (∀ y req y', R (reader y) → build y = (req, y') →
     sema y' = sema y ∧ sent y' = sent y ∧
     match req with Ok req => Q req ∧ (∀ n, R (if streamed req then consumed n (reader y') else reader y'))
                  | Err _ => R (reader y') end) →
  R (reader x) → exchange op build k x = (r, x') →
  sema x' = sema x ∧
  ((∃ e n, r = Returns (Err e) ∧ (n ≤ 4)%nat ∧ logged Q x n x') ∨
   (∃ resp, r = Returns (k resp) ∧ answered Q x x' resp)).
Proof.
  intros Hb HR E. unfold exchange in E.
  destruct (doWithRetry op build x) as [o y] eqn:ED. simplify_eq.
  apply (doWithRetry_spec (λ n y, logged Q x n y ∧ R (reader y))) in ED as [(n & e & Hn & -> & [Hl _])|
    (n & y & Hn & [Hl HRy] & Ha & ->)].
  - split; [apply Hl|]. left. eauto.
  - apply attempt_cases in Ha as [(? & _ & ?)|(req & y1 & rr & c & w & Eb & _ & Ha)]; [done|].
    destruct (Hb _ _ _ HRy Eb) as (Hse & Hst & Hq & _). destruct Hl as (Hs & log & Hlog & Hlen & Hall).
    destruct rr as [resp|]; [|naive_solver]. destruct (retryableStatus _) eqn:Ec; [naive_solver|].
    destruct Ha as [_ ->]. cbn. split; [by rewrite Hse|]. right. exists resp. split; [done|].
    exists log, req. rewrite Hst, Hlog, <- app_assoc. split_and!; [done|lia|done|done|done].
  - intros n y e y' [Hl HRy] Ha. destruct Hl as (Hs & log & Hlog & Hlen & Hall).
    apply attempt_cases in Ha as [(err & Eb & _)|(req & y1 & rr & c & w & Eb & _ & Ha)];
      destruct (Hb _ _ _ HRy Eb) as (Hse & Hst & Hrest).
    + split; [|done]. split; [by rewrite Hse|]. exists log. rewrite Hst. split_and!; [done|lia|done].
    + destruct Hrest as [Hq HR'].
      assert (H2 : y' = mk_st w (if streamed req then consumed c (reader y1) else reader y1) (sema y1)
        (sent y1 ++ [(req, match rr with Ok resp => Ok (StatusCode resp) | Err e => Err e end)]) (out y1) ∧
        transient (match rr with Ok resp => Ok (StatusCode resp) | Err e => Err e end)).
      { destruct rr as [resp|]; [|naive_solver]. cbn. destruct (retryableStatus _); naive_solver. }
      destruct H2 as [-> Ht]. split; [|apply HR']. split; [by rewrite Hse|].
      exists (log ++ [(req, match rr with Ok resp => Ok (StatusCode resp) | Err e => Err e end)]). cbn.
      rewrite Hst, Hlog, <- app_assoc. split_and!; [done|rewrite length_app; cbn; lia|].
      apply Forall_app. split; [done|]. by constructor.
  - intros n d y [(? & ? & ?) ?]. split; [|done]. split; eauto.
  - intros n q y [(? & ? & ?) ?]. split; [|done]. split; eauto.
  - split; [|done]. split; [done|]. exists []. cbn. rewrite app_nil_r. split_and!; [done|lia|constructor].
Qed.

(** ** Uploads *)

Definition addressed (method key : string) (req : s3_request) : Prop :=
  ∃ u, objectURL s key = Ok u ∧ Method (http req) = method ∧
    Host (http req) = u_Host u ∧ URL_Path (http req) = u_Path u.

Definition put_request (key content : string) (n : Z) (req : s3_request) : Prop :=
  addressed "PUT" key req ∧ body req = content ∧ ContentLength req = n.

Lemma signed_addressed method key hash t h b n str :
  signed method key hash t = Ok h → addressed method key (mk_req h b n str).
Proof.
  unfold signed. destruct (objectURL s key) as [u|] eqn:Eu; [|done]. cbn.
  destruct (NewRequest_err method u); [done|]. intros E. simplify_eq. exists u. split; [done|].
  unfold signRequest. by case_decide.
Qed.

Lemma newSignedRequest_builds method key b y req y' :
  newSignedRequest method key b y = (req, y') →
  y' = y ∧ match req with
           | Ok req => addressed method key req ∧ body req = default "" b ∧ streamed req = false ∧
                       ContentLength req = match b with Some b => len b | None => 0 end
           | Err _ => True end.
Proof.
  unfold newSignedRequest. intros E. simplify_eq. split; [done|].
  destruct (signed method key _ _) as [h|] eqn:Es; [|done]. cbn. split_and!; try done. by eapply signed_addressed.
Qed.

(** Whatever was sent before, a rewound reader gives the content again or is closed. *)
Definition holds (data : string) (r : upload) : Prop := u_data r = data.

Lemma rewind_build_builds key start size data y req y' :
  holds data (reader y) → rewind_build key start size y = (req, y') →
  sema y' = sema y ∧ sent y' = sent y ∧ holds data (reader y') ∧
  match req with
  | Ok req => put_request key (drop_str start data) size req
  | Err _ => True end.
Proof.
  intros Hd. unfold rewind_build, newStreamingRequest. destruct (u_closed _); intros E; simplify_eq; [done|].
  split_and!; [done..|]. destruct (signed _ key _ _) as [h|] eqn:Es; [|done]. cbn.
  split; [by eapply signed_addressed|]. split; [|done]. unfold rest. cbn. by rewrite Hd.
Qed.

Definition sem_ok (b : byteSemaphore) : Prop := 0 ≤ avail b ≤ cap b.

(** [wait] returns with enough budget. *)
Definition wait_ok : Prop := ∀ n b w b' w', wait n b w = (Ok b', w') → cap b' = cap b ∧ n ≤ avail b' ≤ cap b'.

Lemma weight_range b n : sem_ok b → 0 ≤ weight b n ≤ cap b.
Proof.
  unfold sem_ok, weight. intros. destruct (Z.ltb_spec n 0) as [_|Hn].
  - destruct (Z.ltb_spec (cap b) 0); lia.
  - destruct (Z.ltb_spec (cap b) n); lia.
Qed.

Lemma weight_idem b c n : cap c = cap b → sem_ok b → weight c (weight b n) = weight b n.
Proof.
  intros Hc Hb. pose proof (weight_range b n Hb). unfold weight at 1. rewrite Hc.
  destruct (Z.ltb_spec (weight b n) 0); [lia|]. destruct (Z.ltb_spec (cap b) (weight b n)); lia.
Qed.

(** What was taken from the budget is given back exactly. *)
Lemma release_acquired b n : sem_ok b → weight b n ≤ avail b →
  release (mk_sem (cap b) (avail b - weight b n)) (weight b n) = b.
Proof.
  intros Hb Ha. unfold release. cbn [cap avail]. rewrite (weight_idem b) by done.
  replace (avail b - weight b n + weight b n) with (avail b) by lia.
  unfold sem_ok in Hb. destruct (Z.ltb_spec (cap b) (avail b)); [lia|]. by destruct b.
Qed.

Lemma acquire_spec n x k y :
  sem_ok (sema x) → wait_ok → acquire n x = (k, y) →
  sent y = sent x ∧ reader y = reader x ∧
  match k with
  | Err _ => sema y = sema x ∧ ¬ (weight (sema x) n ≤ avail (sema x))
  | Ok k => ∃ b, sem_ok b ∧ cap b = cap (sema x) ∧ release (sema y) k = b ∧
                 (weight (sema x) n ≤ avail (sema x) → b = sema x)
  end.
Proof.
  intros Hok Hw. unfold acquire, try_acquire. destruct (Z.ltb_spec (avail (sema x)) (weight (sema x) n)) as [Hlt|Hge].
  - destruct (wait _ _ _) as [[b|e] w] eqn:E; intros; simplify_eq; cbn; split_and!; try done; [|lia].
    destruct (Hw _ _ _ _ _ E) as [Hc Ha]. pose proof (weight_range _ n Hok).
    assert (Hw' : weight b n = weight (sema x) n) by (unfold weight; by rewrite Hc).
    exists b. split_and!; [unfold sem_ok; lia|done| |lia]. apply release_acquired; [unfold sem_ok; lia|].
    rewrite Hw'. lia.
  - intros; simplify_eq. cbn. split_and!; try done. exists (sema x). split_and!; try done. by apply release_acquired.
Qed.

(** What an upload of [content] leaves. *)
Definition uploaded (key content : string) (n : Z) (x : st) (r : outcome unit) (x' : st) : Prop :=
  r ≠ Panics ∧
  (∃ log, sent x' = sent x ++ log ∧ (length log ≤ 4)%nat ∧ Forall (λ a, put_request key content n a.1) log ∧
     (r = Returns (Ok tt) → ∃ log0 req code, log = log0 ++ [(req, Ok code)] ∧ Z.quot code 100 = 2 ∧
        Forall (λ a, transient a.2) log0)) ∧
  sem_ok (sema x') ∧ (weight (sema x) n ≤ avail (sema x) → sema x' = sema x).

Lemma refused_upload key content n x e y :
  sent y = sent x → sema y = sema x → sem_ok (sema x) → uploaded key content n x (Returns (Err e)) y.
Proof.
  intros Hs He Hok. split_and!; [done| |by rewrite He|done]. exists [].
  rewrite Hs, app_nil_r. split_and!; [done|cbn; lia|constructor|done].
Qed.

Lemma put_request_budgeted key content n (R : upload → Prop) build x r x' :
  (∀ y req y', R (reader y) → build y = (req, y') →
     sema y' = sema y ∧ sent y' = sent y ∧
     match req with
     | Ok req => put_request key content n req ∧ (∀ c, R (if streamed req then consumed c (reader y') else reader y'))
     | Err _ => R (reader y') end) →
  R (reader x) → sem_ok (sema x) → wait_ok → budgeted n build x = (r, x') → uploaded key content n x r x'.
Proof.
  intros Hb HR Hok Hw E. unfold budgeted in E. destruct (acquire n x) as [k y] eqn:EA.
  destruct (acquire_spec _ _ _ _ Hok Hw EA) as (Hs & Hr & Hk). destruct k as [k|e].
  - destruct Hk as (b & Hbok & _ & Hrel & Heq).
    destruct (exchange "PUT" build put_answer y) as [r0 y0] eqn:EX. simplify_eq.
    destruct (exchange_logged (put_request key content n) R _ _ _ _ _ _ Hb ltac:(by rewrite Hr) EX) as [Hse Hcases].
    unfold uploaded. cbn [set_sema sema sent]. rewrite Hse, <- Hs. split_and!; [|clear EX|..].
    + destruct Hcases as [(? & ? & -> & _)|(? & -> & _)]; done.
    + destruct Hcases as [(e & m & -> & Hm & _ & log & Hl & Hlen & Hall)|(resp & -> & log & req & Hl & Hlen & Hall & HQ & _)].
      * exists log. split_and!; [done|lia| |done]. by eapply Forall_impl; [exact Hall|]; intros ? [].
      * exists (log ++ [(req, Ok (StatusCode resp))]). rewrite length_app. cbn [length]. split_and!; [done|lia| |].
        -- apply Forall_app. split; [by eapply Forall_impl; [exact Hall|]; intros ? []|by constructor].
        -- unfold put_answer. destruct (ok_status resp) eqn:Eok; [|done]. intros _.
           exists log, req, (StatusCode resp). split_and!; [done|by apply Z.eqb_eq|].
           by eapply Forall_impl; [exact Hall|]; intros ? [].
    + done.
    + done.
  - simplify_eq. destruct Hk as [He _]. by apply refused_upload.
Qed.

(** The buffered path refuses the upload or sends exactly what it read. *)
Lemma putBuffered_cases key size x r x' :
  putBuffered key size x = (r, x') →
  let content := rest (reader x) in
  ∃ y, sent y = sent x ∧ sema y = sema x ∧ world y = world x ∧
    ((∃ e, r = Returns (Err e) ∧ x' = y) ∨
     ((0 ≤ size → len content = size) ∧ len content ≤ maxS3UploadBytes ∧
      budgeted (len content) (newSignedRequest "PUT" key (Some content)) y = (r, x'))).
Proof.
  intros E. cbn zeta. unfold putBuffered in E. set (content := rest (reader x)) in *.
  set (y := set_reader _ x) in E. exists y. split_and!; [done..|].
  destruct (u_closed _); [left; simplify_eq; eauto|].
  destruct (u_fail _); [left; destruct (_ <=? _); simplify_eq; eauto|].
  destruct (Z.ltb_spec maxS3UploadBytes (len (limited (maxS3UploadBytes + 1) content))) as [|Hlen];
    [left; simplify_eq; eauto|].
  assert (Hc : limited (maxS3UploadBytes + 1) content = content).
  { unfold limited in *. destruct (Z.leb_spec (len content) (maxS3UploadBytes + 1)) as [|Hgt]; [done|].
    exfalso. unfold len in Hlen, Hgt. rewrite take_str_length in Hlen by lia. unfold maxS3UploadBytes in *. lia. }
  rewrite Hc in *. destruct (Z.leb_spec 0 size) as [H0|H0]; cbn [andb] in E; [|right; split_and!; [lia|done|done]].
  destruct (Z.eqb_spec (len content) size); cbn [negb] in E; [right; split_and!; [done..]|left; simplify_eq; eauto].
Qed.

(** An upload sends the artifact and nothing else.  [Put] sends at most four
    requests, each a PUT to the object's URL whose body is what was left to read
    of the artifact and whose length is the declared (or read) size; it sends
    nothing when the size exceeds the limit; it reports success only when the last
    request was answered with a 2xx status and all before it failed for transient
    reasons; and it leaves the byte budget as it found it whenever it did not have
    to wait, whatever the outcome. *)
Theorem put_sends_artifact key size x r x' :
  sem_ok (sema x) → wait_ok → Put key size x = (r, x') →
  let content := rest (reader x) in
  let n := if size <? 0 then len content else size in
  uploaded key content n x r x' ∧ (maxS3UploadBytes < n → sent x' = sent x).
Proof.
  intros Hok Hw E. cbn zeta. unfold Put in E.
  destruct (Z.ltb_spec maxS3UploadBytes size) as [Hbig|Hsize].
  { simplify_eq. split; [by apply refused_upload|done]. }
  destruct ((0 <=? size) && u_seeker (reader x)) eqn:Es.
  - apply andb_true_iff in Es as [Hs _]. replace (size <? 0) with false by lia. split; [|lia].
    unfold putStreaming in E. destruct (u_closed (reader x)); [simplify_eq; by apply refused_upload|].
    eapply (put_request_budgeted _ _ _ (holds (u_data (reader x)))); [|done..|exact E].
    intros y req y' Hh Eb. destruct (rewind_build_builds _ _ _ _ _ _ _ Hh Eb) as (? & ? & Hd & Hq).
    split_and!; [done..|]. destruct req as [req|]; [|done]. split; [done|]. intros c. by destruct (streamed req).
  - destruct (putBuffered_cases _ _ _ _ _ E) as (y & Hs & Hse & _ & [(e & -> & ->)|(Hn & Hmax & EB)]).
    + split; [by apply refused_upload|done].
    + assert (Hlen : (if size <? 0 then len (rest (reader x)) else size) = len (rest (reader x)))
        by (destruct (Z.ltb_spec size 0); [done|by rewrite Hn]).
      rewrite Hlen. split; [|lia].
      assert (Hup : uploaded key (rest (reader x)) (len (rest (reader x))) y r x').
      { eapply (put_request_budgeted _ _ _ (λ _, True)); [|done|by rewrite Hse|done|exact EB].
        intros z req z' _ Eb. destruct (newSignedRequest_builds _ _ _ _ _ _ Eb) as [-> Hq].
        split_and!; [done..|]. destruct req; [|done]. split; [|by intros]. by destruct Hq as (? & ? & ? & ?). }
      unfold uploaded in *. by rewrite Hs, Hse in Hup.
Qed.

(** ** The store behind the requests *)

Section server.
(** The objects of the server, by host and path. *)
Context (objects : W → gmap (string * string) string).

Definition location (req : s3_request) : string * string := (Host (http req), URL_Path (http req)).

Definition stored (req : s3_request) (o o' : gmap (string * string) string) : Prop :=
  o' = <[location req := body req]> o ∧ len (body req) = ContentLength req.

(** An object store as documented, used by one client: a PUT stores its whole body,
    of the declared length, or nothing, and its 2xx answer means it did; a GET or
    HEAD changes nothing and answers for the object at its URL; a DELETE removes it
    or does nothing.  Any request may fail or be answered by any other status. *)
Record ServerLaws : Prop := {
  serve_PUT req w r n w' : Do req w = (r, n, w') → Method (http req) = "PUT" →
    (objects w' = objects w ∨ stored req (objects w) (objects w')) ∧
    (∀ resp, r = Ok resp → ok_status resp = true → stored req (objects w) (objects w'));
  serve_GET req w r n w' : Do req w = (r, n, w') → Method (http req) = "GET" →
    objects w' = objects w ∧
    (∀ resp, r = Ok resp → StatusCode resp = 404 → objects w !! location req = None) ∧
    (∀ resp, r = Ok resp → ok_status resp = true → objects w !! location req = Some (r_Body resp));
  serve_HEAD req w r n w' : Do req w = (r, n, w') → Method (http req) = "HEAD" →
    objects w' = objects w ∧
    (∀ resp, r = Ok resp → StatusCode resp = 404 → objects w !! location req = None) ∧
    (∀ resp, r = Ok resp → ok_status resp = true → 0 ≤ r_ContentLength resp →
       ∃ c, objects w !! location req = Some c ∧ len c = r_ContentLength resp);
  serve_DELETE req w r n w' : Do req w = (r, n, w') → Method (http req) = "DELETE" →
    (objects w' = objects w ∨ objects w' = delete (location req) (objects w)) ∧
    (∀ resp, r = Ok resp → ok_status resp = true ∨ StatusCode resp = 404 →
       objects w' = delete (location req) (objects w));
  serve_sleep d w : objects (sleep d w).2 = objects w;
  serve_random q w : objects (Int63n q w).2 = objects w;
  serve_wait n b w : objects (wait n b w).2 = objects w }.

Context (laws : ServerLaws) (waits : wait_ok).

Lemma exchange_objects {A : Type} (Q : s3_request → Prop) (R : upload → Prop) (I : gmap (string * string) string → Prop)
    (J : response → gmap (string * string) string → Prop) op build (k : response → res A) x r x' :
  (∀ y req y', R (reader y) → build y = (req, y') →
     world y' = world y ∧
     match req with Ok req => Q req ∧ (∀ n, R (if streamed req then consumed n (reader y') else reader y'))
                  | Err _ => R (reader y') end) →
  (∀ req w r n w', Q req → I (objects w) → Do req w = (r, n, w') →
     I (objects w') ∧ ∀ resp, r = Ok resp → J resp (objects w')) →
  R (reader x) → I (objects (world x)) → exchange op build k x = (r, x') →
  (∃ e, r = Returns (Err (EWrap ("storage: s3 " +:+ op +:+ ": " +:+ Error e) [e])) ∧ I (objects (world x'))) ∨
  (∃ resp, r = Returns (k resp) ∧ J resp (objects (world x'))).
Proof.
  intros Hb HI HR H0 E. unfold exchange in E.
  destruct (doWithRetry op build x) as [o y] eqn:ED. simplify_eq.
  apply (doWithRetry_spec (λ _ y, R (reader y) ∧ I (objects (world y)))) in ED
    as [(n & e & Hn & -> & _ & Hi)|(n & y & Hn & [HRy Hi] & Ha & ->)].
  - left. eauto.
  - apply attempt_cases in Ha as [(? & _ & ?)|(req & y1 & rr & c & w & Eb & Ed & Ha)]; [done|].
    destruct (Hb _ _ _ HRy Eb) as (Hwd & Hq & _). destruct rr as [resp|]; [|naive_solver].
    destruct (retryableStatus _); [naive_solver|]. destruct Ha as [_ ->]. right. exists resp. split; [done|].
    cbn. eapply (HI req (world y1) (Ok resp)); [done|by rewrite Hwd|done..].
  - intros n y e y' [HRy Hi] Ha.
    apply attempt_cases in Ha as [(err & Eb & _)|(req & y1 & rr & c & w & Eb & Ed & Ha)];
      destruct (Hb _ _ _ HRy Eb) as (Hwd & Hrest); [by rewrite Hwd|].
    destruct Hrest as [Hq HR'].
    assert (Hi' : I (objects w)) by (eapply (HI req (world y1)); [done|by rewrite Hwd|done]).
    destruct rr as [resp|]; [destruct (retryableStatus _); [|naive_solver]|]; destruct Ha as [_ ->]; cbn; split; auto.
  - intros n d y [? ?]. cbn. by rewrite serve_sleep.
  - intros n q y [? ?]. cbn. by rewrite serve_random.
  - done.
Qed.

Lemma plain_exchange {A : Type} method key I J (k : response → res A) x r x' :
  (∀ req w r n w', addressed method key req → I (objects w) → Do req w = (r, n, w') →
     I (objects w') ∧ ∀ resp, r = Ok resp → J resp (objects w')) →
  I (objects (world x)) → exchange method (newSignedRequest method key None) k x = (r, x') →
  (∃ e, r = Returns (Err (EWrap ("storage: s3 " +:+ method +:+ ": " +:+ Error e) [e])) ∧ I (objects (world x'))) ∨
  (∃ resp, r = Returns (k resp) ∧ J resp (objects (world x'))).
Proof.
  intros HI H0. apply (exchange_objects (addressed method key) (λ _, True)); [|done..].
  intros y req y' _ Eb. destruct (newSignedRequest_builds _ _ _ _ _ _ Eb) as [-> Hq]. split; [done|].
  destruct req; [|done]. split; [apply Hq|done].
Qed.

Lemma put_objects key content n (R : upload → Prop) build x r x' u :
  objectURL s key = Ok u →
  (∀ y req y', R (reader y) → build y = (req, y') →
     world y' = world y ∧
     match req with
     | Ok req => put_request key content n req ∧ (∀ c, R (if streamed req then consumed c (reader y') else reader y'))
     | Err _ => R (reader y') end) →
  R (reader x) → budgeted n build x = (r, x') →
  let o := objects (world x) in
  let o' := <[(u_Host u, u_Path u) := content]> o in
  (objects (world x') = o ∨ objects (world x') = o') ∧
  (r = Returns (Ok tt) → objects (world x') = o' ∧ len content = n).
Proof.
  intros Hu Hb HR E. cbn zeta. unfold budgeted in E. destruct (acquire n x) as [w y] eqn:EA.
  assert (Hy : objects (world y) = objects (world x) ∧ reader y = reader x).
  { unfold acquire in EA. destruct (try_acquire _ _) as [[? ?]|]; [by simplify_eq|].
    pose proof (serve_wait laws (weight (sema x) n) (sema x) (world x)) as Hwt.
    destruct (wait _ _ _) as [[b|e] w0]; by simplify_eq. }
  destruct Hy as [Ho Hr]. destruct w as [wt|e]; [|simplify_eq; split; [by left; rewrite Ho|done]].
  destruct (exchange "PUT" build put_answer y) as [r0 y0] eqn:EX. simplify_eq. cbn [set_sema world].
  set (o' := <[_ := content]> _).
  apply (exchange_objects (put_request key content n) R (λ o, o = objects (world x) ∨ o = o')
    (λ resp o, (o = objects (world x) ∨ o = o') ∧ (ok_status resp = true → o = o' ∧ len content = n))) in EX
    as [(e & -> & Hi)|(resp & -> & Hi & Hok)]; [..|done| |by rewrite Hr|by rewrite Ho; left].
  - split; [done|]. done.
  - split; [done|]. unfold put_answer. destruct (ok_status resp) eqn:Es; [|done]. intros _. by apply Hok.
  - intros req w rr c w' ((u' & Hu' & Hm & Hh & Hp) & Hbody & Hlen) Hi ED.
    rewrite Hu in Hu'. injection Hu' as <-. subst content n.
    assert (Hst : ∀ o2, stored req (objects w) o2 → o2 = o' ∧ len (body req) = ContentLength req).
    { intros o2 [-> ?]. split; [|done]. unfold location. rewrite Hh, Hp. unfold o'.
      destruct Hi as [->| ->]; [done|]. unfold o'. by rewrite insert_insert_eq. }
    destruct (serve_PUT laws _ _ _ _ _ ED Hm) as [Heither Hsucc].
    assert (Hi' : objects w' = objects (world x) ∨ objects w' = o').
    { destruct Heither as [->|H1]; [done|]. right. by apply Hst. }
    split; [done|]. intros resp ->. split; [done|]. intros Es. by apply Hst, (Hsucc resp).
Qed.

Lemma addressed_location method key u req :
  objectURL s key = Ok u → addressed method key req →
  Method (http req) = method ∧ location req = (u_Host u, u_Path u).
Proof.
  intros Hu (u' & Hu' & Hm & Hh & Hp). rewrite Hu in Hu'. injection Hu' as <-. unfold location. by rewrite Hh, Hp.
Qed.

(** C30: the remote store keeps the promises of a store.  On an object store as
    documented, a key that names an object location behaves like an entry of a map:
    a [Put], whatever goes wrong, leaves the entry as it was or holding the whole
    artifact, and success means it holds the artifact, of exactly the declared size;
    [Open] and [Stat] change nothing, give the entry or its size, and report a
    missing object only if there is none; a successful [Delete] removes it.  No
    operation touches another location. *)
Theorem s3_refines_store key u x :
  objectURL s key = Ok u →
  let l := (u_Host u, u_Path u) in
  let obj y := objects (world y) in
  (∀ size r x', Put key size x = (r, x') →
     (obj x' = obj x ∨ obj x' = <[l := rest (reader x)]> (obj x)) ∧
     (r = Returns (Ok tt) →
      obj x' = <[l := rest (reader x)]> (obj x) ∧ (0 ≤ size → len (rest (reader x)) = size))) ∧
  (∀ r x', Open key x = (r, x') → obj x' = obj x ∧
     (∀ c, r = Returns (Ok c) → obj x !! l = Some c) ∧ (r = Returns (Err not_exist) → obj x !! l = None)) ∧
  (∀ r x', Stat key x = (r, x') → obj x' = obj x ∧
     (∀ n, r = Returns (Ok n) → ∃ c, obj x !! l = Some c ∧ len c = n) ∧
     (r = Returns (Err not_exist) → obj x !! l = None)) ∧
  (∀ r x', Delete key x = (r, x') →
     (obj x' = obj x ∨ obj x' = delete l (obj x)) ∧ (r = Returns (Ok tt) → obj x' = delete l (obj x))).
Proof.
  intros Hu. cbn zeta. split_and!.
  - intros size r x' E. unfold Put in E. destruct (_ <? size); [simplify_eq; split; [by left|done]|].
    destruct ((0 <=? size) && u_seeker (reader x)) eqn:Es.
    + apply andb_true_iff in Es as [Hs _]. unfold putStreaming in E.
      destruct (u_closed (reader x)); [simplify_eq; split; [by left|done]|].
      eapply (put_objects _ _ _ (holds (u_data (reader x)))) in E; [|done| |done].
      * destruct E as [? Hok]. split; [done|]. intros Hr. by destruct (Hok Hr).
      * intros y req y' Hh Eb. destruct (rewind_build_builds _ _ _ _ _ _ _ Hh Eb) as (? & ? & Hd & Hq).
        split; [unfold rewind_build, newStreamingRequest in Eb; destruct (u_closed _); by simplify_eq|].
        destruct req as [req|]; [|done]. split; [done|]. intros c. by destruct (streamed req).
    + destruct (putBuffered_cases _ _ _ _ _ E) as (y & _ & _ & Hwd & [(e & -> & ->)|(Hn & _ & EB)]);
        [rewrite Hwd; split; [by left|done]|].
      eapply (put_objects _ _ _ (λ _, True)) in EB; [|done| |done].
      * rewrite Hwd in EB. destruct EB as [? Hok]. split; [done|]. intros Hr. split; [by apply Hok|done].
      * intros z req z' _ Eb. destruct (newSignedRequest_builds _ _ _ _ _ _ Eb) as [-> Hq].
        split; [done|]. destruct req; [|done]. split; [|by intros]. by destruct Hq as (? & ? & ? & ?).
  - intros r x' E. eapply (plain_exchange "GET" key (λ o, o = objects (world x))
      (λ resp o, o = objects (world x) ∧ (StatusCode resp = 404 → o !! (u_Host u, u_Path u) = None) ∧
                 (ok_status resp = true → o !! (u_Host u, u_Path u) = Some (r_Body resp)))) in E; [| |done].
    + destruct E as [(e & -> & Hi)|(resp & -> & -> & H404 & Hok)]; [split_and!; [done|intros; by simplify_eq..]|].
      split; [done|]. unfold open_answer. destruct (Z.eqb_spec (StatusCode resp) 404); [split; [done|auto]|].
      destruct (ok_status resp); [|done]. split; [|done]. intros c Hc. simplify_eq. by apply Hok.
    + intros req w rr c w' Ha <- ED. destruct (addressed_location _ _ _ _ Hu Ha) as [Hm <-].
      destruct (serve_GET laws _ _ _ _ _ ED Hm) as (-> & H1 & H2).
      split; [done|]. intros resp ->. split_and!; eauto.
  - intros r x' E. eapply (plain_exchange "HEAD" key (λ o, o = objects (world x))
      (λ resp o, o = objects (world x) ∧ (StatusCode resp = 404 → o !! (u_Host u, u_Path u) = None) ∧
         (ok_status resp = true → 0 ≤ r_ContentLength resp →
          ∃ c, o !! (u_Host u, u_Path u) = Some c ∧ len c = r_ContentLength resp))) in E; [| |done].
    + destruct E as [(e & -> & Hi)|(resp & -> & -> & H404 & Hok)]; [split_and!; [done|intros; by simplify_eq..]|].
      split; [done|]. unfold stat_answer. destruct (Z.eqb_spec (StatusCode resp) 404); [split; [done|auto]|].
      destruct (ok_status resp); [|done]. cbn [negb]. destruct (Z.ltb_spec (r_ContentLength resp) 0); [done|].
      split; [|done]. intros m Hm. simplify_eq. by apply Hok.
    + intros req w rr c w' Ha <- ED. destruct (addressed_location _ _ _ _ Hu Ha) as [Hm <-].
      destruct (serve_HEAD laws _ _ _ _ _ ED Hm) as (-> & H1 & H2).
      split; [done|]. intros resp ->. split_and!; eauto.
  - intros r x' E. set (o := objects (world x)). set (l := (u_Host u, u_Path u)).
    eapply (plain_exchange "DELETE" key (λ o', o' = o ∨ o' = delete l o)
      (λ resp o', (o' = o ∨ o' = delete l o) ∧ (ok_status resp = true ∨ StatusCode resp = 404 → o' = delete l o)))
      in E; [| |by left].
    + destruct E as [(e & -> & Hi)|(resp & -> & Hi & Hok)]; [done|]. split; [done|]. unfold delete_answer.
      destruct (Z.eqb_spec (StatusCode resp) 404); [auto|]. destruct (ok_status resp); [auto|done].
    + intros req w rr c w' Ha Hi ED. destruct (addressed_location _ _ _ _ Hu Ha) as [Hm Hl].
      destruct (serve_DELETE laws _ _ _ _ _ ED Hm) as [Heither Hsucc]. rewrite Hl in *. fold l in Heither, Hsucc.
      assert (Hd : delete l (objects w) = delete l o).
      { destruct Hi as [->| ->]; [done|]. by rewrite delete_delete_eq. }
      rewrite Hd in *. split; [destruct Heither as [->|]; [done|by right]|]. intros resp ->.
      split; [destruct Heither as [->|]; [done|by right]|]. intros Hr. by apply (Hsucc resp).
Qed.
End server.

End operations.

(** ** The budget under concurrency *)

Definition zsum (l : list Z) : Z := foldr Z.add 0 l.

Lemma zsum_app l k : zsum (l ++ k) = zsum l + zsum k.
Proof. unfold zsum. induction l as [|x l IH]; [done|]. cbn. rewrite IH. lia. Qed.

Definition budget_inv (u : uploads) : Prop :=
  sem_ok (budget u) ∧ avail (budget u) + zsum (held u) = cap (budget u) ∧
  Forall (λ k, 0 ≤ k ≤ cap (budget u)) (held u).

Lemma try_acquire_inv b h w n k b' w' :
  try_acquire b n = Some (k, b') → budget_inv (mk_uploads b h w) → budget_inv (mk_uploads b' (k :: h) w').
Proof.
  unfold try_acquire. intros E (Hok & Hs & Hh). cbn in *. pose proof (weight_range b n Hok).
  destruct (Z.ltb_spec (avail b) (weight b n)); simplify_eq. unfold sem_ok in Hok.
  split_and!; [unfold sem_ok; cbn; lia|cbn; lia|]. constructor; [done|]. exact Hh.
Qed.

Lemma zsum_nonneg l c : Forall (λ k, 0 ≤ k ≤ c) l → 0 ≤ zsum l.
Proof. induction 1 as [|k l Hk _ IH]; cbn; [done|]. fold (zsum l). lia. Qed.

Lemma budget_step_inv u u' :
  budget_step u u' → budget_inv u → budget_inv u' ∧ cap (budget u') = cap (budget u).
Proof.
  assert (Hcap : ∀ b n k b', try_acquire b n = Some (k, b') → cap b' = cap b).
  { unfold try_acquire. intros b n k b'. destruct (_ <? _); [done|]. intros. by simplify_eq. }
  destruct 1; intros Hu.
  - split; [by eapply try_acquire_inv|by eapply Hcap].
  - split; [exact Hu|done].
  - split; [by eapply try_acquire_inv|by eapply Hcap].
  - split; [exact Hu|done].
  - split; [|done]. destruct Hu as (Hok & Hs & Hh). cbn in *. apply Forall_app in Hh as [Hh1 Hh].
    inversion Hh as [|? ? Hk Hh2]; subst. rewrite zsum_app in Hs. cbn in Hs. fold (zsum h2) in Hs.
    pose proof (zsum_nonneg _ _ Hh1). pose proof (zsum_nonneg _ _ Hh2). unfold sem_ok in Hok.
    assert (Hw : weight b k = k).
    { unfold weight. destruct (Z.ltb_spec k 0); [lia|]. destruct (Z.ltb_spec (cap b) k); lia. }
    unfold budget_inv, release, sem_ok. cbn. rewrite Hw, zsum_app.
    destruct (Z.ltb_spec (cap b) (avail b + k)); [lia|]. split_and!; [lia|lia|lia|]. by apply Forall_app.
Qed.

(** Concurrent uploads respect the byte budget and do not block each other for
    ever.  However goroutines enter, wait, give up, wake and leave, the weights held
    and the free budget add up to the capacity, so the uploads in flight never
    exceed it and releasing never over-fills it; and when nobody holds budget every
    request, of any size, gets through. *)
Theorem uploads_within_budget (capacity : Z) (u : uploads) :
  rtc budget_step (mk_uploads (newByteSemaphore capacity) [] []) u →
  let c := Z.max 1 capacity in
  cap (budget u) = c ∧ 0 ≤ zsum (held u) ≤ c ∧ avail (budget u) = c - zsum (held u) ∧
  (∀ k, k ∈ held u → release (budget u) k = mk_sem c (avail (budget u) + k)) ∧
  (held u = [] → ∀ n, is_Some (try_acquire (budget u) n)).
Proof.
  intros Hr. cbn zeta. set (c := Z.max 1 capacity).
  assert (Hinv : budget_inv u ∧ cap (budget u) = c).
  { assert (H0 : newByteSemaphore capacity = mk_sem c c).
    { unfold newByteSemaphore. destruct (Z.ltb_spec capacity 1); f_equal; lia. }
    rewrite H0 in Hr. remember (mk_uploads (mk_sem c c) [] []) as u0 eqn:E0.
    assert (Hi0 : budget_inv u0 ∧ cap (budget u0) = c).
    { subst u0. cbn. split; [|done]. split_and!; [unfold sem_ok; cbn; lia|cbn; lia|constructor]. }
    clear E0 H0. induction Hr as [|u0 u1 u2 Hs _ IH]; [done|]. apply IH.
    destruct Hi0 as [Hi Hc]. destruct (budget_step_inv _ _ Hs Hi) as [? ->]. done. }
  destruct Hinv as [(Hok & Hs & Hh) Hc]. pose proof (zsum_nonneg _ _ Hh). unfold sem_ok in Hok.
  rewrite Hc in *. split_and!; [done|lia|lia|lia| |].
  - intros k Hk. apply list_elem_of_split in Hk as (h1 & h2 & Eh). rewrite Eh in Hs, Hh.
    apply Forall_app in Hh as [Hh1 Hh]. inversion Hh as [|? ? Hk0 Hh2]; subst.
    rewrite zsum_app in Hs. cbn in Hs. fold (zsum h2) in Hs.
    pose proof (zsum_nonneg _ _ Hh1). pose proof (zsum_nonneg _ _ Hh2).
    unfold release, weight. rewrite Hc. destruct (Z.ltb_spec k 0); [lia|].
    destruct (Z.ltb_spec c k); [lia|]. destruct (Z.ltb_spec c (avail (budget u) + k)); [lia|done].
  - intros E n. rewrite E in Hs. cbn in Hs. unfold try_acquire.
    pose proof (weight_range (budget u) n ltac:(unfold sem_ok; lia)). rewrite Hc in *.
    destruct (Z.ltb_spec (avail (budget u)) (weight (budget u) n)); [lia|eauto].
Qed.

Lemma uploads_within_budget_witness :
  let u := mk_uploads (mk_sem 10 2) [8] [5] in
  rtc budget_step (mk_uploads (newByteSemaphore 10) [] []) u ∧ 0 ≤ zsum (held u) ≤ Z.max 1 10.
Proof.
  intros u. assert (Hr : rtc budget_step (mk_uploads (newByteSemaphore 10) [] []) u).
  { eapply rtc_l; [by apply (Enter_free _ _ _ 8 8 (mk_sem 10 2))|].
    eapply rtc_l; [by apply (Enter_wait _ _ _ 5)|]. apply rtc_refl. }
  split; [exact Hr|]. exact (proj1 (proj2 (uploads_within_budget 10 u Hr))).
Defined.

(** ** An instance: a store that is unavailable a few times *)

Definition toy_world : Type := gmap (string * string) string * list unit.

Definition toy_Do (req : s3_request) (w : toy_world) : res response * nat * toy_world :=
  let '(o, faults) := w in
  match faults with
  | _ :: faults => (Ok (mk_resp 503 "SlowDown" 8), String.length (body req), (o, faults))
  | [] =>
      let m := Method (http req) in
      if decide (m = "PUT") then
        if len (body req) =? ContentLength req
        then (Ok (mk_resp 200 "" 0), String.length (body req), (<[location req := body req]> o, []))
        else (Err (EURL "http: ContentLength mismatch" (ENew "mismatch")), 0%nat, w)
      else if decide (m = "DELETE") then (Ok (mk_resp 204 "" 0), 0%nat, (delete (location req) o, []))
      else match o !! location req with
           | Some c => (Ok (mk_resp 200 c (len c)), 0%nat, w)
           | None => (Ok (mk_resp 404 "" 0), 0%nat, w)
           end
  end.

Definition toy_wait (n : Z) (b : byteSemaphore) (w : toy_world) : res byteSemaphore * toy_world :=
  (Err (ESentinel ContextCanceled), w).

Definition sample_s3 : S3Storage :=
  mk_s3 (mk_url "http" "minio:9000" "" ∅) "artifacts" "us-east-1" (mk_creds "AKIA" "secret" "") true (newByteSemaphore 100).

Definition sample_state (closer : bool) (faults : list unit) : st (W := toy_world) :=
  mk_st (∅, faults) (mk_upload "artifact" 0 true closer false None) (newByteSemaphore 100) [] None.

Definition no_sleep (d : Z) (w : toy_world) : option error * toy_world := (None, w).
Definition no_jitter (q : Z) (w : toy_world) : Z * toy_world := (0, w).

#[local] Notation toy_Put := (Put (H := toy_digests) amd64 (λ _, mk_time 0 0) (λ _ _, None) toy_Do toy_wait
  (λ _, None) no_sleep no_jitter sample_s3 "uploads/a.apk" 8).

Lemma toy_laws : ServerLaws toy_Do toy_wait no_sleep no_jitter fst.
Proof.
  assert (Hget : ∀ req w r n w', toy_Do req w = (r, n, w') → Method (http req) ≠ "PUT" → Method (http req) ≠ "DELETE" →
    w'.1 = w.1 ∧ (∀ resp, r = Ok resp → StatusCode resp = 404 → w.1 !! location req = None) ∧
    (∀ resp, r = Ok resp → ok_status resp = true →
       w.1 !! location req = Some (r_Body resp) ∧ r_ContentLength resp = len (r_Body resp))).
  { intros req [o [|[] faults]] r n w' E Hp Hd; cbn [toy_Do] in E.
    - rewrite !decide_False in E by done. cbn. destruct (o !! location req); simplify_eq;
        (split_and!; [done|intros; by simplify_eq|intros; by simplify_eq]).
    - simplify_eq. split_and!; [done|intros; by simplify_eq|intros; by simplify_eq]. }
  split; [..|done|done|done].
  - intros req [o [|[] faults]] r n w' E Hm; cbn [toy_Do] in E.
    + rewrite decide_True in E by done. destruct (Z.eqb_spec (len (body req)) (ContentLength req)); simplify_eq; cbn.
      * split; [by right|by intros].
      * split; [by left|intros; by simplify_eq].
    + simplify_eq. split; [by left|intros; by simplify_eq].
  - intros req w r n w' E Hm. destruct (Hget _ _ _ _ _ E) as (? & ? & H2); [by rewrite Hm..|].
    split_and!; [done|done|]. intros resp Hr Hk. by apply (H2 resp Hr Hk).
  - intros req w r n w' E Hm. destruct (Hget _ _ _ _ _ E) as (? & ? & H2); [by rewrite Hm..|].
    split_and!; [done|done|]. intros resp Hr Hk _. destruct (H2 resp Hr Hk) as [-> ->]. eauto.
  - intros req [o [|[] faults]] r n w' E Hm; cbn [toy_Do] in E.
    + rewrite decide_False, decide_True in E by (by rewrite ?Hm). simplify_eq. cbn. split; [by right|done].
    + simplify_eq. split; [by left|]. intros resp ? [?|?]; by simplify_eq.
Qed.

Lemma toy_wait_ok : wait_ok toy_wait.
Proof. intros n b w b' w'. done. Qed.

(** Two refusals, then the object is stored. *)
Lemma put_sends_artifact_witness :
  let '(r, x) := toy_Put (sample_state false [tt; tt]) in
  r = Returns (Ok tt) ∧ length (sent x) = 3%nat ∧
  Forall (λ a, body a.1 = "artifact" ∧ ContentLength a.1 = 8) (sent x).
Proof.
  pose proof (put_sends_artifact (H := toy_digests) amd64 (λ _, mk_time 0 0) (λ _ _, None) toy_Do toy_wait
    (λ _, None) no_sleep no_jitter sample_s3 "uploads/a.apk" 8 (sample_state false [tt; tt])) as HP.
  assert (Hr : (toy_Put (sample_state false [tt; tt])).1 = Returns (Ok tt)) by (vm_compute; reflexivity).
  assert (Hn : length (sent (toy_Put (sample_state false [tt; tt])).2) = 3%nat) by (vm_compute; reflexivity).
  destruct (toy_Put (sample_state false [tt; tt])) as [r x] eqn:E.  cbn [fst snd] in Hr, Hn.
  destruct (HP r x ltac:(unfold sem_ok; vm_compute; split; congruence) toy_wait_ok eq_refl)
    as [(_ & (log & Hlog & _ & Hall & _) & _) _].
  split; [exact Hr|]. split; [exact Hn|]. rewrite Hlog. cbn [sent sample_state app].
  eapply Forall_impl; [exact Hall|]. intros a (_ & Hb & Hc). split; [exact Hb|exact Hc].
Defined.

Lemma s3_refines_store_witness :
  objectURL sample_s3 "uploads/a.apk" = Ok (mk_url "http" "minio:9000" "/artifacts/uploads/a.apk" ∅) ∧
  (world (toy_Put (sample_state false [tt])).2).1 =
    {[("minio:9000", "/artifacts/uploads/a.apk") := "artifact"]}.
Proof.
  split; [reflexivity|].
  destruct (s3_refines_store (H := toy_digests) amd64 (λ _, mk_time 0 0) (λ _ _, None) toy_Do toy_wait
    (λ _, None) no_sleep no_jitter sample_s3 fst toy_laws "uploads/a.apk" _ (sample_state false [tt]) eq_refl)
    as [HP _].
  assert (Hr : (toy_Put (sample_state false [tt])).1 = Returns (Ok tt)) by (vm_compute; reflexivity).
  destruct (toy_Put (sample_state false [tt])) as [r x] eqn:E.  cbn [fst snd] in Hr |- *.
  destruct (HP 8 r x E) as [_ Hok]. destruct (Hok Hr) as [Ho _]. exact Ho.
Defined.

(** The transport closes a body that is an [io.Closer], such as the file of a
    multipart form: after one transient failure the upload cannot be rewound, and it
    fails, while the same bytes from a reader that is not a closer are stored. *)
Theorem closed_upload_not_retried :
  (toy_Put (sample_state false [tt])).1 = Returns (Ok tt) ∧
  is_ok (match (toy_Put (sample_state true [tt])).1 with Returns r => r | Panics => Ok tt end) = false ∧
  length (sent (toy_Put (sample_state true [tt])).2) = 1%nat.
Proof. split_and!; vm_compute; reflexivity. Qed.
