(* ===== verification/Osv.v ===== *)
(** * OSV lookups ([osv/osv.go])

    Which components are looked up and how, the classification of severities, and
    the concurrent retrieval of the details, whose goroutines share a semaphore and
    a channel of fixed capacity.  HTTP, the rate limiter and JSON texts are
    parameters. *)
From Stdlib Require Import Ascii ZArith Relations.
From S2P Require Import Prelude GoStr GoErr GoFloat Sbom.

Local Open Scope Z_scope.

(** ** From package URLs to queries *)

(** [strings.Index] and slicing at it. *)
Definition cut_first (s : string) (c : ascii) : option (string * string) :=
  match Cut s c with (h, Some t) => Some (h, t) | (_, None) => None end.

(** The switch on the type: the ecosystem and the name of the package. *)
Definition osv_package (purlType path : string) : option (string * string) :=
  if decide (purlType = "maven") then
    match SplitN 2 path "/"%char with
    | [group; artifact] =>
        if bool_decide (group = "") || bool_decide (artifact = "") then None
        else Some ("Maven", group +:+ ":" +:+ artifact)
    | _ => None
    end
  else if decide (path = "") then None
  else if decide (purlType = "pub") then Some ("Pub", path)
  else if decide (purlType = "npm") then Some ("npm", path)
  else if decide (purlType = "swift") then Some ("SwiftURL", "https://" +:+ path)
  else None.

(** [(ecosystem, pkgName, version, ok)]; [None] is not ok. *)
Definition purlToOSV (purl : string) : option (string * string * string) :=
  if decide (purl = "") then None
  else match strip_prefix "pkg:" purl with
  | None => None
  | Some rest =>
      match cut_first rest "/"%char with
      | None => None
      | Some (purlType, nameAndVer) =>
          let '(path, ver) := cut_last nameAndVer "@"%char in
          if decide (ver = "") then None
          else (λ '(ecosystem, pkgName), (ecosystem, pkgName, ver)) <$> osv_package purlType path
      end
  end.

(** ** Severities *)

Definition truncate (s : string) (maxLen : nat) : string :=
  let rs := to_runes s in
  if Nat.leb (length rs) maxLen then s
  else of_runes (take (maxLen - 1) rs) +:+ "…".

(** A C, I or A metric with the given value. *)
Definition impact (v part : string) : bool :=
  match SplitN 2 part ":"%char with
  | [k; x] => bool_decide (k ∈ ["C"; "I"; "A"]) && bool_decide (x = v)
  | _ => false
  end.

Definition count_impacts (v vec : string) : nat :=
  length (filter (λ part, impact v part = true) (Split vec "/"%char)).

Definition severityFromVector (vec : string) : string :=
  let countH := count_impacts "H" vec in
  let countM := count_impacts "M" vec in
  let scopeChanged := Contains vec "S:C" in
  if (Nat.leb 3 countH && scopeChanged) || Nat.leb 4 countH then "critical"
  else if Nat.leb 2 countH || (Nat.leb 1 countH && scopeChanged) then "high"
  else if Nat.leb 1 countH || Nat.leb 2 countM then "medium"
  else if Nat.leb 1 countM then "low"
  else "unknown".

(** [osvVulnDetail]: the entries of [severity] are a type and a score. *)
Record osvVulnDetail := mk_detail {
  d_ID : string; d_Aliases : list string; d_Summary : string;
  d_Severity : list (string * string); d_DatabaseSpecific : option string }.

Record OSVVulnerability := mk_vuln {
  ID : string; Aliases : list string; SourceName : string; SourceURL : string; Summary : string;
  Severity : string; CVSS : string; CVSSVector : string; AffectedBomRef : string }.

Definition rank (label : string) : option Z :=
  if decide (label = "critical") then Some 5 else if decide (label = "high") then Some 4
  else if decide (label = "medium") then Some 3 else if decide (label = "low") then Some 2
  else if decide (label = "none") then Some 1 else None.

Definition float_le (a b : spec_float) : bool :=
  match SFcompare a b with Some Lt | Some Eq => true | _ => false end.
Definition float_lt (a b : spec_float) : bool :=
  match SFcompare a b with Some Lt => true | _ => false end.

Section severity.
(** [fmt.Sscanf(s, "%f", &f)]: the value of [f] afterwards. *)
Context (Sscanf_f : string → spec_float).

Definition scoreToLabel (s : string) : string :=
  let f := Sscanf_f s in
  if float_le (float_of_Z 9) f then "critical"
  else if float_le (float_of_Z 7) f then "high"
  else if float_le (float_of_Z 4) f then "medium"
  else if float_lt (float_of_Z 0) f then "low"
  else "unknown".

(** [(label, score, vec)] *)
Definition parseCVSS (typ scoreField : string) : string * string * string :=
  if negb (Contains scoreField "/") then (scoreToLabel scoreField, scoreField, "")
  else (severityFromVector scoreField, "", scoreField).

(** One iteration: the best rank so far and [(sev, score, vec)]. *)
Definition better (st : Z * (string * string * string)) (s : string * string)
    : Z * (string * string * string) :=
  let '(label, sc, v) := parseCVSS s.1 s.2 in
  match rank label with
  | Some r => if st.1 <? r then (r, (label, sc, v)) else st
  | None => st
  end.

Definition resolveSeverity (d : osvVulnDetail) : string * string * string :=
  (foldl better (-1, ("", "", "")) (d_Severity d)).2.

(** The vulnerability made of a decoded detail. *)
Definition vuln_of_detail (detail : osvVulnDetail) : OSVVulnerability :=
  let '(sev, score, vec) := resolveSeverity detail in
  let sev := match d_DatabaseSpecific detail with
             | Some s => if bool_decide (sev = "") && nonempty s then ToLower s else sev
             | None => sev
             end in
  let sev := if decide (sev = "") then "unknown" else sev in
  mk_vuln (d_ID detail) (d_Aliases detail) "OSV" ("https://osv.dev/vulnerability/" +:+ d_ID detail)
    (truncate (d_Summary detail) 256) sev score vec "".

End severity.

(** ** The client *)

Record osvQuery := mk_query { q_name : string; q_ecosystem : string; q_version : string }.

Definition osvMaxResponseBody : nat := 1048576.

Section client.
Context (Sscanf_f : string → spec_float).
(** The environment, [http.NewRequestWithContext] on a URL, and the JSON texts of
    a batch of queries, of its response (the ids per result) and of a detail. *)
Context (Getenv : string → string) (NewRequest : string → option error)
  (Marshal_queries : list osvQuery → res string) (Unmarshal_batch : string → res (list (list string)))
  (Unmarshal_detail : string → res osvVulnDetail).
(** The world: waiting for the rate limiter, and an exchange (method, URL, body)
    that gives a status and the body, or why the body could not be read. *)
Context {W : Type} (limiter_Wait : W → option error * W)
  (http_Do : string → string → string → W → res (Z * res string) * W).
Context (baseURL : string).

Definition IsEnabled : bool := bool_decide (Getenv "MORF_ENABLE_OSV" = "true").

(** [fmt.Errorf(msg + ": %w", e)] *)
Definition wrap (msg : string) (e : error) : error := EWrap (msg +:+ ": " +:+ Error e) [e].

(** What both calls do: build, wait, exchange, check, read at most a megabyte. *)
Definition call (name method url body : string) (status_error : Z → error) (w : W) : res string * W :=
  match NewRequest url with
  | Some e => (Err (wrap (name +:+ " build req") e), w)
  | None =>
      let '(lim, w) := limiter_Wait w in
      match lim with
      | Some e => (Err (wrap "osv rate limit" e), w)
      | None =>
          let '(r, w) := http_Do method url body w in
          (match r with
           | Err e => Err (wrap (name +:+ " do") e)
           | Ok (status, text) =>
               if negb (status =? 200) then Err (status_error status)
               else match text with
                    | Err e => Err (wrap (name +:+ " read body") e)
                    | Ok text => Ok (take_str osvMaxResponseBody text)
                    end
           end, w)
      end
  end.

(** [out[i]] for every query: the ids of the result with its index, blank ones
    dropped; results beyond the queries are ignored. *)
Definition queryBatch (queries : list osvQuery) (w : W) : res (list (list string)) * W :=
  match Marshal_queries queries with
  | Err e => (Err (wrap "osv querybatch marshal" e), w)
  | Ok body =>
      let '(r, w) := call "osv querybatch" "POST" (baseURL +:+ "/v1/querybatch") body
        (λ status, ENew ("osv querybatch status " +:+ itoa status)) w in
      (match r with
       | Err e => Err e
       | Ok text =>
           match Unmarshal_batch text with
           | Err e => Err (wrap "osv querybatch unmarshal" e)
           | Ok results =>
               let results := take (length queries) results in
               Ok ((filter (λ id, id ≠ "") <$> results) ++
                   replicate (length queries - length results) [])
           end
       end, w)
  end.

Definition fetchVuln (id : string) (w : W) : res OSVVulnerability * W :=
  let '(r, w) := call "osv fetchVuln" "GET" (baseURL +:+ "/v1/vulns/" +:+ id) ""
    (λ status, ENew ("osv fetchVuln status " +:+ itoa status +:+ " for " +:+ id)) w in
  (match r with
   | Err e => Err e
   | Ok text =>
       match Unmarshal_detail text with
       | Err e => Err (wrap ("osv fetchVuln unmarshal " +:+ id) e)
       | Ok detail => Ok (vuln_of_detail Sscanf_f detail)
       end
   end, w).

(** ** The retrieval of the details *)

(** [work]: the components that can be looked up, with their queries. *)
Definition work_list (components : list SBOMComponent) : list (SBOMComponent * osvQuery) :=
  omap (λ comp, (λ '(eco, name, ver), (comp, mk_query name eco ver)) <$> purlToOSV (Purl comp)) components.

(** What the first part decides: nothing to do, or the capacity of the result
    channel and the lookups to make, with the reference each is for. *)
Definition plan (components : list SBOMComponent) (w : W) : option (nat * list (string * string)) * W :=
  let work := work_list components in
  if decide (work = []) then (None, w)
  else
    let '(r, w) := queryBatch work.*2 w in
    match r with
    | Err _ => (None, w)
    | Ok ids =>
        let pending := filter (λ p, p.2 ≠ []) (zip work ids) in
        if decide (pending = []) then (None, w)
        else (Some ((length pending * 4)%nat,
                    '(p, vulnIDs) ← pending; (λ id, (id, BomRef p.1)) <$> vulnIDs), w)
    end.

End client.

Definition osvMaxConcurrency : nat := 4.

(** The goroutines: lookups not started, running, and finished ones that have to
    send their result, and what is in the channel.  A lookup is represented by what
    it will give: a vulnerability, or nothing when it fails. *)
Record fan := mk_fan {
  todo : list (option OSVVulnerability);
  running : list (option OSVVulnerability);
  sending : list OSVVulnerability;
  channel : list OSVVulnerability }.

(** One step of some goroutine, for a result channel of capacity [cap].  The loop
    starts a lookup when the semaphore has a slot; a slot is held until the
    goroutine returns, which a successful one does after sending. *)
Inductive fan_step (cap : nat) : fan → fan → Prop :=
  | step_start o t r s c :
      (length r + length s < osvMaxConcurrency)%nat →
      fan_step cap (mk_fan (o :: t) r s c) (mk_fan t (r ++ [o]) s c)
  | step_fail t r1 r2 s c :
      fan_step cap (mk_fan t (r1 ++ None :: r2) s c) (mk_fan t (r1 ++ r2) s c)
  | step_fetched t r1 v r2 s c :
      fan_step cap (mk_fan t (r1 ++ Some v :: r2) s c) (mk_fan t (r1 ++ r2) (s ++ [v]) c)
  | step_send t r s1 v s2 c :
      (length c < cap)%nat →
      fan_step cap (mk_fan t r (s1 ++ v :: s2) c) (mk_fan t r (s1 ++ s2) (c ++ [v])).

Definition fan_start (items : list (option OSVVulnerability)) : fan := mk_fan items [] [] [].

(** [wg.Wait] returns: every lookup was started and has returned. *)
Definition fan_done (f : fan) : Prop := todo f = [] ∧ running f = [] ∧ sending f = [].
Definition stuck (cap : nat) (f : fan) : Prop := ∀ f', ¬ fan_step cap f f'.

(** ** Which components are looked up *)

Lemma cut_first_versioned rest v ty path :
  cut_first rest "/"%char = Some (ty, path) → cut_first (versioned rest v) "/"%char = Some (ty, versioned path v).
Proof.
  unfold versioned. case_decide as Hv; [done|]. clear Hv. change ("@" +:+ v) with (String "@"%char v). revert ty path.
  induction rest as [|c rest IH]; intros ty path; [done|]. unfold cut_first. cbn.
  case_decide; [by intros [= <- <-]|].
  unfold cut_first in IH. destruct (Cut rest "/"%char) as [h [t|]] eqn:E; [|done].
  intros [= <- <-]. specialize (IH h t eq_refl).
  destruct (Cut (rest +:+ String "@"%char v) "/"%char) as [h' [t'|]]; by simplify_eq.
Qed.

Lemma purlToOSV_versioned rest v ty path :
  cut_first rest "/"%char = Some (ty, path) → no_at path → no_at v → v ≠ "" →
  purlToOSV (versioned ("pkg:" +:+ rest) v) =
  (λ '(ecosystem, pkgName), (ecosystem, pkgName, v)) <$> osv_package ty path.
Proof.
  intros Hc Hp Hv Hne. unfold purlToOSV.
  assert (versioned ("pkg:" +:+ rest) v = "pkg:" +:+ versioned rest v) as ->.
  { unfold versioned. case_decide; [done|]. by rewrite string_app_assoc. }
  rewrite decide_False by done. rewrite strip_prefix_app.
  rewrite (cut_first_versioned _ _ _ _ Hc), cut_last_versioned by done. by rewrite decide_False.
Qed.

Lemma cut_first_no_at s c h t : cut_first s c = Some (h, t) → no_at s → no_at t.
Proof.
  unfold cut_first, no_at. revert h t. induction s as [|x s IH]; intros h t; [done|]. cbn.
  destruct (LastIndexByte s "@"%char) as [i|] eqn:E; [done|]. case_decide; [by intros [= <- <-]|].
  destruct (Cut s c) as [h' [t'|]] eqn:E'; [|done]. intros [= <- <-] _. by eapply IH.
Qed.

Lemma purlToOSV_unversioned rest : no_at rest → purlToOSV ("pkg:" +:+ rest) = None.
Proof.
  intros Hr. unfold purlToOSV. rewrite decide_False by done. rewrite strip_prefix_app.
  destruct (cut_first rest "/"%char) as [[ty path]|] eqn:E; [|done].
  unfold cut_last. rewrite (cut_first_no_at _ _ _ _ E Hr). by rewrite decide_True.
Qed.

(** What a coordinate is looked up as, from its parts. *)
Definition osv_of_parts (ty : string) (ns : list string) (nm : string) : option (string * string) :=
  if decide (ty = "maven") then Some ("Maven", Join (ns ++ [nm]) ":")
  else if decide (ty = "swift") then Some ("SwiftURL", "https://" +:+ Join (ns ++ [nm]) "/")
  else None.

Definition lookup_ok (c : option (string * string)) : Prop :=
  match c with
  | Some (base, _) =>
      match strip_prefix "pkg:" base with
      | Some rest =>
          match cut_first rest "/"%char, parse_purl base with
          | Some (ty, path), Some (ty', ns, nm, _) =>
              no_at path ∧ base = "pkg:" +:+ rest ∧ osv_package ty path = osv_of_parts ty' ns nm
          | _, _ => False
          end
      | None => False
      end
  | None => False
  end.
#[local] Instance lookup_ok_dec c : Decision (lookup_ok c).
Proof.
  unfold lookup_ok, no_at. destruct c as [[base group]|]; [|apply _].
  destruct (strip_prefix "pkg:" base) as [rest|]; [|apply _].
  destruct (cut_first rest "/"%char) as [[ty path]|]; [|apply _].
  destruct (parse_purl base) as [[[[ty' ns] nm] v]|]; apply _.
Defined.

Lemma table_lookup_ok name e hinted : purlTable !! name = Some e → lookup_ok (coordinate e hinted).
Proof.
  intros H.
  assert (Hall : map_Forall (λ _ e, lookup_ok (coordinate e true) ∧ lookup_ok (coordinate e false)) purlTable).
  { apply (bool_decide_unpack _). by vm_compute. }
  destruct (Hall name e H). by destruct hinted.
Qed.

(** Curated coordinates are looked up as what they are.  A component whose
    package URL comes from the curated map is looked up under its Maven group and
    artifact or its Swift repository, with its own version; CocoaPods coordinates
    and generic package URLs are never looked up, and neither is anything without
    a version. *)
Theorem lookup_of_component (name bundleID version : string) :
  no_at version → version ≠ "" →
  let '(purl, _, matched) := PurlFor name bundleID version in
  (matched = true → ∃ ty ns nm, parse_purl purl = Some (ty, ns, nm, version) ∧
     purlToOSV purl = (λ '(ecosystem, pkgName), (ecosystem, pkgName, version)) <$> osv_of_parts ty ns nm) ∧
  purlToOSV (genericPurl name version) = None ∧
  (∀ rest, no_at rest → purlToOSV ("pkg:" +:+ rest) = None).
Proof.
  intros Hv Hne. rewrite PurlFor_coordinate.
  assert (Hgen : purlToOSV (genericPurl name version) = None).
  { unfold genericPurl. case_decide as Hn; [done|].
    change ("pkg:generic/" +:+ name) with ("pkg:" +:+ ("generic/" +:+ name)).
    assert (Hc : cut_first ("generic/" +:+ name) "/"%char = Some ("generic", name)) by done.
    unfold purlToOSV. rewrite decide_False by (unfold versioned; by case_decide).
    assert (versioned ("pkg:" +:+ ("generic/" +:+ name)) version = "pkg:" +:+ versioned ("generic/" +:+ name) version) as ->.
    { unfold versioned. case_decide; [done|]. by rewrite string_app_assoc. }
    rewrite strip_prefix_app, (cut_first_versioned _ _ _ _ Hc).
    destruct (cut_last _ _) as [path ver]. case_decide; [done|]. unfold osv_package.
    rewrite decide_False by done. by case_decide. }
  pose proof purlToOSV_unversioned as Hnov.
  destruct (purlTable !! name) as [e|] eqn:E; [|by split_and!].
  pose proof (table_lookup_ok name e (bundleIDIsCocoaPods bundleID) E) as H.
  pose proof (table_ok name e (bundleIDIsCocoaPods bundleID) E) as H'.
  destruct (coordinate e _) as [[base group]|]; [|done]. destruct H' as [Hb _]. unfold lookup_ok in H.
  destruct (strip_prefix "pkg:" base) as [rest|]; [|done].
  destruct (cut_first rest "/"%char) as [[ty path]|] eqn:Ec; [|done].
  destruct (parse_purl base) as [[[[ty' ns] nm] v0]|] eqn:Ep; [|done]. destruct H as (Hp & Hbase & Ho).
  split_and!; [|done|done]. intros _. exists ty', ns, nm. split; [by eapply parse_versioned|].
  rewrite Hbase, (purlToOSV_versioned _ _ _ _ Ec) by done. by rewrite Ho.
Qed.

Lemma lookup_of_component_witness :
  (PurlFor "okhttp" "" "4.9.0").2 = true ∧
  purlToOSV (PurlFor "okhttp" "" "4.9.0").1.1 = Some ("Maven", "com.squareup.okhttp3:okhttp", "4.9.0") ∧
  purlToOSV (genericPurl "okhttp" "4.9.0") = None.
Proof.
  split; [by vm_compute|]. split; [by vm_compute|].
  assert (Hne : "4.9.0" ≠ "") by done.
  pose proof (lookup_of_component "okhttp" "" "4.9.0" eq_refl Hne) as H. revert H.
  destruct (PurlFor "okhttp" "" "4.9.0") as [[purl group] matched]. intros (_ & H & _). exact H.
Defined.

(** ** The retrieval ends *)

(** The vulnerabilities among a list of lookups. *)
Definition found (l : list (option OSVVulnerability)) : list OSVVulnerability := omap id l.

Lemma found_app l k : found (l ++ k) = found l ++ found k.
Proof. apply omap_app. Qed.

Definition fan_measure (f : fan) : nat :=
  3 * length (todo f) + 2 * length (running f) + length (sending f).

Definition fan_all (f : fan) : list OSVVulnerability :=
  found (todo f) ++ found (running f) ++ sending f ++ channel f.

Lemma fan_step_measure cap f f' : fan_step cap f f' → (fan_measure f' < fan_measure f)%nat.
Proof. destruct 1; unfold fan_measure; cbn; rewrite ?length_app; cbn; lia. Qed.

Lemma fan_step_all cap f f' : fan_step cap f f' → fan_all f' ≡ₚ fan_all f.
Proof.
  destruct 1; unfold fan_all; cbn [todo running sending channel]; rewrite ?found_app.
  - destruct o; cbn; rewrite ?app_nil_r; [|done]. solve_Permutation.
  - done.
  - cbn. solve_Permutation.
  - solve_Permutation.
Qed.

Lemma fan_step_cap cap f f' :
  fan_step cap f f' → (length (channel f) ≤ cap)%nat → (length (channel f') ≤ cap)%nat.
Proof. destruct 1; cbn; rewrite ?length_app; cbn; lia. Qed.

Lemma fan_reach cap items f : rtc (fan_step cap) (fan_start items) f →
  fan_all f ≡ₚ found items ∧ (length (channel f) ≤ cap)%nat.
Proof.
  intros H. pattern f. revert f H. apply rtc_ind_r.
  - unfold fan_all, fan_start. cbn. rewrite app_nil_r. split; [done|lia].
  - intros f1 f2 _ Hs [Ha Hc]. split; [by rewrite (fan_step_all _ _ _ Hs)|by eapply fan_step_cap].
Qed.

(** Where the goroutines can be stuck: a result to send and a full channel. *)
Lemma stuck_cases cap f :
  stuck cap f → fan_done f ∨ (sending f ≠ [] ∧ (cap ≤ length (channel f))%nat).
Proof.
  intros Hs. destruct f as [t r s c]. destruct r as [|[v|] r].
  - destruct s as [|v s].
    + destruct t as [|o t]; [by left|]. destruct (Hs (mk_fan t [o] [] c)).
      apply (step_start cap o t [] [] c). cbn. unfold osvMaxConcurrency. lia.
    + right. split; [done|]. cbn. destruct (decide (cap ≤ length c)%nat) as [|Hn]; [done|].
      destruct (Hs (mk_fan t [] s (c ++ [v]))). apply (step_send cap t [] [] v s c). lia.
  - destruct (Hs (mk_fan t r (s ++ [v]) c)). apply (step_fetched cap t [] v r s c).
  - destruct (Hs (mk_fan t r s c)). apply (step_fail cap t [] r s c).
Qed.

Lemma done_stuck cap f : fan_done f → stuck cap f.
Proof.
  destruct f as [t r s c]. unfold fan_done. cbn. intros (-> & -> & ->) f' Hs.
  inversion Hs as [| ? r1 | ? r1 | ? ? s1]; destruct_or?; try (by destruct r1); by destruct s1.
Qed.

(** The retrieval of vulnerability details ends exactly when its channel is
    large enough.  The goroutines make at most three steps per lookup in any
    interleaving; when none of them can move any more, all have returned if and
    only if at most [cap] lookups succeeded, and then the channel holds exactly the
    vulnerabilities found.  With more successes than the channel holds, every
    interleaving ends with goroutines blocked on the channel nobody reads, and the
    call never returns. *)
Theorem retrieval_ends_iff (cap : nat) (items : list (option OSVVulnerability)) (f : fan) :
  rtc (fan_step cap) (fan_start items) f →
  (∀ n, nsteps (fan_step cap) n (fan_start items) f → (n ≤ 3 * length items)%nat) ∧
  (fan_done f → stuck cap f ∧ channel f ≡ₚ found items) ∧
  (stuck cap f → fan_done f ↔ (length (found items) ≤ cap)%nat).
Proof.
  intros Hr. destruct (fan_reach _ _ _ Hr) as [Ha Hc].
  assert (Hd : fan_done f → channel f ≡ₚ found items).
  { intros (Ht & Hrun & Hs). rewrite <- Ha. unfold fan_all. by rewrite Ht, Hrun, Hs. }
  split_and!.
  - intros n Hn. assert (Hm : (n + fan_measure f ≤ fan_measure (fan_start items))%nat).
    { clear Hr Ha Hc Hd. revert Hn. generalize (fan_start items) as f0.
      induction n as [|n IH]; intros f0 Hn; inversion Hn as [|? ? f1 ? Hs Hn']; subst; [lia|].
      specialize (IH f1 Hn'). pose proof (fan_step_measure _ _ _ Hs). lia. }
    unfold fan_measure, fan_start in Hm. cbn in Hm. lia.
  - intros Hf. split; [by apply done_stuck|by apply Hd].
  - intros Hst. split; [intros Hf; by rewrite <- (Hd Hf)|]. intros Hle.
    destruct (stuck_cases _ _ Hst) as [|[Hs Hfull]]; [done|].
    apply Permutation_length in Ha. unfold fan_all in Ha. rewrite !length_app in Ha.
    destruct (sending f); [done|]. cbn in Ha. lia.
Qed.

Definition sample_vuln (id : string) : OSVVulnerability := mk_vuln id [] "OSV" "" "" "high" "" "" "native:x".

(** Two lookups, one of which fails; a channel of four. *)
Lemma retrieval_ends_iff_witness :
  rtc (fan_step 4) (fan_start [Some (sample_vuln "CVE-1"); None])
    (mk_fan [] [] [] [sample_vuln "CVE-1"]) ∧
  stuck 4 (mk_fan [] [] [] [sample_vuln "CVE-1"]) ∧
  channel (mk_fan [] [] [] [sample_vuln "CVE-1"]) ≡ₚ [sample_vuln "CVE-1"].
Proof.
  assert (Hr : rtc (fan_step 4) (fan_start [Some (sample_vuln "CVE-1"); None])
    (mk_fan [] [] [] [sample_vuln "CVE-1"])).
  { set (v := sample_vuln "CVE-1").
    eapply rtc_l; [apply (step_start 4 (Some v) [None] [] [] []); cbn; unfold osvMaxConcurrency; lia|].
    eapply rtc_l; [apply (step_start 4 None [] [Some v] [] []); cbn; unfold osvMaxConcurrency; lia|].
    eapply rtc_l; [apply (step_fetched 4 [] [] v [None] [] [])|].
    eapply rtc_l; [apply (step_fail 4 [] [] [] [v] [])|].
    eapply rtc_l; [apply (step_send 4 [] [] [] v [] []); cbn; lia|]. apply rtc_refl. }
  split; [exact Hr|].
  exact (proj1 (proj2 (retrieval_ends_iff 4 _ _ Hr)) (conj eq_refl (conj eq_refl eq_refl))).
Defined.

(** The channel is made for four results per component with findings: a component
    with five known vulnerabilities blocks the export for good. *)
Theorem five_vulnerabilities_block f :
  let items := Some <$> (sample_vuln <$> ["CVE-1"; "CVE-2"; "CVE-3"; "CVE-4"; "CVE-5"]) in
  rtc (fan_step (1 * 4)) (fan_start items) f → ¬ fan_done f.
Proof.
  intros items Hr Hd. destruct (fan_reach _ _ _ Hr) as [Ha Hc]. destruct Hd as (Ht & Hrun & Hs).
  unfold fan_all in Ha. rewrite Ht, Hrun, Hs in Ha. cbn [found omap list_omap app] in Ha.
  apply Permutation_length in Ha. cbn in Ha. lia.
Qed.

(** ** Severities *)

(** The entries of a detail that have a known label, with their ranks. *)
Definition ranked (Sscanf_f : string → spec_float) (d : osvVulnDetail) : list (Z * (string * string * string)) :=
  omap (λ s, let p := parseCVSS Sscanf_f s.1 s.2 in (λ r, (r, p)) <$> rank p.1.1) (d_Severity d).

Lemma better_spec Sscanf_f l st :
  foldl (better Sscanf_f) st l =
  foldl (λ st p, if st.1 <? p.1 then p else st) st
    (omap (λ s, let p := parseCVSS Sscanf_f s.1 s.2 in (λ r, (r, p)) <$> rank p.1.1) l).
Proof.
  revert st. induction l as [|s l IH]; intros st; [done|]. cbn -[parseCVSS rank]. rewrite IH. unfold better.
  destruct (parseCVSS Sscanf_f s.1 s.2) as [[label sc] v]. cbn. by destruct (rank label).
Qed.

Lemma foldl_first_max {A} (l : list (Z * A)) st :
  let r := foldl (λ st p, if st.1 <? p.1 then p else st) st l in
  (∀ p, p ∈ l → p.1 ≤ r.1) ∧ st.1 ≤ r.1 ∧
  (r = st ∨ ∃ l1 l2, l = l1 ++ r :: l2 ∧ st.1 < r.1 ∧ ∀ p, p ∈ l1 → p.1 < r.1).
Proof.
  cbv zeta. revert st. induction l as [|x l IH]; intros st; cbn [foldl].
  { split_and!; [by intros p ?%elem_of_nil|lia|by left]. }
  specialize (IH (if st.1 <? x.1 then x else st)).
  set (r := foldl _ (if st.1 <? x.1 then x else st) l) in *. destruct IH as (H1 & H2 & H3).
  destruct (Z.ltb_spec st.1 x.1) as [Hlt|Hge].
  - split_and!; [|lia|].
    + intros p [->|Hp]%elem_of_cons; [done|auto].
    + destruct H3 as [->|(l1 & l2 & El & Hr & Hp)]; [right; exists [], l; split_and!; [done|done|by intros p ?%elem_of_nil]|].
      right. exists (x :: l1), l2. rewrite El. split_and!; [done|lia|].
      intros p [->|Hin]%elem_of_cons; [lia|auto].
  - split_and!; [|done|].
    + intros p [->|Hp]%elem_of_cons; [lia|auto].
    + destruct H3 as [->|(l1 & l2 & El & Hr & Hp)]; [by left|]. right. exists (x :: l1), l2. rewrite El.
      split_and!; [done|done|]. intros p [->|Hin]%elem_of_cons; [lia|auto].
Qed.

Lemma rank_pos label r : rank label = Some r → 1 ≤ r.
Proof. unfold rank. repeat case_decide; intros [= <-]; lia. Qed.

(** The reported severity is the worst one.  The label, score and vector of a
    vulnerability are those of the first entry of its record whose rank no other
    entry exceeds; without a ranked entry the severity is the database's own, in
    lower case, or "unknown". *)
Theorem worst_severity_reported (Sscanf_f : string → spec_float) (d : osvVulnDetail) :
  let v := vuln_of_detail Sscanf_f d in
  let l := ranked Sscanf_f d in
  (l = [] ∧ CVSS v = "" ∧ CVSSVector v = "" ∧
   Severity v = match d_DatabaseSpecific d with
                | Some s => if decide (s = "") then "unknown"
                            else if decide (ToLower s = "") then "unknown" else ToLower s
                | None => "unknown"
                end) ∨
  (∃ l1 r l2, l = l1 ++ (r, (Severity v, CVSS v, CVSSVector v)) :: l2 ∧
     rank (Severity v) = Some r ∧
     (∀ p, p ∈ l1 → p.1 < r) ∧ (∀ p, p ∈ l → p.1 ≤ r)).
Proof.
  cbv zeta. unfold vuln_of_detail, resolveSeverity. rewrite better_spec.
  change (omap _ (d_Severity d)) with (ranked Sscanf_f d).
  assert (Hrank : ∀ p, p ∈ ranked Sscanf_f d → rank p.2.1.1 = Some p.1).
  { unfold ranked. intros p (s & _ & E)%list_elem_of_omap. cbn -[rank parseCVSS] in E.
    destruct (rank _) eqn:Er; [|done]. by simplify_eq/=. }
  destruct (foldl_first_max (ranked Sscanf_f d) (-1, ("", "", ""))) as (H1 & H2 & H3).
  destruct H3 as [E|(l1 & l2 & El & Hr & Hp)].
  - rewrite E in *. cbn [fst snd] in *. left.
    assert (Hl : ranked Sscanf_f d = []).
    { destruct (ranked Sscanf_f d) as [|p l] eqn:El; [done|].
      assert (Hin : p ∈ p :: l) by left. pose proof (rank_pos _ _ (Hrank p Hin)).
      pose proof (H1 p Hin). lia. }
    rewrite bool_decide_eq_true_2 by done. cbn [Severity CVSS CVSSVector andb].
    split_and!; [done|done|done|]. destruct (d_DatabaseSpecific d) as [s|]; [|done].
    unfold nonempty. rewrite bool_decide_decide. by destruct (decide (s = "")).
  - set (p := foldl _ _ _) in *. destruct p as [r [[sev sc] v]]. right. cbn [snd].
    assert (Hrk : rank sev = Some r) by (apply (Hrank (r, (sev, sc, v))); rewrite El; set_solver).
    assert (Hs : sev ≠ "") by (by intros ->).
    rewrite (bool_decide_eq_false_2 (sev = "")) by done. cbn [andb].
    exists l1, r, l2. split_and!.
    + rewrite El. cbn [Severity CVSS CVSSVector]. destruct (d_DatabaseSpecific d); by rewrite decide_False.
    + cbn [Severity]. destruct (d_DatabaseSpecific d); by rewrite decide_False.
    + done.
    + done.
Qed.
