(* ===== verification/Report.v ===== *)
(** * Reports ([report/sarif.go], [models/PlatformFinding.go])

    Masking of stored results before they leave the API, and the SARIF document of
    a scan.  JSON text is a parameter; the decoded envelope and the document are
    modelled. *)
From Stdlib Require Import ZArith.
From S2P Require Import Prelude GoStr GoErr GoFloat GoJson Detect Crypto.

Local Open Scope Z_scope.

(** ** Levels and tiers *)

Definition SeverityInfo : string := "info".
Definition SeverityLow : string := "low".
Definition SeverityMedium : string := "medium".
Definition SeverityHigh : string := "high".

Definition TierForSeverity (s : string) : string :=
  if decide (s = SeverityHigh) then "keep" else "info".

Definition levelForTier (tier : string) : string :=
  if decide (tier = "keep") then "error" else if decide (tier = "info") then "note" else "warning".

Definition levelForPlatformSeverity (severity : string) : string :=
  if decide (severity = SeverityHigh) then "error"
  else if decide (severity = SeverityInfo) then "note" else "warning".

(** ** Masking *)

(** This package's [maskSecret]. *)
Definition maskSecret (value : string) : string :=
  let rs := to_runes value in
  let n := Z.of_nat (length rs) in
  if n =? 0 then ellipsis
  else
    let first := if n <? 4 then n else 4 in
    let last := if n <? first + 2 then 0 else 2 in
    of_runes (take (Z.to_nat first) rs) +:+ ellipsis +:+
    (if 0 <? last then of_runes (drop (Z.to_nat (n - last)) rs) else "").

(** The body of the loops over a list of secrets. *)
Definition mask_item (v : json) : json :=
  match v with
  | JObject m =>
      match get m "secretString" with
      | JString s => JObject (adjust "secretString" (λ _, JString (maskSecret s)) m)
      | _ => v
      end
  | _ => v
  end.

Definition mask_list (v : json) : json :=
  match v with JArray l => JArray (mask_item <$> l) | _ => v end.

Definition mask_data (v : json) : json :=
  match v with JObject data => JObject (adjust "secrets" mask_list data) | _ => v end.

Definition mask_result (env : object) : object := adjust "data" mask_data env.

Definition mask_comparison (env : object) : object :=
  foldl (λ env key, adjust key mask_list env) env ["added"; "removed"; "unchanged"].

Section json_text.
(** [json.Unmarshal] into a map ([None]: the text is [null] and the map stays
    nil), and [json.Marshal]. *)
Context (Unmarshal : string → res (option object)) (Marshal : option object → res string).

Definition MaskResultJSON (raw : string) : res string :=
  match Unmarshal raw with
  | Err e => Err e
  | Ok env => Marshal (mask_result <$> env)
  end.

Definition MaskComparisonJSON (raw : string) : res string :=
  match Unmarshal raw with
  | Err e => Err e
  | Ok env => Marshal (mask_comparison <$> env)
  end.

End json_text.

(** ** The SARIF document *)

Definition sarifVersion : string := "2.1.0".
Definition sarifSchema : string := "https://json.schemastore.org/sarif-2.1.0.json".
Definition driverName : string := "MORF".
Definition driverInfoURI : string := "https://github.com/amrudesh1/morf".

(** [sarifReportingDescriptor]; the properties are the tags, behind a pointer. *)
Record rule := mk_rule {
  rule_id : string; rule_name : string; rule_text : string; rule_tags : option (list string) }.

(** Values of a properties map. *)
Inductive prop := PStr (s : string) | PFloat (f : spec_float).

(** [sarifResult] with its one location. *)
Record result := mk_result {
  ruleId : string; level : string; message : string;
  uri : string; startLine : option Z; props : gmap string prop }.

(** [sarifLog] with its one run. *)
Record sarifLog := mk_log {
  log_schema : string; log_version : string; tool_name : string; tool_uri : string;
  log_rules : list rule; log_results : list result; log_props : gmap string prop }.

Record PlatformFinding := mk_platform {
  RuleID : string; Title : string; Severity : string; pf_MASVSID : string;
  Category : string; Location : string; Evidence : string; pf_Tier : string }.

Definition containsString (xs : list string) (s : string) : bool := existsb (String.eqb s) xs.

(** What registering a rule takes: the id, the name, the description, the control. *)
Record entry := mk_entry { e_id : string; e_name : string; e_text : string; e_masvs : string }.

Definition add_tag (masvs : string) (r : rule) : rule :=
  let tags := default [] (rule_tags r) in
  mk_rule (rule_id r) (rule_name r) (rule_text r)
    (Some (if containsString tags masvs then tags else tags ++ [masvs])).

Definition register_rule (st : list rule * gmap string nat) (e : entry) : list rule * gmap string nat :=
  let '(rules, ruleIndex) := st in
  match ruleIndex !! e_id e with
  | None =>
      (rules ++ [mk_rule (e_id e) (e_name e) (e_text e)
                   (if decide (e_masvs e = "") then None else Some [e_masvs e])],
       <[e_id e := length rules]> ruleIndex)
  | Some idx =>
      (if decide (e_masvs e = "") then rules else alter (add_tag (e_masvs e)) idx rules, ruleIndex)
  end.

Definition secret_entry (s : SecretModel) : entry :=
  mk_entry (SecretType s) (SecretType s)
    ("Hardcoded secret of type " +:+ SecretType s +:+ " detected by MORF.") (MASVSID s).

Definition platform_entry (pf : PlatformFinding) : entry :=
  mk_entry (RuleID pf) (Title pf) (Title pf +:+ " detected by MORF.") (pf_MASVSID pf).

Definition set_if (c : bool) (k : string) (v : prop) (m : gmap string prop) : gmap string prop :=
  if c then <[k := v]> m else m.

(** [f != 0] on a float64. *)
Definition nonzero (f : spec_float) : bool := match f with S754_zero _ => false | _ => true end.

Definition secret_result (s : SecretModel) : result :=
  let ruleID := SecretType s in
  mk_result ruleID (levelForTier (Tier s))
    (ruleID +:+ " (masked: " +:+ maskSecret (SecretString s) +:+ ")")
    (FileLocation s) (Some (LineNo s))
    (set_if (nonempty (MASVSID s)) "masvsId" (PStr (MASVSID s))
      (set_if (nonempty (VerificationStatus s)) "verificationStatus" (PStr (VerificationStatus s))
        (set_if (nonempty (Tier s)) "tier" (PStr (Tier s))
          (set_if (nonzero (Score s)) "score" (PFloat (Score s)) ∅)))).

Definition platform_result (pf : PlatformFinding) : result :=
  let tier := if decide (pf_Tier pf = "") then TierForSeverity (Severity pf) else pf_Tier pf in
  mk_result (RuleID pf) (levelForPlatformSeverity (Severity pf))
    (Title pf +:+ ": " +:+ Evidence pf) (Location pf) None
    (set_if (nonempty (pf_MASVSID pf)) "masvsId" (PStr (pf_MASVSID pf))
      (set_if (nonempty tier) "tier" (PStr tier)
        (set_if (nonempty (Category pf)) "category" (PStr (Category pf)) ∅))).

(** One iteration of the loops: the rule, then the result. *)
Definition state : Type := list rule * gmap string nat * list result.
Definition emit {A} (entry_of : A → entry) (result_of : A → result) (st : state) (a : A) : state :=
  let '(rules, results) := st in (register_rule rules (entry_of a), results ++ [result_of a]).

(** The document given to [json.MarshalIndent]. *)
Definition sarif_doc (target platform : string) (secrets : list SecretModel)
    (platformFindings : list PlatformFinding) : sarifLog :=
  let st := foldl (emit secret_entry secret_result) ([], ∅, []) secrets in
  let '(rules, _, results) := foldl (emit platform_entry platform_result) st platformFindings in
  mk_log sarifSchema sarifVersion driverName driverInfoURI rules results
    {["target" := PStr target; "platform" := PStr platform]}.

Definition EncodeSARIFWithFindings (MarshalIndent : sarifLog → res string) (target platform : string)
    (secrets : list SecretModel) (platformFindings : list PlatformFinding) : res string :=
  MarshalIndent (sarif_doc target platform secrets platformFindings).

Definition EncodeSARIF (MarshalIndent : sarifLog → res string) (target platform : string)
    (secrets : list SecretModel) : res string :=
  EncodeSARIFWithFindings MarshalIndent target platform secrets [].

(** ** What masking does *)

Definition masked_node (secret : bool) (n : node) : node :=
  match secret, n with
  | true, NLeaf (JString s) => NLeaf (JString (maskSecret s))
  | _, _ => n
  end.

(** [f] masks the strings at the positions [P] and changes nothing else. *)
Definition masks (P : list step → bool) (f : json → json) : Prop :=
  ∀ v p, node_at (f v) p = masked_node (P p) <$> node_at v p.

Definition under_key (k : string) (P : list step → bool) (p : list step) : bool :=
  match p with Key k' :: p' => bool_decide (k = k') && P p' | _ => false end.
Definition under_index (P : list step → bool) (p : list step) : bool :=
  match p with Idx _ :: p' => P p' | _ => false end.

Definition secret_position (p : list step) : bool := bool_decide (p = [Key "secretString"]).
Definition result_secret : list step → bool :=
  under_key "data" (under_key "secrets" (under_index secret_position)).
Definition comparison_secret (p : list step) : bool :=
  existsb (λ k, under_key k (under_index secret_position) p) ["added"; "removed"; "unchanged"].

Lemma masked_false n : masked_node false n = n.
Proof. done. Qed.

Lemma fmap_masked_false (o : option node) : masked_node false <$> o = o.
Proof. by destruct o. Qed.

Lemma node_at_cons v s p : node_at v (s :: p) = child v s ≫= λ v', node_at v' p.
Proof. unfold node_at. cbn. by destruct (child v s). Qed.

Lemma masks_key k P f : masks P f →
  masks (under_key k P) (λ v, match v with JObject m => JObject (adjust k f m) | _ => v end).
Proof.
  intros Hf v p. destruct p as [|s p]; [|rewrite !node_at_cons].
  - destruct v; try done. unfold node_at. cbn. by rewrite keys_adjust.
  - destruct v as [| | | | |m]; try (by destruct s).
    { destruct s; [done|]. cbn [under_key]. by rewrite fmap_masked_false. }
    destruct s as [k'|i]; [|done].
    cbn -[find_key adjust masked_node node_at]. destruct (decide (k = k')) as [->|Hn].
    + rewrite find_adjust, bool_decide_eq_true_2 by done. cbn [andb].
      destruct (find_key m k'); [|done]. cbn. apply Hf.
    + rewrite find_adjust_ne, bool_decide_eq_false_2 by done. cbn [andb].
      by rewrite fmap_masked_false.
Qed.

Lemma masks_index P f : masks P f →
  masks (under_index P) (λ v, match v with JArray l => JArray (f <$> l) | _ => v end).
Proof.
  intros Hf v p. destruct p as [|s p]; [|rewrite !node_at_cons].
  - destruct v; try done. unfold node_at. cbn. by rewrite length_fmap.
  - destruct v as [| | | |l|m]; try (by destruct s).
    + destruct s as [k'|i]; [done|]. cbn [child under_index]. rewrite list_lookup_fmap.
      destruct (l !! i); [|done]. cbn. apply Hf.
    + destruct s as [k'|i]; [|done]. cbn [under_index]. by rewrite fmap_masked_false.
Qed.

Lemma masks_item : masks secret_position mask_item.
Proof.
  intros v p. unfold mask_item. destruct v as [| | | |l|m];
    try (destruct p as [|[k|i] p]; [done|done|]; cbn; by rewrite ?fmap_masked_false).
  assert (Hnone : ∀ q, (∀ s, find_key m "secretString" ≠ Some (JString s)) →
    node_at (JObject m) q = masked_node (secret_position q) <$> node_at (JObject m) q).
  { intros q Hs. unfold secret_position. case_bool_decide as Hq; [|by rewrite fmap_masked_false].
    subst q. unfold node_at. cbn. destruct (find_key m "secretString") as [[]|]; try done. naive_solver. }
  rewrite get_find. destruct (find_key m "secretString") as [[]|] eqn:E; cbn [default from_option id];
    try (apply Hnone; by intros ?).
  destruct p as [|[k'|i] p]; [unfold node_at; cbn; by rewrite keys_adjust| |done].
  rewrite !node_at_cons. cbn [child]. destruct (decide ("secretString" = k')) as [<-|Hk].
  - rewrite find_adjust, E. cbn. unfold secret_position. destruct p as [|s' p]; [done|].
    by destruct s'.
  - rewrite find_adjust_ne by done. unfold secret_position.
    rewrite bool_decide_eq_false_2 by congruence. by rewrite fmap_masked_false.
Qed.

Lemma masks_comp P Q f g : masks P f → masks Q g → (∀ p, P p && Q p = false) →
  masks (λ p, P p || Q p) (λ v, g (f v)).
Proof.
  intros Hf Hg Hd v p. rewrite Hg, Hf. specialize (Hd p).
  destruct (node_at v p) as [n|]; [|done]. cbn. by destruct (P p), (Q p).
Qed.

Lemma masks_mask_list : masks (under_index secret_position) mask_list.
Proof. apply masks_index, masks_item. Qed.

Lemma masks_result env p :
  node_at (JObject (mask_result env)) p = masked_node (result_secret p) <$> node_at (JObject env) p.
Proof. exact (masks_key _ _ _ (masks_key _ _ _ masks_mask_list) (JObject env) p). Qed.

Lemma under_keys_apart k k' P Q p : k ≠ k' → under_key k P p && under_key k' Q p = false.
Proof.
  intros Hk. destruct p as [|[k0|] p]; try done. cbn. case_bool_decide as H1; [|done]. subst k0.
  rewrite bool_decide_eq_false_2 by congruence. apply andb_false_r.
Qed.

Lemma masks_comparison env p :
  node_at (JObject (mask_comparison env)) p =
  masked_node (comparison_secret p) <$> node_at (JObject env) p.
Proof.
  set (at_ k := masks_key k _ _ masks_mask_list).
  pose proof (masks_comp _ _ _ _ (masks_comp _ _ _ _ (at_ "added") (at_ "removed") ltac:(intros q; by apply under_keys_apart))
    (at_ "unchanged")) as H.
  assert (Hd : ∀ q, (under_key "added" (under_index secret_position) q ||
     under_key "removed" (under_index secret_position) q) &&
     under_key "unchanged" (under_index secret_position) q = false).
  { intros q. rewrite andb_orb_distrib_l. by rewrite !under_keys_apart. }
  specialize (H Hd (JObject env) p). unfold comparison_secret. cbn [existsb]. rewrite orb_false_r.
  rewrite orb_assoc. exact H.
Qed.

(** Masking is complete and exact.  Of a stored result, the strings under
    "secretString" of the entries of data.secrets, and of a comparison those of the
    entries of its three lists, are replaced by their masked forms; every other
    position of the envelope keeps its value, its length or its keys; and a text
    that does not decode gives an error and no output. *)
Theorem masking_exact (Unmarshal : string → res (option object)) (Marshal : option object → res string)
    (raw : string) :
  match Unmarshal raw with
  | Err e => MaskResultJSON Unmarshal Marshal raw = Err e ∧ MaskComparisonJSON Unmarshal Marshal raw = Err e
  | Ok None => MaskResultJSON Unmarshal Marshal raw = Marshal None ∧
               MaskComparisonJSON Unmarshal Marshal raw = Marshal None
  | Ok (Some env) =>
      ∃ r c, MaskResultJSON Unmarshal Marshal raw = Marshal (Some r) ∧
        MaskComparisonJSON Unmarshal Marshal raw = Marshal (Some c) ∧
        ∀ p, node_at (JObject r) p = masked_node (result_secret p) <$> node_at (JObject env) p ∧
             node_at (JObject c) p = masked_node (comparison_secret p) <$> node_at (JObject env) p
  end.
Proof.
  unfold MaskResultJSON, MaskComparisonJSON. destruct (Unmarshal raw) as [[env|]|e]; [|done|done].
  eexists _, _. split_and!; [done|done|]. intros p. split; [apply masks_result|apply masks_comparison].
Qed.

(** ** The rules of a document *)

(** The rule of an id, read off all the findings that have it: name and text of
    the first, and every control in order of appearance. *)
Definition rule_spec (es : list entry) (id : string) : rule :=
  let mine := filter (λ e, e_id e = id) es in
  let tags := first_seen (filter (λ m, m ≠ "") (e_masvs <$> mine)) in
  mk_rule id (default "" (e_name <$> head mine)) (default "" (e_text <$> head mine))
    (if decide (tags = []) then None else Some tags).

Definition rules_spec (es : list entry) : list rule := rule_spec es <$> first_seen (e_id <$> es).

Definition indexed (es : list entry) (ruleIndex : gmap string nat) : Prop :=
  ∀ id i, ruleIndex !! id = Some i ↔ first_seen (e_id <$> es) !! i = Some id.

Lemma containsString_spec xs s : containsString xs s = bool_decide (s ∈ xs).
Proof.
  apply eq_true_iff_eq. unfold containsString. rewrite existsb_exists, bool_decide_eq_true.
  setoid_rewrite String.eqb_eq. setoid_rewrite <- list_elem_of_In. naive_solver.
Qed.

Lemma rule_spec_other es e id : e_id e ≠ id → rule_spec (es ++ [e]) id = rule_spec es id.
Proof.
  intros H. unfold rule_spec. rewrite filter_app, (filter_cons_False _ e []) by done.
  by rewrite app_nil_r.
Qed.

Lemma rule_spec_first es e :
  e_id e ∉ e_id <$> es →
  rule_spec (es ++ [e]) (e_id e) =
  mk_rule (e_id e) (e_name e) (e_text e) (if decide (e_masvs e = "") then None else Some [e_masvs e]).
Proof.
  intros H. unfold rule_spec. rewrite filter_app, (filter_cons_True _ e []) by done.
  assert (filter (λ e', e_id e' = e_id e) es = []) as ->.
  { destruct (filter _ es) as [|e' l] eqn:E; [done|]. destruct H. apply list_elem_of_fmap. exists e'.
    assert (e' ∈ filter (λ e', e_id e' = e_id e) es) as [? ?]%list_elem_of_filter
      by (rewrite E; left). done. }
  change (filter _ []) with (@nil entry). cbn [app fmap list_fmap].
  destruct (decide (e_masvs e = "")) as [Hm|Hm].
  - by rewrite filter_cons_False by (by intros ?).
  - by rewrite filter_cons_True.
Qed.

Lemma rule_spec_again es e :
  e_id e ∈ e_id <$> es →
  rule_spec (es ++ [e]) (e_id e) =
  (if decide (e_masvs e = "") then rule_spec es (e_id e) else add_tag (e_masvs e) (rule_spec es (e_id e))).
Proof.
  intros (e0 & E0 & H0)%list_elem_of_fmap. unfold rule_spec.
  rewrite filter_app, (filter_cons_True _ e []) by done.
  set (mine := filter _ es).
  assert (Hh : ∀ f : entry → string, default "" (f <$> head (mine ++ [e])) = default "" (f <$> head mine)).
  { intros f. assert (Hin : e0 ∈ mine) by (by apply list_elem_of_filter).
    destruct mine; [by apply elem_of_nil in Hin|done]. }
  change (filter _ []) with (@nil entry). rewrite !Hh, fmap_app, filter_app. cbn [fmap list_fmap].
  destruct (decide (e_masvs e = "")) as [Hm|Hm].
  - rewrite filter_cons_False by (by intros ?). by rewrite app_nil_r.
  - rewrite filter_cons_True by done. change (filter _ []) with (@nil string).
    rewrite first_seen_snoc. set (tags := first_seen _). unfold add_tag. cbn [rule_tags rule_id rule_name rule_text].
    assert (default [] (if decide (tags = []) then None else Some tags) = tags) as -> by (by case_decide).
    rewrite containsString_spec, bool_decide_decide. destruct (decide (e_masvs e ∈ tags)) as [Ht|Ht].
    + rewrite decide_False; [done|]. intros E. rewrite E in Ht. by apply elem_of_nil in Ht.
    + rewrite decide_False; [done|]. by destruct tags.
Qed.

Lemma alter_fmap_NoDup (f : string → rule) (g : rule → rule) ids i id :
  NoDup ids → ids !! i = Some id →
  alter g i (f <$> ids) = (λ x, if decide (x = id) then g (f x) else f x) <$> ids.
Proof.
  intros Hn Hi. apply list_eq. intros j. rewrite list_lookup_alter, !list_lookup_fmap.
  case_decide as Hij.
  - subst j. rewrite Hi. cbn. by rewrite decide_True.
  - destruct (ids !! j) as [x|] eqn:Hj; [|done]. cbn. rewrite decide_False; [done|].
    intros ->. apply Hij. by eapply NoDup_lookup.
Qed.

(** Registering the findings one by one computes the rules. *)
Lemma register_all es :
  let '(rules, ruleIndex) := foldl register_rule ([], ∅) es in
  rules = rules_spec es ∧ indexed es ruleIndex.
Proof.
  induction es as [|e es IH] using rev_ind.
  { split; [done|]. intros id i. by rewrite lookup_empty. }
  rewrite foldl_app. cbn [foldl]. destruct (foldl register_rule ([], ∅) es) as [rules idx].
  destruct IH as [-> Hidx]. unfold register_rule.
  assert (Hother : ∀ ids : list string, e_id e ∉ ids → rule_spec (es ++ [e]) <$> ids = rule_spec es <$> ids).
  { intros ids Hn. apply list_fmap_ext. intros i x Hx. apply rule_spec_other.
    intros <-. apply Hn. by eapply list_elem_of_lookup_2. }
  destruct (idx !! e_id e) as [i|] eqn:Hi.
  - pose proof (proj1 (Hidx _ _) Hi) as Hl.
    assert (Hin : e_id e ∈ first_seen (e_id <$> es)) by (by eapply list_elem_of_lookup_2).
    unfold rules_spec, indexed. rewrite fmap_app. cbn [fmap list_fmap]. rewrite first_seen_snoc, (decide_True (P := e_id e ∈ _)) by done.
    split; [|done]. rewrite elem_of_first_seen in Hin. pose proof (rule_spec_again es e Hin) as Ha.
    destruct (decide (e_masvs e = "")) as [Hm|Hm].
    + apply list_fmap_ext. intros j x Hx. destruct (decide (e_id e = x)) as [<-|Hne]; [done|].
      by rewrite rule_spec_other.
    + rewrite (alter_fmap_NoDup _ _ _ _ _ (NoDup_first_seen _) Hl).
      apply list_fmap_ext. intros j x Hx. case_decide as Hxe; [by subst x|]. by rewrite rule_spec_other.
  - assert (Hnin : e_id e ∉ first_seen (e_id <$> es)).
    { intros [i Hl]%list_elem_of_lookup. apply Hidx in Hl. congruence. }
    unfold rules_spec, indexed. rewrite fmap_app. cbn [fmap list_fmap]. rewrite first_seen_snoc, (decide_False (P := e_id e ∈ _)) by done.
    split.
    + rewrite fmap_app, Hother by done. f_equal. cbn. f_equal. symmetry. apply rule_spec_first.
      by rewrite elem_of_first_seen in Hnin.
    + intros id i. rewrite length_fmap. rewrite lookup_app. destruct (decide (id = e_id e)) as [->|Hne].
      * rewrite lookup_insert_eq. split.
        -- intros [= <-]. rewrite lookup_ge_None_2 by lia. by rewrite Nat.sub_diag.
        -- destruct (first_seen (e_id <$> es) !! i) as [x|] eqn:Hx.
           ++ intros [= ->]. destruct Hnin. by eapply list_elem_of_lookup_2.
           ++ apply lookup_ge_None_1 in Hx. intros Hs. f_equal. destruct (i - length (first_seen (e_id <$> es)))%nat eqn:Hk; [lia|done].
      * rewrite lookup_insert_ne by done. etrans; [apply Hidx|].
        destruct (first_seen (e_id <$> es) !! i) as [x|] eqn:Hx; [done|].
        split; [done|]. intros Hs. destruct (i - length (first_seen (e_id <$> es)))%nat; cbn in Hs;
          [simplify_eq|done].
Qed.

Lemma emit_all {A} (entry_of : A → entry) (result_of : A → result) l st results :
  foldl (emit entry_of result_of) (st, results) l =
  (foldl register_rule st (entry_of <$> l), results ++ (result_of <$> l)).
Proof.
  revert st results. induction l as [|a l IH]; intros st results; cbn; [by rewrite app_nil_r|].
  rewrite IH. by rewrite <- app_assoc.
Qed.

Definition entries (secrets : list SecretModel) (platformFindings : list PlatformFinding) : list entry :=
  (secret_entry <$> secrets) ++ (platform_entry <$> platformFindings).

Lemma sarif_doc_spec target platform secrets pfs :
  sarif_doc target platform secrets pfs =
  mk_log sarifSchema sarifVersion driverName driverInfoURI (rules_spec (entries secrets pfs))
    ((secret_result <$> secrets) ++ (platform_result <$> pfs))
    {["target" := PStr target; "platform" := PStr platform]}.
Proof.
  unfold sarif_doc. rewrite emit_all, emit_all. cbn [app]. unfold entries.
  pose proof (register_all (entries secrets pfs)) as H. unfold entries in H. rewrite foldl_app in H.
  destruct (foldl register_rule (foldl _ _ _) _) as [rules idx]. by destruct H as [-> _].
Qed.

(** The SARIF document is the one its reference definition gives.  The single
    pass with its index and back-filled tags produces one rule per distinct id, in
    the order of first appearance over secrets and then platform findings, named
    after the first finding and tagged with exactly the controls of its findings;
    one result per finding in order, whose rule is among the rules; and it depends
    on the secrets' values only through their masked forms. *)
Theorem sarif_equivalent (target platform : string) (secrets secrets' : list SecretModel)
    (pfs : list PlatformFinding) :
  let doc := sarif_doc target platform secrets pfs in
  let es := entries secrets pfs in
  log_rules doc = rules_spec es ∧ NoDup (rule_id <$> log_rules doc) ∧
  (∀ r m, r ∈ log_rules doc → m ∈ default [] (rule_tags r) ↔
     m ≠ "" ∧ ∃ e, e ∈ es ∧ e_id e = rule_id r ∧ e_masvs e = m) ∧
  ruleId <$> log_results doc = e_id <$> es ∧
  (∀ r, r ∈ log_results doc → ruleId r ∈ rule_id <$> log_rules doc) ∧
  (Forall2 (λ s s', maskSecret (SecretString s) = maskSecret (SecretString s') ∧
     s' = mk_secret (Type_ s) (LineNo s) (FileLocation s) (SecretType s) (SecretString s')
            (SecretConfidence s) (Score s) (Tier s) (VerificationStatus s) (MASVSID s))
     secrets secrets' →
   sarif_doc target platform secrets' pfs = doc).
Proof.
  cbv zeta. rewrite !sarif_doc_spec. cbn [log_rules log_results].
  assert (Hids : ∀ es, rule_id <$> rules_spec es = first_seen (e_id <$> es)).
  { intros es. unfold rules_spec. rewrite <- list_fmap_compose. by apply list_fmap_id. }
  assert (Hres : ruleId <$> ((secret_result <$> secrets) ++ (platform_result <$> pfs)) =
    e_id <$> entries secrets pfs).
  { unfold entries. rewrite !fmap_app. by rewrite <- !list_fmap_compose. }
  split_and!; [done| | |done| |].
  - rewrite Hids. apply NoDup_first_seen.
  - intros r m (id & -> & Hid)%list_elem_of_fmap. unfold rule_spec at 1. cbn [rule_tags rule_id].
    set (tags := first_seen _).
    assert (default [] (if decide (tags = []) then None else Some tags) = tags) as -> by (by case_decide).
    unfold tags. rewrite elem_of_first_seen, list_elem_of_filter, list_elem_of_fmap.
    setoid_rewrite list_elem_of_filter. cbn [rule_id rule_spec]. naive_solver.
  - intros r Hr. rewrite Hids, elem_of_first_seen, <- Hres. apply list_elem_of_fmap. eauto.
  - intros HF. assert (Hs : secret_entry <$> secrets' = secret_entry <$> secrets ∧
      secret_result <$> secrets' = secret_result <$> secrets).
    { clear Hres. induction HF as [|s s' l l' [Hm Hs] HF [IH1 IH2]]; [done|].
      rewrite !fmap_cons, IH1, IH2, Hs. split; f_equal. unfold secret_result. cbn. by rewrite Hm. }
    destruct Hs as [H1 H2]. unfold entries. by rewrite H1, H2.
Qed.

Definition sample_secret (value masvs : string) : SecretModel :=
  mk_secret "apk" 7 "res/a.xml" "AWS Key" value "high" (S754_zero false) "keep" "" masvs.
Definition sample_platform : PlatformFinding :=
  mk_platform "exported-component" "Exported component" "high" "MASVS-PLATFORM-1" "platform"
    "AndroidManifest.xml" "com.example.Main" "".

(** Two findings of one type, the second bringing a control, and a platform
    finding; two values with the same masked form give the same document. *)
Lemma sarif_equivalent_witness :
  maskSecret "AKIA0000000000XY" = maskSecret "AKIA1111XY" ∧
  rule_tags <$> log_rules (sarif_doc "a.apk" "android"
    [sample_secret "AKIA0000000000XY" ""; sample_secret "v" "MASVS-STORAGE-1"] [sample_platform]) =
    [Some ["MASVS-STORAGE-1"]; Some ["MASVS-PLATFORM-1"]] ∧
  sarif_doc "a.apk" "android" [sample_secret "AKIA1111XY" ""] [sample_platform] =
  sarif_doc "a.apk" "android" [sample_secret "AKIA0000000000XY" ""] [sample_platform].
Proof.
  assert (Hm : maskSecret "AKIA0000000000XY" = maskSecret "AKIA1111XY") by (by vm_compute).
  split; [exact Hm|]. split; [by vm_compute|].
  apply (sarif_equivalent "a.apk" "android" [sample_secret "AKIA0000000000XY" ""]
    [sample_secret "AKIA1111XY" ""] [sample_platform]).
  constructor; [by split|constructor].
Defined.
