(* ===== verification/Export.v ===== *)
(** * Exports of a stored result ([utils/export.go])

    CSV rows as [encoding/csv] writes them, a hand-built one-page PDF with its
    cross-reference table, SARIF and CycloneDX as JSON values.  JSON text is a
    parameter. *)
From Stdlib Require Import Ascii ZArith.
From S2P Require Import Prelude GoStr GoErr GoTime GoFloat GoJson ScanJob Detect Sbom Osv.

Local Open Scope Z_scope.

Definition quote_ : ascii := byte_of 34.
Definition comma_ : ascii := ","%char.
Definition nl_ : ascii := byte_of 10.
Definition cr_ : ascii := byte_of 13.
Definition newline : string := String nl_ "".

Fixpoint chars (s : string) : list ascii :=
  match s with "" => [] | String c s => c :: chars s end.
Fixpoint of_chars (l : list ascii) : string :=
  match l with [] => "" | c :: l => String c (of_chars l) end.

(** ** CSV ([csv.Writer] with its defaults) *)

Definition fieldNeedsQuotes (field : string) : bool :=
  if decide (field = "") then false
  else if decide (field = "\.") then true
  else if existsb (λ c, bool_decide (c ∈ [nl_; cr_; quote_; comma_])) (chars field) then true
  else match runes field with (r, _) :: _ => is_space r | [] => false end.

(** The field between quotes, its own quotes doubled. *)
Fixpoint double_quotes (s : string) : string :=
  match s with
  | "" => ""
  | String c s => if decide (c = quote_) then String quote_ (String quote_ (double_quotes s))
                  else String c (double_quotes s)
  end.

Definition write_field (field : string) : string :=
  if fieldNeedsQuotes field
  then String quote_ (double_quotes field +:+ String quote_ "") else field.

Definition write_record (record : list string) : string := Join (write_field <$> record) "," +:+ newline.

(** [writer.Write] for every record; a [strings.Builder] never fails. *)
Definition csv_text (records : list (list string)) : string := concat_str (write_record <$> records).

(** ** PDF *)

Definition pdf_rune (r : Z) : string :=
  if (r =? 40) || (r =? 41) || (r =? 92) then String "\"%char (encode_rune r)
  else if (32 <=? r) && (r <=? 126) then encode_rune r else "".

Definition pdfEscapeString (s : string) : string := concat_str (pdf_rune <$> to_runes s).

(** [%010d] of a number that is not negative. *)
Definition pad10 (n : Z) : string :=
  let s := utoa n in of_chars (replicate (10 - String.length s) "0"%char) +:+ s.

Definition pdf_line (line : string) : string := "(" +:+ pdfEscapeString line +:+ ") Tj T*" +:+ newline.

Definition pdf_stream (lines : list string) : string :=
  "BT" +:+ newline +:+ "/F1 " +:+ itoa 10 +:+ " Tf" +:+ newline +:+ itoa 14 +:+ " TL" +:+ newline
  +:+ itoa 72 +:+ " " +:+ itoa 720 +:+ " Td" +:+ newline
  +:+ concat_str (pdf_line <$> lines) +:+ "ET" +:+ newline.

(** The bodies of the five objects, from the keyword to the end. *)
Definition pdf_objects (stream : string) : list string :=
  ["1 0 obj" +:+ newline +:+ "<< /Type /Catalog /Pages 2 0 R >>" +:+ newline +:+ "endobj" +:+ newline;
   "2 0 obj" +:+ newline +:+ "<< /Type /Pages /Kids [3 0 R] /Count 1 >>" +:+ newline +:+ "endobj" +:+ newline;
   "3 0 obj" +:+ newline +:+ "<< /Type /Page /Parent 2 0 R /MediaBox [0 0 612 792]" +:+
     " /Contents 4 0 R /Resources << /Font << /F1 5 0 R >> >> >>" +:+ newline +:+ "endobj" +:+ newline;
   "4 0 obj" +:+ newline +:+ "<< /Length " +:+ itoa (len stream) +:+ " >>" +:+ newline +:+ "stream" +:+ newline
     +:+ stream +:+ "endstream" +:+ newline +:+ "endobj" +:+ newline;
   "5 0 obj" +:+ newline +:+ "<< /Type /Font /Subtype /Type1 /BaseFont /Helvetica" +:+
     " /Encoding /WinAnsiEncoding >>" +:+ newline +:+ "endobj" +:+ newline].

(** Writing an object: its offset is the length of the buffer before it. *)
Definition write_object (st : string * list Z) (obj : string) : string * list Z :=
  let '(buf, offsets) := st in (buf +:+ obj, offsets ++ [len buf]).

Definition xref_entry (off : Z) : string := pad10 off +:+ " 00000 n " +:+ newline.

Definition buildMinimalPDF (lines : list string) : string :=
  let '(buf, offsets) := foldl write_object ("%PDF-1.4" +:+ newline, []) (pdf_objects (pdf_stream lines)) in
  let xrefOffset := len buf in
  buf +:+ "xref" +:+ newline +:+ "0 6" +:+ newline +:+ "0000000000 65535 f " +:+ newline
  +:+ concat_str (xref_entry <$> offsets)
  +:+ "trailer" +:+ newline +:+ "<< /Size 6 /Root 1 0 R >>" +:+ newline +:+ "startxref" +:+ newline
  +:+ itoa xrefOffset +:+ newline +:+ "%%EOF" +:+ newline.

(** ** The stored result *)

Record scanResultData := mk_data {
  FileName : string; PackageName : string; dataVersion : string; MinSdk : string; TargetSdk : string;
  Permissions : list string; SecretCount : Z; Secrets : list SecretModel;
  UsesLibrary : list string; SBOMComponents : list SBOMComponent }.

Definition ExportFormatJSON : string := "json".
Definition ExportFormatCSV : string := "csv".
Definition ExportFormatPDF : string := "pdf".
Definition ExportFormatSARIF : string := "sarif".
Definition ExportFormatCycloneDX : string := "cyclonedx".
Definition ExportFormatCycloneDXSBOM : string := "cyclonedx-sbom".

Definition csv_records (job : ScanJob) (data : scanResultData) : list (list string) :=
  [["Job ID"; "Status"; "Original Filename"; "Created At"; "Completed At"];
   [ScanJob.ID job; Status job; OriginalFilename job; Format (CreatedAt job); formatTimePtr (CompletedAt job)]] ++
  (if decide (Secrets data = []) then []
   else ["Type"; "Line No"; "File Location"; "Secret Type"; "Secret String"; "Confidence"] ::
        ((λ s, [Type_ s; itoa (LineNo s); FileLocation s; SecretType s; SecretString s; SecretConfidence s])
           <$> Secrets data)).

Definition exportCSV (job : ScanJob) (data : scanResultData) : res (string * string) :=
  Ok (csv_text (csv_records job data), "text/csv").

Definition pdf_finding (i : nat) (s : SecretModel) : string :=
  "  [" +:+ itoa (Z.of_nat i + 1) +:+ "] " +:+ SecretType s +:+ " (" +:+ SecretConfidence s +:+ ") in "
  +:+ FileLocation s +:+ " line " +:+ itoa (LineNo s).

Definition pdf_lines (job : ScanJob) (data : scanResultData) : list string :=
  ["MORF Scan Report"; "================"; ""; "Job ID: " +:+ ScanJob.ID job; "Status: " +:+ Status job;
   "Original Filename: " +:+ OriginalFilename job; "Created At: " +:+ Format (CreatedAt job)] ++
  match CompletedAt job with Some t => ["Completed At: " +:+ Format t] | None => [] end ++
  [""; "Package: " +:+ PackageName data +:+ "  Version: " +:+ dataVersion data;
   "Secrets found: " +:+ itoa (SecretCount data)] ++
  (if decide (Secrets data = []) then [] else ["" ; "Findings:"] ++ imap pdf_finding (Secrets data)).

Definition exportPDF (job : ScanJob) (data : scanResultData) : res (string * string) :=
  Ok (buildMinimalPDF (pdf_lines job data), "application/pdf").

(** JSON objects of the exports; the order of keys is the encoder's. *)
Definition JInt (z : Z) : json := JNumber (float_of_Z z).
Definition JStrings (l : list (string * string)) : json := JObject (prod_map id JString <$> l).
Definition opt_field (k v : string) : object := if decide (v = "") then [] else [(k, JString v)].

Section json_exports.
(** [json.MarshalIndent], [json.Unmarshal] of the raw map and of the payload. *)
Context (MarshalIndent : json → res string) (Unmarshal_raw : string → res json)
  (Unmarshal_payload : string → res scanResultData).
(** [version.Version] and the current time. *)
Context (tool_version : string) (now : gotime).

Definition marshal_as (what contentType : string) (v : json) : res (string * string) :=
  match MarshalIndent v with
  | Err e => Err (ENew ("failed to marshal " +:+ what +:+ ": " +:+ Error e))
  | Ok out => Ok (out, contentType)
  end.

Definition exportJSON (raw : json) : res (string * string) := marshal_as "JSON" "application/json" raw.

Definition sarif_rule_id (s : SecretModel) : string :=
  if decide (SecretType s = "") then "morf.secret.unknown" else SecretType s.

Definition sarif_finding (job : ScanJob) (s : SecretModel) : json :=
  let ruleID := sarif_rule_id s in
  JObject [("ruleId", JString ruleID);
    ("level", JString (if decide (SecretConfidence s = "high") then "error" else "warning"));
    ("message", JStrings [("text", "Detected " +:+ ruleID +:+ " in " +:+ FileLocation s)]);
    ("locations", JArray [JObject [("physicalLocation", JObject
       [("artifactLocation", JStrings [("uri", FileLocation s)]);
        ("region", JObject [("startLine", JInt (LineNo s))])])]]);
    ("properties", JStrings [("confidence", SecretConfidence s); ("jobId", ScanJob.ID job)])].

Definition sarif_rule (ruleID : string) : json :=
  JObject [("id", JString ruleID); ("name", JString ruleID); ("shortDescription", JStrings [("text", ruleID)]);
           ("helpUri", JString "https://github.com/your-org/morf")].

(** One iteration: the rules seen so far, the rules, and the results. *)
Definition sarif_step (job : ScanJob) (st : gset string * list json * list json) (s : SecretModel)
    : gset string * list json * list json :=
  let '(seenRules, rules, results) := st in
  let ruleID := sarif_rule_id s in
  let '(seenRules, rules) := if decide (ruleID ∈ seenRules) then (seenRules, rules)
                             else ({[ruleID]} ∪ seenRules, rules ++ [sarif_rule ruleID]) in
  (seenRules, rules, results ++ [sarif_finding job s]).

Definition exportSARIF (job : ScanJob) (data : scanResultData) : res (string * string) :=
  let '(_, rules, results) := foldl (sarif_step job) (∅, [], []) (Secrets data) in
  marshal_as "SARIF" "application/sarif+json"
    (JObject [("$schema", JString "https://json.schemastore.org/sarif-2.1.0.json"); ("version", JString "2.1.0");
       ("runs", JArray [JObject
          [("tool", JObject [("driver", JObject
              [("name", JString "MORF"); ("informationUri", JString "https://github.com/your-org/morf");
               ("rules", JArray rules)])]);
           ("results", JArray results)]])]).

Definition method_json (m : SBOMMethod) : json :=
  JObject [("technique", JString (Technique m)); ("confidence", JNumber (m_Confidence m));
           ("value", JString (Value m))].

Definition identity_json (i : SBOMIdentity) : json :=
  JObject ([("field", JString (Field i)); ("confidence", JNumber (Confidence i));
            ("methods", JArray (method_json <$> Methods i))] ++ opt_field "concludedValue" (ConcludedValue i)).

(** A list under a key, when it is not empty. *)
Definition opt_list (k : string) (l : list json) : object := if decide (l = []) then [] else [(k, JArray l)].

Definition cycloneDXComponent (c : SBOMComponent) : json :=
  let evidence := opt_list "identity" (identity_json <$> Identity c) ++
                  opt_list "occurrences" ((λ o, JObject [("location", JString o)]) <$> Occurrences c) in
  JObject ([("type", JString (comp_Type c)); ("bom-ref", JString (BomRef c)); ("name", JString (Name c))] ++
    opt_field "version" (Version c) ++ opt_field "group" (Group c) ++ opt_field "scope" (Scope c) ++
    opt_field "purl" (Purl c) ++
    opt_list "hashes" ((λ h, JStrings [("alg", Alg h); ("content", Content h)]) <$> Hashes c) ++
    (if decide (evidence = []) then [] else [("evidence", JObject evidence)])).

Definition vulnerability_json (v : OSVVulnerability) : json :=
  JObject ([("id", JString (Osv.ID v));
     ("source", JStrings [("name", SourceName v); ("url", SourceURL v)]);
     ("affects", JArray [JObject [("ref", JString (AffectedBomRef v))]])] ++
    opt_field "description" (Summary v) ++
    (if bool_decide (Severity v = "") || bool_decide (Severity v = "unknown") then []
     else [("ratings", JArray [JObject ([("severity", JString (Severity v)); ("method", JString "CVSSv31")] ++
             opt_field "score" (CVSS v) ++ opt_field "vector" (CVSSVector v))])])).

Definition cycloneDXVulnerabilities (vulns : list OSVVulnerability) : list json :=
  vulnerability_json <$> vulns.

Definition bom_components (data : scanResultData) : list json :=
  if decide (SBOMComponents data = []) then
    (λ lib, JStrings [("type", "platform"); ("name", lib); ("bom-ref", "platform:" +:+ lib)])
      <$> filter (λ lib, lib ≠ "") (UsesLibrary data)
  else cycloneDXComponent <$> SBOMComponents data.

Definition cyclonedx_bom (job : ScanJob) (data : scanResultData) (vulns : list OSVVulnerability) : json :=
  let pkg := if decide (PackageName data = "") then OriginalFilename job else PackageName data in
  JObject ([("bomFormat", JString "CycloneDX"); ("specVersion", JString "1.6"); ("version", JInt 1);
    ("serialNumber", JString ("urn:uuid:" +:+ ScanJob.ID job));
    ("metadata", JObject
       [("timestamp", JString (Format (mk_time (t_ns now) 0)));
        ("tools", JObject [("components", JArray [JStrings
           [("type", "application"); ("name", "morf");
            ("publisher", "MORF - Mobile Reconnaissance Framework"); ("version", tool_version)]])]);
        ("component", JObject ([("type", JString "application"); ("bom-ref", JString "app"); ("name", JString pkg)]
           ++ opt_field "version" (dataVersion data)));
        ("properties", JArray [JStrings
           [("name", "morf:sbom:completeness"); ("value", "evidence-based-lower-bound")]])]);
    ("components", JArray (bom_components data));
    ("compositions", JArray [JObject
       [("aggregate", JString "incomplete"); ("assemblies", JArray [JString "app"])]])] ++
    opt_list "vulnerabilities" (cycloneDXVulnerabilities vulns)).

Definition exportCycloneDX (job : ScanJob) (data : scanResultData) (vulns : list OSVVulnerability)
    : res (string * string) :=
  marshal_as "CycloneDX" "application/vnd.cyclonedx+json" (cyclonedx_bom job data vulns).

Definition parse_failed {A} (e : error) : res A := Err (ENew ("failed to parse result: " +:+ Error e)).

Definition ExportResult (job : ScanJob) (format : string) : res (string * string) :=
  if decide (format = ExportFormatJSON) then
    match Unmarshal_raw (Result job) with Err e => parse_failed e | Ok raw => exportJSON raw end
  else
    match Unmarshal_payload (Result job) with
    | Err e => parse_failed e
    | Ok data =>
        if decide (format = ExportFormatCSV) then exportCSV job data
        else if decide (format = ExportFormatPDF) then exportPDF job data
        else if decide (format = ExportFormatSARIF) then exportSARIF job data
        else if decide (format ∈ [ExportFormatCycloneDX; ExportFormatCycloneDXSBOM])
        then exportCycloneDX job data []
        else Err (ENew ("unsupported export format: " +:+ format))
    end.

(** [EnrichComponents] of the client, if there is one; [enabled] is [IsEnabled()]. *)
Definition ExportResultWithOSV (osvClient : option (list SBOMComponent → list OSVVulnerability))
    (enabled forceOSV : bool) (job : ScanJob) (format : string) : res (string * string) :=
  if decide (format ∉ [ExportFormatCycloneDX; ExportFormatCycloneDXSBOM]) then ExportResult job format
  else
    match Unmarshal_payload (Result job) with
    | Err e => parse_failed e
    | Ok data =>
        let vulns := match osvClient with
                     | Some enrich => if forceOSV || enabled then enrich (SBOMComponents data) else []
                     | None => []
                     end in
        exportCycloneDX job data vulns
    end.

End json_exports.

(** ** Reading CSV back (RFC 4180) *)

Inductive csv_state := CsvStart | CsvPlain | CsvQuoted | CsvQuote.

Fixpoint csv_read (st : csv_state) (field : string) (rec : list string) (s : string)
    : option (list (list string)) :=
  match s with
  | "" => match st, rec with CsvStart, [] => Some [] | _, _ => None end
  | String c s =>
      let separated otherwise :=
        if decide (c = comma_) then csv_read CsvStart "" (rec ++ [field]) s
        else if decide (c = nl_) then cons (rec ++ [field]) <$> csv_read CsvStart "" [] s
        else otherwise in
      match st with
      | CsvStart => if decide (c = quote_) then csv_read CsvQuoted "" rec s
                    else separated (csv_read CsvPlain (String c "") rec s)
      | CsvPlain => if decide (c = quote_) then None
                    else separated (csv_read CsvPlain (field +:+ String c "") rec s)
      | CsvQuoted => if decide (c = quote_) then csv_read CsvQuote field rec s
                     else csv_read CsvQuoted (field +:+ String c "") rec s
      | CsvQuote => if decide (c = quote_) then csv_read CsvQuoted (field +:+ String c "") rec s
                    else separated None
      end
  end.

Definition parse_csv (s : string) : option (list (list string)) := csv_read CsvStart "" [] s.

Definition plain (c : ascii) : Prop := c ∉ [nl_; cr_; quote_; comma_].

Lemma plain_ne c : plain c → c ≠ quote_ ∧ c ≠ comma_ ∧ c ≠ nl_.
Proof. unfold plain. intros H. split_and!; intros ->; apply H; set_solver. Qed.

Lemma unquoted_plain field : fieldNeedsQuotes field = false → Forall plain (chars field).
Proof.
  unfold fieldNeedsQuotes. case_decide as H0; [by subst; intros _; constructor|].
  case_decide; [done|]. destruct (existsb _ _) eqn:E; [done|]. intros _.
  apply Forall_forall. intros c Hc Hin. apply not_true_iff_false in E. apply E.
  apply existsb_exists. exists c. split; [by apply list_elem_of_In|by apply bool_decide_eq_true].
Qed.

Lemma read_plain f field rec rest : Forall plain (chars f) →
  csv_read CsvPlain field rec (f +:+ rest) = csv_read CsvPlain (field +:+ f) rec rest.
Proof.
  revert field. induction f as [|c f IH]; intros field Hf; cbn [String.append]; [by rewrite string_app_nil_r|].
  apply Forall_cons in Hf as [Hc Hf]. destruct (plain_ne c Hc) as (H1 & H2 & H3). cbn [csv_read].
  rewrite !decide_False by done. rewrite IH by done. by rewrite string_app_assoc.
Qed.

Lemma read_quoted f field rec rest :
  csv_read CsvQuoted field rec (double_quotes f +:+ String quote_ rest) = csv_read CsvQuote (field +:+ f) rec rest.
Proof.
  revert field. induction f as [|c f IH]; intros field; cbn [double_quotes String.append].
  - cbn [csv_read]. rewrite decide_True by done. by rewrite string_app_nil_r.
  - destruct (decide (c = quote_)) as [->|Hc]; cbn [String.append csv_read].
    + rewrite !decide_True by done. rewrite IH. by rewrite string_app_assoc.
    + rewrite decide_False by done. rewrite IH. by rewrite string_app_assoc.
Qed.

(** A field is read up to the separator after it. *)
Lemma read_field f rec c rest : c = comma_ ∨ c = nl_ →
  csv_read CsvStart "" rec (write_field f +:+ String c rest) =
  if decide (c = comma_) then csv_read CsvStart "" (rec ++ [f]) rest
  else cons (rec ++ [f]) <$> csv_read CsvStart "" [] rest.
Proof.
  intros Hc. assert (Hcq : c ≠ quote_) by (by destruct Hc as [-> | ->]).
  assert (Hsep : ∀ A (x y z : A), (if decide (c = comma_) then x else if decide (c = nl_) then y else z) =
    (if decide (c = comma_) then x else y)).
  { intros A x y z. case_decide; [done|]. rewrite decide_True; naive_solver. }
  unfold write_field. destruct (fieldNeedsQuotes f) eqn:E.
  - cbn [String.append csv_read]. rewrite (decide_True (P := quote_ = quote_)) by done.
    rewrite string_app_assoc. cbn [String.append]. rewrite read_quoted. cbn [String.append csv_read].
    rewrite (decide_False (P := c = quote_)) by done. by rewrite Hsep.
  - apply unquoted_plain in E. destruct f as [|d f]; cbn [String.append csv_read].
    + rewrite (decide_False (P := c = quote_)) by done. by rewrite Hsep.
    + apply Forall_cons in E as [Hd E]. destruct (plain_ne d Hd) as (H1 & H2 & H3).
      rewrite !(decide_False (P := d = _)) by done. rewrite read_plain by done.
      cbn [String.append csv_read]. rewrite (decide_False (P := c = quote_)) by done. by rewrite Hsep.
Qed.

Lemma read_record f fs rec rest :
  csv_read CsvStart "" rec (write_record (f :: fs) +:+ rest) =
  cons (rec ++ f :: fs) <$> csv_read CsvStart "" [] rest.
Proof.
  unfold write_record. revert f rec. induction fs as [|g fs IH]; intros f rec.
  - cbn [fmap list_fmap Join]. rewrite string_app_assoc. unfold newline. cbn [String.append].
    rewrite read_field by auto. by rewrite decide_False.
  - cbn [fmap list_fmap Join] in *. rewrite !string_app_assoc in *. cbn [String.append] in *.
    change ","%char with comma_. rewrite read_field by auto. rewrite decide_True by done.
    rewrite <- string_app_assoc, IH, <- app_assoc. done.
Qed.

Lemma parse_csv_text records : Forall (λ r, r ≠ []) records → parse_csv (csv_text records) = Some records.
Proof.
  unfold parse_csv, csv_text. induction 1 as [|[|f fs] records Hr _ IH]; [done|done|].
  cbn [fmap list_fmap concat_str foldr] in *. rewrite read_record. fold (concat_str (write_record <$> records)).
  cbn [app]. by rewrite IH.
Qed.

(** The CSV export loses nothing.  Whatever the fields contain (separators,
    quotes, line breaks, blanks), reading the exported text back by the rules of
    RFC 4180 gives the header, the job's row, and one row per finding, in order,
    with every field as it was. *)
Theorem csv_roundtrip (job : ScanJob) (data : scanResultData) :
  ∃ text, exportCSV job data = Ok (text, "text/csv") ∧ parse_csv text = Some (csv_records job data) ∧
    length (csv_records job data) =
      (if decide (Secrets data = []) then 2 else 3 + length (Secrets data))%nat.
Proof.
  eexists. split; [done|]. split.
  - apply parse_csv_text. unfold csv_records. apply Forall_app. split; [by repeat constructor|].
    case_decide; [constructor|]. constructor; [done|]. apply Forall_fmap, Forall_forall. done.
  - unfold csv_records. rewrite length_app. case_decide; cbn; [done|]. by rewrite length_fmap.
Qed.

(** ** The structure of the PDF *)

(** The text of a literal string: up to the closing parenthesis, escapes removed. *)
Fixpoint pdf_read (s : string) : option (string * string) :=
  match s with
  | "" => None
  | String c s =>
      if decide (c = ")"%char) then Some ("", s)
      else if decide (c = "("%char) then None
      else if decide (c = "\"%char) then
        match s with
        | "" => None
        | String d s => (λ '(t, rest), (String d t, rest)) <$> pdf_read s
        end
      else (λ '(t, rest), (String c t, rest)) <$> pdf_read s
  end.

Definition printable (s : string) : string :=
  of_runes (filter (λ r, 32 ≤ r ≤ 126) (to_runes s)).

Lemma byte_of_inj a b : 0 ≤ a < 256 → 0 ≤ b < 256 → byte_of a = byte_of b → a = b.
Proof. intros Ha Hb E. by rewrite <- (byte_byte_of a), <- (byte_byte_of b), E. Qed.

Lemma pdf_read_rune r rest : 32 ≤ r ≤ 126 →
  pdf_read (pdf_rune r +:+ rest) = (λ '(t, rest), (String (byte_of r) t, rest)) <$> pdf_read rest.
Proof.
  intros Hr. assert (He : encode_rune r = String (byte_of r) "").
  { unfold encode_rune. replace (r <? 0) with false by lia. replace (1114111 <? r) with false by lia.
    replace (55296 <=? r) with false by lia. cbn [orb andb]. by replace (r <? 128) with true by lia. }
  assert (Hne : ∀ z, 0 ≤ z < 256 → r ≠ z → byte_of r ≠ byte_of z)
    by (intros z Hz Hrz E; apply Hrz; apply byte_of_inj; [lia|done|done]).
  unfold pdf_rune. rewrite He. destruct ((r =? 40) || (r =? 41) || (r =? 92)) eqn:Es.
  - cbn [String.append pdf_read]. by rewrite (decide_False (P := "\"%char = ")"%char)),
      (decide_False (P := "\"%char = "("%char)), (decide_True (P := "\"%char = "\"%char)) by done.
  - apply orb_false_iff in Es as [[E1%Z.eqb_neq E2%Z.eqb_neq]%orb_false_iff E3%Z.eqb_neq].
    replace (32 <=? r) with true by lia. replace (r <=? 126) with true by lia. cbn [andb String.append pdf_read].
    change ")"%char with (byte_of 41). change "("%char with (byte_of 40). change "\"%char with (byte_of 92).
    by rewrite !decide_False by (apply Hne; [lia|done]).
Qed.

(** An escaped line reads back as its printable part, whatever follows. *)
Lemma pdf_read_escaped s rest :
  pdf_read (pdfEscapeString s +:+ String ")"%char rest) = Some (printable s, rest).
Proof.
  unfold pdfEscapeString, printable. induction (to_runes s) as [|r rs IH].
  - cbn. by rewrite decide_True.
  - cbn [fmap list_fmap]. change (concat_str (?a :: ?l)) with (a +:+ concat_str l). rewrite string_app_assoc.
    destruct (decide (32 ≤ r ≤ 126)) as [Hr|Hr].
    + rewrite pdf_read_rune by done. rewrite IH. rewrite filter_cons_True by done. cbn -[encode_rune].
      unfold of_runes. cbn [fmap list_fmap concat_str foldr]. f_equal. f_equal.
      unfold encode_rune. replace (r <? 0) with false by lia. replace (1114111 <? r) with false by lia.
      replace (55296 <=? r) with false by lia. cbn [orb andb]. by replace (r <? 128) with true by lia.
    + rewrite filter_cons_False by done. unfold pdf_rune.
      replace ((r =? 40) || (r =? 41) || (r =? 92)) with false by lia.
      replace ((32 <=? r) && (r <=? 126)) with false by lia. exact IH.
Qed.

Lemma len_app a b : len (a +:+ b) = len a + len b.
Proof. unfold len. rewrite string_length_app. lia. Qed.

(** Writing objects: each starts at its offset, whatever follows. *)
Lemma write_objects objs buf offsets :
  let '(buf', offsets') := foldl write_object (buf, offsets) objs in
  (∃ rest, buf' = buf +:+ rest) ∧ length offsets' = (length offsets + length objs)%nat ∧
  (∀ i, (i < length offsets)%nat → offsets' !! i = offsets !! i) ∧
  (∀ i obj, objs !! i = Some obj → ∃ pre post, offsets' !! (length offsets + i)%nat = Some (len pre) ∧
     buf' = pre +:+ obj +:+ post) ∧
  Forall (λ o, 0 ≤ o ≤ len buf') (drop (length offsets) offsets').
Proof.
  revert buf offsets. induction objs as [|obj objs IH]; intros buf offsets; cbn [foldl].
  - split_and!; [exists ""; by rewrite string_app_nil_r|cbn; lia|done|done|]. rewrite drop_all. constructor.
  - cbn [write_object]. specialize (IH (buf +:+ obj) (offsets ++ [len buf])).
    change (write_object (buf, offsets) obj) with (buf +:+ obj, offsets ++ [len buf]).
    destruct (foldl write_object (buf +:+ obj, offsets ++ [len buf]) objs) as [buf' offsets'].
    rewrite length_app in IH. cbn [length] in IH. destruct IH as ((rest & ->) & Hl & Hold & Hobj & Hr).
    assert (Hat : offsets' !! length offsets = Some (len buf)).
    { rewrite Hold by lia. by rewrite lookup_app_r, Nat.sub_diag by lia. }
    split_and!.
    + exists (obj +:+ rest). by rewrite string_app_assoc.
    + cbn. lia.
    + intros i Hi. rewrite Hold by lia. by rewrite lookup_app_l.
    + intros [|i] obj' Hobj'; cbn in Hobj'.
      * injection Hobj' as <-. exists buf, rest. rewrite Nat.add_0_r. split; [done|]. by rewrite string_app_assoc.
      * destruct (Hobj i obj' Hobj') as (pre & post & H1 & H2). exists pre, post.
        by replace (length offsets + S i)%nat with (length offsets + 1 + i)%nat by lia.
    + rewrite (drop_S _ _ _ Hat). constructor; [rewrite !len_app; unfold len; lia|].
      by replace (S (length offsets)) with (length offsets + 1)%nat by lia.
Qed.

Lemma digits_go_length fuel n acc (k : nat) : 0 ≤ n < 10 ^ Z.of_nat k → (0 < k)%nat →
  (String.length (digits_go fuel n acc) ≤ k + String.length acc)%nat.
Proof.
  revert n acc k. induction fuel as [|fuel IH]; intros n acc k Hn Hk; cbn [digits_go]; [lia|].
  destruct (Z.ltb_spec n 10); [cbn; lia|]. destruct k as [|[|k]]; [lia|cbn in Hn; lia|].
  assert (0 ≤ n / 10 < 10 ^ Z.of_nat (S k)).
  { rewrite Nat2Z.inj_succ, Z.pow_succ_r in Hn by lia. split; [apply Z.div_pos; lia|].
    apply Z.div_lt_upper_bound; lia. }
  specialize (IH (n / 10) (String (digit (n mod 10)) acc) (S k) ltac:(done) ltac:(lia)). cbn in *. lia.
Qed.

Lemma length_of_chars l : String.length (of_chars l) = length l.
Proof. induction l; cbn; congruence. Qed.

Lemma xref_entry_length off : 0 ≤ off < 10 ^ 10 → String.length (xref_entry off) = 20%nat.
Proof.
  intros H. unfold xref_entry, pad10.
  pose proof (digits_go_length (S (Z.to_nat (Z.log2 off))) off "" 10 H ltac:(lia)) as Hl. fold (utoa off) in Hl.
  rewrite !string_length_app, length_of_chars, length_replicate. cbn [String.length newline] in *. lia.
Qed.

(** The PDF export is well formed.  For any lines, the document consists of the
    five objects, a cross-reference table with one entry per object and a trailer
    pointing at the table; every offset in the table is the position where its
    object starts, the stream object declares the length its stream has, the entries
    are twenty bytes wide as long as the document is under ten gigabytes; and every
    line is a literal string that reads back as the line's printable part. *)
Theorem pdf_well_formed (lines : list string) :
  let stream := pdf_stream lines in
  ∃ body offsets trailer,
    buildMinimalPDF lines = body +:+ "xref" +:+ newline +:+ "0 6" +:+ newline +:+ "0000000000 65535 f " +:+ newline
      +:+ concat_str (xref_entry <$> offsets) +:+ trailer ∧
    trailer = "trailer" +:+ newline +:+ "<< /Size 6 /Root 1 0 R >>" +:+ newline +:+ "startxref" +:+ newline
      +:+ itoa (len body) +:+ newline +:+ "%%EOF" +:+ newline ∧
    length offsets = 5%nat ∧
    (∀ i obj, pdf_objects stream !! i = Some obj → ∃ pre post,
       offsets !! i = Some (len pre) ∧ body = pre +:+ obj +:+ post) ∧
    (∃ tail, pdf_objects stream !! 3%nat = Some ("4 0 obj" +:+ newline +:+ "<< /Length " +:+ itoa (len stream)
       +:+ " >>" +:+ newline +:+ "stream" +:+ newline +:+ stream +:+ tail)) ∧
    (len body < 10 ^ 10 → Forall (λ o, String.length (xref_entry o) = 20%nat) offsets) ∧
    (∀ line rest, line ∈ lines → pdf_read (pdfEscapeString line +:+ String ")"%char rest) = Some (printable line, rest)).
Proof.
  cbv zeta. unfold buildMinimalPDF.
  pose proof (write_objects (pdf_objects (pdf_stream lines)) ("%PDF-1.4" +:+ newline) []) as H.
  destruct (foldl write_object _ _) as [body offsets]. destruct H as (_ & Hl & _ & Hobj & Hr).
  exists body, offsets. eexists. split_and!; [done|done|done| | | |].
  - exact Hobj.
  - eexists. cbn [pdf_objects lookup list_lookup]. reflexivity.
  - intros Hlen. rewrite drop_0 in Hr. eapply Forall_impl; [exact Hr|]. cbn. intros o Ho.
    apply xref_entry_length. lia.
  - intros line rest _. apply pdf_read_escaped.
Qed.

(** ** The bill of materials *)

(** A list without its secrets: what the bill of materials may depend on. *)
Definition without_secrets (data : scanResultData) : scanResultData :=
  mk_data (FileName data) (PackageName data) (dataVersion data) (MinSdk data) (TargetSdk data)
    (Permissions data) (SecretCount data) [] (UsesLibrary data) (SBOMComponents data).

Lemma find_key_app m k key : find_key (m ++ k) key =
  match find_key m key with Some v => Some v | None => find_key k key end.
Proof. induction m as [|[k' v] m IH]; [done|]. cbn. by case_decide. Qed.

Lemma zip_pending {A B} (l : list A) (k : list (list B)) p :
  p ∈ filter (λ p : A * list B, p.2 ≠ []) (zip l k) → p.1 ∈ l.
Proof. intros [_ H]%list_elem_of_filter. destruct p as [a b]. by apply elem_of_zip_l in H. Qed.

(** The bill of materials is closed and free of secrets.  It depends on the
    stored result only without its findings; every vulnerability the lookup can
    return for the components refers to the reference of a component that is in the
    document; and every component appears with its own reference. *)
Theorem bom_closed {W} (Marshal_queries : list osvQuery → res string)
    (Unmarshal_batch : string → res (list (list string))) (NewRequest : string → option error)
    (limiter_Wait : W → option error * W)
    (http_Do : string → string → string → W → res (Z * res string) * W) (baseURL : string)
    (tool_version : string) (now : gotime) (job : ScanJob) (data : scanResultData)
    (vulns : list OSVVulnerability) (w : W) :
  cyclonedx_bom tool_version now job data vulns = cyclonedx_bom tool_version now job (without_secrets data) vulns ∧
  (∀ cap items id ref,
     (plan NewRequest Marshal_queries Unmarshal_batch limiter_Wait http_Do baseURL (SBOMComponents data) w).1
       = Some (cap, items) → (id, ref) ∈ items →
     ∃ m, JObject m ∈ bom_components data ∧ find_key m "bom-ref" = Some (JString ref)) ∧
  (SBOMComponents data ≠ [] →
     (λ v, match v with JObject m => find_key m "bom-ref" | _ => None end) <$> bom_components data =
     (λ c, Some (JString (BomRef c))) <$> SBOMComponents data).
Proof.
  split_and!; [done| |].
  - intros cap items id ref Hp Hin. unfold plan in Hp.
    destruct (decide (work_list (SBOMComponents data) = [])); [done|].
    destruct (queryBatch _ _ _ _ _ _ _ w) as [[ids|e] w']; [|done].
    case_decide; [done|]. injection Hp as <- <-.
    apply list_elem_of_bind in Hin as ([p vulnIDs] & Hv & Hpend).
    apply list_elem_of_fmap in Hv as (x & [= -> ->] & _). apply zip_pending in Hpend. cbn in Hpend.
    unfold work_list in Hpend. apply list_elem_of_omap in Hpend as (c & Hc & E).
    destruct (purlToOSV (Purl c)) as [[[eco nm] ver]|]; [|done]. injection E as <-.
    assert (Hne : SBOMComponents data ≠ []) by (by intros Hn; rewrite Hn in Hc; apply elem_of_nil in Hc).
    unfold bom_components. rewrite decide_False by done. unfold cycloneDXComponent. eexists. split.
    + apply list_elem_of_fmap. by exists c.
    + done.
  - intros Hne. unfold bom_components. rewrite decide_False by done. rewrite <- list_fmap_compose.
    by apply list_fmap_ext.
Qed.

(** A document of one component, whose lookup finds two vulnerabilities. *)
Definition sample_data : scanResultData :=
  mk_data "a.apk" "com.example" "1.0" "21" "33" [] 1
    [mk_secret "apk" 7 "res/a.xml" "AWS Key" "AKIA0000000000XY" "high" (S754_zero false) "keep" "" ""] []
    [mk_component "library" "okhttp" "4.9.0" "import:okhttp" "pkg:maven/com.squareup.okhttp3/okhttp@4.9.0"
       [] "" "" [] []].

Lemma bom_closed_witness :
  ∃ m, JObject m ∈ bom_components sample_data ∧ find_key m "bom-ref" = Some (JString "import:okhttp").
Proof.
  refine (proj1 (proj2 (bom_closed (W := unit) (λ _, Ok "") (λ _, Ok [["CVE-1"; ""; "CVE-2"]]) (λ _, None)
    (λ w, (None, w)) (λ _ _ _ w, (Ok (200, Ok "{}"), w)) "https://api.osv.dev" "dev" (mk_time 0 0)
    zero_job sample_data [] tt)) 4%nat [("CVE-1", "import:okhttp"); ("CVE-2", "import:okhttp")] "CVE-2"
    "import:okhttp" _ _).
  - by vm_compute.
  - right. left.
Defined.
