(* ===== verification/Manifest.v ===== *)
(** * The Android manifest ([apk/manifest_parser.go], [apk/exposure.go])

    The component model read from the indented dump of a manifest, and the exposure
    findings derived from it.  The regular expressions of the parser are its matchers
    here; the dump itself comes from an external tool. *)
From Stdlib Require Import Ascii ZArith.
From S2P Require Import Prelude GoStr Report.

Local Open Scope Z_scope.

(** ** Data ([models/manifest_types.go]) *)

Record ManifestFilterData := mk_fdata {
  d_Scheme : string; d_Host : string; d_Port : string; d_Path : string;
  d_PathPrefix : list string; d_PathPattern : string; d_MimeType : string }.

Record ManifestFilter := mk_filter {
  Actions : list string; Categories : list string; Data : list ManifestFilterData;
  Priority : Z; AutoVerify : bool }.

(** Activities, services and receivers have the same fields. *)
Record ManifestActivityInfo := mk_activity {
  Name : string; Exported : bool; Permission : string; IntentFilters : list ManifestFilter }.
Definition ManifestServiceInfo : Type := ManifestActivityInfo.
Definition ManifestReceiverInfo : Type := ManifestActivityInfo.

Record ManifestProviderInfo := mk_provider_info {
  p_Name : string; p_Exported : bool; p_Permission : string; ReadPermission : string; WritePermission : string;
  Authorities : list string; GrantUriPermissions : bool }.

(** ** The expressions *)

Definition newline_ : ascii := byte_of 10.
Definition tab_ : ascii := byte_of 9.
Definition dquote_ : ascii := byte_of 34.

(** The string form [[^dquote]+dquote], as the value and what follows. *)
Definition quoted (s : string) : option (string * string) :=
  match until dquote_ s with
  | ("", _) => None
  | (v, String _ t) => Some (v, t)
  | (_, "") => None
  end.

Definition is_hex (c : ascii) : bool :=
  is_digit c || ((97 <=? byte c) && (byte c <=? 102)).

Fixpoint hex_digits (s : string) : string * string :=
  match s with
  | String c s' => if is_hex c then let '(h, t) := hex_digits s' in (String c h, t) else ("", s)
  | "" => ("", "")
  end.

(** The typed form [type [^)]+)(0x[0-9a-f]+)]. *)
Definition typed_hex (s : string) : option (string * string) :=
  match until ")"%char s with
  | ("", _) => None
  | (_, "") => None
  | (_, String _ t) =>
      match strip_prefix "0x" t with
      | Some t => match hex_digits t with ("", _) => None | (h, t) => Some ("0x" +:+ h, t) end
      | None => None
      end
  end.

(** [.*?] then [close] then [value], on one line: the first place that works. *)
Fixpoint lazily (close : string) (value : string → option (string * string)) (s : string) : option (string * string) :=
  match match strip_prefix close s with Some t => value t | None => None end with
  | Some r => Some r
  | None => match s with
            | String c s' => if decide (c = newline_) then None else lazily close value s'
            | "" => None
            end
  end.

(** [android:NAME\(.*?\)=VALUE], anchored and at its leftmost place. *)
Definition attr_here (name close : string) (value : string → option (string * string)) (s : string) : option (string * string) :=
  match strip_prefix ("android:" +:+ name +:+ "(") s with
  | Some t => lazily close value t
  | None => None
  end.
Fixpoint find_attr (name close : string) (value : string → option (string * string)) (s : string) : option string :=
  match attr_here name close value s with
  | Some (v, _) => Some v
  | None => match s with String _ s' => find_attr name close value s' | "" => None end
  end.

Definition close_string : string := ")=" +:+ String dquote_ "".
Definition close_typed : string := ")=(type ".

(** The two shapes of expression, as [FindStringSubmatch]. *)
Definition attr_string (name block : string) : option string := find_attr name close_string quoted block.
Definition attr_hex (name block : string) : option string := find_attr name close_typed typed_hex block.

Definition mpAndroidNameRe := attr_string "name".
Definition mpExportedStringRe := attr_string "exported".
Definition mpExportedHexRe := attr_hex "exported".
Definition mpPermissionRe := attr_string "permission".
Definition mpReadPermissionRe := attr_string "readPermission".
Definition mpWritePermissionRe := attr_string "writePermission".
Definition mpGrantUriStringRe := attr_string "grantUriPermissions".
Definition mpGrantUriHexRe := attr_hex "grantUriPermissions".
Definition mpAuthoritiesRe := attr_string "authorities".
Definition mpAutoVerifyStringRe := attr_string "autoVerify".
Definition mpAutoVerifyHexRe := attr_hex "autoVerify".
Definition mpTargetSdkStringRe := attr_string "targetSdkVersion".
Definition mpTargetSdkHexRe := attr_hex "targetSdkVersion".

(** [[ \t]*], greedy; the expressions continue with another character. *)
Fixpoint TrimLeft_blank (s : string) : string :=
  match s with
  | String c s' => if decide (c = " "%char ∨ c = tab_) then TrimLeft_blank s' else s
  | "" => ""
  end.
Fixpoint TrimRight_blank (s : string) : string :=
  match s with
  | String c s' => let t := TrimRight_blank s' in
                   if bool_decide (t = "") && bool_decide (c = " "%char ∨ c = tab_) then "" else String c t
  | "" => ""
  end.

(** [mpActionRe] and [mpCategoryRe] at the start of a line: an element of the
    given tag whose next line is its name; the value and what follows. *)
Definition tag_here (tag s : string) : option (string * string) :=
  match strip_prefix ("E: " +:+ tag) (TrimLeft_blank s) with
  | None => None
  | Some t => match until newline_ t with
              | (_, "") => None
              | (_, String _ t) => match strip_prefix "A: " (TrimLeft_blank t) with
                                   | Some t => attr_here "name" close_string quoted t
                                   | None => None
                                   end
              end
  end.
(** [FindAllStringSubmatch]; [bol]: at the beginning of a line. *)
Fixpoint find_tags (fuel : nat) (tag : string) (bol : bool) (s : string) : list string :=
  match fuel with
  | O => []
  | S fuel =>
      match if bol then tag_here tag s else None with
      | Some (v, t) => v :: find_tags fuel tag false t
      | None => match s with
                | String c s' => find_tags fuel tag (bool_decide (c = newline_)) s'
                | "" => []
                end
      end
  end.
Definition mpActionRe (s : string) : list string := find_tags (S (String.length s)) "action" true s.
Definition mpCategoryRe (s : string) : list string := find_tags (S (String.length s)) "category" true s.

(** ** Blocks *)

Definition nl_string : string := String newline_ "".

(** The variables of the loop of [extractComponentBlocks]. *)
Record blocks_state := mk_blocks {
  blocks : list string; currentBlock : list string; inBlock : bool; inApplication : bool;
  applicationIndent : Z; componentIndent : Z }.

Definition blocks_start : blocks_state := mk_blocks [] [] false false (-1) (-1).

(** Saving a finished block, if it names something. *)
Definition save_block (st : blocks_state) : list string :=
  let block := Join (currentBlock st) nl_string in
  if Contains block "android:name" then blocks st ++ [block] else blocks st.

Definition countLeadingSpaces (s : string) : Z := len s - len (TrimLeft_blank s).

(** One iteration; [true]: the line is to be processed again. *)
Definition blocks_body (componentType raw : string) (st : blocks_state) : bool * blocks_state :=
  let line := TrimRight_blank raw in
  if decide (line = "") then (false, st)
  else
    let indent := countLeadingSpaces line in
    let trimmedLine := TrimSpace line in
    if HasPrefix trimmedLine "E: application" then
      (false, mk_blocks (blocks st) (currentBlock st) (inBlock st) true indent (componentIndent st))
    else if inApplication st && (indent <=? applicationIndent st) && HasPrefix trimmedLine "E:" then
      (false, if indent =? applicationIndent st
              then mk_blocks (blocks st) (currentBlock st) (inBlock st) false (-1) (componentIndent st) else st)
    else if negb (inApplication st) then (false, st)
    else if HasPrefix trimmedLine ("E: " +:+ componentType) then
      let saved := if inBlock st && negb (bool_decide (currentBlock st = [])) then save_block st else blocks st in
      (false, mk_blocks saved [line] true (inApplication st) (applicationIndent st) indent)
    else if inBlock st then
      if (componentIndent st <? indent) || ((indent =? componentIndent st) && negb (HasPrefix trimmedLine "E:"))
      then (false, mk_blocks (blocks st) (currentBlock st ++ [line]) true (inApplication st)
                     (applicationIndent st) (componentIndent st))
      else (true, mk_blocks (save_block st) (currentBlock st) false (inApplication st) (applicationIndent st) (-1))
    else (false, st).

(** A loop over lines whose body may back up by one, with as many iterations as
    [fuel]. *)
Fixpoint line_loop {A} (body : string → A → bool * A) (fuel : nat) (lines : list string) (st : A) : option A :=
  match lines with
  | [] => Some st
  | line :: rest =>
      match fuel with
      | O => None
      | S fuel => let '(again, st) := body line st in
                  line_loop body fuel (if again then lines else rest) st
      end
  end.

Definition blocks_finish (st : blocks_state) : list string :=
  if inBlock st && negb (bool_decide (currentBlock st = [])) then save_block st else blocks st.

(** Two iterations per line are enough. *)
Definition extractComponentBlocks (lines : list string) (componentType : string) : option (list string) :=
  blocks_finish <$> line_loop (blocks_body componentType) (2 * length lines) lines blocks_start.

(** ** Intent filters *)

(** [extractAttribute]: the expressions of [mpAttrStringRe] all have this shape. *)
Definition extractAttribute (block attrName : string) : string := default "" (attr_string attrName block).

(** [processDataBlock]: what it appends to the filter. *)
Definition processDataBlock (dataBlock : string) : list ManifestFilterData :=
  let prefix := extractAttribute dataBlock "pathPrefix" in
  let d := mk_fdata (extractAttribute dataBlock "scheme") (extractAttribute dataBlock "host")
             (extractAttribute dataBlock "port") (extractAttribute dataBlock "path")
             (if decide (prefix = "") then [] else [prefix]) (extractAttribute dataBlock "pathPattern")
             (extractAttribute dataBlock "mimeType") in
  if decide (d_Scheme d ≠ "" ∨ d_Host d ≠ "" ∨ d_Path d ≠ "" ∨ d_PathPattern d ≠ "" ∨ d_PathPrefix d ≠ []
             ∨ d_MimeType d ≠ "") then [d] else [].

(** The buffer of a loop that collects blocks: what is done, the current block, and
    whether one is open. *)
Record collector (A : Type) := mk_coll { collected : list A; buffer : list string; opened : bool }.
Arguments mk_coll {A} _ _ _.
Arguments collected {A} _.
Arguments buffer {A} _.
Arguments opened {A} _.

Definition flush {A} (process : string → list A) (st : collector A) : list A :=
  if opened st && negb (bool_decide (buffer st = [])) then collected st ++ process (Join (buffer st) nl_string)
  else collected st.

(** The loop body both functions share: [starts] opens a block, [inside] continues
    it, any other line ends it and is seen again if it is an element. *)
Definition collect_body {A} (starts inside : string → bool) (process : string → list A) (line : string)
    (st : collector A) : bool * collector A :=
  if starts line then (false, mk_coll (flush process st) [line] true)
  else if opened st then
    if inside line then (false, mk_coll (collected st) (buffer st ++ [line]) true)
    else (HasPrefix line "E: ",
          mk_coll (collected st ++ process (Join (buffer st) nl_string)) (buffer st) false)
  else (false, st).

Definition collect {A} (starts inside : string → bool) (process : string → list A) (block : string) : option (list A) :=
  let lines := Split block newline_ in
  flush process <$> line_loop (collect_body starts inside process) (2 * length lines) lines (mk_coll [] [] false).

Definition isHexValueTrue (hexValue : string) : bool := bool_decide (hexValue = "0xffffffff").

Definition data_blocks (filterBlock : string) : option (list ManifestFilterData) :=
  collect (λ line, Contains line "E: data") (λ line, HasPrefix line "  " || HasPrefix line (String tab_ (String tab_ "")))
    processDataBlock filterBlock.

(** [processIntentFilterBlock]; [None]: no filter. *)
Definition processIntentFilterBlock (filterBlock : string) : option ManifestFilter :=
  let autoVerify :=
    if bool_decide (mpAutoVerifyStringRe filterBlock = Some "true") then true
    else match mpAutoVerifyHexRe filterBlock with Some h => isHexValueTrue h | None => false end in
  let actions := mpActionRe filterBlock in
  let categories := mpCategoryRe filterBlock in
  let data := default [] (data_blocks filterBlock) in
  let priority := extractAttribute filterBlock "priority" in
  let priority := if decide (priority = "") then 0 else default 0 (Atoi priority) in
  if decide (actions ≠ [] ∨ data ≠ [] ∨ categories ≠ [])
  then Some (mk_filter actions categories data priority autoVerify) else None.

Definition extractIntentFilters (block : string) : list ManifestFilter :=
  default [] (collect (λ line, Contains line "E: intent-filter")
    (λ line, HasPrefix line " " || HasPrefix line (String tab_ "") || bool_decide (line = ""))
    (λ b, option_list (processIntentFilterBlock b)) block).

(** ** Components *)

(** The explicit [android:exported], in either form. *)
Definition explicit_exported (block : string) : option bool :=
  match mpExportedStringRe block with
  | Some v => Some (bool_decide (v = "true"))
  | None => isHexValueTrue <$> mpExportedHexRe block
  end.

(** One block of an activity, a service or a receiver. *)
Definition component_of (block : string) : option ManifestActivityInfo :=
  match mpAndroidNameRe block with
  | None => None
  | Some name =>
      let exported := default (Contains block "E: intent-filter") (explicit_exported block) in
      Some (mk_activity name exported (default "" (mpPermissionRe block)) (extractIntentFilters block))
  end.

Definition extract {A} (componentType : string) (of_block : string → option A) (lines : list string) : list A :=
  omap of_block (default [] (extractComponentBlocks lines componentType)).

Definition extractActivities (lines : list string) (targetSdk : Z) : list ManifestActivityInfo :=
  extract "activity" component_of lines.
Definition extractServices (lines : list string) (targetSdk : Z) : list ManifestServiceInfo :=
  extract "service" component_of lines.
Definition extractReceivers (lines : list string) (targetSdk : Z) : list ManifestReceiverInfo :=
  extract "receiver" component_of lines.

Definition provider_of_block (targetSdk : Z) (block : string) : option ManifestProviderInfo :=
  match mpAndroidNameRe block with
  | None => None
  | Some name =>
      let exported := default (targetSdk <? 17) (explicit_exported block) in
      let grant := match mpGrantUriStringRe block with
                   | Some v => bool_decide (v = "true")
                   | None => match mpGrantUriHexRe block with Some h => isHexValueTrue h | None => false end
                   end in
      let authorities := match mpAuthoritiesRe block with Some a => Split a ";"%char | None => [] end in
      Some (mk_provider_info name exported (default "" (mpPermissionRe block)) (default "" (mpReadPermissionRe block))
              (default "" (mpWritePermissionRe block)) authorities grant)
  end.

Definition extractProviders (lines : list string) (targetSdk : Z) : list ManifestProviderInfo :=
  extract "provider" (provider_of_block targetSdk) lines.

(** [ParseInt(s, 0, 64)] of the expression's [0x] digits; [None] on overflow. *)
Definition hex_val (c : ascii) : Z := if is_digit c then byte c - 48 else byte c - 87.
Fixpoint hex_number (acc : Z) (s : string) : Z :=
  match s with "" => acc | String c s' => hex_number (acc * 16 + hex_val c) s' end.
Definition parse_hex (s : string) : option Z :=
  let n := hex_number 0 (drop_str 2 s) in if n <=? int64_max then Some n else None.

Definition extractTargetSdkFromXMLTree (xmlTree : string) : Z :=
  match mpTargetSdkStringRe xmlTree ≫= Atoi with
  | Some v => v
  | None => default 0 (mpTargetSdkHexRe xmlTree ≫= parse_hex)
  end.

Record AndroidManifest := mk_manifest {
  UsesTargetSdkVersion : string; Activities : list ManifestActivityInfo; Services : list ManifestServiceInfo;
  BroadcastReceivers : list ManifestReceiverInfo; ContentProviders : list ManifestProviderInfo }.

(** [setDefaultExportedValues]: the names, with nothing exported. *)
Definition setDefaultExportedValues (m : AndroidManifest) : AndroidManifest :=
  let plain c := mk_activity (Name c) false "" [] in
  mk_manifest (UsesTargetSdkVersion m) (plain <$> Activities m) (plain <$> Services m)
    (plain <$> BroadcastReceivers m) ((λ p, mk_provider_info (p_Name p) false "" "" "" [] false) <$> ContentProviders m).

(** The value of [strconv.Atoi], which is clamped when the number is out of range. *)
Definition Atoi_value (s : string) : Z :=
  match scan_signed s with Some (n, "") => Z.max int64_min (Z.min int64_max n) | _ => 0 end.

(** [ExtractComponentExportInfo], given what the dump command gives. *)
Definition ExtractComponentExportInfo (dump : option string) (m : AndroidManifest) : AndroidManifest :=
  match dump with
  | None => setDefaultExportedValues m
  | Some xmlTree =>
      let sdk := Atoi_value (UsesTargetSdkVersion m) in
      let fallback := extractTargetSdkFromXMLTree xmlTree in
      let targetSdk := if (bool_decide (Atoi (UsesTargetSdkVersion m) = None) || (sdk =? 0)) && (0 <? fallback)
                       then fallback else sdk in
      let xmlLines := Split xmlTree newline_ in
      mk_manifest (UsesTargetSdkVersion m) (extractActivities xmlLines targetSdk) (extractServices xmlLines targetSdk)
        (extractReceivers xmlLines targetSdk) (extractProviders xmlLines targetSdk)
  end.

(** ** Exposure *)

Definition masvsIDPlatform1 : string := "MASVS-PLATFORM-1".
Definition ruleExportedNoPermission : string := "exported-component-no-permission".
Definition ruleBrowsableCustomScheme : string := "browsable-custom-scheme-deeplink".
Definition ruleAppLinkNoAutoVerify : string := "app-link-no-autoverify".
Definition categoryPlatform : string := "platform".
Definition locationManifest : string := "AndroidManifest.xml".
Definition browsableCategory : string := "android.intent.category.BROWSABLE".

Definition providerIsPermissionGuarded (p : ManifestProviderInfo) : bool :=
  if decide (p_Permission p ≠ "") then true
  else bool_decide (ReadPermission p ≠ "") && bool_decide (WritePermission p ≠ "").

Definition newExportedFinding (componentName componentType severity : string) : PlatformFinding :=
  mk_platform ruleExportedNoPermission "Exported component without permission guard" severity masvsIDPlatform1
    categoryPlatform locationManifest
    (componentName +:+ " (" +:+ componentType +:+ "): exported=true, no android:permission") (TierForSeverity severity).

Definition hasBrowsableCategory (filter : ManifestFilter) : bool :=
  existsb (λ cat, bool_decide (cat = browsableCategory)) (Categories filter).

Definition customSchemeFinding (scheme host : string) : PlatformFinding :=
  mk_platform ruleBrowsableCustomScheme "Browsable custom-scheme deep-link (potential scheme hijack)" SeverityMedium
    masvsIDPlatform1 categoryPlatform locationManifest (scheme +:+ "://" +:+ host) (TierForSeverity SeverityMedium).

Definition appLinkNoAutoVerifyFinding (componentName host : string) : PlatformFinding :=
  mk_platform ruleAppLinkNoAutoVerify "App Link intent-filter missing android:autoVerify" SeverityLow
    masvsIDPlatform1 categoryPlatform locationManifest (if decide (host = "") then componentName else host)
    (TierForSeverity SeverityLow).

(** The findings of one data element. *)
Definition data_findings (componentName : string) (filter : ManifestFilter) (data : ManifestFilterData) : list PlatformFinding :=
  if decide (d_Scheme data = "") then []
  else
    let scheme := ToLower (d_Scheme data) in
    if bool_decide (scheme ≠ "http") && bool_decide (scheme ≠ "https") then
      if hasBrowsableCategory filter then [customSchemeFinding (d_Scheme data) (d_Host data)] else []
    else if bool_decide (scheme = "https") && hasBrowsableCategory filter then
      if negb (AutoVerify filter) then [appLinkNoAutoVerifyFinding componentName (d_Host data)] else []
    else [].

Definition analyzeIntentFilters (componentName : string) (filters : list ManifestFilter) : list PlatformFinding :=
  filter ← filters; data ← Data filter; data_findings componentName filter data.

Definition component_findings (componentType : string) (c : ManifestActivityInfo) : list PlatformFinding :=
  if negb (Exported c) then []
  else (if decide (Permission c = "") then [newExportedFinding (Name c) componentType SeverityMedium] else [])
       ++ analyzeIntentFilters (Name c) (IntentFilters c).

Definition provider_findings (p : ManifestProviderInfo) : list PlatformFinding :=
  if negb (p_Exported p) then []
  else if negb (providerIsPermissionGuarded p) then [newExportedFinding (p_Name p) "provider" SeverityHigh] else [].

(** [AnalyzeExposure]; [None] is a [nil] model. *)
Definition AnalyzeExposure (meta : option AndroidManifest) : list PlatformFinding :=
  match meta with
  | None => []
  | Some m =>
      (Activities m ≫= component_findings "activity") ++ (Services m ≫= component_findings "service") ++
      (BroadcastReceivers m ≫= component_findings "receiver") ++ (ContentProviders m ≫= provider_findings)
  end.

(** ** The loops end *)

(** One line, seen again when the body backs up. *)
Definition line_step {A} (body : string → A → bool * A) (st : A) (line : string) : A :=
  let '(again, st) := body line st in if again then (body line st).2 else st.

Lemma line_loop_fold {A} (body : string → A → bool * A) n lines st :
  (∀ l st st', body l st = (true, st') → (body l st').1 = false) → (2 * length lines ≤ n)%nat →
  line_loop body n lines st = Some (foldl (line_step body) st lines).
Proof.
  intros Hb. revert n st. induction lines as [|l lines IH]; intros n st Hn; [by destruct n|]. cbn in Hn.
  destruct n as [|n]; [lia|]. cbn [line_loop foldl]. unfold line_step at 2.
  destruct (body l st) as [[] st'] eqn:E; [|apply IH; lia].
  destruct n as [|n]; [lia|]. cbn [line_loop]. pose proof (Hb _ _ _ E) as Hf.
  destruct (body l st') as [b st'']. cbn in Hf. subst b. cbn [snd]. apply IH. lia.
Qed.

Lemma blocks_body_again ct l st st' : blocks_body ct l st = (true, st') → (blocks_body ct l st').1 = false.
Proof.
  unfold blocks_body. intros E. repeat (case_match; simplify_eq; try done); destruct st; cbn in *; simplify_eq.
Qed.

Lemma collect_body_again {A} starts inside (process : string → list A) l st st' :
  collect_body starts inside process l st = (true, st') → (collect_body starts inside process l st').1 = false.
Proof.
  unfold collect_body. intros E. destruct (starts l); [done|]. destruct (opened st); [|done].
  destruct (inside l); [done|]. by simplify_eq.
Qed.

(** Every loop of the manifest parser ends.  The loops over lines may back up by
    one line, yet two iterations per line are always enough, for the component
    blocks of any type and for any collection of nested blocks; the result is that
    of one pass in which a line may be seen twice. *)
Theorem parser_loops_end {A} (lines : list string) (componentType block : string)
    (starts inside : string → bool) (process : string → list A) :
  extractComponentBlocks lines componentType =
    Some (blocks_finish (foldl (line_step (blocks_body componentType)) blocks_start lines)) ∧
  collect starts inside process block =
    Some (flush process (foldl (line_step (collect_body starts inside process)) (mk_coll [] [] false) (Split block newline_))).
Proof.
  unfold extractComponentBlocks, collect. rewrite !line_loop_fold; [done| |lia| |lia].
  - apply collect_body_again.
  - apply blocks_body_again.
Qed.

(** ** Blocks of a dump *)

Definition indent (d : nat) : string := Nat.iter d (λ s, String " " (String " " s)) "".

(** An attribute of a dump: with a string value, with a typed one, with another
    (a reference, say), or without a resource identifier. *)
Inductive attr :=
  | AString (name id value rest : string)
  | ATyped (name id type digits : string)
  | AAndroid (name rest : string)
  | AOther (text : string).

Definition attr_text (a : attr) : string :=
  match a with
  | AString name id value rest =>
      "android:" +:+ name +:+ "(" +:+ id +:+ close_string +:+ value +:+ String dquote_ rest
  | ATyped name id type digits =>
      "android:" +:+ name +:+ "(" +:+ id +:+ close_typed +:+ type +:+ ")0x" +:+ digits
  | AAndroid name rest => "android:" +:+ name +:+ "(" +:+ rest
  | AOther text => text
  end.

(** An element with its attributes and its children, and its dump. *)
Inductive xml := Elem (tag : string) (attrs : list attr) (children : list xml).

Fixpoint dump (d : nat) (x : xml) : list string :=
  match x with
  | Elem tag attrs children =>
      (indent d +:+ "E: " +:+ tag) :: ((λ a, indent (S d) +:+ "A: " +:+ attr_text a) <$> attrs)
      ++ flat_map (dump (S d)) children
  end.

Definition tag_of (x : xml) : string := match x with Elem tag _ _ => tag end.
Definition attrs_of (x : xml) : list attr := match x with Elem _ attrs _ => attrs end.
Definition children_of (x : xml) : list xml := match x with Elem _ _ children => children end.

(** A line's text without blanks around it. *)
Definition trimmed (s : string) : Prop := TrimSpace s = s ∧ TrimRight_blank s = s.

(** [P] holds of every tag of the tree, and all texts are trimmed. *)
Fixpoint tidy (P : string → Prop) (x : xml) : Prop :=
  match x with
  | Elem tag attrs children =>
      trimmed ("E: " +:+ tag) ∧ P tag ∧ Forall (λ a, trimmed ("A: " +:+ attr_text a)) attrs ∧
      foldr (λ c Q, tidy P c ∧ Q) True children
  end.

(** A line that is no component of type [ct] and no application, at depth [d] or
    deeper. *)
Definition plain_text (ct s : string) : Prop :=
  trimmed s ∧ s ≠ "" ∧ (∃ c r, s = String c r ∧ c ≠ " "%char ∧ c ≠ tab_) ∧
  HasPrefix s "E: application" = false ∧ HasPrefix s ("E: " +:+ ct) = false.
Definition line_in (Q : string → Prop) (d : nat) (l : string) : Prop :=
  ∃ k s, l = indent k +:+ s ∧ (d ≤ k)%nat ∧ Q s.
Definition plain_line (ct : string) : nat → string → Prop := line_in (plain_text ct).

Lemma indent_S d s : indent (S d) +:+ s = String " " (String " " (indent d +:+ s)).
Proof. done. Qed.

Lemma TrimSpace_indent d s : TrimSpace (indent d +:+ s) = TrimSpace s.
Proof. induction d as [|d IH]; [done|]. rewrite indent_S. exact IH. Qed.

Lemma TrimRight_String c s : s ≠ "" → TrimRight_blank s = s → TrimRight_blank (String c s) = String c s.
Proof. intros Hs E. cbn. rewrite E. rewrite bool_decide_false by done. done. Qed.

Lemma indent_ne d s : s ≠ "" → indent d +:+ s ≠ "".
Proof. by destruct d. Qed.

Lemma TrimRight_indent d s : s ≠ "" → TrimRight_blank s = s → TrimRight_blank (indent d +:+ s) = indent d +:+ s.
Proof.
  intros Hs E. induction d as [|d IH]; [done|]. rewrite indent_S.
  apply TrimRight_String; [done|]. by apply TrimRight_String; [apply indent_ne|].
Qed.

Lemma countLeadingSpaces_indent d c s : c ≠ " "%char → c ≠ tab_ →
  countLeadingSpaces (indent d +:+ String c s) = Z.of_nat (2 * d).
Proof.
  intros Hc Ht. unfold countLeadingSpaces. induction d as [|d IH].
  - change (indent 0 +:+ String c s) with (String c s). cbn [TrimLeft_blank]. rewrite decide_False by (intros [?|?]; done). lia.
  - rewrite indent_S. assert (E : ∀ x, TrimLeft_blank (String " " x) = TrimLeft_blank x) by done.
    rewrite !E. unfold len in *. cbn [String.length]. lia.
Qed.

(** What the loop sees of an indented, trimmed line. *)
Lemma body_line ct d c r s st :
  s = String c r → c ≠ " "%char → c ≠ tab_ → trimmed s →
  blocks_body ct (indent d +:+ s) st =
    let line := indent d +:+ s in
    let i := Z.of_nat (2 * d) in
    if HasPrefix s "E: application" then
      (false, mk_blocks (blocks st) (currentBlock st) (inBlock st) true i (componentIndent st))
    else if inApplication st && (i <=? applicationIndent st) && HasPrefix s "E:" then
      (false, if i =? applicationIndent st
              then mk_blocks (blocks st) (currentBlock st) (inBlock st) false (-1) (componentIndent st) else st)
    else if negb (inApplication st) then (false, st)
    else if HasPrefix s ("E: " +:+ ct) then
      let saved := if inBlock st && negb (bool_decide (currentBlock st = [])) then save_block st else blocks st in
      (false, mk_blocks saved [line] true (inApplication st) (applicationIndent st) i)
    else if inBlock st then
      if (componentIndent st <? i) || ((i =? componentIndent st) && negb (HasPrefix s "E:"))
      then (false, mk_blocks (blocks st) (currentBlock st ++ [line]) true (inApplication st)
                     (applicationIndent st) (componentIndent st))
      else (true, mk_blocks (save_block st) (currentBlock st) false (inApplication st) (applicationIndent st) (-1))
    else (false, st).
Proof.
  intros -> Hc Ht [Hs Hr]. unfold blocks_body. rewrite TrimRight_indent by done.
  rewrite decide_False by by apply indent_ne. by rewrite TrimSpace_indent, countLeadingSpaces_indent, Hs.
Qed.

(** The states of the loop inside the application of depth [a]. *)
Definition outside (a : nat) (bs cur : list string) : blocks_state :=
  mk_blocks bs cur false true (Z.of_nat (2 * a)) (-1).
Definition within (a d : nat) (bs cur : list string) : blocks_state :=
  mk_blocks bs cur true true (Z.of_nat (2 * a)) (Z.of_nat (2 * d)).

Lemma step_outside ct a d bs cur l : (a < d)%nat → plain_line ct d l →
  line_step (blocks_body ct) (outside a bs cur) l = outside a bs cur.
Proof.
  intros Ha (k & s & -> & Hk & Ht & _ & (c & r & Hs & Hc & Htab) & H1 & H2). unfold line_step.
  rewrite (body_line ct k c r s) by done. cbv zeta. rewrite H1, H2. cbn [outside inApplication applicationIndent].
  destruct (Z.leb_spec (Z.of_nat (2 * k)) (Z.of_nat (2 * a))); [lia|]. done.
Qed.

Lemma step_within ct a d bs cur l : (a < d)%nat → plain_line ct (S d) l →
  line_step (blocks_body ct) (within a d bs cur) l = within a d bs (cur ++ [l]).
Proof.
  intros Ha (k & s & -> & Hk & Ht & _ & (c & r & Hs & Hc & Htab) & H1 & H2). unfold line_step.
  rewrite (body_line ct k c r s) by done. cbv zeta. rewrite H1, H2.
  cbn [within inApplication applicationIndent inBlock componentIndent blocks currentBlock].
  destruct (Z.leb_spec (Z.of_nat (2 * k)) (Z.of_nat (2 * a))); [lia|]. cbn [andb negb].
  destruct (Z.ltb_spec (Z.of_nat (2 * d)) (Z.of_nat (2 * k))); [done|lia].
Qed.

(** Another element at the depth of the block ends it, and is skipped. *)
Lemma step_close ct a d bs cur l : (a < d)%nat → plain_text ct ("E: " +:+ l) →
  line_step (blocks_body ct) (within a d bs cur) (indent d +:+ "E: " +:+ l) =
    outside a (save_block (within a d bs cur)) cur.
Proof.
  intros Ha (Ht & _ & (c & r & Hs & Hc & Htab) & H1 & H2). unfold line_step.
  rewrite (body_line ct d c r ("E: " +:+ l)) by done. cbv zeta. rewrite H1, H2.
  cbn [within inApplication applicationIndent inBlock componentIndent blocks currentBlock].
  destruct (Z.leb_spec (Z.of_nat (2 * d)) (Z.of_nat (2 * a))); [lia|]. cbn [andb negb].
  rewrite Z.ltb_irrefl, Z.eqb_refl. cbn [orb andb negb]. change (HasPrefix ("E: " +:+ l) "E:") with true. cbn [negb].
  rewrite (body_line ct d c r ("E: " +:+ l)) by done. cbv zeta. rewrite H1, H2.
  cbn [inApplication applicationIndent inBlock].
  destruct (Z.leb_spec (Z.of_nat (2 * d)) (Z.of_nat (2 * a))); [lia|]. done.
Qed.

Lemma fold_plain_outside ct a d bs cur ls : (a < d)%nat → Forall (plain_line ct d) ls →
  foldl (line_step (blocks_body ct)) (outside a bs cur) ls = outside a bs cur.
Proof. intros Ha. induction 1 as [|l ls Hl _ IH]; [done|]. cbn. by rewrite (step_outside ct a d). Qed.

Lemma fold_plain_within ct a d bs cur ls : (a < d)%nat → Forall (plain_line ct (S d)) ls →
  foldl (line_step (blocks_body ct)) (within a d bs cur) ls = within a d bs (cur ++ ls).
Proof.
  intros Ha Hls. revert cur. induction Hls as [|l ls Hl _ IH]; intros cur; cbn; [by rewrite app_nil_r|].
  rewrite (step_within ct a d) by done. by rewrite IH, <- app_assoc.
Qed.

Lemma line_in_mono Q d e l : (d ≤ e)%nat → line_in Q e l → line_in Q d l.
Proof. intros Hd (k & s & ? & ? & ?). exists k, s. split_and!; [done|lia|done]. Qed.

(** The lines of a tree, from what its tags and attributes satisfy. *)
Lemma dump_lines (P Q : string → Prop) :
  (∀ tag, trimmed ("E: " +:+ tag) → P tag → Q ("E: " +:+ tag)) →
  (∀ a, trimmed ("A: " +:+ attr_text a) → Q ("A: " +:+ attr_text a)) →
  ∀ x d, tidy P x → Forall (line_in Q d) (dump d x).
Proof.
  intros HE HA. fix IH 1. intros [tag attrs children] d (Ht & HP & Hattrs & Hch). cbn [dump].
  constructor; [exists d, ("E: " +:+ tag); auto|]. apply Forall_app. split.
  - apply Forall_fmap. eapply Forall_impl; [exact Hattrs|]. intros a Ha. exists (S d), ("A: " +:+ attr_text a). auto.
  - induction children as [|c children IHc]; [constructor|]. destruct Hch as [Hc Hch]. cbn [flat_map].
    apply Forall_app. split; [|by apply IHc].
    eapply Forall_impl; [apply (IH c (S d) Hc)|]. intros l. apply line_in_mono. lia.
Qed.

Definition quiet (ct tag : string) : Prop := HasPrefix tag "application" = false ∧ HasPrefix tag ct = false.

Lemma HasPrefix_E tag p : HasPrefix ("E: " +:+ tag) ("E: " +:+ p) = HasPrefix tag p.
Proof. reflexivity. Qed.

Lemma plain_E ct tag : trimmed ("E: " +:+ tag) → quiet ct tag → plain_text ct ("E: " +:+ tag).
Proof.
  intros Ht [H1 H2]. split_and!; [done|done|by eexists _, _| |].
  - change "E: application" with ("E: " +:+ "application"). by rewrite HasPrefix_E.
  - by rewrite HasPrefix_E.
Qed.

Lemma plain_A ct a : trimmed ("A: " +:+ attr_text a) → plain_text ct ("A: " +:+ attr_text a).
Proof. intros Ht. split_and!; [done|done|by eexists _, _|done|done]. Qed.

Lemma dump_plain ct x d : tidy (quiet ct) x → Forall (plain_line ct d) (dump d x).
Proof. apply dump_lines; [apply plain_E|apply plain_A]. Qed.

(** A component or another child of the application: below it there is neither an
    application nor a component of the type. *)
Definition child_ok (ct : string) (x : xml) : Prop :=
  trimmed ("E: " +:+ tag_of x) ∧ HasPrefix (tag_of x) "application" = false ∧
  Forall (λ a, trimmed ("A: " +:+ attr_text a)) (attrs_of x) ∧ Forall (tidy (quiet ct)) (children_of x).

Definition block_of (d : nat) (x : xml) : string := Join (dump d x) nl_string.

(** The block of a child that counts. *)
Definition kept (ct : string) (d : nat) (x : xml) : list string :=
  if HasPrefix (tag_of x) ct && Contains (block_of d x) "android:name" then [block_of d x] else [].

Lemma child_body_plain ct d x : child_ok ct x →
  ∃ body, dump d x = (indent d +:+ "E: " +:+ tag_of x) :: body ∧ Forall (plain_line ct (S d)) body.
Proof.
  destruct x as [tag attrs children]. intros (_ & _ & Ha & Hc). cbn in *. eexists. split; [done|].
  apply Forall_app. split.
  - apply Forall_fmap. eapply Forall_impl; [exact Ha|]. intros a Hta. exists (S d), ("A: " +:+ attr_text a).
    split_and!; [done|lia|by apply plain_A].
  - induction Hc as [|c cs Hc _ IH]; [constructor|]. cbn. apply Forall_app. split; [by apply dump_plain|done].
Qed.

(** Inside the application: between components or in one. *)
Definition in_app (a d : nat) (st : blocks_state) : Prop :=
  (∃ bs cur, st = outside a bs cur) ∨ (∃ bs cur, cur ≠ [] ∧ st = within a d bs cur).

Lemma finish_within a d bs cur : cur ≠ [] →
  blocks_finish (within a d bs cur) = save_block (within a d bs cur).
Proof. intros Hc. unfold blocks_finish. cbn [within inBlock currentBlock]. by rewrite bool_decide_false. Qed.

Lemma fold_child ct a d x st :
  (a < d)%nat → child_ok ct x → in_app a d st →
  let st' := foldl (line_step (blocks_body ct)) st (dump d x) in
  in_app a d st' ∧ blocks_finish st' = blocks_finish st ++ kept ct d x.
Proof.
  intros Had Hx Hst. cbv zeta. destruct (child_body_plain ct d x Hx) as (body & Hd & Hbody).
  rewrite Hd. cbn [foldl]. destruct (HasPrefix (tag_of x) ct) eqn:Ect.
  - assert (Hhead : line_step (blocks_body ct) st (indent d +:+ "E: " +:+ tag_of x) =
      within a d (blocks_finish st) [indent d +:+ "E: " +:+ tag_of x]).
    { destruct Hx as (Ht & Happ & _). unfold line_step.
      rewrite (body_line ct d "E"%char (": " +:+ tag_of x)) by done. cbv zeta.
      change "E: application" with ("E: " +:+ "application"). rewrite !HasPrefix_E, Happ, Ect.
      destruct Hst as [(bs & cur & ->)|(bs & cur & Hcur & ->)];
        cbn [outside within inApplication applicationIndent inBlock componentIndent blocks currentBlock];
        (destruct (Z.leb_spec (Z.of_nat (2 * d)) (Z.of_nat (2 * a))); [lia|]); [reflexivity|].
      cbn [andb negb]. rewrite bool_decide_false by done. cbn [andb negb]. by rewrite finish_within. }
    rewrite Hhead, (fold_plain_within ct a d) by done. split; [right; eexists _, _; (split; [|reflexivity]); done|].
    rewrite finish_within by done. unfold save_block, kept. rewrite Ect. cbn [within currentBlock blocks].
    unfold block_of. rewrite Hd. cbn [app]. destruct (Contains _ _); cbn [andb]; [done|by rewrite app_nil_r].
  - unfold kept. rewrite Ect. cbn [andb]. rewrite app_nil_r.
    assert (Hp : plain_text ct ("E: " +:+ tag_of x)) by (apply plain_E; [apply Hx|split; [apply Hx|done]]).
    destruct Hst as [(bs & cur & ->)|(bs & cur & Hcur & ->)].
    + rewrite (step_outside ct a d); [|done|by exists d, ("E: " +:+ tag_of x)].
      rewrite (fold_plain_outside ct a (S d)) by (done || lia). split; [left; eauto|done].
    + rewrite (step_close ct a d) by done.
      rewrite (fold_plain_outside ct a (S d)) by (done || lia). split; [left; eauto|]. by rewrite finish_within.
Qed.

Lemma fold_children ct a d xs st :
  (a < d)%nat → Forall (child_ok ct) xs → in_app a d st →
  let st' := foldl (line_step (blocks_body ct)) st (flat_map (dump d) xs) in
  in_app a d st' ∧ blocks_finish st' = blocks_finish st ++ (xs ≫= kept ct d).
Proof.
  intros Had Hxs. revert st. induction Hxs as [|x xs Hx _ IH]; intros st Hst; cbv zeta; cbn [flat_map foldl].
  { by rewrite app_nil_r. }
  rewrite foldl_app. destruct (fold_child ct a d x st Had Hx Hst) as [Hin Hf].
  destruct (IH _ Hin) as [Hin' Hf']. split; [done|]. rewrite Hf', Hf. cbn. by rewrite app_assoc.
Qed.

(** Outside the application nothing is collected. *)
Definition idle_text (s : string) : Prop :=
  trimmed s ∧ (∃ c r, s = String c r ∧ c ≠ " "%char ∧ c ≠ tab_) ∧ HasPrefix s "E: application" = false.

Lemma fold_idle ct ls st : inApplication st = false → Forall (line_in idle_text 0) ls →
  foldl (line_step (blocks_body ct)) st ls = st.
Proof.
  intros Hst. induction 1 as [|l ls (k & s & -> & _ & Ht & (c & r & Hs & Hc & Htab) & H1) _ IH]; [done|].
  cbn [foldl]. unfold line_step at 2. rewrite (body_line ct k c r s) by done. cbv zeta. by rewrite H1, Hst.
Qed.

Definition no_app (tag : string) : Prop := HasPrefix tag "application" = false.

Lemma dump_idle x d : tidy no_app x → Forall (line_in idle_text 0) (dump d x).
Proof.
  intros Hx. eapply Forall_impl; [|intros l; apply (line_in_mono idle_text 0 d); lia].
  apply (dump_lines no_app); [| |done].
  - intros tag Ht Hn. split_and!; [done|by eexists _, _|].
    change "E: application" with ("E: " +:+ "application"). by rewrite HasPrefix_E.
  - intros a Ha. split_and!; [done|by eexists _, _|done].
Qed.

Lemma flat_dump_idle xs d : Forall (tidy no_app) xs → Forall (line_in idle_text 0) (flat_map (dump d) xs).
Proof.
  induction 1 as [|x xs Hx _ IH]; [constructor|]. cbn. apply Forall_app. split; [by apply dump_idle|done].
Qed.

(** The application's siblings after it: the first ends it. *)
Lemma fold_after ct a d xs st : in_app a d st → Forall (tidy no_app) xs →
  blocks_finish (foldl (line_step (blocks_body ct)) st (flat_map (dump a) xs)) = blocks_finish st.
Proof.
  intros Hst Hxs. destruct Hxs as [|x xs Hx Hxs]; [done|]. cbn [flat_map]. rewrite foldl_app.
  assert (Hhead : ∃ st', inApplication st' = false ∧ blocks_finish st' = blocks_finish st ∧
    foldl (line_step (blocks_body ct)) st (dump a x) = foldl (line_step (blocks_body ct)) st' (tail (dump a x))).
  { destruct x as [tag attrs children]. destruct Hx as (Ht & Hn & _). cbn [dump foldl tail].
    unfold line_step at 2. rewrite (body_line ct a "E"%char (": " +:+ tag)) by done. cbv zeta.
    change "E: application" with ("E: " +:+ "application"). rewrite HasPrefix_E, Hn.
    exists (mk_blocks (blocks st) (currentBlock st) (inBlock st) false (-1) (componentIndent st)).
    split_and!; [done| |].
    - by destruct st.
    - by destruct Hst as [(bs & cur & ->)|(bs & cur & Hcur & ->)];
        cbn [outside within inApplication applicationIndent]; rewrite Z.leb_refl, Z.eqb_refl. }
  destruct Hhead as (st' & Happ & Hfin & Heq). rewrite Heq, (fold_idle ct (tail _) st' Happ).
  { rewrite (fold_idle ct _ st' Happ); [done|]. by apply flat_dump_idle. }
  apply (dump_idle x a) in Hx. destruct x. by inversion Hx.
Qed.

(** An opening line and the attributes below it. *)
Definition opening (d : nat) (tag : string) (attrs : list attr) : list string :=
  (indent d +:+ "E: " +:+ tag) :: ((λ a, indent (S d) +:+ "A: " +:+ attr_text a) <$> attrs).

Lemma attrs_in Q d attrs : (∀ a, trimmed ("A: " +:+ attr_text a) → Q ("A: " +:+ attr_text a)) →
  Forall (λ a, trimmed ("A: " +:+ attr_text a)) attrs → Forall (line_in Q d) ((λ a, indent d +:+ "A: " +:+ attr_text a) <$> attrs).
Proof.
  intros HQ Ha. apply Forall_fmap. eapply Forall_impl; [exact Ha|]. intros a Hta. exists d, ("A: " +:+ attr_text a). auto.
Qed.

Lemma idle_E tag : trimmed ("E: " +:+ tag) → no_app tag → idle_text ("E: " +:+ tag).
Proof.
  intros Ht Hn. split_and!; [done|by eexists _, _|].
  change "E: application" with ("E: " +:+ "application"). by rewrite HasPrefix_E.
Qed.
Lemma idle_A a : trimmed ("A: " +:+ attr_text a) → idle_text ("A: " +:+ attr_text a).
Proof. intros Ha. split_and!; [done|by eexists _, _|done]. Qed.

Lemma opening_idle d tag attrs : trimmed ("E: " +:+ tag) → no_app tag → Forall (λ a, trimmed ("A: " +:+ attr_text a)) attrs →
  Forall (line_in idle_text 0) (opening d tag attrs).
Proof.
  intros Ht Hn Ha. constructor; [exists d, ("E: " +:+ tag); split_and!; [done|lia|by apply idle_E]|].
  apply (Forall_impl (line_in idle_text (S d))); [apply attrs_in; [apply idle_A|done]|]. intros l. apply line_in_mono. lia.
Qed.

(** The application's opening starts the collection. *)
Lemma fold_opening ct a rest attrs : trimmed ("E: application" +:+ rest) → Forall (λ a, trimmed ("A: " +:+ attr_text a)) attrs →
  foldl (line_step (blocks_body ct)) blocks_start (opening a ("application" +:+ rest) attrs) = outside a [] [].
Proof.
  intros Ht Ha. unfold opening. cbn [foldl]. unfold line_step at 2.
  rewrite (body_line ct a "E"%char (": application" +:+ rest)) by done. cbv zeta. cbn [fst].
  replace (HasPrefix ("E: " +:+ "application" +:+ rest) "E: application") with true by by destruct rest.
  apply (fold_plain_outside ct a (S a)); [lia|]. apply attrs_in; [apply plain_A|done].
Qed.

(** For the dump of any manifest whose application holds, below its children, no
    further component of the type, the blocks of that type are the dumps of the
    application's children of that type, in document order, each with everything
    below it and nothing else. *)
Lemma blocks_are_components (ct : string) (d : nat) (header : list string) (mtag : string) (mattrs : list attr)
    (pre post : list xml) (atag : string) (aattrs : list attr) (children : list xml) :
  Forall (line_in idle_text 0) header →
  trimmed ("E: " +:+ mtag) → no_app mtag → Forall (λ a, trimmed ("A: " +:+ attr_text a)) mattrs →
  Forall (tidy no_app) pre → Forall (tidy no_app) post →
  trimmed ("E: application" +:+ atag) → Forall (λ a, trimmed ("A: " +:+ attr_text a)) aattrs → Forall (child_ok ct) children →
  extractComponentBlocks
    (header ++ dump d (Elem mtag mattrs (pre ++ Elem ("application" +:+ atag) aattrs children :: post))) ct =
  Some (children ≫= kept ct (S (S d))).
Proof.
  intros Hhead Hm Hn Hma Hpre Hpost Hat Haa Hch. unfold extractComponentBlocks.
  rewrite line_loop_fold by (apply blocks_body_again || lia). cbn [fmap option_fmap option_map]. f_equal.
  replace (dump d _) with (opening d mtag mattrs ++ flat_map (dump (S d)) pre ++
    opening (S d) ("application" +:+ atag) aattrs ++ flat_map (dump (S (S d))) children ++ flat_map (dump (S d)) post).
  2: { cbn [dump]. rewrite flat_map_app. cbn [flat_map dump]. unfold opening. by rewrite <- ?app_comm_cons, <- ?app_assoc. }
  rewrite !foldl_app, !(fold_idle ct _ blocks_start) by (done || by apply opening_idle || by apply flat_dump_idle).
  rewrite fold_opening by done.
  destruct (fold_children ct (S d) (S (S d)) children (outside (S d) [] [])) as [Hin Hfin];
    [lia|done|left; eauto|].
  by rewrite (fold_after ct (S d) (S (S d))), Hfin.
Qed.

(** ** Attributes of a dump *)

(** What follows a line of the block: nothing, or another line. *)
Definition eol (t : string) : Prop := t = "" ∨ ∃ t', t = String newline_ t'.

Lemma HasPrefix_eol p s t : forall_chars (not_byte newline_) p = true → eol t →
  HasPrefix (s +:+ t) p = true → HasPrefix s p = true.
Proof.
  intros Hp [->|[t' ->]]; [by rewrite string_app_nil_r|]. by apply HasPrefix_sep.
Qed.

(** Scanning over text that starts no attribute, up to the end of a line or to a
    character that occurs in no [android:]. *)
Lemma find_skip name close value s x t :
  forall_chars (not_byte x) "android:" = true → Contains s "android:" = false →
  find_attr name close value (s +:+ String x t) = find_attr name close value t.
Proof.
  intros Hx. induction s as [|c s IH]; intros Hs.
  - change ("" +:+ String x t) with (String x t). cbn [find_attr]. unfold attr_here.
    rewrite HasPrefix_None; [done|]. apply not_true_iff_false. intros E.
    by apply (HasPrefix_sep "android:" x "" t Hx) in E.
  - apply Contains_tail in Hs as [Hs Hp]. change (String c s +:+ String x t) with (String c (s +:+ String x t)).
    cbn [find_attr]. unfold attr_here. rewrite HasPrefix_None; [by apply IH|].
    apply not_true_iff_false. intros E. apply not_true_iff_false in Hp. apply Hp.
    by apply (HasPrefix_sep "android:" x (String c s) t Hx).
Qed.

(** The rest of the block after a line. *)
Definition next_line (t : string) : string := match t with String _ t' => t' | "" => "" end.

Lemma find_skip_eol name close value s t :
  eol t → Contains s "android:" = false →
  find_attr name close value (s +:+ t) = find_attr name close value (next_line t).
Proof.
  intros [->|[t' ->]] Hs; [|by apply find_skip].
  rewrite string_app_nil_r. cbn [next_line]. induction s as [|c s IH]; [done|]. apply Contains_tail in Hs as [Hs Hp].
  cbn [find_attr]. unfold attr_here. rewrite HasPrefix_None by done. by apply IH.
Qed.

Lemma lazily_found close c cl value i s r : close = String c cl → forall_chars (λ x, not_byte c x && not_byte newline_ x) i = true →
  value s = Some r → lazily close value (i +:+ close +:+ s) = Some r.
Proof.
  intros -> Hi Hv. induction i as [|x i IH].
  - change ("" +:+ String c cl +:+ s) with (String c cl +:+ s). destruct (String c cl +:+ s) eqn:E; [done|].
    cbn [lazily]. rewrite <- E, strip_prefix_app, Hv. done.
  - apply forall_chars_String in Hi as [[Hc Hn]%andb_true_iff Hi].
    apply not_byte_ne in Hc, Hn. change (String x i +:+ String c cl +:+ s) with (String x (i +:+ String c cl +:+ s)).
    cbn [lazily strip_prefix]. rewrite decide_False by congruence. rewrite decide_False by done. by apply IH.
Qed.

Lemma lazily_None close value s t : forall_chars (not_byte newline_) close = true → close ≠ "" → eol t →
  Contains s close = false → lazily close value (s +:+ t) = None.
Proof.
  intros Hc Hne Ht. induction s as [|x s IH]; intros Hs.
  - change ("" +:+ t) with t. destruct close as [|c close]; [done|]. apply forall_chars_String in Hc as [Hc _].
    destruct Ht as [->|[t' ->]]; [done|]. cbn [lazily strip_prefix].
    rewrite (decide_False (P := c = newline_)) by by apply not_byte_ne. by rewrite decide_True.
  - apply Contains_tail in Hs as [Hs Hp]. change (String x s +:+ t) with (String x (s +:+ t)). cbn [lazily].
    replace (strip_prefix close _) with (@None string).
    + case_decide; [done|]. by apply IH.
    + symmetry. rewrite <- (string_app_nil_r close) at 1. apply HasPrefix_None, not_true_iff_false. intros E.
      apply not_true_iff_false in Hp. apply Hp. by apply (HasPrefix_eol close (String x s) t).
Qed.

Lemma strip_name n m t : forall_chars (not_byte "("%char) n = true → forall_chars (not_byte "("%char) m = true →
  strip_prefix (n +:+ "(") (m +:+ "(" +:+ t) = if decide (n = m) then Some t else None.
Proof.
  revert m. induction n as [|c n IH]; intros [|c' m] Hn Hm.
  - by rewrite decide_True.
  - apply forall_chars_String in Hm as [Hc _]. apply not_byte_ne in Hc. rewrite decide_False by done.
    cbn. by rewrite decide_False.
  - apply forall_chars_String in Hn as [Hc _]. apply not_byte_ne in Hc. rewrite (decide_False (P := String c n = "")) by done.
    cbn. by rewrite decide_False.
  - apply forall_chars_String in Hn as [_ Hn], Hm as [_ Hm]. cbn. case_decide.
    + subst. change (strip_prefix (n +:+ "(") (m +:+ "(" +:+ t) = if decide (String c' n = String c' m) then Some t else None).
      rewrite IH by done. by repeat case_decide; simplify_eq.
    + rewrite decide_False by congruence. done.
Qed.

(** An attribute whose parts are delimited as the dump delimits them: one
    [android:] at most, no quote in a string value, one form of value. *)
Definition plain_name (s : string) : bool := forall_chars (not_byte "("%char) s.
Definition plain_id (s : string) : bool := forall_chars (λ c, not_byte ")"%char c && not_byte newline_ c) s.
Definition single (a : attr) : bool := negb (Contains (next_line (attr_text a)) "android:").
Definition readable (a : attr) : bool :=
  match a with
  | AString name id value rest =>
      plain_name name && plain_id id && nonempty value && forall_chars (not_byte dquote_) value &&
      single a && negb (Contains (attr_text a) close_typed)
  | ATyped name id type digits =>
      plain_name name && plain_id id && nonempty type && forall_chars (not_byte ")"%char) type &&
      nonempty digits && forall_chars is_hex digits && single a && negb (Contains (attr_text a) close_string)
  | AAndroid name rest =>
      plain_name name && single a && negb (Contains rest close_string) && negb (Contains rest close_typed)
  | AOther text => negb (Contains text "android:")
  end.

(** The values of an attribute, in either form. *)
Definition string_of (n : string) (a : attr) : option string :=
  match a with AString name _ value _ => if decide (n = name) then Some value else None | _ => None end.
Definition hex_of (n : string) (a : attr) : option string :=
  match a with ATyped name _ _ digits => if decide (n = name) then Some ("0x" +:+ digits) else None | _ => None end.

Lemma quoted_value v t : nonempty v = true → forall_chars (not_byte dquote_) v = true →
  quoted (v +:+ String dquote_ t) = Some (v, t).
Proof. intros (c & r & ->)%nonempty_String Hv. unfold quoted. by rewrite until_app. Qed.

Lemma hex_digits_eol d t : forall_chars is_hex d = true → eol t → hex_digits (d +:+ t) = (d, t).
Proof.
  intros Hd Ht. induction d as [|c d IH].
  - by destruct Ht as [->|[t' ->]].
  - apply forall_chars_String in Hd as [Hc Hd]. cbn. rewrite Hc.
    change (hex_digits (d +:+ t)) with (hex_digits (d +:+ t)). by rewrite IH.
Qed.

Lemma typed_value type d t : nonempty type = true → forall_chars (not_byte ")"%char) type = true →
  nonempty d = true → forall_chars is_hex d = true → eol t →
  typed_hex (type +:+ ")0x" +:+ d +:+ t) = Some ("0x" +:+ d, t).
Proof.
  intros (c & r & ->)%nonempty_String Hty (c' & r' & ->)%nonempty_String Hd Ht. unfold typed_hex.
  change (")0x" +:+ String c' r' +:+ t) with (String ")"%char ("0x" +:+ (String c' r' +:+ t))).
  rewrite until_app by done. by rewrite strip_prefix_app, hex_digits_eol.
Qed.

(** Reading one attribute that starts with [android:]. *)
Lemma find_android n close value name body t :
  plain_name n = true → plain_name name = true → eol t →
  Contains (next_line ("android:" +:+ name +:+ "(" +:+ body)) "android:" = false →
  find_attr n close value (("android:" +:+ name +:+ "(" +:+ body) +:+ t) =
    match (if decide (n = name) then fst <$> lazily close value (body +:+ t) else None) with
    | Some v => Some v
    | None => find_attr n close value (next_line t)
    end.
Proof.
  intros Hn Hname Ht Hs.
  assert (Hrest : find_attr n close value (next_line ("android:" +:+ name +:+ "(" +:+ body) +:+ t) =
    find_attr n close value (next_line t)) by by apply find_skip_eol.
  set (rest := next_line ("android:" +:+ name +:+ "(" +:+ body) +:+ t) in *.
  replace (("android:" +:+ name +:+ "(" +:+ body) +:+ t) with (String "a" rest) by done.
  cbn [find_attr]. unfold attr_here.
  replace (strip_prefix ("android:" +:+ n +:+ "(") (String "a" rest)) with
    (if decide (n = name) then Some (body +:+ t) else None).
  2: { rewrite <- (strip_name n name (body +:+ t)) by done. unfold rest. cbn [next_line].
       change (String "a" (_ +:+ t)) with (("android:" +:+ name +:+ "(" +:+ body) +:+ t).
       rewrite !string_app_assoc. generalize (n +:+ "("). intros p. reflexivity. }
  case_decide; [|by rewrite Hrest]. destruct (lazily _ _ _) as [[v u]|]; [done|]. by rewrite Hrest.
Qed.

Ltac bools := repeat match goal with
  | H : _ && _ = true |- _ => apply andb_true_iff in H as [? ?]
  | H : negb _ = true |- _ => apply negb_true_iff in H
  end.

Lemma find_string_line n a t : plain_name n = true → readable a = true → eol t →
  find_attr n close_string quoted (attr_text a +:+ t) =
    match string_of n a with Some v => Some v | None => find_attr n close_string quoted (next_line t) end.
Proof.
  intros Hn Ha Ht. destruct a as [name id value rest|name id type digits|name rest|text]; unfold readable, single in Ha; bools.
  - cbn [attr_text]. rewrite find_android by done. cbn [string_of]. case_decide; [|done].
    rewrite string_app_assoc. rewrite string_app_assoc.
    rewrite (lazily_found close_string ")"%char ("=" +:+ String dquote_ "") _ id _ (value, rest +:+ t)); [done|reflexivity|done|].
    rewrite string_app_assoc. by apply quoted_value.
  - cbn [attr_text]. rewrite find_android by done. cbn [string_of]. case_decide; [|done].
    rewrite lazily_None; [done..|]. cbn [attr_text] in *.
    by eapply Contains_app_r, Contains_app_r, Contains_app_r; eassumption.
  - cbn [attr_text]. rewrite find_android by done. cbn [string_of]. case_decide; [|done].
    by rewrite lazily_None.
  - by apply find_skip_eol.
Qed.

Lemma find_hex_line n a t : plain_name n = true → readable a = true → eol t →
  find_attr n close_typed typed_hex (attr_text a +:+ t) =
    match hex_of n a with Some v => Some v | None => find_attr n close_typed typed_hex (next_line t) end.
Proof.
  intros Hn Ha Ht. destruct a as [name id value rest|name id type digits|name rest|text]; unfold readable, single in Ha; bools.
  - cbn [attr_text]. rewrite find_android by done. cbn [hex_of]. case_decide; [|done].
    rewrite lazily_None; [done..|]. cbn [attr_text] in *.
    by eapply Contains_app_r, Contains_app_r, Contains_app_r; eassumption.
  - cbn [attr_text]. rewrite find_android by done. cbn [hex_of]. case_decide; [|done].
    rewrite string_app_assoc. rewrite string_app_assoc.
    rewrite (lazily_found close_typed ")"%char "=(type " _ id _ ("0x" +:+ digits, t)); [done|reflexivity|done|].
    rewrite string_app_assoc. by apply typed_value.
  - cbn [attr_text]. rewrite find_android by done. cbn [hex_of]. case_decide; [|done].
    by rewrite lazily_None.
  - by apply find_skip_eol.
Qed.

(** A tree whose attributes are all readable. *)
Fixpoint legible (x : xml) : bool :=
  match x with
  | Elem tag attrs children => negb (Contains tag "android:") && forallb readable attrs && forallb legible children
  end.

(** The attributes of an element and of everything below it, in document order. *)
Fixpoint attrs_below (x : xml) : list attr :=
  match x with Elem _ attrs children => attrs ++ flat_map attrs_below children end.

Definition first_string (n : string) (x : xml) : option string := head (omap (string_of n) (attrs_below x)).
Definition first_hex (n : string) (x : xml) : option string := head (omap (hex_of n) (attrs_below x)).

(** The lines of a dump, each with the attribute it shows. *)
Definition row : Type := string * option attr.
Definition row_text (r : row) : string := r.1 +:+ from_option attr_text "" r.2.
Fixpoint rows (d : nat) (x : xml) : list row :=
  match x with
  | Elem tag attrs children =>
      (indent d +:+ "E: " +:+ tag, None) :: ((λ a, (indent (S d) +:+ "A: ", Some a)) <$> attrs)
      ++ flat_map (rows (S d)) children
  end.

Lemma xml_ind' (P : xml → Prop) :
  (∀ tag attrs children, Forall P children → P (Elem tag attrs children)) → ∀ x, P x.
Proof.
  intros H. fix IH 1. intros [tag attrs children]. apply H.
  induction children as [|c children IHc]; constructor; [apply IH|exact IHc].
Qed.

Lemma dump_rows x : ∀ d, dump d x = row_text <$> rows d x.
Proof.
  induction x as [tag attrs children IH] using xml_ind'. intros d. cbn [dump rows]. rewrite fmap_cons, fmap_app.
  f_equal; [by unfold row_text; cbn [fst snd from_option]; rewrite string_app_nil_r|]. f_equal.
  - rewrite <- list_fmap_compose. by apply list_fmap_ext; intros ? a _; unfold row_text; cbn; rewrite string_app_assoc.
  - induction IH as [|c cs Hc _ IHc]; [done|]. cbn [flat_map]. by rewrite fmap_app, Hc, IHc.
Qed.

Lemma rows_attrs x : ∀ d, omap snd (rows d x) = attrs_below x.
Proof.
  induction x as [tag attrs children IH] using xml_ind'. intros d. cbn [rows attrs_below omap list_omap snd].
  rewrite omap_app. f_equal.
  - induction attrs as [|a attrs IHa]; [done|]. cbn. by f_equal.
  - induction IH as [|c cs Hc _ IHc]; [done|]. cbn [flat_map]. by rewrite omap_app, Hc, IHc.
Qed.

(** Rows that show at most the attribute they hold. *)
Definition row_ok (r : row) : Prop :=
  match r.2 with
  | None => Contains r.1 "android:" = false
  | Some a => readable a = true ∧ ∃ p, r.1 = p +:+ " " ∧ Contains p "android:" = false
  end.

Lemma Contains_skip c s : c ≠ "a"%char → Contains (String c s) "android:" = Contains s "android:".
Proof.
  intros Hc. unfold Contains. apply bool_decide_ext. cbn [Index strip_prefix]. rewrite decide_False by congruence.
  destruct (Index s _); cbn; split; intros [? ?]; eauto; done.
Qed.

Lemma Contains_indent d s : Contains (indent d +:+ s) "android:" = Contains s "android:".
Proof. induction d as [|d IH]; [done|]. by rewrite indent_S, !Contains_skip. Qed.

Lemma rows_ok x : legible x = true → ∀ d, Forall row_ok (rows d x).
Proof.
  induction x as [tag attrs children IH] using xml_ind'. cbn [legible]. intros Hx d. bools. constructor.
  { unfold row_ok. cbn [fst snd]. rewrite Contains_indent. cbn. by rewrite !Contains_skip. }
  apply Forall_app. split.
  - apply Forall_fmap, Forall_forall. intros a Ha%list_elem_of_In. split; [by eapply forallb_forall|].
    exists (indent (S d) +:+ "A:"). cbn [fst]. rewrite Contains_indent. split; [|done].
    by rewrite string_app_assoc.
  - induction IH as [|c cs Hc _ IHc]; [constructor|]. cbn in H0. bools. cbn [flat_map]. apply Forall_app. auto.
Qed.

Section reading.
  Context (n close : string) (value : string → option (string * string)) (shown : attr → option string).
  Hypothesis line : ∀ a t, readable a = true → eol t →
    find_attr n close value (attr_text a +:+ t) =
      match shown a with Some v => Some v | None => find_attr n close value (next_line t) end.

Lemma find_row r t : row_ok r → eol t →
  find_attr n close value (row_text r +:+ t) =
    match r.2 ≫= shown with Some v => Some v | None => find_attr n close value (next_line t) end.
Proof.
  destruct r as [p [a|]]; unfold row_ok, row_text; cbn [fst snd from_option mbind option_bind].
  - intros [Ha (q & -> & Hq)] Ht. rewrite !string_app_assoc. change (" " +:+ ?x) with (String " " x).
    rewrite find_skip by done. by apply line.
  - intros Hp Ht. rewrite string_app_nil_r. by apply find_skip_eol.
Qed.

Lemma find_rows rs : Forall row_ok rs →
  find_attr n close value (Join (row_text <$> rs) nl_string) = head (omap shown (omap snd rs)).
Proof.
  assert (Hhead : ∀ (r : row) (rs' : list row), head (omap shown (omap snd (r :: rs'))) =
    match r.2 ≫= shown with Some v => Some v | None => head (omap shown (omap snd rs')) end).
  { intros [p [a|]] rs'; cbn; [by destruct (shown a)|done]. }
  induction 1 as [|r rs Hr Hrs IH]; [done|]. rewrite Hhead, <- IH, fmap_cons.
  destruct rs as [|r' rs].
  - cbn [fmap list_fmap Join]. rewrite <- (string_app_nil_r (row_text r)), find_row by (done || by left). done.
  - rewrite fmap_cons. cbn [Join]. rewrite find_row; [done|done|right]. by eexists.
Qed.
End reading.

(** Over the dump of a readable tree each expression gives the first attribute of
    that name and form in document order, of the element or of anything inside it. *)
Lemma attributes_read (x : xml) (d : nat) (n : string) :
  legible x = true → plain_name n = true →
  attr_string n (block_of d x) = first_string n x ∧ attr_hex n (block_of d x) = first_hex n x.
Proof.
  intros Hx Hn. unfold attr_string, attr_hex, block_of, first_string, first_hex.
  rewrite dump_rows, <- (rows_attrs x d). split; apply find_rows; try (by apply rows_ok); intros a t Ha Ht.
  - by apply find_string_line.
  - by apply find_hex_line.
Qed.

(** ** Components of a tree *)

(** Whether something below an element is an intent filter. *)
Fixpoint has_filter (x : xml) : bool :=
  match x with Elem tag _ children => HasPrefix tag "intent-filter" || existsb has_filter children end.

(** No text shows an element inside a line. *)
Fixpoint no_tags (x : xml) : bool :=
  match x with
  | Elem tag attrs children =>
      negb (Contains tag "E: ") && forallb (λ a, negb (Contains (attr_text a) "E: ")) attrs && forallb no_tags children
  end.

Lemma Contains_skip_E c s p : c ≠ "E"%char → Contains (String c s) (String "E" p) = Contains s (String "E" p).
Proof.
  intros Hc. rewrite Contains_cons. replace (HasPrefix _ _) with false; [done|]. symmetry.
  unfold HasPrefix. cbn [strip_prefix]. rewrite decide_False by congruence. done.
Qed.

Lemma Contains_eol s t p : forall_chars (not_byte newline_) p = true → p ≠ "" → eol t →
  Contains (s +:+ t) p = Contains s p || Contains t p.
Proof.
  intros Hp Hne Ht. induction s as [|c s IH].
  - destruct p; [done|]. reflexivity.
  - change (String c s +:+ t) with (String c (s +:+ t)). rewrite !Contains_cons, IH.
    change (String c (s +:+ t)) with (String c s +:+ t). rewrite orb_assoc. f_equal. f_equal. apply bool_iff. split.
    + by apply HasPrefix_eol.
    + rewrite !HasPrefix_spec. intros (r & ->). exists (r +:+ t). by rewrite string_app_assoc.
Qed.

Lemma Contains_line t p : forall_chars (not_byte newline_) p = true → p ≠ "" →
  Contains (String newline_ t) p = Contains t p.
Proof.
  intros Hp Hne. rewrite Contains_cons. replace (HasPrefix _ _) with false; [done|]. symmetry.
  destruct p as [|c p]; [done|]. apply forall_chars_String in Hp as [Hc _]. apply not_byte_ne in Hc.
  unfold HasPrefix. cbn [strip_prefix]. by rewrite decide_False.
Qed.

Lemma Contains_Join ls p : forall_chars (not_byte newline_) p = true → p ≠ "" →
  Contains (Join ls nl_string) p = existsb (λ l, Contains l p) ls.
Proof.
  intros Hp Hne. induction ls as [|l ls IH]; [by destruct p|]. cbn [existsb]. rewrite <- IH.
  destruct ls as [|l' ls].
  - cbn [Join]. replace (Contains "" p) with false by by destruct p. by rewrite orb_false_r.
  - change (Join (l :: l' :: ls) nl_string) with (l +:+ nl_string +:+ Join (l' :: ls) nl_string).
    rewrite Contains_eol by (done || (right; by eexists)). f_equal. by apply Contains_line.
Qed.

Lemma no_filter s : Contains s "E: " = false → Contains s "E: intent-filter" = false.
Proof. apply (Contains_sub s "E: " "intent-filter"). Qed.

Lemma Contains_indent_E k s p : Contains (indent k +:+ s) (String "E" p) = Contains s (String "E" p).
Proof. induction k as [|k IHk]; [done|]. by rewrite indent_S, !Contains_skip_E. Qed.

(** A block mentions an intent filter exactly when the component has one. *)
Lemma block_filters x : no_tags x = true → ∀ d, Contains (block_of d x) "E: intent-filter" = has_filter x.
Proof.
  intros Hx d. unfold block_of. rewrite Contains_Join by done. revert Hx d.
  induction x as [tag attrs children IH] using xml_ind'. cbn [no_tags has_filter]. intros Hx d. bools.
  cbn [dump existsb]. rewrite existsb_app. f_equal.
  { rewrite Contains_indent_E. change ("E: " +:+ tag) with (String "E" (String ":" (String " " tag))).
    rewrite Contains_cons, !Contains_skip_E by done. rewrite no_filter by done.
    by rewrite orb_false_r. }
  replace (existsb _ ((λ a, _) <$> attrs)) with false.
  - cbn [orb]. induction IH as [|c cs Hc _ IHc]; [done|]. cbn [forallb flat_map existsb] in *. bools.
    rewrite existsb_app, Hc by done. f_equal. by apply IHc.
  - clear -H1. induction attrs as [|a attrs IHa]; [done|]. cbn [forallb existsb fmap list_fmap] in *. bools.
    rewrite <- IHa by done. rewrite Contains_indent_E. cbn. rewrite !Contains_skip_E by done. by rewrite no_filter.
Qed.

(** What the extraction reads of an element, by its attributes. *)
Definition exported_of (x : xml) : option bool :=
  match first_string "exported" x with
  | Some v => Some (bool_decide (v = "true"))
  | None => isHexValueTrue <$> first_hex "exported" x
  end.
Definition summary_of_tree (x : xml) : option (string * bool * string) :=
  name ← first_string "name" x;
  Some (name, default (has_filter x) (exported_of x), default "" (first_string "permission" x)).
Definition summary (c : ManifestActivityInfo) : string * bool * string := (Name c, Exported c, Permission c).

Definition provider_of_tree (sdk : Z) (x : xml) : option ManifestProviderInfo :=
  name ← first_string "name" x;
  let text n := default "" (first_string n x) in
  Some (mk_provider_info name (default (sdk <? 17) (exported_of x)) (text "permission") (text "readPermission")
          (text "writePermission") (from_option (λ a, Split a ";"%char) [] (first_string "authorities" x))
          (match first_string "grantUriPermissions" x with
           | Some v => bool_decide (v = "true")
           | None => from_option isHexValueTrue false (first_hex "grantUriPermissions" x)
           end)).

Lemma read_string x d n : legible x = true → plain_name n = true → attr_string n (block_of d x) = first_string n x.
Proof. intros Hx Hn. by apply attributes_read. Qed.
Lemma read_hex x d n : legible x = true → plain_name n = true → attr_hex n (block_of d x) = first_hex n x.
Proof. intros Hx Hn. by apply attributes_read. Qed.

Lemma explicit_exported_tree x d : legible x = true → explicit_exported (block_of d x) = exported_of x.
Proof.
  intros Hx. unfold explicit_exported, exported_of, mpExportedStringRe, mpExportedHexRe. by rewrite read_string, read_hex.
Qed.

Lemma component_tree x d : legible x = true → no_tags x = true →
  summary <$> component_of (block_of d x) = summary_of_tree x.
Proof.
  intros Hx Ht. unfold component_of, summary_of_tree, mpAndroidNameRe, mpPermissionRe.
  rewrite !read_string, explicit_exported_tree, block_filters by done. by destruct (first_string "name" x).
Qed.

Lemma provider_tree sdk x d : legible x = true → provider_of_block sdk (block_of d x) = provider_of_tree sdk x.
Proof.
  intros Hx. unfold provider_of_block, provider_of_tree, mpAndroidNameRe, mpPermissionRe, mpReadPermissionRe,
    mpWritePermissionRe, mpAuthoritiesRe, mpGrantUriStringRe, mpGrantUriHexRe.
  rewrite !read_string, read_hex, explicit_exported_tree by done.
  destruct (first_string "name" x); [|done]. cbn. by destruct (first_string "authorities" x), (first_hex "grantUriPermissions" x).
Qed.

(** A block without a name is dropped in any case. *)
Lemma attr_string_Contains n s v : attr_string n s = Some v → Contains s ("android:" +:+ n) = true.
Proof.
  unfold attr_string. induction s as [|c s IH]; [by destruct n|]. cbn [find_attr]. unfold attr_here at 1.
  destruct (strip_prefix _ _) as [t|] eqn:E.
  - intros _. apply strip_prefix_Some in E. apply Contains_spec. exists "", ("(" +:+ t).
    by rewrite E, !string_app_assoc.
  - intros Hv. rewrite Contains_cons, IH by done. by rewrite orb_true_r.
Qed.

Definition tagged (ct : string) (xs : list xml) : list xml := filter (λ x, HasPrefix (tag_of x) ct = true) xs.

Lemma omap_kept {A} (of_block : string → option A) ct d xs :
  (∀ b, of_block b = None ∨ is_Some (attr_string "name" b)) →
  omap of_block (xs ≫= kept ct d) = omap (λ x, of_block (block_of d x)) (tagged ct xs).
Proof.
  intros Hname. induction xs as [|x xs IH]; [done|]. rewrite bind_cons, omap_app, IH. unfold tagged at 2. rewrite filter_cons.
  unfold kept. destruct (HasPrefix (tag_of x) ct) eqn:E; cbn [andb]; [|by rewrite decide_False].
  rewrite decide_True by done. cbn [omap list_omap].
  destruct (Contains (block_of d x) "android:name") eqn:Ec.
  - cbn [omap list_omap app]. by destruct (of_block (block_of d x)).
  - destruct (Hname (block_of d x)) as [->|[v Hv]]; [done|]. apply attr_string_Contains in Hv.
    change ("android:" +:+ "name") with "android:name" in Hv. congruence.
Qed.

(** A manifest's tree: the lines above it, the elements around the application, and
    the application's children; below them there is no further component of a type
    read from it, and every text is legible. *)
Record manifest_tree := mk_tree {
  t_depth : nat; t_header : list string; t_tag : string; t_attrs : list attr; t_before : list xml;
  t_app : string; t_app_attrs : list attr; t_children : list xml; t_after : list xml }.

Definition tree_lines (t : manifest_tree) : list string :=
  t_header t ++ dump (t_depth t) (Elem (t_tag t) (t_attrs t)
    (t_before t ++ Elem ("application" +:+ t_app t) (t_app_attrs t) (t_children t) :: t_after t)).

Definition component_types : list string := ["activity"; "service"; "receiver"; "provider"].

Record tree_ok (t : manifest_tree) : Prop := {
  ok_header : Forall (line_in idle_text 0) (t_header t);
  ok_tag : trimmed ("E: " +:+ t_tag t) ∧ no_app (t_tag t);
  ok_attrs : Forall (λ a, trimmed ("A: " +:+ attr_text a)) (t_attrs t);
  ok_around : Forall (tidy no_app) (t_before t) ∧ Forall (tidy no_app) (t_after t);
  ok_app : trimmed ("E: application" +:+ t_app t) ∧ Forall (λ a, trimmed ("A: " +:+ attr_text a)) (t_app_attrs t);
  ok_children : Forall (λ x, Forall (λ ct, child_ok ct x) component_types) (t_children t);
  ok_texts : Forall (λ x, legible x = true ∧ no_tags x = true) (t_children t) }.

Lemma extract_tree {A} (of_block : string → option A) t ct :
  tree_ok t → ct ∈ component_types → (∀ b, of_block b = None ∨ is_Some (attr_string "name" b)) →
  extract ct of_block (tree_lines t) =
    omap (λ x, of_block (block_of (S (S (t_depth t))) x)) (tagged ct (t_children t)).
Proof.
  intros [? [] ? [] [] Hch _] Hct Hname. unfold extract, tree_lines. rewrite blocks_are_components; [|done..|].
  - cbn [default]. by apply omap_kept.
  - eapply Forall_impl; [exact Hch|]. intros x Hx. by rewrite Forall_forall in Hx; apply Hx.
Qed.

Lemma component_named b : component_of b = None ∨ is_Some (attr_string "name" b).
Proof. unfold component_of, mpAndroidNameRe. destruct (attr_string "name" b); eauto. Qed.
Lemma provider_named sdk b : provider_of_block sdk b = None ∨ is_Some (attr_string "name" b).
Proof. unfold provider_of_block, mpAndroidNameRe. destruct (attr_string "name" b); eauto. Qed.

(** What agrees on every legible element agrees on the tagged ones. *)
Lemma omap_tagged {B} (f g : xml → option B) t ct : tree_ok t →
  (∀ x, legible x = true → no_tags x = true → f x = g x) →
  omap f (tagged ct (t_children t)) = omap g (tagged ct (t_children t)).
Proof.
  intros Ht Hfg. unfold tagged. induction (ok_texts t Ht) as [|x xs [Hl Hn] _ IH]; [done|]. rewrite filter_cons.
  case_decide; [|done]. cbn [omap list_omap]. by rewrite Hfg, IH.
Qed.

Lemma components_tree t ct : tree_ok t → ct ∈ component_types →
  summary <$> extract ct component_of (tree_lines t) = omap summary_of_tree (tagged ct (t_children t)).
Proof.
  intros Ht Hct. rewrite (extract_tree component_of t ct Ht Hct component_named), list_fmap_omap.
  apply omap_tagged; [done|]. intros x Hl Hn. by apply component_tree.
Qed.


#[local] Notation attribute name value := (AString name "0x01010003" value "").
#[local] Notation sample := (mk_tree 0 ["N: android=http://schemas.android.com/apk/res/android"] "manifest (line=2)"
  [AOther "package=com.example"] [Elem "uses-sdk (line=7)" [ATyped "targetSdkVersion" "0x01010270" "0x10" "1e"] []] " (line=11)" [AAndroid "label" "0x01010001)=@0x7f0b0001"]
  [Elem "activity (line=12)" [attribute "name" ".Main"]
     [Elem "intent-filter (line=13)" [] [Elem "action (line=14)" [attribute "name" "android.intent.action.MAIN"] []]];
   Elem "service (line=17)" [attribute "name" ".Sync"; ATyped "exported" "0x01010010" "0x12" "ffffffff"] [];
   Elem "provider (line=20)" [attribute "name" ".Files"; ATyped "exported" "0x01010010" "0x12" "ffffffff"; attribute "authorities" "a;b"]
     [Elem "path-permission (line=22)" [attribute "permission" "com.example.P"] []]] []).

Ltac tidy_tree := repeat (match goal with |- _ = _ => vm_compute; reflexivity | |- _ => constructor end).


(** ** Exposure *)

(** The components an exposure finding can be about, with the type it names. *)
Definition exposable (m : AndroidManifest) : list (string * ManifestActivityInfo) :=
  (pair "activity" <$> Activities m) ++ (pair "service" <$> Services m) ++ (pair "receiver" <$> BroadcastReceivers m).

(** What must be reported: an exported component without a permission; an exported
    provider that lacks one and does not guard both reading and writing; on an
    exported component, a browsable deep link of an own scheme, or of [https] without
    verification. *)
Inductive exposes (m : AndroidManifest) : PlatformFinding → Prop :=
  | exposed_component kind c :
      (kind, c) ∈ exposable m → Exported c = true → Permission c = "" →
      exposes m (newExportedFinding (Name c) kind SeverityMedium)
  | exposed_provider p :
      p ∈ ContentProviders m → p_Exported p = true → p_Permission p = "" →
      (ReadPermission p = "" ∨ WritePermission p = "") →
      exposes m (newExportedFinding (p_Name p) "provider" SeverityHigh)
  | exposed_scheme kind c filter data :
      (kind, c) ∈ exposable m → Exported c = true → filter ∈ IntentFilters c → data ∈ Data filter →
      browsableCategory ∈ Categories filter → d_Scheme data ≠ "" →
      ToLower (d_Scheme data) ≠ "http" → ToLower (d_Scheme data) ≠ "https" →
      exposes m (customSchemeFinding (d_Scheme data) (d_Host data))
  | exposed_link kind c filter data :
      (kind, c) ∈ exposable m → Exported c = true → filter ∈ IntentFilters c → data ∈ Data filter →
      browsableCategory ∈ Categories filter → AutoVerify filter = false →
      ToLower (d_Scheme data) = "https" →
      exposes m (appLinkNoAutoVerifyFinding (Name c) (d_Host data)).

Lemma hasBrowsable_spec filter : hasBrowsableCategory filter = true ↔ browsableCategory ∈ Categories filter.
Proof.
  unfold hasBrowsableCategory. rewrite existsb_exists. setoid_rewrite <- list_elem_of_In.
  setoid_rewrite bool_decide_eq_true. split; [by intros (? & ? & ->)|eauto].
Qed.

(** The link findings of an exported component. *)
Definition data_link (name : string) (filter : ManifestFilter) (data : ManifestFilterData) (f : PlatformFinding) : Prop :=
  browsableCategory ∈ Categories filter ∧
  ((d_Scheme data ≠ "" ∧ ToLower (d_Scheme data) ≠ "http" ∧ ToLower (d_Scheme data) ≠ "https" ∧
    f = customSchemeFinding (d_Scheme data) (d_Host data)) ∨
   (ToLower (d_Scheme data) = "https" ∧ AutoVerify filter = false ∧ f = appLinkNoAutoVerifyFinding name (d_Host data))).

Lemma elem_data name filter data f : f ∈ data_findings name filter data ↔ data_link name filter data f.
Proof.
  unfold data_findings, data_link. rewrite <- hasBrowsable_spec.
  destruct (decide (d_Scheme data = "")) as [E|E].
  { rewrite E, elem_of_nil. split; [done|]. by intros (_ & [(? & _)|(? & _)]). }
  destruct (decide (ToLower (d_Scheme data) = "http")) as [E1|E1].
  { rewrite E1. cbn [negb andb bool_decide decide]. change (f ∈ [] ↔ ?P) with (f ∈ [] ↔ P). rewrite elem_of_nil.
    split; [done|]. by intros (_ & [(_ & ? & _)|(? & _)]). }
  destruct (decide (ToLower (d_Scheme data) = "https")) as [E2|E2].
  - rewrite E2. change (bool_decide ("https" ≠ "http") && bool_decide ("https" ≠ "https")) with false.
    change (bool_decide ("https" = "https")) with true. cbn [andb].
    destruct (hasBrowsableCategory filter), (AutoVerify filter); cbn [negb];
      rewrite ?elem_of_nil, ?list_elem_of_singleton; intuition congruence.
  - rewrite (bool_decide_true _ E1), (bool_decide_true _ E2). cbn [andb].
    destruct (hasBrowsableCategory filter); rewrite ?elem_of_nil, ?list_elem_of_singleton; intuition congruence.
Qed.

Lemma elem_component kind c f : f ∈ component_findings kind c ↔
  Exported c = true ∧ ((Permission c = "" ∧ f = newExportedFinding (Name c) kind SeverityMedium) ∨
    ∃ filter data, filter ∈ IntentFilters c ∧ data ∈ Data filter ∧ data_link (Name c) filter data f).
Proof.
  unfold component_findings. destruct (Exported c); cbn [negb]; [|rewrite elem_of_nil; naive_solver].
  rewrite elem_of_app. unfold analyzeIntentFilters. rewrite list_elem_of_bind. setoid_rewrite list_elem_of_bind.
  setoid_rewrite elem_data. case_decide; set_solver.
Qed.

Lemma elem_provider p f : f ∈ provider_findings p ↔
  p_Exported p = true ∧ p_Permission p = "" ∧ (ReadPermission p = "" ∨ WritePermission p = "") ∧
  f = newExportedFinding (p_Name p) "provider" SeverityHigh.
Proof.
  unfold provider_findings, providerIsPermissionGuarded. destruct (p_Exported p); cbn [negb]; [|rewrite elem_of_nil; naive_solver].
  repeat (case_decide || case_bool_decide); cbn; rewrite ?elem_of_nil, ?list_elem_of_singleton; destruct (decide (ReadPermission p = "")); naive_solver.
Qed.

Lemma elem_exposable m f :
  f ∈ AnalyzeExposure (Some m) ↔
  (∃ kind c, (kind, c) ∈ exposable m ∧ f ∈ component_findings kind c) ∨ (∃ p, p ∈ ContentProviders m ∧ f ∈ provider_findings p).
Proof.
  unfold AnalyzeExposure, exposable. rewrite !elem_of_app, !list_elem_of_bind.
  setoid_rewrite elem_of_app. setoid_rewrite elem_of_app. setoid_rewrite list_elem_of_fmap. naive_solver.
Qed.

(** The exposure findings are exactly the exposed components.  A finding is
    reported if and only if the model holds a component that warrants it; and when
    the manifest could not be dumped nothing counts as exported, so nothing is
    reported whatever the model held before. *)
Theorem exposure_exact (m : AndroidManifest) :
  (∀ f, f ∈ AnalyzeExposure (Some m) ↔ exposes m f) ∧
  AnalyzeExposure (Some (ExtractComponentExportInfo None m)) = [].
Proof.
  split.
  - intros f. rewrite elem_exposable. setoid_rewrite elem_component. setoid_rewrite elem_provider.
    unfold data_link. split.
    + intros [(kind & c & Hc & He & [[Hp ->]|(fl & d & Hf & Hd & Hb & [(?&?&?&->)|(?&?&->)])])|(p & Hp & ? & ? & ? & ->)];
        econstructor; done.
    + destruct 1; [left|right|left|left]; naive_solver.
  - unfold ExtractComponentExportInfo, setDefaultExportedValues, AnalyzeExposure.
    cbn [Activities Services BroadcastReceivers ContentProviders]. rewrite !list_fmap_bind.
    assert (Hnil : ∀ {A} (g : A → list PlatformFinding) l, (∀ x, g x = []) → l ≫= g = []).
    { intros A g l Hg. induction l as [|x l IH]; [done|]. by rewrite bind_cons, Hg, IH. }
    by rewrite !Hnil.
Qed.

(** ** Behaviours worth knowing *)

#[local] Notation provider_sample inner := (mk_tree 0 [] "manifest (line=2)" [] [] " (line=11)" []
  [Elem "provider (line=20)" ([attribute "name" ".Files"; ATyped "exported" "0x01010010" "0x12" "ffffffff"]) inner] []).
#[local] Notation no_manifest := (mk_manifest "30" [] [] [] []).
#[local] Notation exposure_of t :=
  (AnalyzeExposure (Some (ExtractComponentExportInfo (Some (Join (tree_lines t) nl_string)) no_manifest))).

(** An exported provider without a permission is reported; with a path permission
    below it, it is not, for that permission is read as the provider's own although
    it guards only the paths it names. *)
Example path_permission_masks_provider :
  exposure_of (provider_sample []) = [newExportedFinding ".Files" "provider" SeverityHigh] ∧
  exposure_of (provider_sample [Elem "path-permission (line=22)"
    [attribute "pathPrefix" "/public"; attribute "permission" "com.example.P"] []]) = [].
Proof. split; vm_compute; reflexivity. Qed.

(** The priority of a filter is read only in its string form, while the dump shows
    an integer attribute in its typed form: the priority is then 0. *)
Example typed_priority_lost :
  let block := Join ["E: intent-filter (line=13)"; "  A: android:priority(0x0101001c)=(type 0x10)0x3e7";
                     "  E: action (line=14)"; "    A: android:name(0x01010003)=" +:+ String dquote_ ("a.B" +:+ String dquote_ "")] nl_string in
  processIntentFilterBlock block = Some (mk_filter ["a.B"] [] [] 0 false).
Proof. vm_compute. reflexivity. Qed.
