(* ===== verification/Plist.v ===== *)
(** * Property lists of an app ([ios/plist.go], [ios/config.go], [ios/foundation.go])

    Flattening a decoded property list to dotted keys, collecting its strings for the
    corpus, and the Firebase configuration.  Decoding is a library's; the entries of a
    dictionary are listed in the order Go ranges over them. *)
From Stdlib Require Import Ascii ZArith.
From S2P Require Import Prelude GoStr GoErr GoFloat GoUrl MachO.

Local Open Scope Z_scope.

(** ** Decoded values *)

(** [POther]: a date, data or identifier, by its [%v] text. *)
Inductive plist :=
  | PString (s : string)
  | PBool (b : bool)
  | PUint (n : Z)
  | PInt (n : Z)
  | PReal (f : spec_float)
  | POther (text : string)
  | PDict (l : list (string * plist))
  | PArray (l : list plist).

(** ** Flattening *)

Section flatten.
(** [strconv.FormatFloat(t, 'g', -1, 64)] *)
Context (FormatFloat : spec_float → string).

Definition FormatBool (b : bool) : string := if b then "true" else "false".

Definition scalar_text (v : plist) : option string :=
  match v with
  | PString s => Some s
  | PBool b => Some (FormatBool b)
  | PUint n => Some (itoa n)
  | PInt n => Some (itoa n)
  | PReal f => Some (FormatFloat f)
  | POther t => Some t
  | PDict _ | PArray _ => None
  end.

Definition map_key (prefix k : string) : string := if decide (prefix = "") then k else prefix +:+ "." +:+ k.
Definition index_key (key : string) (i : nat) : string := key +:+ "." +:+ itoa (Z.of_nat i).

Fixpoint flattenPlistValue (key : string) (v : plist) (dst : gmap string string) : gmap string string :=
  match v with
  | PDict l => foldl (λ dst p, flattenPlistValue (map_key key p.1) p.2 dst) dst l
  | PArray l =>
      (fix go (i : nat) (l : list plist) (dst : gmap string string) :=
         match l with [] => dst | e :: l => go (S i) l (flattenPlistValue (index_key key i) e dst) end) 0%nat l dst
  | v => <[key := default "" (scalar_text v)]> dst
  end.

(** The elements of an array, from an index on. *)
Fixpoint flatten_items (key : string) (i : nat) (l : list plist) (dst : gmap string string) : gmap string string :=
  match l with [] => dst | e :: l => flatten_items key (S i) l (flattenPlistValue (index_key key i) e dst) end.

Definition flattenPlistMap (prefix : string) (m : list (string * plist)) (dst : gmap string string) : gmap string string :=
  foldl (λ dst p, flattenPlistValue (map_key prefix p.1) p.2 dst) dst m.

(** ** Firebase configuration *)

Definition GoogleServiceInfoName : string := "GoogleService-Info.plist".

Definition firebaseSDKKeys : list string :=
  ["GCM_SENDER_ID"; "GOOGLE_APP_ID"; "API_KEY"; "CLIENT_ID"; "DATABASE_URL"; "STORAGE_BUCKET"; "IS_ANALYTICS_ENABLED"].

Record FirebaseConfig := mk_firebase { ProjectID : string; SDKs : list string }.

Definition ParseGoogleServiceInfoPlist (Unmarshal : string → res (list (string * plist))) (data : string) : res FirebaseConfig :=
  match Unmarshal data with
  | Err e => Err (EWrap ("decode GoogleService-Info.plist: " +:+ Error e) [e])
  | Ok raw =>
      let flat := flattenPlistMap "" raw ∅ in
      let sdks := filter (λ k, default "" (flat !! k) ≠ "") firebaseSDKKeys in
      Ok (mk_firebase (default "" (flat !! "PROJECT_ID")) (sort_strings sdks))
  end.

(** ** The application's own property list *)

Record InfoPlist := mk_plist_info {
  BundleIdentifier : string; BundleVersion : string; ShortVersion : string; ExecutableName : string;
  MinimumOSVersion : string; URLSchemes : list string }.

(** The decoder: the scalar keys, the URL types' schemes, the transport security. *)
Record decoder := mk_decoder {
  dec_scalars : string → res InfoPlist;
  dec_urlTypes : string → option (list (list string));
  dec_ats : string → option (list (string * plist));
  dec_any : string → res plist }.

Definition DecodeInfoPlist (dec : decoder) (data : string) : res InfoPlist :=
  match dec_scalars dec data with
  | Err e => Err (EWrap ("decode Info.plist scalars: " +:+ Error e) [e])
  | Ok out =>
      Ok (mk_plist_info (BundleIdentifier out) (BundleVersion out) (ShortVersion out) (ExecutableName out)
            (MinimumOSVersion out) (URLSchemes out ++ concat (default [] (dec_urlTypes dec data))))
  end.

Record IOSPlistData := mk_plist_data { pd_info : InfoPlist; ATSExceptions : gmap string string }.

Definition DecodeInfoPlistFull (dec : decoder) (data : string) : res IOSPlistData :=
  match DecodeInfoPlist dec data with
  | Err e => Err e
  | Ok base =>
      Ok (mk_plist_data base
            match dec_ats dec data with Some ats => flattenPlistMap "" ats ∅ | None => ∅ end)
  end.
End flatten.

(** ** Strings for the corpus *)

(** [collectPlistStrings]: what it appends. *)
Fixpoint collectPlistStrings (v : plist) : list string :=
  match v with
  | PString s => if decide (s = "") then [] else [s]
  | PDict l => flat_map (λ p, (if decide (p.1 = "") then [] else [p.1]) ++ collectPlistStrings p.2) l
  | PArray l => flat_map collectPlistStrings l
  | _ => []
  end.

Definition PlistStringValues (dec : decoder) (data : string) : res (list string) :=
  match dec_any dec data with
  | Err e => Err (EWrap ("decode plist: " +:+ Error e) [e])
  | Ok root => Ok (sort_strings (collectPlistStrings root))
  end.

(** Appending lines to the corpus: the error of the opening, or how much a failing
    flush wrote. *)
Definition append_lines (open_err : option error) (flush_err : option (nat * error)) (corpusPath text : string)
    (file : option string) : option error * option string :=
  match open_err with
  | Some e => (Some (EWrap ("open corpus " +:+ Quote corpusPath +:+ ": " +:+ Error e) [e]), file)
  | None =>
      match flush_err with
      | None => (None, Some (default "" file +:+ text))
      | Some (n, e) => (Some (EWrap ("flush corpus " +:+ Quote corpusPath +:+ ": " +:+ Error e) [e]),
                        Some (default "" file +:+ take_str n text))
      end
  end.

Definition plist_text (plistPath : string) (values : list string) : string :=
  concat_str ((λ s, "[plist=" +:+ plistPath +:+ "] " +:+ sanitizeLine s +:+ String nl "") <$> values).

Definition AppendPlistCorpus (dec : decoder) (open_err : option error) (flush_err : option (nat * error))
    (corpusPath plistPath : string) (content : res string) (file : option string) : option error * option string :=
  match content with
  | Err e => (Some (EWrap ("read plist " +:+ Quote plistPath +:+ ": " +:+ Error e) [e]), file)
  | Ok data =>
      match PlistStringValues dec data with
      | Err e => (Some e, file)
      | Ok values => append_lines open_err flush_err corpusPath (plist_text plistPath values) file
      end
  end.

Definition json_text (jsonPath data : string) : string :=
  concat_str ((λ line, "[json=" +:+ jsonPath +:+ "] " +:+ sanitizeLine line +:+ String nl "") <$> Split data nl).

Definition AppendJSONCorpus (open_err : option error) (flush_err : option (nat * error))
    (corpusPath jsonPath : string) (content : res string) (file : option string) : option error * option string :=
  match content with
  | Err e => (Some (EWrap ("read json " +:+ Quote jsonPath +:+ ": " +:+ Error e) [e]), file)
  | Ok data => append_lines open_err flush_err corpusPath (json_text jsonPath data) file
  end.

(** ** What is flattened *)

Inductive seg := SKey (k : string) | SIdx (i : nat).

(** The dotted key of a path below a key. *)
Definition seg_key (key : string) (s : seg) : string :=
  match s with SKey k => map_key key k | SIdx i => index_key key i end.
Definition path_key (key : string) (path : list seg) : string := foldl seg_key key path.

(** A scalar at a path of a value, by its text. *)
Inductive scalar_at (FormatFloat : spec_float → string) : plist → list seg → string → Prop :=
  | at_here v t : scalar_text FormatFloat v = Some t → scalar_at FormatFloat v [] t
  | at_key l k v path t : (k, v) ∈ l → scalar_at FormatFloat v path t → scalar_at FormatFloat (PDict l) (SKey k :: path) t
  | at_index l i v path t : l !! i = Some v → scalar_at FormatFloat v path t → scalar_at FormatFloat (PArray l) (SIdx i :: path) t.

Lemma plist_ind' (P : plist → Prop) :
  (∀ v t, scalar_text (λ _, "") v = Some t → P v) → (∀ l, Forall (λ p, P p.2) l → P (PDict l)) →
  (∀ l, Forall P l → P (PArray l)) → ∀ v, P v.
Proof.
  intros Hs Hd Ha. fix IH 1. intros [s|b|n|n|f|t|l|l]; try (by eapply Hs).
  - apply Hd. induction l as [|[k v] l IHl]; constructor; [apply IH|exact IHl].
  - apply Ha. induction l as [|v l IHl]; constructor; [apply IH|exact IHl].
Qed.

Lemma flatten_array F key l dst : flattenPlistValue F key (PArray l) dst = flatten_items F key 0 l dst.
Proof.
  cbn [flattenPlistValue]. generalize 0%nat as i. revert dst. induction l as [|e l IH]; intros dst i; [done|]. apply IH.
Qed.

(** What flattening a value may leave: old entries, and the scalars' under their
    keys. *)
Definition flat_ok F (v : plist) : Prop := ∀ key dst k,
  (∀ t, flattenPlistValue F key v dst !! k = Some t →
     dst !! k = Some t ∨ ∃ path, scalar_at F v path t ∧ k = path_key key path) ∧
  (is_Some (dst !! k) ∨ (∃ path t, scalar_at F v path t ∧ k = path_key key path) →
     is_Some (flattenPlistValue F key v dst !! k)).

Lemma flatten_dict F l : Forall (λ p, flat_ok F p.2) l → ∀ key dst k,
  (∀ t, flattenPlistMap F key l dst !! k = Some t →
     dst !! k = Some t ∨ ∃ path, scalar_at F (PDict l) path t ∧ k = path_key key path) ∧
  (is_Some (dst !! k) ∨ (∃ path t, scalar_at F (PDict l) path t ∧ k = path_key key path) →
     is_Some (flattenPlistMap F key l dst !! k)).
Proof.
  unfold flattenPlistMap. intros Hl key. induction Hl as [|[k0 v] l Hv _ IH]; intros dst k; cbn [foldl].
  - split; [by left|]. intros [?|(path & t & H & _)]; [done|]. inversion H as [|? k1 v1 path' ? Hin Hat|]; subst; [done|]. by apply elem_of_nil in Hin.
  - cbn [fst snd] in *. set (dst1 := flattenPlistValue F (map_key key k0) v dst).
    destruct (Hv (map_key key k0) dst k) as [Hs1 Hc1]. destruct (IH dst1 k) as [Hs2 Hc2]. split.
    + intros t Ht. destruct (Hs2 t Ht) as [H|(path & H & ->)].
      * destruct (Hs1 t H) as [?|(path & Hp & ->)]; [by left|]. right. exists (SKey k0 :: path). split; [|done].
        econstructor; [apply list_elem_of_here|done].
      * right. exists path. split; [|done]. inversion H; subst; [done|]. econstructor; [by apply list_elem_of_further|done].
    + intros [H|(path & t & H & ->)]; [apply Hc2; left; apply Hc1; by left|].
      inversion H as [|? k1 v1 path' ? Hin Hat|]; subst; [done|]. apply elem_of_cons in Hin as [[= -> ->]|Hin].
      * apply Hc2. left. apply Hc1. right. by exists path', t.
      * apply Hc2. right. exists (SKey k1 :: path'), t. split; [by econstructor|done].
Qed.

Lemma flatten_list F l : Forall (flat_ok F) l → ∀ key i dst k,
  (∀ t, flatten_items F key i l dst !! k = Some t →
     dst !! k = Some t ∨ ∃ j v path, l !! j = Some v ∧ scalar_at F v path t ∧ k = path_key (index_key key (i + j)) path) ∧
  (is_Some (dst !! k) ∨ (∃ j v path t, l !! j = Some v ∧ scalar_at F v path t ∧ k = path_key (index_key key (i + j)) path) →
     is_Some (flatten_items F key i l dst !! k)).
Proof.
  intros Hl key. induction Hl as [|v l Hv _ IH]; intros i dst k; cbn [flatten_items].
  - split; [by left|]. by intros [?|(j & v & ? & ? & H & _)].
  - set (dst1 := flattenPlistValue F (index_key key i) v dst).
    destruct (Hv (index_key key i) dst k) as [Hs1 Hc1]. destruct (IH (S i) dst1 k) as [Hs2 Hc2]. split.
    + intros t Ht. destruct (Hs2 t Ht) as [H|(j & w & path & Hj & H & ->)].
      * destruct (Hs1 t H) as [?|(path & Hp & ->)]; [by left|]. right. exists 0%nat, v, path. by rewrite Nat.add_0_r.
      * right. exists (S j), w, path. by replace (i + S j)%nat with (S i + j)%nat by lia.
    + intros [H|([|j] & w & path & t & Hj & H & ->)]; [apply Hc2; left; apply Hc1; by left| |].
      * injection Hj as <-. rewrite Nat.add_0_r in *. apply Hc2. left. apply Hc1. right. by exists path, t.
      * apply Hc2. right. exists j, w, path, t. by replace (S i + j)%nat with (i + S j)%nat by lia.
Qed.

Lemma flatten_all F v : flat_ok F v.
Proof.
  induction v as [v t Ht|l IH|l IH] using plist_ind'.
  - intros key dst k.
    assert (E : flattenPlistValue F key v dst = <[key := default "" (scalar_text F v)]> dst) by (by destruct v).
    assert (Hsome : is_Some (scalar_text F v)) by (by destruct v; cbn in *; eauto).
    destruct Hsome as [t' Ht']. rewrite E, Ht'. cbn [default].
    assert (Honly : ∀ path u, scalar_at F v path u → path = [] ∧ u = t').
    { intros path u H. inversion H; subst; [|done|done]. split; [done|congruence]. }
    destruct (decide (k = key)) as [->|Hne].
    + rewrite lookup_insert_eq. split; [|by eexists]. intros u [= <-]. right. exists []. split; [by constructor|done].
    + rewrite lookup_insert_ne by done. split; [by left|]. intros [?|(path & u & [-> ->]%Honly & ->)]; done.
  - intros key dst k. exact (flatten_dict F l IH key dst k).
  - intros key dst k. rewrite flatten_array. destruct (flatten_list F l IH key 0 dst k) as [Hs Hc]. split.
    + intros t Ht. destruct (Hs t Ht) as [?|(j & w & path & Hj & H & ->)]; [by left|]. right.
      exists (SIdx j :: path). split; [by econstructor|done].
    + intros [H|(path & t & H & ->)]; apply Hc; [by left|]. right. inversion H as [| |? j w path' ? Hj Hat]; subst; [done|].
      by exists j, w, path', t.
Qed.

(** Flattening keeps every scalar under its dotted path and adds nothing.  The
    keys of the flat map are exactly the dotted paths of the scalars of the property
    list, and the text under a key is the text of a scalar with that path. *)
Theorem flatten_exact (F : spec_float → string) (m : list (string * plist)) (k : string) :
  (is_Some (flattenPlistMap F "" m ∅ !! k) ↔ ∃ path t, scalar_at F (PDict m) path t ∧ k = path_key "" path) ∧
  (∀ t, flattenPlistMap F "" m ∅ !! k = Some t → ∃ path, scalar_at F (PDict m) path t ∧ k = path_key "" path).
Proof.
  assert (Hm : Forall (λ p, flat_ok F p.2) m) by (apply Forall_forall; intros; apply flatten_all).
  destruct (flatten_dict F m Hm "" ∅ k) as [Hs Hc].
  assert (Hs' : ∀ t, flattenPlistMap F "" m ∅ !! k = Some t → ∃ path, scalar_at F (PDict m) path t ∧ k = path_key "" path).
  { intros t Ht. destruct (Hs t Ht) as [H|H]; [by rewrite lookup_empty in H|done]. }
  split; [|exact Hs']. split.
  - intros [t Ht]. destruct (Hs' t Ht) as (path & ?). by exists path, t.
  - intros H. apply Hc. by right.
Qed.

(** ** What reaches the corpus *)

(** A key or a string value anywhere in a property list. *)
Inductive occurs (s : string) : plist → Prop :=
  | occ_string : occurs s (PString s)
  | occ_key l v : (s, v) ∈ l → occurs s (PDict l)
  | occ_value l k v : (k, v) ∈ l → occurs s v → occurs s (PDict l)
  | occ_item l v : v ∈ l → occurs s v → occurs s (PArray l).

Lemma collect_exact s v : s ∈ collectPlistStrings v ↔ s ≠ "" ∧ occurs s v.
Proof.
  induction v as [v t Ht|l IH|l IH] using plist_ind'.
  - destruct v; try done; cbn; (split; [|intros [Hne Ho]; inversion Ho; subst]).
    all: try (by intros ?%elem_of_nil).
    + case_decide; [by intros ?%elem_of_nil|]. intros ->%list_elem_of_singleton. split; [done|constructor].
    + rewrite decide_False by done. by apply list_elem_of_singleton.
  - cbn. rewrite list_elem_of_In, in_flat_map. split.
    + intros ([k v] & Hin & Hs). apply list_elem_of_In in Hin, Hs. cbn in Hs. rewrite Forall_forall in IH.
      apply elem_of_app in Hs as [Hs|Hs].
      * case_decide; [by apply elem_of_nil in Hs|]. apply list_elem_of_singleton in Hs as ->. split; [done|by eapply occ_key].
      * apply (IH _ Hin) in Hs as [Hne Ho]. split; [done|by eapply occ_value].
    + intros [Hne Ho]. rewrite Forall_forall in IH. inversion Ho as [|? v Hin|? k v Hin Hv|]; subst.
      * exists (s, v). rewrite <- !list_elem_of_In. split; [done|]. apply elem_of_app. left. cbn. rewrite decide_False by done.
        apply list_elem_of_here.
      * exists (k, v). rewrite <- !list_elem_of_In. split; [done|]. apply elem_of_app. right. by apply (IH _ Hin).
  - cbn. rewrite list_elem_of_In, in_flat_map. rewrite Forall_forall in IH. split.
    + intros (v & Hin & Hs). apply list_elem_of_In in Hin, Hs. apply (IH v Hin) in Hs as [Hne Ho]. split; [done|by econstructor].
    + intros [Hne Ho]. inversion Ho as [| | |? v Hin Hv]; subst. exists v. rewrite <- !list_elem_of_In. split; [done|]. by apply (IH v Hin).
Qed.

(** The strings of a decodable property list are all of its non-empty keys and string
    values, whatever the order of its dictionaries. *)
Theorem plist_strings_exact (dec : decoder) (data : string) (root : plist) :
  dec_any dec data = Ok root →
  ∃ out, PlistStringValues dec data = Ok out ∧ ∀ s, s ∈ out ↔ s ≠ "" ∧ occurs s root.
Proof.
  intros Hd. unfold PlistStringValues. rewrite Hd. eexists. split; [done|]. intros s. unfold sort_strings.
  rewrite merge_sort_Permutation. apply collect_exact.
Qed.

(** ** Behaviours worth knowing *)

(** Different settings share a dotted key when a name holds a dot, as domain names
    do; which of them is kept depends on the order of the dictionary. *)
Example dotted_keys_collide :
  let a := ("example", PDict [("com", PString "nested")]) in
  let b := ("example.com", PString "domain") in
  flattenPlistMap (λ _, "") "" [a; b] ∅ !! "example.com" = Some "domain" ∧
  flattenPlistMap (λ _, "") "" [b; a] ∅ !! "example.com" = Some "nested".
Proof. by vm_compute. Qed.
