(* ===== verification/Webhook.v ===== *)
(** * Webhook delivery ([utils/webhook.go])

    The address filter against server-side request forgery, as a predicate on the
    bytes of an address; the up-front and the dial-time checks; signing and
    verification; and delivery with retries.  URL and address parsing, name
    resolution, the connection and the exchange are parameters. *)
From Stdlib Require Import Ascii.
From S2P Require Import Prelude GoStr GoErr GoFloat Config Retry Crypto.

Local Open Scope Z_scope.

(** ** [net.IP] *)

(** Four or sixteen bytes. *)
Definition IP : Type := list Z.

Definition nth_byte (i : nat) (ip : IP) : Z := nth i ip 0.

Definition v4_prefix : IP := replicate 10 0 ++ [255; 255].

(** The four-byte form of an IPv4 or IPv4-mapped address. *)
Definition To4 (ip : IP) : option IP :=
  if Nat.eqb (length ip) 4 then Some ip
  else if Nat.eqb (length ip) 16 && bool_decide (take 12 ip = v4_prefix) then Some (drop 12 ip)
  else None.

Definition To16 (ip : IP) : option IP :=
  if Nat.eqb (length ip) 4 then Some (v4_prefix ++ ip)
  else if Nat.eqb (length ip) 16 then Some ip else None.

Definition Equal (a b : IP) : bool := bool_decide (a = b) ||
  (negb (Nat.eqb (length a) (length b)) && bool_decide (To16 a = To16 b) && bool_decide (is_Some (To16 a))).

Definition IPv6loopback : IP := replicate 15 0 ++ [1].
Definition IPv6unspecified : IP := replicate 16 0.
Definition IPv4zero : IP := v4_prefix ++ [0; 0; 0; 0].

Definition is16 (ip : IP) : bool := Nat.eqb (length ip) 16.

Definition IsLoopback (ip : IP) : bool :=
  match To4 ip with
  | Some v4 => nth_byte 0 v4 =? 127
  | None => Equal ip IPv6loopback
  end.

Definition IsLinkLocalUnicast (ip : IP) : bool :=
  match To4 ip with
  | Some v4 => (nth_byte 0 v4 =? 169) && (nth_byte 1 v4 =? 254)
  | None => is16 ip && (nth_byte 0 ip =? 254) && (Z.land (nth_byte 1 ip) 192 =? 128)
  end.

Definition IsLinkLocalMulticast (ip : IP) : bool :=
  match To4 ip with
  | Some v4 => (nth_byte 0 v4 =? 224) && (nth_byte 1 v4 =? 0) && (nth_byte 2 v4 =? 0)
  | None => is16 ip && (nth_byte 0 ip =? 255) && (Z.land (nth_byte 1 ip) 15 =? 2)
  end.

Definition IsMulticast (ip : IP) : bool :=
  match To4 ip with
  | Some v4 => Z.land (nth_byte 0 v4) 240 =? 224
  | None => is16 ip && (nth_byte 0 ip =? 255)
  end.

Definition IsUnspecified (ip : IP) : bool := Equal ip IPv4zero || Equal ip IPv6unspecified.

Definition IsPrivate (ip : IP) : bool :=
  match To4 ip with
  | Some v4 => (nth_byte 0 v4 =? 10) ||
               ((nth_byte 0 v4 =? 172) && (Z.land (nth_byte 1 v4) 240 =? 16)) ||
               ((nth_byte 0 v4 =? 192) && (nth_byte 1 v4 =? 168))
  | None => is16 ip && (Z.land (nth_byte 0 ip) 254 =? 252)
  end.

(** ** The filter *)

Definition isDisallowedIP (ip : option IP) : bool :=
  match ip with
  | None => true
  | Some ip =>
      if IsLoopback ip || IsLinkLocalUnicast ip || IsLinkLocalMulticast ip ||
         IsMulticast ip || IsUnspecified ip || IsPrivate ip then true
      else match To16 ip with
           | Some v6 => bool_decide (To4 ip = None) && (Z.land (nth_byte 0 v6) 254 =? 252)
           | None => false
           end
  end.

(** ** Signatures *)

Definition signaturePrefix : string := "sha256=".
Definition SignatureHeader : string := "X-MORF-Signature".
Definition SignatureTimestampHeader : string := "X-MORF-Signature-Timestamp".

Definition resolveWebhookSecret (Getenv : string → string) (perJobSecret : string) : string :=
  if decide (perJobSecret = "") then Getenv "MORF_WEBHOOK_SECRET" else perJobSecret.

Definition canonicalSigningString (timestamp body : string) : string :=
  timestamp +:+ "." +:+ body.

Definition generateWebhookSignature `{Primitives} (secret timestamp body : string) : string :=
  signaturePrefix +:+ hmac_sha256_hex secret (canonicalSigningString timestamp body).

Definition VerifyWebhookSignature `{Primitives} (body sigHeader timestamp secret : string) : bool :=
  if bool_decide (secret = "") || bool_decide (sigHeader = "") then false
  else bool_decide (generateWebhookSignature secret timestamp body = sigHeader).

(** ** Delivery *)

Record request := mk_request { r_url : string; r_headers : list (string * string); r_body : string }.

Section delivery.
Context `{Pr : Primitives}.
(** [url.Parse]: the scheme and the host name; [net.ParseIP]; [net.SplitHostPort]. *)
Context (url_Parse : string → res (string * string)) (ParseIP : string → option IP)
  (SplitHostPort : string → res string).
(** Texts: [%q], [net.IP.String], and the message of the [*url.Error] the client
    wraps a failure of a request to a URL in. *)
Context (Quote : string → string) (IP_String : IP → string) (url_Error : string → error → string).
(** The environment. *)
Context (Getenv : string → string) (LookupEnv : string → option string)
  (ParseFloat : string → option spec_float) (ParseDuration : string → option Z) (target : arch).

(** The outside world: name resolution, the address the transport connects to for
    a URL, and the exchange of a request on a connection (a status and whether a
    Location header came with it). *)
Context {W : Type} (LookupIPAddr : string → W → res (list IP) * W)
  (connect : string → W → res string * W) (exchange : IP → request → W → res (Z * bool) * W)
  (unix_now : W → Z).

(** The world and the requests transmitted so far, with the address of each. *)
Definition net : Type := W * list (IP * request).

(** [webhookDialer.Control] *)
Definition Control (address : string) : option error :=
  match SplitHostPort address with
  | Err e => Some (ENew ("webhook dial: invalid address " +:+ Quote address +:+ ": " +:+ Error e))
  | Ok host =>
      match ParseIP host with
      | None => Some (ENew ("webhook dial: unresolvable address " +:+ Quote host))
      | Some ip => if isDisallowedIP (Some ip)
                   then Some (ENew ("webhook dial: connection to disallowed IP " +:+ IP_String ip
                                    +:+ " blocked (SSRF protection)"))
                   else None
      end
  end.

Definition is_redirect (status : Z) : bool := bool_decide (status ∈ [301; 302; 303; 307; 308]).

(** The address of a connection, as [ParseIP] reads it. *)
Definition peer (address : string) : IP :=
  match SplitHostPort address with Ok host => default [] (ParseIP host) | Err _ => [] end.

(** [webhookClient.Do]: the dialer checks the address of the connection before it
    is used, and a redirect is refused. *)
Definition Do (req : request) (n : net) : res Z * net :=
  let '(w, sent) := n in
  let fail e := Err (EURL (url_Error (r_url req) e) e) in
  let '(c, w) := connect (r_url req) w in
  match c with
  | Err e => (fail e, (w, sent))
  | Ok address =>
      match Control address with
      | Some e => (fail e, (w, sent))
      | None =>
          let '(r, w) := exchange (peer address) req w in
          let n := (w, sent ++ [(peer address, req)]) in
          match r with
          | Err e => (fail e, n)
          | Ok (status, has_location) =>
              if is_redirect status && has_location
              then (fail (ENew "webhook: redirects are not allowed (SSRF protection)"), n)
              else (Ok status, n)
          end
      end
  end.

(** The check both [ValidateWebhookURL] and the delivery make on the URL. *)
Definition ValidateWebhookURL (webhookURL : string) (w : W) : option error * W :=
  match url_Parse webhookURL with
  | Err e => (Some (ENew ("invalid webhook URL: " +:+ Error e)), w)
  | Ok (scheme, host) =>
      if negb (bool_decide (scheme = "http")) && negb (bool_decide (scheme = "https"))
      then (Some (ENew "webhook URL must use http or https scheme"), w)
      else if decide (host = "") then (Some (ENew "webhook URL has no host"), w)
      else match ParseIP host with
      | Some ip => (if isDisallowedIP (Some ip)
                    then Some (ENew "webhook URL resolves to a disallowed IP (SSRF protection)")
                    else None, w)
      | None =>
          let '(r, w) := LookupIPAddr host w in
          match r with
          | Err e => (Some (ENew ("failed to resolve webhook host: " +:+ Error e)), w)
          | Ok [] => (Some (ENew "webhook host did not resolve to any address"), w)
          | Ok ips => ((λ ip, ENew ("webhook host resolves to a disallowed IP " +:+ IP_String ip
                                    +:+ " (SSRF protection)"))
                         <$> find (λ ip, isDisallowedIP (Some ip)) ips, w)
          end
      end
  end.

(** The headers of a delivery at a time. *)
Definition delivery_headers (secret body : string) (now : Z) : list (string * string) :=
  [("Content-Type", "application/json"); ("User-Agent", "MORF-Webhook/1.0")] ++
  (let signingSecret := resolveWebhookSecret Getenv secret in
   if decide (signingSecret = "") then []
   else let timestamp := itoa now in
        [(SignatureTimestampHeader, timestamp);
         (SignatureHeader, generateWebhookSignature signingSecret timestamp body)]).

(** [payload] is the encoded payload, or why it could not be encoded. *)
Definition deliverWebhookWithContext (webhookURL secret : string) (payload : res string) (n : net)
    : option error * net :=
  let '(bad, w) := ValidateWebhookURL webhookURL n.1 in
  let n := (w, n.2) in
  match bad, payload with
  | Some e, _ => (Some e, n)
  | None, Err e => (Some (ENew ("failed to marshal payload: " +:+ Error e)), n)
  | None, Ok body =>
      let req := mk_request webhookURL (delivery_headers secret body (unix_now w)) body in
      let '(r, n) := Do req n in
      match r with
      | Err e => (Some (ENew ("webhook delivery failed: " +:+ Error e)), n)
      | Ok status =>
          if (status <? 200) || (300 <=? status)
          then (Some (ENew ("webhook returned non-success status: " +:+ itoa status)), n)
          else (None, n)
      end
  end.

Definition webhook_config : RetryConfig :=
  let config := DefaultRetryConfig LookupEnv ParseFloat ParseDuration in
  mk_retry_config 3 (seconds 2) (seconds 30) (Multiplier config) (Jitter config).

(** The retry loop, with the caller's context, its sleep and its random source. *)
Definition DeliverWebhookWithRetryCtx (ctx_Err : net → option error)
    (sleep : Z → net → option error * net) (Int63n : Z → net → Z * net)
    (webhookURL secret : string) (payload : res string) (n : net) :=
  RetryWithContext target (deliverWebhookWithContext webhookURL secret payload) ctx_Err sleep Int63n
    webhook_config n.

End delivery.

(** ** Address blocks *)

(** The number a big-endian byte string stands for. *)
Definition number (l : list Z) : Z := foldl (λ n b, n * 256 + b) 0 l.

Definition ip_ok (ip : IP) : Prop :=
  (length ip = 4%nat ∨ length ip = 16%nat) ∧ Forall (λ b, 0 ≤ b < 256) ip.

(** Membership of a [width]-bit address in the block of the first [bits] bits of
    [base]. *)
Definition in_block (width base bits n : Z) : bool :=
  n / 2 ^ (width - bits) =? base / 2 ^ (width - bits).

(** 127/8, 169.254/16, 224/4, 0.0.0.0, 10/8, 172.16/12 and 192.168/16. *)
Definition blocks4 : list (Z * Z) :=
  [(number [127; 0; 0; 0], 8); (number [169; 254; 0; 0], 16); (number [224; 0; 0; 0], 4);
   (0, 32); (number [10; 0; 0; 0], 8); (number [172; 16; 0; 0], 12); (number [192; 168; 0; 0], 16)].

(** ::1, ::, fe80::/10, ff00::/8 and fc00::/7. *)
Definition blocks6 : list (Z * Z) :=
  [(1, 128); (0, 128); (number (254 :: 128 :: replicate 14 0), 10);
   (number (255 :: replicate 15 0), 8); (number (252 :: replicate 15 0), 7)].

(** The addresses a webhook must not reach. *)
Definition internal (ip : IP) : bool :=
  match To4 ip with
  | Some v4 => existsb (λ '(base, bits), in_block 32 base bits (number v4)) blocks4
  | None => existsb (λ '(base, bits), in_block 128 base bits (number ip)) blocks6
  end.

(** ** The filter and the blocks *)

Lemma byte_all (P : Z → bool) : forallb P (seqZ 0 256) = true → ∀ b, 0 ≤ b < 256 → P b = true.
Proof.
  intros H b Hb. rewrite forallb_forall in H. apply H, list_elem_of_In, elem_of_seqZ. lia.
Qed.

(** The bit masks of the filter read the leading bits of a byte. *)
Lemma mask_bits b : 0 ≤ b < 256 →
  (Z.land b 240 =? 224) = (b / 16 =? 14) ∧ (Z.land b 240 =? 16) = (b / 16 =? 1) ∧
  (Z.land b 192 =? 128) = (b / 64 =? 2) ∧ (Z.land b 254 =? 252) = (b / 2 =? 126).
Proof.
  intros Hb. split_and!; apply eqb_prop;
    [apply (byte_all (λ b, eqb (Z.land b 240 =? 224) (b / 16 =? 14)))
    |apply (byte_all (λ b, eqb (Z.land b 240 =? 16) (b / 16 =? 1)))
    |apply (byte_all (λ b, eqb (Z.land b 192 =? 128) (b / 64 =? 2)))
    |apply (byte_all (λ b, eqb (Z.land b 254 =? 252) (b / 2 =? 126)))]; done || by vm_compute.
Qed.

Lemma number_acc l n : foldl (λ n b, n * 256 + b) n l = n * 256 ^ Z.of_nat (length l) + number l.
Proof.
  unfold number. revert n. induction l as [|b l IH]; intros n; cbn [foldl length]; [lia|].
  rewrite (IH (n * 256 + b)), (IH (0 * 256 + b)), Nat2Z.inj_succ, Z.pow_succ_r by lia. lia.
Qed.

Lemma number_app l k : number (l ++ k) = number l * 256 ^ Z.of_nat (length k) + number k.
Proof. unfold number at 1. rewrite foldl_app. apply number_acc. Qed.

Lemma number_bound l : Forall (λ b, 0 ≤ b < 256) l → 0 ≤ number l < 256 ^ Z.of_nat (length l).
Proof.
  induction 1 as [|b l Hb _ IH]; [done|]. change (b :: l) with ([b] ++ l).
  rewrite number_app, length_app, Nat2Z.inj_add, Z.pow_add_r by lia. unfold number at 1 3. cbn. nia.
Qed.

Lemma number_prefix l k :
  Forall (λ b, 0 ≤ b < 256) k → number (l ++ k) / 256 ^ Z.of_nat (length k) = number l.
Proof.
  intros Hk. pose proof (number_bound k Hk). rewrite number_app.
  rewrite Z.div_add_l, Z.div_small by lia. lia.
Qed.

Lemma number_inj l k : length l = length k → Forall (λ b, 0 ≤ b < 256) l →
  Forall (λ b, 0 ≤ b < 256) k → number l = number k → l = k.
Proof.
  revert k. induction l as [|a l IH]; intros [|b k] Hlen Hl Hk E; try done.
  apply Forall_cons in Hl as [Ha Hl], Hk as [Hb Hk]. injection Hlen as Hlen.
  change (a :: l) with ([a] ++ l) in E. change (b :: k) with ([b] ++ k) in E.
  pose proof (number_prefix [a] l Hl) as E1. pose proof (number_prefix [b] k Hk) as E2.
  rewrite E, Hlen, E2 in E1. unfold number in E1. cbn in E1.
  rewrite !number_app, Hlen in E. assert (a = b) as -> by lia.
  f_equal. apply IH; try done. lia.
Qed.

Ltac div_lia := Z.to_euclidean_division_equations; lia.

Ltac eval_blocks := repeat match goal with
  | |- context [?x / 2 ^ ?k] => is_ground x; let v := eval vm_compute in (x / 2 ^ k) in change (x / 2 ^ k) with v
  end.

Lemma div_leading (l k : list Z) (r : Z) :
  Forall (λ b, 0 ≤ b < 256) k → 0 ≤ r →
  number (l ++ k) / 2 ^ (8 * Z.of_nat (length k) + r) = number l / 2 ^ r.
Proof.
  intros Hk Hr. rewrite Z.pow_add_r, Z.pow_mul_r by lia. change (2 ^ 8) with 256.
  pose proof (Z.pow_pos_nonneg 256 (Z.of_nat (length k)) ltac:(lia) ltac:(lia)).
  pose proof (Z.pow_pos_nonneg 2 r ltac:(lia) Hr).
  rewrite <- (Z.div_div _ (256 ^ Z.of_nat (length k)) (2 ^ r)) by lia.
  by rewrite number_prefix.
Qed.

Lemma blocks4_bytes a b c d :
  0 ≤ a < 256 → 0 ≤ b < 256 → 0 ≤ c < 256 → 0 ≤ d < 256 →
  existsb (λ '(base, bits), in_block 32 base bits (number [a; b; c; d])) blocks4 =
  (a =? 127) || ((a =? 169) && (b =? 254)) || (a / 16 =? 14) ||
  bool_decide ([a; b; c; d] = [0; 0; 0; 0]) || (a =? 10) ||
  ((a =? 172) && (b / 16 =? 1)) || ((a =? 192) && (b =? 168)).
Proof.
  intros Ha Hb Hc Hd. set (n := number [a; b; c; d]).
  assert (Hn : n = ((a * 256 + b) * 256 + c) * 256 + d) by (unfold n, number; cbn; lia).
  clearbody n.
  assert (H24 : n / 2 ^ 24 = a) by (change (2 ^ 24) with 16777216; div_lia).
  assert (H16 : n / 2 ^ 16 = a * 256 + b) by (change (2 ^ 16) with 65536; div_lia).
  assert (H28 : n / 2 ^ 28 = a / 16) by (change (2 ^ 28) with 268435456; div_lia).
  assert (H20 : n / 2 ^ 20 = a * 16 + b / 16) by (change (2 ^ 20) with 1048576; div_lia).
  apply eq_true_iff_eq. unfold blocks4, in_block. cbn -[Z.div Z.pow Z.eqb].
  change (32 - 8) with 24. change (32 - 16) with 16. change (32 - 4) with 28.
  change (32 - 32) with 0. change (32 - 12) with 20. rewrite H24, H16, H28, H20, Z.div_1_r.
  rewrite !orb_true_iff, !andb_true_iff, !Z.eqb_eq, bool_decide_eq_true.
  assert (Hz : [a; b; c; d] = [0; 0; 0; 0] ↔ n = 0).
  { split; [intros [= -> -> -> ->]; lia|]. intros ->. repeat f_equal; lia. }
  rewrite Hz. clear H24 H16 H28 H20 Hz. eval_blocks. div_lia.
Qed.

Lemma blocks6_bytes a b l :
  length l = 14%nat → Forall (λ x, 0 ≤ x < 256) (a :: b :: l) →
  existsb (λ '(base, bits), in_block 128 base bits (number (a :: b :: l))) blocks6 =
  bool_decide (a :: b :: l = IPv6loopback) || bool_decide (a :: b :: l = IPv6unspecified) ||
  ((a =? 254) && (b / 64 =? 2)) || (a =? 255) || (a / 2 =? 126).
Proof.
  intros Hlen Hip. pose proof Hip as [Ha [Hb Hl]%Forall_cons]%Forall_cons.
  set (n := number (a :: b :: l)).
  assert (H118 : n / 2 ^ 118 = (a * 256 + b) / 64).
  { change (2 ^ 118) with (2 ^ (8 * Z.of_nat 14 + 6)). rewrite <- Hlen.
    unfold n. change (a :: b :: l) with ([a; b] ++ l). by rewrite div_leading by done. }
  assert (H120 : ∀ r, 0 ≤ r → n / 2 ^ (120 + r) = a / 2 ^ r).
  { intros r Hr. change 120 with (8 * Z.of_nat 15). replace 15%nat with (length (b :: l)) by (cbn; lia).
    unfold n. change (a :: b :: l) with ([a] ++ b :: l).
    rewrite div_leading by (done || by apply Forall_cons). done. }
  assert (Heq : ∀ k, length k = 16%nat → Forall (λ x, 0 ≤ x < 256) k →
    a :: b :: l = k ↔ n = number k).
  { intros k Hk Hk'. split; [by intros <-|]. apply number_inj; try done. cbn. lia. }
  apply eq_true_iff_eq. unfold blocks6, in_block. cbn -[Z.div Z.pow Z.eqb number IPv6loopback IPv6unspecified].
  fold n. change (128 - 128) with 0. change (128 - 10) with 118.
  change (128 - 8) with (120 + 0). change (128 - 7) with (120 + 1).
  rewrite H118, !H120 by lia. change (a / 2 ^ 0) with (a / 1). change (2 ^ 1) with 2.
  rewrite !Z.div_1_r. eval_blocks.
  rewrite !orb_true_iff, !andb_true_iff, !Z.eqb_eq, !bool_decide_eq_true.
  rewrite !Heq by (done || by repeat constructor). change (number IPv6loopback) with 1.
  change (number IPv6unspecified) with 0. clear Heq H118 H120. clearbody n. div_lia.
Qed.

Ltac unfold_classes := unfold internal, isDisallowedIP, IsLoopback, IsLinkLocalUnicast,
    IsLinkLocalMulticast, IsMulticast, IsUnspecified, IsPrivate.

(** An address with a four-byte form. *)
Lemma To4_bytes ip v4 : ip_ok ip → To4 ip = Some v4 →
  ∃ a b c d, v4 = [a; b; c; d] ∧ (ip = v4 ∨ ip = v4_prefix ++ v4) ∧ Forall (λ b, 0 ≤ b < 256) v4.
Proof.
  intros [_ Hip] H4. unfold To4 in H4. destruct (Nat.eqb_spec (length ip) 4) as [E|E].
  - injection H4 as <-. destruct ip as [|a [|b [|c [|d [|]]]]]; try done. naive_solver.
  - destruct (Nat.eqb_spec (length ip) 16) as [E'|]; [|done].
    cbn [andb] in H4. case_bool_decide as Hp; [|done]. injection H4 as <-.
    assert (Hd : length (drop 12 ip) = 4%nat) by (rewrite length_drop; lia).
    assert (Hf : Forall (λ b, 0 ≤ b < 256) (drop 12 ip)) by by apply Forall_drop.
    assert (Hj : ip = v4_prefix ++ drop 12 ip) by (rewrite <- Hp; by rewrite take_drop).
    destruct (drop 12 ip) as [|a [|b [|c [|d [|]]]]]; try done. naive_solver.
Qed.

Lemma filter_v4 ip v4 : ip_ok ip → To4 ip = Some v4 → isDisallowedIP (Some ip) = internal ip.
Proof.
  intros Hok H4. destruct (To4_bytes ip v4 Hok H4) as (a & b & c & d & -> & Hor & Hf).
  unfold_classes. rewrite H4. rewrite !Forall_cons in Hf. destruct Hf as (Ha & Hb & Hc & Hd & _).
  rewrite blocks4_bytes by done. unfold nth_byte; cbn [nth].
  destruct (mask_bits a Ha) as (-> & _). destruct (mask_bits b Hb) as (_ & -> & _).
  assert (Hu : Equal ip IPv4zero || Equal ip IPv6unspecified = bool_decide ([a; b; c; d] = [0; 0; 0; 0])).
  { apply eq_true_iff_eq. rewrite bool_decide_eq_true, orb_true_iff.
    destruct Hor as [-> | ->]; unfold Equal, To16, IPv4zero, IPv6unspecified, v4_prefix; cbn;
      rewrite !orb_true_iff, ?andb_true_iff, !bool_decide_eq_true; naive_solver. }
  rewrite Hu. generalize (bool_decide ([a; b; c; d] = [0; 0; 0; 0])). intros z.
  rewrite bool_decide_false by done. cbn [andb].
  assert (∀ t : bool, (if t then true else match To16 ip with Some _ => false | None => false end) = t)
    as -> by (intros []; by destruct (To16 ip)).
  apply eq_true_iff_eq. rewrite !orb_true_iff, !andb_true_iff, !Z.eqb_eq.
  destruct z; div_lia.
Qed.

Lemma filter_v6 ip : ip_ok ip → To4 ip = None → isDisallowedIP (Some ip) = internal ip.
Proof.
  intros [Hlen Hip] H4. unfold_classes. rewrite H4.
  assert (E : length ip = 16%nat).
  { destruct Hlen as [E|E]; [|done]. unfold To4 in H4. by rewrite E in H4. }
  unfold is16, To16. rewrite E. cbn [Nat.eqb andb].
  assert (Hz : Equal ip IPv4zero = false).
  { unfold Equal. rewrite E. cbn [IPv4zero length app v4_prefix replicate Nat.eqb negb andb].
    rewrite bool_decide_false; [done|]. intros ->. by vm_compute in H4. }
  rewrite Hz. destruct ip as [|a [|b l]]; try done.
  rewrite blocks6_bytes by (done || by injection E).
  pose proof Hip as [Ha [Hb _]%Forall_cons]%Forall_cons. unfold nth_byte; cbn [nth].
  destruct (mask_bits a Ha) as (_ & _ & _ & ->). destruct (mask_bits b Hb) as (_ & _ & -> & _).
  assert (Hq : ∀ k, length k = 16%nat → Equal (a :: b :: l) k = bool_decide (a :: b :: l = k)).
  { intros k Hk. unfold Equal. rewrite E, Hk. cbn. apply orb_false_r. }
  rewrite !Hq by done. generalize (bool_decide (a :: b :: l = IPv6loopback)).
  generalize (bool_decide (a :: b :: l = IPv6unspecified)). intros u v.
  rewrite bool_decide_true by done. cbn [andb].
  assert (Hif : ∀ t c : bool, (if t then true else c) = t || c) by (by intros [] []).
  rewrite Hif. apply eq_true_iff_eq. rewrite !orb_true_iff, !andb_true_iff, !Z.eqb_eq.
  destruct u, v; intuition congruence.
Qed.

(** The filter refuses exactly the addresses of the internal blocks. *)
Lemma isDisallowedIP_blocks ip : ip_ok ip → isDisallowedIP (Some ip) = internal ip.
Proof.
  intros Hok. destruct (To4 ip) as [v4|] eqn:H4; [by apply (filter_v4 _ v4)|by apply filter_v6].
Qed.

(** ** What is sent *)

Lemma signature_verifies `{Primitives} secret timestamp body :
  secret ≠ "" →
  VerifyWebhookSignature body (generateWebhookSignature secret timestamp body) timestamp secret = true.
Proof.
  intros Hs. unfold VerifyWebhookSignature. rewrite bool_decide_false by done.
  rewrite bool_decide_false by done. cbn [orb]. by apply bool_decide_eq_true.
Qed.

Definition dot_ : ascii := "."%char.

(** The signed string determines the time and the body: no other delivery has the
    same one. *)
Theorem canonicalSigningString_inj t t' body body' :
  canonicalSigningString (itoa t) body = canonicalSigningString (itoa t') body' →
  t = t' ∧ body = body'.
Proof.
  unfold canonicalSigningString. intros E.
  change ("." +:+ body) with (String dot_ body) in E.
  change ("." +:+ body') with (String dot_ body') in E.
  pose proof (scan_signed_sep t dot_ body eq_refl) as H1. pose proof (scan_signed_sep t' dot_ body' eq_refl) as H2.
  rewrite E, H2 in H1. by injection H1 as <- <-.
Qed.

(** A transmission that is safe: to an address outside the internal blocks, and,
    when a secret is configured, with a signature that verifies. *)
Definition safe `{Primitives} (secret : string) (t : IP * request) : Prop :=
  internal t.1 = false ∧
  (secret ≠ "" → ∃ timestamp sig,
     (SignatureTimestampHeader, timestamp) ∈ r_headers t.2 ∧ (SignatureHeader, sig) ∈ r_headers t.2 ∧
     VerifyWebhookSignature (r_body t.2) sig timestamp secret = true).

Section facts.
Context `{Pr : Primitives}.
Context (url_Parse : string → res (string * string)) (ParseIP : string → option IP)
  (SplitHostPort : string → res string).
Context (Quote : string → string) (IP_String : IP → string) (url_Error : string → error → string).
Context (Getenv : string → string) (LookupEnv : string → option string)
  (ParseFloat : string → option spec_float) (ParseDuration : string → option Z) (target : arch).
Context {W : Type} (LookupIPAddr : string → W → res (list IP) * W)
  (connect : string → W → res string * W) (exchange : IP → request → W → res (Z * bool) * W)
  (unix_now : W → Z).

#[local] Notation deliver := (deliverWebhookWithContext url_Parse ParseIP SplitHostPort Quote IP_String
  url_Error Getenv LookupIPAddr connect exchange unix_now).
#[local] Notation secret_of := (resolveWebhookSecret Getenv).

(** [net.ParseIP] gives addresses of four or sixteen bytes. *)
Context (ParseIP_ok : ∀ s ip, ParseIP s = Some ip → ip_ok ip).

Lemma Control_safe address :
  Control ParseIP SplitHostPort Quote IP_String address = None →
  internal (peer ParseIP SplitHostPort address) = false.
Proof.
  unfold Control, peer. destruct (SplitHostPort address) as [host|]; [|done].
  destruct (ParseIP host) as [ip|] eqn:Hp; [|done]. cbn [default from_option id].
  rewrite isDisallowedIP_blocks by eauto. by destruct (internal ip).
Qed.

Lemma Do_sends (P : IP * request → Prop) req n :
  (∀ ip, internal ip = false → P (ip, req)) → Forall P n.2 →
  Forall P (Do ParseIP SplitHostPort Quote IP_String url_Error connect exchange req n).2.2.
Proof.
  intros HP Hn. destruct n as [w sent]. unfold Do. destruct (connect _ w) as [[address|e] w1]; [|done].
  pose proof (Control_safe address) as Hc.
  destruct (Control _ _ _ _ address); [done|].
  assert (Forall P (sent ++ [(peer ParseIP SplitHostPort address, req)]))
    by (apply Forall_app; split; [done|]; apply Forall_singleton; by auto).
  destruct (exchange _ _ w1) as [[[status loc]|e] w2]; [by destruct (_ && _)|done].
Qed.

Lemma headers_signed secret body now ip url :
  internal ip = false →
  safe (secret_of secret) (ip, mk_request url (delivery_headers Getenv secret body now) body).
Proof.
  intros Hi. split; [done|]. cbn [snd r_headers r_body]. intros Hs.
  exists (itoa now), (generateWebhookSignature (secret_of secret) (itoa now) body).
  split_and!; [| |by apply signature_verifies]; unfold delivery_headers; cbn zeta;
    rewrite decide_False by done; set_solver.
Qed.

Lemma deliver_sends url secret payload n :
  Forall (safe (secret_of secret)) n.2 →
  Forall (safe (secret_of secret)) (deliver url secret payload n).2.2.
Proof.
  intros Hn. unfold deliverWebhookWithContext. destruct (ValidateWebhookURL _ _ _ _ _ n.1) as [bad w].
  destruct bad; [done|]. destruct payload as [body|]; [|done].
  pose proof (Do_sends (safe (secret_of secret))
    (mk_request url (delivery_headers Getenv secret body (unix_now w)) body) (w, n.2)
    (λ ip, headers_signed secret body (unix_now w) ip url) Hn) as Hd.
  destruct (Do _ _ _ _ _ _ _ _ _) as [[status|e] n']; [by destruct (_ || _)|done].
Qed.

(** C39: webhooks never reach internal addresses and are authenticated.  Whatever
    the URL names, however names resolve (differently at each attempt, too), and
    whatever the servers answer: every request transmitted over all attempts of a
    delivery goes to an address outside the loopback, link-local, private,
    unique-local, multicast and unspecified blocks, and carries a signature of its
    body and time stamp that verifies under the configured secret, if there is
    one. *)
Theorem webhook_never_internal ctx_Err sleep Int63n url secret payload w :
  (∀ d n, (sleep d n).2.2 = n.2) → (∀ q n, (Int63n q n).2.2 = n.2) →
  Forall (safe (secret_of secret))
    (DeliverWebhookWithRetryCtx url_Parse ParseIP SplitHostPort Quote IP_String url_Error Getenv
       LookupEnv ParseFloat ParseDuration target LookupIPAddr connect exchange unix_now
       ctx_Err sleep Int63n url secret payload (w, [])).2.2.
Proof.
  intros Hs Hr. unfold DeliverWebhookWithRetryCtx.
  apply (RetryWithContext_preserves target _ ctx_Err sleep Int63n
    (λ n, Forall (safe (secret_of secret)) n.2)).
  - intros n. apply deliver_sends.
  - intros d n. by rewrite Hs.
  - intros q n. by rewrite Hr.
  - apply Forall_nil_2.
Qed.

End facts.

(** ** Instances *)

(** A tiny network: one public and one internal host; the name resolves to the
    public one, the first connection times out and the second one is made to the
    public address. *)
Definition public_ip : IP := v4_prefix ++ [203; 0; 113; 9].
Definition metadata_ip : IP := v4_prefix ++ [169; 254; 169; 254].

Definition parse_ip (s : string) : option IP :=
  if decide (s = "203.0.113.9") then Some public_ip
  else if decide (s = "169.254.169.254") then Some metadata_ip else None.

Lemma parse_ip_ok s ip : parse_ip s = Some ip → ip_ok ip.
Proof.
  unfold parse_ip, ip_ok. repeat case_decide; intros [= <-]; (split; [by right|]);
    repeat constructor; lia.
Qed.

Definition strip_port (s : string) : res string := Ok (Cut s ":"%char).1.

Definition sample_delivery (peers : nat → res string) :=
  DeliverWebhookWithRetryCtx (W := nat) (λ u, Ok ("https", u)) parse_ip strip_port (λ s, s) (λ _, "ip")
    (λ u e, "Post " +:+ u +:+ ": " +:+ Error e) (λ _, "key") (λ _, None) (λ _, None) (λ _, None) amd64
    (λ _ w, (Ok [public_ip], w)) (λ _ w, (peers w, S w)) (λ _ _ w, (Ok (200, false), w)) (λ _, 1700000000)
    (λ _, None) (λ _ n, (None, n)) (λ _ n, (0, n)) "hooks.example" "" (Ok "{}") (0%nat, []).

(** The first connection times out, the second reaches the public host; a name
    that is rebound to the metadata service between check and connection gets
    nothing sent. *)
Lemma webhook_never_internal_witness :
  (sample_delivery (λ n, if Nat.eqb n 0 then Err (ENew "i/o timeout") else Ok "203.0.113.9:443")).2.2.*1
    = [public_ip] ∧
  (sample_delivery (λ _, Ok "169.254.169.254:443")).2.2 = [] ∧
  Forall (safe "key")
    (sample_delivery (λ n, if Nat.eqb n 0 then Err (ENew "i/o timeout") else Ok "203.0.113.9:443")).2.2.
Proof.
  split; [by vm_compute|]. split; [by vm_compute|].
  exact (webhook_never_internal (λ u, Ok ("https", u)) parse_ip strip_port (λ s, s) (λ _, "ip")
    (λ u e, "Post " +:+ u +:+ ": " +:+ Error e) (λ _, "key") (λ _, None) (λ _, None) (λ _, None) amd64
    (λ _ w, (Ok [public_ip], w)) _ (λ _ _ w, (Ok (200, false), w)) (λ _, 1700000000)
    parse_ip_ok (λ _, None) (λ _ n, (None, n)) (λ _ n, (0, n)) "hooks.example" "" (Ok "{}") 0%nat
    (λ _ _, eq_refl) (λ _ _, eq_refl)).
Defined.

(** The delivery flattens the client's error to text, so the type that would make
    a network error retryable is lost: a refused connection ends the delivery at
    the first attempt. *)
Theorem refused_connection_not_retried :
  let r := sample_delivery (λ _, Err (ENet "connection refused" [])) in
  r.1.1.2 = 1%nat ∧ IsRetryable (Some (ENet "connection refused" [])) = true.
Proof. by vm_compute. Qed.
