(* ===== verification/Ingest.v ===== *)
(** * Ingestion of artifacts ([ingest/], [cmd/fetch.go])

    References name an artifact by scheme; a registry maps the scheme to an adapter,
    and the adapter fetches the artifact into a file.  Modelled are the registry,
    the bounded copy to disk, and the four kinds of adapter: local files, HTTPS, the
    S3 store and the vendor stubs.  URL parsing, name resolution, connections and
    exchanges are parameters, as in [Webhook]; so are the outcomes of the calls to
    the operating system. *)
From Stdlib Require Import Ascii ZArith.
From S2P Require Import Prelude GoStr GoErr GoFloat GoUrl Config S3 Sigv4 Verify Webhook GoPath Storage.

Local Open Scope Z_scope.

(** ** References *)

Definition fileScheme : string := "file".
Definition httpsScheme : string := "https".
Definition httpScheme : string := "http".
Definition schemeS3 : string := "s3".

Definition normalizeScheme (scheme : string) : string := ToLower (TrimSpace scheme).

(** ALPHA *( ALPHA / DIGIT / "+" / "-" / "." ); a rune outside ASCII is none of
    these, nor is any byte of it. *)
Definition scheme_byte (c : ascii) : bool := is_alpha c || is_digit c || bool_decide (c ∈ ["+"; "-"; "."]%char).
Definition isSchemeToken (s : string) : bool :=
  match s with "" => false | String c s => is_alpha c && forall_chars scheme_byte s end.

Definition SchemeOf (ref : string) : string :=
  let r := TrimSpace ref in
  match Index r "://" with
  | Some (S i) => let scheme := take_str (S i) r in
                  if isSchemeToken scheme then normalizeScheme scheme else fileScheme
  | _ => fileScheme
  end.

(** ** Adapters and their registry *)

Record Options := mk_options { DestDir : string; MaxBytes : Z }.

Inductive Adapter :=
  | fileAdapter
  | httpsAdapter (scheme destDir : string) (maxBytes : Z) (allowHTTP : bool)
  | s3Adapter (destDir : string) (maxBytes : Z)
  | stubAdapter (scheme envVars auth : string).

Definition Scheme (a : Adapter) : string :=
  match a with
  | fileAdapter => fileScheme | httpsAdapter s _ _ _ => s | s3Adapter _ _ => schemeS3 | stubAdapter s _ _ => s
  end.

Definition Factory : Type := Options → res Adapter.
Notation registry := (gmap string Factory).

(** [Register]: the new registry, or the message it panics with. *)
Definition Register (scheme : string) (factory : option Factory) (reg : registry) : registry + string :=
  let s := normalizeScheme scheme in
  if decide (s = "") then inr "ingest: Register called with empty scheme"
  else match factory with
       | None => inr ("ingest: Register called with nil factory for scheme " +:+ s)
       | Some f => match reg !! s with
                   | Some _ => inr ("ingest: duplicate adapter registration for scheme " +:+ s)
                   | None => inl (<[s := f]> reg)
                   end
       end.

Definition Schemes (reg : registry) : list string := sort_strings (map_to_list reg).*1.

Definition Get (reg : registry) (ref : string) (opts : Options) : res Adapter :=
  let scheme := SchemeOf ref in
  match reg !! scheme with
  | None => Err (ENew ("ingest: no adapter registered for scheme " +:+ Quote scheme +:+ " (known: " +:+
                       GoStr.Join (Schemes reg) ", " +:+ ")"))
  | Some factory => factory opts
  end.

Definition schemeAppStoreConnect : string := "appstoreconnect".
Definition schemeTestFlight : string := "testflight".
Definition schemeXcodeCloud : string := "xcodecloud".
Definition schemeGooglePlay : string := "googleplay".

Definition stubFactory (scheme envVars auth : string) : Factory := λ _, Ok (stubAdapter scheme envVars auth).

(** [utils.MaxAPKDownloadSize] *)
Definition MaxAPKDownloadSize : Z := Z.shiftl 500 20.

Section env.
Context (LookupEnv : string → option string).

Definition DefaultMaxBytes : Z := Int64Positive LookupEnv "MORF_INGEST_MAX_BYTES" MaxAPKDownloadSize.
Definition resolveMaxBytes (opts : Options) : Z := if 0 <? MaxBytes opts then MaxBytes opts else DefaultMaxBytes.

Definition newHTTPSAdapter (scheme : string) (o : Options) : res Adapter :=
  Ok (httpsAdapter scheme (DestDir o) (resolveMaxBytes o) (Bool LookupEnv "MORF_INGEST_ALLOW_HTTP" false)).

(** What the [init] functions of the package register, in order of file name. *)
Definition registrations : list (string * Factory) :=
  [(fileScheme, λ _, Ok fileAdapter);
   (httpsScheme, newHTTPSAdapter httpsScheme); (httpScheme, newHTTPSAdapter httpScheme);
   (schemeS3, λ o, Ok (s3Adapter (DestDir o) (resolveMaxBytes o)));
   (schemeAppStoreConnect, stubFactory schemeAppStoreConnect
      "MORF_ASC_ISSUER_ID, MORF_ASC_KEY_ID, MORF_ASC_PRIVATE_KEY"
      "App Store Connect API ES256 JWT signed with a .p8 private key");
   (schemeTestFlight, stubFactory schemeTestFlight
      "MORF_ASC_ISSUER_ID, MORF_ASC_KEY_ID, MORF_ASC_PRIVATE_KEY"
      "App Store Connect API JWT (shared with App Store Connect); resolves a TestFlight build");
   (schemeXcodeCloud, stubFactory schemeXcodeCloud
      "MORF_ASC_ISSUER_ID, MORF_ASC_KEY_ID, MORF_ASC_PRIVATE_KEY, MORF_XCODE_CLOUD_PRODUCT_ID"
      "App Store Connect API JWT plus an Xcode Cloud CI product/build id");
   (schemeGooglePlay, stubFactory schemeGooglePlay "MORF_GOOGLE_PLAY_SA_JSON"
      "Google Play Developer API OAuth2 with a service-account JSON key")].

Definition register_all (l : list (string * Factory)) (reg : registry) : registry + string :=
  foldl (λ acc '(s, f), match acc with inl reg => Register s (Some f) reg | inr m => inr m end) (inl reg) l.

Definition init : registry + string := register_all registrations ∅.
End env.

(** ** The bounded copy *)

(** What a reader gives until it fails or ends. *)
Record stream := mk_stream { s_data : string; s_err : option error }.

(** [io.Copy] from [io.LimitReader(src, n)]: the bytes, and the error of the source
    if it is reached. *)
Definition copy_limited (src : stream) (n : Z) : string * option error :=
  if n <=? 0 then ("", None)
  else if n <=? len (s_data src) then (take_str (Z.to_nat n) (s_data src), None)
  else (s_data src, s_err src).

Section os.
Context (LookupEnv : string → option string).
(** The operating system: whether a path is a directory, the names of a new
    directory and of a new file in a directory with an extension, and how writing to
    and closing that file end. *)
Context (Stat : string → filesys → res bool) (MkdirTemp : filesys → res string)
  (CreateTemp : string → string → filesys → res string) (WriteErr CloseErr : string → option error).

Definition resolveDestDir (opts : Options) (f : filesys) : res string :=
  let dir := TrimSpace (DestDir opts) in
  if decide (dir = "") then
    match MkdirTemp f with
    | Err e => Err (EWrap ("ingest: creating scratch dir: " +:+ Error e) [e])
    | Ok created => Ok created
    end
  else
    match Stat dir f with
    | Err e => Err (EWrap ("ingest: destination dir " +:+ Quote dir +:+ ": " +:+ Error e) [e])
    | Ok false => Err (ENew ("ingest: destination " +:+ Quote dir +:+ " is not a directory"))
    | Ok true => Ok dir
    end.

Definition artifactExt (name : string) : string :=
  let base := ToLower (path_Base name) in
  if HasSuffix base ".apk" then ".apk" else if HasSuffix base ".ipa" then ".ipa" else ".bin".

Definition copyCapped (destDir ext : string) (src : stream) (maxBytes : Z) (f : filesys) : res string * filesys :=
  let maxBytes := if maxBytes <=? 0 then DefaultMaxBytes LookupEnv else maxBytes in
  match CreateTemp destDir ext f with
  | Err e => (Err (EWrap ("ingest: creating temp file: " +:+ Error e) [e]), f)
  | Ok tmpPath =>
      let '(data, readErr) := copy_limited src (wrap64 (maxBytes + 1)) in
      let f := <[tmpPath := data]> f in
      match WriteErr tmpPath, readErr with
      | Some e, _ | None, Some e => (Err (EWrap ("ingest: downloading artifact: " +:+ Error e) [e]), delete tmpPath f)
      | None, None =>
          match CloseErr tmpPath with
          | Some e => (Err (EWrap ("ingest: finalizing temp file: " +:+ Error e) [e]), delete tmpPath f)
          | None => if maxBytes <? len data
                    then (Err (ENew ("ingest: artifact exceeds maximum allowed size of " +:+ itoa maxBytes +:+ " bytes")),
                          delete tmpPath f)
                    else (Ok tmpPath, f)
          end
      end
  end.

(** ** Local files *)

Definition file_path (ref : string) : string :=
  let path := TrimSpace ref in
  match Index path "://" with
  | Some (S i) => if isSchemeToken (take_str (S i) path) then TrimPrefix path "file://" else path
  | _ => path
  end.

Definition file_Fetch (ref : string) (f : filesys) : res string :=
  let path := file_path ref in
  if decide (path = "") then Err (ENew "ingest: empty local path")
  else match Stat path f with
       | Err e => Err (EWrap ("ingest: local artifact " +:+ Quote path +:+ ": " +:+ Error e) [e])
       | Ok true => Err (ENew ("ingest: local artifact " +:+ Quote path +:+ " is a directory, not a file"))
       | Ok false =>
           let lower := ToLower path in
           if negb (HasSuffix lower ".apk") && negb (HasSuffix lower ".ipa")
           then Err (ENew ("ingest: local artifact " +:+ Quote path +:+ " must be an .apk or .ipa file"))
           else Ok path
       end.

Definition stub_Fetch (scheme envVars auth : string) : res string :=
  Err (EWrap (sentinel_msg ErrAdapterNotConfigured +:+ ": " +:+ scheme +:+
              " ingestion is not implemented — it requires " +:+ envVars +:+ " (" +:+ auth +:+ "); see docs/INGESTION.md")
         [ESentinel ErrAdapterNotConfigured]).

(** ** The S3 store *)

Definition validateObjectKey (key : string) : option error :=
  if HasPrefix key "/" then Some (ENew ("ingest: s3 object key " +:+ Quote key +:+ " must not be absolute"))
  else if existsb (λ seg, bool_decide (seg = "..")) (Split key slash)
  then Some (ENew ("ingest: s3 object key " +:+ Quote key +:+ " must not contain a " +:+ Quote ".." +:+ " path segment"))
  else None.

(** The key and the bucket. *)
Definition parseS3Ref (ref : string) : res (string * string) :=
  let r := TrimSpace ref in
  let rest := TrimPrefix r "s3://" in
  let rest := if decide (rest = r) then TrimPrefix r "S3://" else rest in
  let emptyAuthority := HasPrefix rest "/" in
  let rest := TrimPrefix rest "/" in
  let no_key := Err (ENew ("ingest: s3 reference " +:+ Quote ref +:+ " has no object key")) in
  if decide (rest = "") then no_key
  else
    let '(key, bucket) :=
      if emptyAuthority then (rest, "")
      else match Index rest "/" with
           | Some (S i) => (TrimPrefix (drop_str (S (S i)) rest) "/", take_str (S i) rest)
           | _ => (rest, "")
           end in
    if decide (key = "") then no_key
    else match validateObjectKey key with Some e => Err e | None => Ok (key, bucket) end.

(** The store of the environment and its bucket. *)
Definition newEnvS3Store (parse : string → res URL) : res (S3Storage * string) :=
  match NewS3StorageFromEnv LookupEnv parse with
  | Err e => Err (EWrap (sentinel_msg ErrAdapterNotConfigured +:+
                ": S3 ingestion requires MORF_S3_BUCKET, AWS_ACCESS_KEY_ID and AWS_SECRET_ACCESS_KEY (see docs/INGESTION.md): "
                +:+ Error e) [ESentinel ErrAdapterNotConfigured])
  | Ok s3 => Ok (s3, Getenv LookupEnv "MORF_S3_BUCKET")
  end.

Section adapters.
(** [url.URL], its parser, its [String] method, its [Hostname], and the parser of a
    query. *)
Record url := mk_url { u_Scheme : string; u_User : option string; u_Host : string; u_Path : string;
                       u_RawQuery : string; u_Fragment : string }.
Context (url_Parse : string → res url) (url_String : url → string) (Hostname : url → string)
  (ParseQuery : string → gmap string (list string)).
Context (ParseIP : string → option IP) (SplitHostPort : string → res string) (IP_String : IP → string)
  (url_Error : string → error → string).
Context `{Digests}.

(** The network: name resolution, the address a connection is made to, the answer
    of the peer. *)
Record http_response := mk_http { StatusCode : Z; ContentLength : Z; Body : stream; has_location : bool }.
Record get_request := mk_get { g_Method : string; g_URL : string; g_Header : list (string * string) }.
Context {W : Type} (LookupIPAddr : string → W → res (list IP) * W)
  (connect : string → W → res string * W) (exchange : IP → get_request → W → res http_response * W).
(** The store of an environment, and its bucket. *)
Context (Store : Type) (newStore : res (Store * string))
  (store_Stat : Store → string → W → res Z * W) (store_Open : Store → string → W → res stream * W).

Record state := mk_state { net_ : W; files : filesys; sent : list (IP * get_request) }.

(** ** HTTPS *)

Definition allowInternalHosts : bool := false.

Definition isDisallowedIP (ip : option IP) : bool :=
  match ip with
  | None => true
  | Some ip =>
      if IsLoopback ip || IsLinkLocalUnicast ip || IsLinkLocalMulticast ip ||
         IsMulticast ip || IsUnspecified ip || IsPrivate ip then true
      else match To16 ip with
           | Some v6 => bool_decide (To4 ip = None) && (Z.land (nth_byte 0 v6) 254 =? 252)
           | None => false
           end
  end.

Definition validateURL (u : string) (w : W) : option error * W :=
  if allowInternalHosts then (None, w)
  else ValidateWebhookURL (λ s, match url_Parse s with Ok p => Ok (u_Scheme p, Hostname p) | Err e => Err e end)
         ParseIP IP_String LookupIPAddr u w.

(** The [Control] hook of [ssrfDialer]. *)
Definition ssrf_Control (address : string) : option error :=
  if allowInternalHosts then None
  else match SplitHostPort address with
       | Err e => Some (ENew ("ingest dial: invalid address " +:+ Quote address +:+ ": " +:+ Error e))
       | Ok host =>
           match ParseIP host with
           | None => Some (ENew ("ingest dial: unresolvable address " +:+ Quote host))
           | Some ip => if isDisallowedIP (Some ip)
                        then Some (ENew ("ingest dial: connection to disallowed IP " +:+ IP_String ip +:+ " blocked (SSRF protection)"))
                        else None
           end
       end.

(** [ssrfClient.Do] *)
Definition ssrf_Do (req : get_request) (s : state) : res http_response * state :=
  let fail e := Err (EURL (url_Error (g_URL req) e) e) in
  let '(c, w) := connect (g_URL req) (net_ s) in
  let s := mk_state w (files s) (sent s) in
  match c with
  | Err e => (fail e, s)
  | Ok address =>
      match ssrf_Control address with
      | Some e => (fail e, s)
      | None =>
          let ip := peer ParseIP SplitHostPort address in
          let '(r, w) := exchange ip req w in
          let s := mk_state w (files s) (sent s ++ [(ip, req)]) in
          match r with
          | Err e => (fail e, s)
          | Ok resp => if is_redirect (StatusCode resp) && has_location resp
                       then (fail (ENew "ingest: redirects are not allowed (SSRF protection)"), s)
                       else (Ok resp, s)
          end
      end
  end.

(** [utils.MaskURLForLogging] *)
Definition MaskURLForLogging (urlStr : string) : string :=
  match url_Parse urlStr with
  | Err _ => "***"
  | Ok p => url_String (mk_url (u_Scheme p) (if u_User p then Some "***:***" else None) (u_Host p) (u_Path p)
                          (u_RawQuery p) (u_Fragment p))
  end.

Definition extractSHA256 (u : url) : string * string :=
  let frag := TrimSpace (u_Fragment u) in
  let digest := if bool_decide (frag ≠ "") && HasPrefix (ToLower frag) "sha256="
                then ToLower (drop_str 7 frag) else "" in
  let cp raw := mk_url (u_Scheme u) (u_User u) (u_Host u) (u_Path u) raw "" in
  let q := ParseQuery (u_RawQuery u) in
  let v := TrimSpace (match q !! "sha256" with Some (v :: _) => v | _ => "" end) in
  if decide (v = "") then (digest, url_String (cp (u_RawQuery u)))
  else (ToLower v, url_String (cp (url_Encode (delete "sha256" q)))).

(** The part of [Fetch] after the response headers have been read. *)
Definition save_response (destDir : string) (maxBytes : Z) (wantSHA reqURL path : string) (resp : http_response)
    (s : state) : res string * state :=
  if (StatusCode resp <? 200) || (300 <=? StatusCode resp) then
    (Err (ENew ("ingest: fetching " +:+ MaskURLForLogging reqURL +:+ ": unexpected status " +:+ itoa (StatusCode resp))), s)
  else if (0 <? ContentLength resp) && (maxBytes <? ContentLength resp) then
    (Err (ENew ("ingest: artifact is " +:+ itoa (ContentLength resp) +:+ " bytes, exceeds the " +:+ itoa maxBytes +:+ "-byte limit")), s)
  else
    match resolveDestDir (mk_options destDir 0) (files s) with
    | Err e => (Err e, s)
    | Ok dir =>
        let '(r, f) := copyCapped dir (artifactExt path) (Body resp) maxBytes (files s) in
        let s := mk_state (net_ s) f (sent s) in
        match r with
        | Err e => (Err e, s)
        | Ok localPath =>
            (* the hash of the bytes that went through the tee *)
            let got := sha256Hex (default "" (f !! localPath)) in
            if bool_decide (wantSHA ≠ "") && negb (EqualFold got wantSHA)
            then (Err (ENew ("ingest: sha256 mismatch: want " +:+ wantSHA +:+ ", got " +:+ got)),
                  mk_state (net_ s) (delete localPath f) (sent s))
            else (Ok localPath, s)
        end
    end.

Definition https_Fetch (destDir : string) (maxBytes : Z) (allowHTTP : bool) (ref : string) (s : state)
    : res string * state :=
  match url_Parse (TrimSpace ref) with
  | Err e => (Err (EWrap ("ingest: invalid URL " +:+ Quote ref +:+ ": " +:+ Error e) [e]), s)
  | Ok parsed =>
      let scheme := ToLower (u_Scheme parsed) in
      if bool_decide (scheme = httpScheme) && negb allowHTTP then
        (Err (ENew "ingest: http:// URLs are refused; set MORF_INGEST_ALLOW_HTTP=true to allow plaintext downloads"), s)
      else if negb (bool_decide (scheme = httpsScheme)) && negb (bool_decide (scheme = httpScheme)) then
        (Err (ENew ("ingest: URL scheme " +:+ Quote (u_Scheme parsed) +:+ " is not http(s)")), s)
      else
        let '(bad, w) := validateURL (url_String parsed) (net_ s) in
        let s := mk_state w (files s) (sent s) in
        match bad with
        | Some e => (Err (EWrap ("ingest: URL failed SSRF validation: " +:+ Error e) [e]), s)
        | None =>
            let '(wantSHA, reqURL) := extractSHA256 parsed in
            match url_Parse reqURL with
            | Err e => (Err (EWrap ("ingest: building request: " +:+ Error e) [e]), s)
            | Ok _ =>
                let '(r, s) := ssrf_Do (mk_get "GET" reqURL [("User-Agent", "MORF-Ingest/1.0")]) s in
                match r with
                | Err e => (Err (EWrap ("ingest: fetching " +:+ MaskURLForLogging reqURL +:+ ": " +:+ Error e) [e]), s)
                | Ok resp => save_response destDir maxBytes wantSHA reqURL (u_Path parsed) resp s
                end
            end
        end
  end.

Definition s3_Fetch (destDir : string) (maxBytes : Z) (ref : string) (s : state) : res string * state :=
  match parseS3Ref ref with
  | Err e => (Err e, s)
  | Ok (key, bucket) =>
      match newStore with
      | Err e => (Err e, s)
      | Ok (store, cfgBucket) =>
          if bool_decide (bucket ≠ "") && bool_decide (cfgBucket ≠ "") && negb (EqualFold bucket cfgBucket) then
            (Err (ENew ("ingest: s3 reference bucket " +:+ Quote bucket +:+ " does not match configured bucket " +:+ Quote cfgBucket)), s)
          else
            let '(size, w) := store_Stat store key (net_ s) in
            let s := mk_state w (files s) (sent s) in
            let too_big n := Err (ENew ("ingest: s3 object " +:+ Quote key +:+ " is " +:+ itoa n +:+
                                        " bytes, exceeds the " +:+ itoa maxBytes +:+ "-byte limit")) in
            if match size with Ok n => maxBytes <? n | Err _ => false end
            then (too_big (match size with Ok n => n | Err _ => 0 end), s)
            else
              let '(rc, w) := store_Open store key (net_ s) in
              let s := mk_state w (files s) (sent s) in
              match rc with
              | Err e => (Err (EWrap ("ingest: opening s3 object " +:+ Quote key +:+ ": " +:+ Error e) [e]), s)
              | Ok body =>
                  match resolveDestDir (mk_options destDir 0) (files s) with
                  | Err e => (Err e, s)
                  | Ok dir => let '(r, f) := copyCapped dir (artifactExt key) body maxBytes (files s) in
                              (r, mk_state (net_ s) f (sent s))
                  end
              end
      end
  end.

Definition adapter_Fetch (a : Adapter) (ref : string) (s : state) : res string * state :=
  match a with
  | fileAdapter => (file_Fetch ref (files s), s)
  | httpsAdapter _ destDir maxBytes allowHTTP => https_Fetch destDir maxBytes allowHTTP ref s
  | s3Adapter destDir maxBytes => s3_Fetch destDir maxBytes ref s
  | stubAdapter scheme envVars auth => (stub_Fetch scheme envVars auth, s)
  end.

(** [Fetch], after the adapters have registered. *)
Definition Fetch (reg : registry) (ref : string) (opts : Options) (s : state) : res string * state :=
  match Get reg ref opts with
  | Err e => (Err e, s)
  | Ok adapter => adapter_Fetch adapter ref s
  end.

(** ** [morf fetch] *)

Definition exitOK : Z := 0.
Definition exitOperational : Z := 1.

Record fetchOptions := mk_fetch { o_out : string; o_maxBytes : Z; o_scan : bool; o_verify : bool }.

(** The exit code, the error and what was printed; [runScan verify path] is the scan
    command. *)
Definition runFetch (reg : registry) (runScan : bool → string → Z * option error * string) (opts : fetchOptions)
    (ref : string) (s : state) : Z * option error * string * state :=
  let '(r, s) := Fetch reg ref (mk_options (o_out opts) (o_maxBytes opts)) s in
  match r with
  | Err e => (exitOperational, Some e, "", s)
  | Ok localPath => if o_scan opts then (runScan (o_verify opts) localPath, s)
                    else (exitOK, None, localPath +:+ String "010"%char "", s)
  end.
End adapters.
End os.

(** ** Reading the environment *)

Lemma resolveMaxBytes_pos LookupEnv opts : 0 < resolveMaxBytes LookupEnv opts.
Proof.
  unfold resolveMaxBytes. destruct (Z.ltb_spec 0 (MaxBytes opts)); [done|].
  unfold DefaultMaxBytes, Int64Positive, read_env. repeat case_match; try done; try (by vm_compute). lia.
Qed.

(** ** The copy is all or nothing *)

(** A path [os.CreateTemp] can give for a directory. *)
Definition temp_in (dir ext p : string) : Prop :=
  ∃ r, p = (if HasSuffix dir "/" then dir else dir +:+ "/") +:+ "artifact-" +:+ r +:+ ext ∧
       forall_chars (not_byte "/"%char) r = true.

Definition capped (n : Z) : Prop := 0 < n < int64_max.

Section copy.
Context (LookupEnv : string → option string) (Stat : string → filesys → res bool) (MkdirTemp : filesys → res string)
  (CreateTemp : string → string → filesys → res string) (WriteErr CloseErr : string → option error).
Context (CreateTemp_new : ∀ d ext f p, CreateTemp d ext f = Ok p → f !! p = None ∧ temp_in d ext p).

#[local] Notation copy := (copyCapped LookupEnv CreateTemp WriteErr CloseErr).

Lemma copy_limited_spec src n : capped n →
  match copy_limited src (wrap64 (n + 1)) with
  | (data, Some e) => s_err src = Some e
  | (data, None) => if n <? len data then n < len (s_data src) else data = s_data src ∧ s_err src = None ∧ len data ≤ n
  end.
Proof.
  intros [Hn Hm]. unfold capped, int64_max in Hm. rewrite wrap64_id by (unfold in_int64, int64_min, int64_max; lia).
  unfold copy_limited. replace (n + 1 <=? 0) with false by lia.
  destruct (Z.leb_spec (n + 1) (len (s_data src))).
  - replace (len (take_str (Z.to_nat (n + 1)) (s_data src))) with (n + 1).
    + replace (n <? n + 1) with true by lia. lia.
    + unfold len in *. rewrite take_str_length; lia.
  - destruct (s_err src); [done|]. destruct (Z.ltb_spec n (len (s_data src))); [lia|]. split_and!; auto.
Qed.

Lemma copy_exact dir ext src n f : capped n →
  match copy dir ext src n f with
  | (Ok p, f') => f' = <[p := s_data src]> f ∧ f !! p = None ∧ temp_in dir ext p ∧ len (s_data src) ≤ n ∧ s_err src = None
  | (Err _, f') => f' = f
  end.
Proof.
  intros Hn. unfold copyCapped. pose proof (copy_limited_spec src n Hn) as Hc.
  replace (n <=? 0) with false by (unfold capped in Hn; lia).
  destruct (CreateTemp dir ext f) as [p|e] eqn:Ht; [|done]. apply CreateTemp_new in Ht as [Hnew Hin].
  assert (Hdel : ∀ x, delete p (<[p := x]> f) = f) by (intros x; by rewrite delete_insert_id).
  destruct (copy_limited src (wrap64 (n + 1))) as [data [e|]].
  { destruct (WriteErr p); apply Hdel. }
  destruct (WriteErr p); [apply Hdel|]. destruct (CloseErr p); [apply Hdel|].
  destruct (n <? len data); [apply Hdel|]. destruct Hc as (-> & He & Hl). by split_and!.
Qed.

(** Without a failure of the disk, a complete source that fits is stored. *)
Lemma copy_complete dir ext data n f p : capped n → len data ≤ n →
  CreateTemp dir ext f = Ok p → WriteErr p = None → CloseErr p = None →
  copy dir ext (mk_stream data None) n f = (Ok p, <[p := data]> f).
Proof.
  intros Hn Hl Ht Hw Hc. unfold copyCapped. replace (n <=? 0) with false by (unfold capped in Hn; lia).
  pose proof (copy_limited_spec (mk_stream data None) n Hn) as Hs. rewrite Ht.
  destruct (copy_limited _ _) as [d [e|]]; cbn [s_data s_err] in Hs; [done|]. rewrite Hw, Hc.
  destruct (n <? len d) eqn:E; [lia|]. by destruct Hs as (-> & _ & _).
Qed.
End copy.

(** ** Dispatch *)

Section dispatch.
Context (LookupEnv : string → option string).

Lemma register_all_new l : ∀ reg,
  Forall (λ sf, normalizeScheme sf.1 = sf.1 ∧ sf.1 ≠ "") l → NoDup l.*1 → (∀ k, k ∈ l.*1 → reg !! k = None) →
  ∃ reg', register_all l reg = inl reg' ∧ ∀ k f, reg' !! k = Some f ↔ reg !! k = Some f ∨ (k, f) ∈ l.
Proof.
  induction l as [|[k f] l IH]; intros reg Hall Hnd Hnew.
  { exists reg. split; [done|]. intros k f. rewrite elem_of_nil. tauto. }
  apply Forall_cons in Hall as [[Hk Hne] Hall]. cbn [fmap list_fmap fst] in *. apply NoDup_cons in Hnd as [Hnin Hnd].
  destruct (IH (<[k := f]> reg)) as (reg' & Hr & Hl); [done|done| |].
  { intros k' Hk'. rewrite lookup_insert_ne by (intros ->; contradiction). apply Hnew. by right. }
  exists reg'. split.
  - unfold register_all in *. cbn [foldl]. rewrite <- Hr. f_equal. unfold Register. rewrite Hk, decide_False by done.
    by rewrite Hnew by left.
  - intros k' f'. rewrite Hl, elem_of_cons. destruct (decide (k' = k)) as [->|Hn'].
    + rewrite lookup_insert_eq, Hnew by left. split; [intros [[= ->]|?]; tauto|].
      intros [?|[[= ->]|?]]; [done|by left|by right].
    + rewrite lookup_insert_ne by done. split; [tauto|]. intros [?|[[= -> ->]|?]]; tauto.
Qed.

(** The start-up never panics, and each scheme has its own adapter. *)
Lemma init_registers : ∃ reg, init LookupEnv = inl reg ∧ ∀ k f, reg !! k = Some f ↔ (k, f) ∈ registrations LookupEnv.
Proof.
  destruct (register_all_new (registrations LookupEnv) ∅) as (reg & Hr & Hl).
  - repeat constructor; by vm_compute.
  - assert (Hb : bool_decide (NoDup (registrations LookupEnv).*1) = true) by by vm_compute.
    by apply bool_decide_eq_true in Hb.
  - intros k _. apply lookup_empty.
  - exists reg. split; [done|]. intros k f. rewrite Hl, lookup_empty. split; [by intros [?|?]|by right].
Qed.

Lemma init_lookup reg k f : init LookupEnv = inl reg → reg !! k = Some f ↔ (k, f) ∈ registrations LookupEnv.
Proof. intros Hi. destruct init_registers as (reg' & Hr & Hl). rewrite Hi in Hr. injection Hr as <-. apply Hl. Qed.

Definition served (opts : Options) (a : Adapter) : Prop :=
  match a with
  | fileAdapter | stubAdapter _ _ _ => True
  | httpsAdapter _ d n _ | s3Adapter d n => d = DestDir opts ∧ n = resolveMaxBytes LookupEnv opts
  end.

Lemma Get_serves reg ref opts : init LookupEnv = inl reg →
  match Get reg ref opts with
  | Ok a => Scheme a = SchemeOf ref ∧ served opts a
  | Err _ => SchemeOf ref ∉ (registrations LookupEnv).*1
  end.
Proof.
  intros Hi. unfold Get. destruct (reg !! SchemeOf ref) as [f|] eqn:Hl.
  - apply (init_lookup reg _ _ Hi) in Hl. revert Hl. generalize (SchemeOf ref). intros k Hl.
    cbn [registrations] in Hl. repeat (apply elem_of_cons in Hl as [[= -> ->]|Hl]; [by split_and!|]).
    by apply elem_of_nil in Hl.
  - intros (kf & Hk & Hin)%list_elem_of_fmap. destruct kf as [k f]. cbn in Hk. subst k.
    pose proof (proj2 (init_lookup reg _ f Hi) Hin) as Hx. discriminate (eq_trans (eq_sym Hl) Hx).
Qed.
End dispatch.

(** ** What a fetch does *)

Section fetching.
Context (LookupEnv : string → option string) (Stat : string → filesys → res bool) (MkdirTemp : filesys → res string)
  (CreateTemp : string → string → filesys → res string) (WriteErr CloseErr : string → option error).
Context (url_Parse : string → res url) (url_String : url → string) (Hostname : url → string)
  (ParseQuery : string → gmap string (list string)) (ParseIP : string → option IP) (SplitHostPort : string → res string)
  (IP_String : IP → string) (url_Error : string → error → string) `{Digests} {W : Type}
  (LookupIPAddr : string → W → res (list IP) * W) (connect : string → W → res string * W)
  (exchange : IP → get_request → W → res http_response * W)
  (Store : Type) (newStore : res (Store * string))
  (store_Stat : Store → string → W → res Z * W) (store_Open : Store → string → W → res stream * W).
(** [os.CreateTemp] picks a new name; [net.ParseIP] gives addresses. *)
Context (CreateTemp_new : ∀ d ext f p, CreateTemp d ext f = Ok p → f !! p = None ∧ temp_in d ext p).
Context (ParseIP_ok : ∀ s ip, ParseIP s = Some ip → ip_ok ip).
Implicit Types (s : @state W) (r : res string).

#[local] Notation do_ := (ssrf_Do ParseIP SplitHostPort IP_String url_Error connect exchange).
#[local] Notation fetch_https := (https_Fetch LookupEnv Stat MkdirTemp CreateTemp WriteErr CloseErr url_Parse url_String
  Hostname ParseQuery ParseIP SplitHostPort IP_String url_Error LookupIPAddr connect exchange).
#[local] Notation fetch_s3 := (s3_Fetch LookupEnv Stat MkdirTemp CreateTemp WriteErr CloseErr Store newStore store_Stat store_Open).
#[local] Notation save := (save_response LookupEnv Stat MkdirTemp CreateTemp WriteErr CloseErr url_Parse url_String).
#[local] Notation digest_of := (extractSHA256 url_String ParseQuery).

(** The two packages filter the same addresses. *)
Lemma ssrf_Control_safe address :
  ssrf_Control ParseIP SplitHostPort IP_String address = None → internal (peer ParseIP SplitHostPort address) = false.
Proof.
  unfold ssrf_Control, peer. cbn [allowInternalHosts]. destruct (SplitHostPort address) as [host|]; [|done].
  destruct (ParseIP host) as [ip|] eqn:Hp; [|done]. cbn [default from_option id].
  change (isDisallowedIP (Some ip)) with (Webhook.isDisallowedIP (Some ip)).
  rewrite isDisallowedIP_blocks by eauto. by destruct (internal ip).
Qed.

(** At most one request is transmitted, to no internal address. *)
Definition asked (s s' : @state W) (P : IP → get_request → Prop) : Prop :=
  sent s' = sent s ∨ ∃ ip req, sent s' = sent s ++ [(ip, req)] ∧ internal ip = false ∧ P ip req.

Lemma do_asked req s :
  asked s (do_ req s).2 (λ _ q, q = req) ∧ files (do_ req s).2 = files s ∧
  ∀ resp, (do_ req s).1 = Ok resp → ∃ ip w, sent (do_ req s).2 = sent s ++ [(ip, req)] ∧ (exchange ip req w).1 = Ok resp.
Proof.
  unfold ssrf_Do. destruct (connect _ _) as [[address|e] w]; [|by split_and!; [left| |]].
  pose proof (ssrf_Control_safe address) as Hc. destruct (ssrf_Control _ _ _ address); [by split_and!; [left| |]|].
  destruct (exchange _ req w) as [[resp|e] w'] eqn:E; [|split_and!; [|done|done]; right; eauto 10].
  destruct (_ && _); (split_and!; [right; eauto 10|done|]); [done|].
  intros resp' [= <-]. cbn [fst snd sent]. eexists _, w. by rewrite E.
Qed.

(** What is left of the file system: on success one new file in the destination, with
    at most the permitted bytes. *)
Definition stored (destDir : string) (n : Z) (data : string) (s s' : @state W) (p : string) : Prop :=
  files s' = <[p := data]> (files s) ∧ files s !! p = None ∧ len data ≤ n ∧
  ∃ dir ext, resolveDestDir Stat MkdirTemp (mk_options destDir 0) (files s) = Ok dir ∧
             ext ∈ [".apk"; ".ipa"; ".bin"] ∧ temp_in dir ext p.

Lemma artifactExt_known name : artifactExt name ∈ [".apk"; ".ipa"; ".bin"].
Proof. unfold artifactExt. repeat case_match; set_solver. Qed.

Lemma save_stores destDir n want reqURL path resp s : capped n →
  sent (save destDir n want reqURL path resp s).2 = sent s ∧
  match save destDir n want reqURL path resp s with
  | (Err _, s') => files s' = files s
  | (Ok p, s') => ∃ data, stored destDir n data s s' p ∧ Body resp = mk_stream data None ∧ 200 ≤ StatusCode resp < 300 ∧
                    (want ≠ "" → EqualFold (sha256Hex data) want = true)
  end.
Proof.
  intros Hn. unfold save_response. destruct ((StatusCode resp <? 200) || _) eqn:Hst; [done|].
  destruct ((0 <? ContentLength resp) && _); [done|].
  destruct (resolveDestDir _ _ _ _) as [dir|e] eqn:Hd; [|done].
  pose proof (copy_exact LookupEnv CreateTemp WriteErr CloseErr CreateTemp_new dir (artifactExt path) (Body resp) n (files s) Hn) as Hc.
  destruct (copyCapped _ _ _ _ _ _ _ _ _) as [[p|e] f]; [|by subst].
  destruct Hc as (-> & Hnew & Hin & Hl & He). rewrite lookup_insert_eq. cbn [default from_option id].
  destruct (bool_decide (want ≠ "") && _) eqn:Hw; (split; [done|]).
  - cbn [files]. by rewrite delete_insert_id.
  - exists (s_data (Body resp)). split_and!; try lia.
    + split_and!; try done. by eexists dir, _; split_and!; [|apply artifactExt_known|].
    + destruct (Body resp); cbn in *. by subst.
    + intros Hwant. rewrite bool_decide_true in Hw by done. cbn [andb] in Hw. by apply negb_false_iff.
Qed.

Lemma https_outcome destDir n http ref s : capped n →
  asked s (fetch_https destDir n http ref s).2 (λ _ q, g_Method q = "GET") ∧
  match fetch_https destDir n http ref s with
  | (Err _, s') => files s' = files s
  | (Ok p, s') => ∃ u ip w resp data, url_Parse (TrimSpace ref) = Ok u ∧
      let req := mk_get "GET" (digest_of u).2 [("User-Agent", "MORF-Ingest/1.0")] in
      sent s' = sent s ++ [(ip, req)] ∧ (exchange ip req w).1 = Ok resp ∧ 200 ≤ StatusCode resp < 300 ∧
      Body resp = mk_stream data None ∧ stored destDir n data s s' p ∧
      ((digest_of u).1 ≠ "" → EqualFold (sha256Hex data) (digest_of u).1 = true)
  end.
Proof.
  intros Hn. unfold https_Fetch. destruct (url_Parse (TrimSpace ref)) as [u|e]; [|by split; [left|]].
  do 2 (case_match; [by split; [left|]|]). destruct (validateURL _ _ _ _ _ _ _) as [[e|] w]; [by split; [left|]|].
  destruct (digest_of u) as [want reqURL] eqn:Hdg. destruct (url_Parse reqURL); [|by split; [left|]].
  set (req := mk_get _ _ _). set (s0 := mk_state w _ _).
  destruct (do_asked req s0) as (Hq & Hf & Hr). destruct (do_ req s0) as [[resp|e] s1]; cbn [fst snd] in *.
  2: { split; [|done]. destruct Hq as [Hq|(ip & q & Hq & Hi & ->)]; [by left|right]. by exists ip, req. }
  destruct (Hr resp eq_refl) as (ip & w' & Hs1 & Hx).
  assert (Hi : internal ip = false).
  { destruct Hq as [Hq|(ip' & q & Hq & Hi & _)]; rewrite Hs1 in Hq.
    - apply (f_equal length) in Hq. rewrite length_app in Hq. cbn in Hq. lia.
    - by apply app_inj_2 in Hq as [_ [= -> _]]. }
  pose proof (save_stores destDir n want reqURL (u_Path u) resp s1 Hn) as [Hs2 Hsv].
  destruct (save _ _ _ _ _ _ _) as [[p|e] s2]; cbn [fst snd] in *.
  - split; [right; exists ip, req; rewrite Hs2; by split_and!|].
    destruct Hsv as (data & Hst & Hb & Hc & Hw). exists u, ip, w', resp, data. rewrite Hdg. cbn [fst snd].
    rewrite Hs2. split_and!; try done; try lia. unfold stored in *. by rewrite Hf in Hst.
  - split; [right; exists ip, req; rewrite Hs2; by split_and!|]. by rewrite Hsv, Hf.
Qed.

Lemma s3_outcome destDir n ref s : capped n →
  sent (fetch_s3 destDir n ref s).2 = sent s ∧
  match fetch_s3 destDir n ref s with
  | (Err _, s') => files s' = files s
  | (Ok p, s') => ∃ key bucket store cfg w data, parseS3Ref ref = Ok (key, bucket) ∧ newStore = Ok (store, cfg) ∧
      (store_Open store key w).1 = Ok (mk_stream data None) ∧ stored destDir n data s s' p ∧
      (bucket = "" ∨ cfg = "" ∨ EqualFold bucket cfg = true)
  end.
Proof.
  intros Hn. unfold s3_Fetch. destruct (parseS3Ref ref) as [[key bucket]|e]; [|done].
  destruct newStore as [[store cfg]|e]; [|done]. destruct (_ && _) eqn:Hb; [done|].
  destruct (store_Stat store key _) as [size w]. destruct (match size with Ok _ => _ | Err _ => _ end); [done|].
  cbn [net_ files sent]. destruct (store_Open store key w) as [[body|e] w'] eqn:Ho; [|done].
  cbn [net_ files sent]. destruct (resolveDestDir _ _ _ _) as [dir|e] eqn:Hd; [|done].
  pose proof (copy_exact LookupEnv CreateTemp WriteErr CloseErr CreateTemp_new dir (artifactExt key) body n (files s) Hn) as Hc.
  destruct (copyCapped _ _ _ _ _ _ _ _ _) as [[p|e] f]; (split; [done|]); [|done].
  destruct Hc as (-> & Hnew & Hin & Hl & He). exists key, bucket, store, cfg, w, (s_data body). split_and!; try done.
  - rewrite Ho. by destruct body; cbn in *; subst.
  - split_and!; try done. by eexists dir, _; split_and!; [|apply artifactExt_known|].
  - destruct (decide (bucket = "")); [by left|right]. destruct (decide (cfg = "")); [by left|right].
    rewrite !bool_decide_true in Hb by done. by apply negb_false_iff in Hb.
Qed.


#[local] Notation fetch := (Fetch LookupEnv Stat MkdirTemp CreateTemp WriteErr CloseErr url_Parse url_String Hostname
  ParseQuery ParseIP SplitHostPort IP_String url_Error LookupIPAddr connect exchange Store newStore store_Stat store_Open).


(** A download is genuine.  When an HTTPS fetch succeeds, the one request asked for
    the URL without its digest, a peer answered it with a success status and a complete
    body within the limit, the file holds exactly that body, and its digest is the one
    the reference asks for, if it asks for one. *)
Theorem https_download_genuine destDir n http ref s p s' :
  capped n → fetch_https destDir n http ref s = (Ok p, s') →
  ∃ u ip w resp data, url_Parse (TrimSpace ref) = Ok u ∧
    sent s' = sent s ++ [(ip, mk_get "GET" (digest_of u).2 [("User-Agent", "MORF-Ingest/1.0")])] ∧ internal ip = false ∧
    (exchange ip (mk_get "GET" (digest_of u).2 [("User-Agent", "MORF-Ingest/1.0")]) w).1 = Ok resp ∧
    200 ≤ StatusCode resp < 300 ∧ Body resp = mk_stream data None ∧ len data ≤ n ∧ files s' !! p = Some data ∧
    ((digest_of u).1 ≠ "" → EqualFold (sha256Hex data) (digest_of u).1 = true).
Proof.
  intros Hn Hf. destruct (https_outcome destDir n http ref s Hn) as [Ha Ho]. rewrite Hf in Ha, Ho. cbn [snd] in Ha.
  destruct Ho as (u & ip & w & resp & data & Hu & Hs & Hx & Hc & Hb & (Hst & _ & Hl & _) & Hd).
  exists u, ip, w, resp, data. split_and!; try done; try lia.
  - destruct Ha as [Ha|(ip' & q & Ha & Hi & _)]; rewrite Hs in Ha.
    + apply (f_equal length) in Ha. rewrite length_app in Ha. cbn in Ha. lia.
    + by apply app_inj_2 in Ha as [_ [= -> _]].
  - rewrite Hst. apply lookup_insert_eq.
Qed.
End fetching.

(** ** Instances *)

Definition toy_temp (d ext : string) (f : filesys) : res string :=
  let p := (if HasSuffix d "/" then d else d +:+ "/") +:+ "artifact-" +:+ "1" +:+ ext in
  match f !! p with None => Ok p | Some _ => Err (ENew "file exists") end.

Lemma toy_temp_new d ext f p : toy_temp d ext f = Ok p → f !! p = None ∧ temp_in d ext p.
Proof. unfold toy_temp. case_match eqn:E; [done|]. intros [= <-]. split; [done|]. by exists "1". Qed.

Definition toy_parse (fragment s : string) : res url := Ok (mk_url "https" None "cdn.example" "/app.apk" "" fragment).
Definition toy_exchange (_ : IP) (_ : get_request) (w : unit) : res http_response * unit :=
  (Ok (mk_http 200 8 (mk_stream "PK-bytes" None) false), w).

#[local] Notation no_env := (λ _ : string, None).
#[local] Notation toy_fetch fragment address := (https_Fetch no_env (λ _ _, Ok true) (λ _, Ok "/tmp/x") toy_temp (λ _, None)
  (λ _, None) (toy_parse fragment) (λ u, "https://" +:+ u_Host u +:+ u_Path u) u_Host (λ _, ∅) parse_ip strip_port (λ _, "ip")
  (λ u e, "Get " +:+ u +:+ ": " +:+ Error e) (λ _ w, (Ok [public_ip], w)) (λ _ w, (Ok address, w)) toy_exchange).
#[local] Notation start := (mk_state tt ∅ []).

#[local] Existing Instance toy_digests.

Lemma https_download_genuine_witness :
  ∃ s', toy_fetch "sha256=8" "203.0.113.9:443" "/in" 100 false "https://cdn.example/app.apk#sha256=8" start =
          (Ok "/in/artifact-1.apk", s') ∧
        files s' !! "/in/artifact-1.apk" = Some "PK-bytes".
Proof.
  eexists. assert (E : toy_fetch "sha256=8" "203.0.113.9:443" "/in" 100 false "https://cdn.example/app.apk#sha256=8" start =
    (Ok "/in/artifact-1.apk", mk_state tt {["/in/artifact-1.apk" := "PK-bytes"]}
       [(public_ip, mk_get "GET" "https://cdn.example/app.apk" [("User-Agent", "MORF-Ingest/1.0")])])) by by vm_compute.
  split; [exact E|].
  destruct (https_download_genuine no_env (λ _ _, Ok true) (λ _, Ok "/tmp/x") toy_temp (λ _, None)
    (λ _, None) (toy_parse "sha256=8") (λ u, "https://" +:+ u_Host u +:+ u_Path u) u_Host (λ _, ∅) parse_ip strip_port (λ _, "ip")
    (λ u e, "Get " +:+ u +:+ ": " +:+ Error e) (λ _ w, (Ok [public_ip], w)) (λ _ w, (Ok "203.0.113.9:443", w)) toy_exchange
    toy_temp_new parse_ip_ok "/in" 100 false "https://cdn.example/app.apk#sha256=8" start _ _
    ltac:(unfold capped, int64_max; lia) E)
    as (u & ip & w & resp & data & _ & _ & _ & Hx & _ & Hb & _ & Hf & _).
  rewrite Hf. unfold toy_exchange in Hx. injection Hx as <-. by injection Hb as <-.
Defined.

#[local] Notation toy_Fetch reg address ref := (Fetch no_env (λ _ _, Ok true) (λ _, Ok "/tmp/x") toy_temp (λ _, None)
  (λ _, None) (toy_parse "") (λ u, "https://" +:+ u_Host u +:+ u_Path u) u_Host (λ _, ∅) parse_ip strip_port (λ _, "ip")
  (λ u e, "Get " +:+ u +:+ ": " +:+ Error e) (λ _ w, (Ok [public_ip], w)) (λ _ w, (Ok address, w)) toy_exchange
  unit (Err (ENew "no store")) (λ _ _ w, (Err (ENew "none"), w)) (λ _ _ w, (Err (ENew "none"), w))
  reg ref (mk_options "/in" 100) start).


(** ** Behaviours worth knowing *)

(** With the largest limit the variable can name, the limit plus one wraps around:
    nothing is read, and an empty file is reported as the artifact. *)
Theorem largest_limit_stores_nothing LookupEnv CreateTemp WriteErr CloseErr dir ext src f p :
  CreateTemp dir ext f = Ok p → WriteErr p = None → CloseErr p = None →
  copyCapped LookupEnv CreateTemp WriteErr CloseErr dir ext src int64_max f = (Ok p, <[p := ""]> f).
Proof.
  intros Ht Hw Hc. unfold copyCapped. change (int64_max <=? 0) with false. rewrite Ht.
  change (wrap64 (int64_max + 1)) with int64_min. cbn [copy_limited]. by rewrite Hw, Hc.
Qed.

(** The first segment of a reference is always read as a bucket, also in the form the
    comment gives for a bare key. *)
Example bare_key_read_as_bucket : parseS3Ref "s3://path/to/app.apk" = Ok ("to/app.apk", "path").
Proof. by vm_compute. Qed.

(** Schemes are matched without regard to case, but only the lower-case prefix of a
    local reference is removed. *)
Example upper_case_file_scheme : SchemeOf "FILE:///tmp/a.apk" = fileScheme ∧ file_path "FILE:///tmp/a.apk" = "FILE:///tmp/a.apk".
Proof. by vm_compute. Qed.

(** An empty digest is no digest: the download is not verified. *)
Example empty_digest_not_checked :
  (toy_fetch "sha256=" "203.0.113.9:443" "/in" 100 false "https://cdn.example/app.apk#sha256=" start).1 = Ok "/in/artifact-1.apk".
Proof. by vm_compute. Qed.

(** A pre-signed URL keeps its signature when it is masked for an error message. *)
Example masked_url_keeps_query :
  MaskURLForLogging (λ _, Ok (mk_url "https" None "h" "/k" "X-Amz-Signature=5f0e" "")) (λ u, u_Path u +:+ "?" +:+ u_RawQuery u)
    "https://h/k?X-Amz-Signature=5f0e" = "/k?X-Amz-Signature=5f0e".
Proof. done. Qed.
