(* ===== verification/Apk.v ===== *)
(** * Android artifacts ([apk/artifacts.go], [apk/firebase_misconfig.go],
    [ios/firebase_misconfig.go])

    The native libraries, runtimes and Firebase configuration found in the decompiled
    tree, as components of the bill of materials, and the findings on the Firebase
    resources of both platforms with their opt-in probe.  The tree, the decoders of
    JSON and of property lists and the HTTP exchange are parameters. *)
From Stdlib Require Import Ascii ZArith.
From S2P Require Import Prelude GoStr GoErr GoFloat GoUrl GoPath Sigv4 Sbom S3 Report Manifest Artifact Plist Ipa.

Local Open Scope Z_scope.

#[local] Notation Join := GoPath.Join.
#[local] Notation comp_Name := Sbom.Name.

(** ** The binary pass *)

Definition androidBinaryRoots (jobCtx : JobContext) : list string := [GetSourceDir jobCtx].
Definition androidBinaryExcludes : list string :=
  ["-g"; "!**/smali*/**"; "-g"; "!**/res/**"; "-g"; "!**/original/**"].

(** ** Native libraries *)

Definition maxNativeLibHashBytes : Z := 64 * 1024 * 1024.

Record nativeLib := mk_native { nl_Name : string; ABIs : list string; SHA256 : string; ABIsDiffer : bool }.

(** [append] at the entry of a name. *)
Definition add_abi (m : gmap string (list string)) (na : string * string) : gmap string (list string) :=
  <[na.1 := default [] (m !! na.1) ++ [na.2]]> m.
Definition group (l : list (string * string)) : gmap string (list string) := foldl add_abi ∅ l.

Section tree.
Context `{Digests} (d : disk).

Definition hashFileSHA256 (path : string) : res string :=
  match ReadFile d path with
  | Err e => Err e
  | Ok data => Ok (sha256Hex (limited maxNativeLibHashBytes data))
  end.

Definition libRoot (jobCtx : JobContext) : string := Join (GetSourceDir jobCtx) "lib".

(** The names of the libraries of an ABI directory. *)
Definition so_of (root abi : string) : list string :=
  de_Name <$> filter (λ e, negb (de_IsDir e) && HasSuffix (de_Name e) ".so" = true) (default [] (ReadDir d (Join root abi))).

(** Every library with its ABI, in the order of the walk. *)
Definition walk_libs (root : string) (abiEntries : list dirent) : list (string * string) :=
  flat_map (λ e, if de_IsDir e then (λ n, (n, de_Name e)) <$> so_of root (de_Name e) else []) abiEntries.

Definition native_lib (root name : string) (abis : list string) : nativeLib :=
  let abis := sort_strings abis in
  let digests := omap (λ abi, match hashFileSHA256 (Join (Join root abi) name) with Ok h => Some h | Err _ => None end) abis in
  let repDigest := foldl (λ rep h, if decide (rep = "") then h else rep) "" digests in
  mk_native name abis repDigest (existsb (λ h, bool_decide (h ≠ repDigest)) digests).

Definition lib_component (lib : nativeLib) : SBOMComponent := NewNativeLibComponent (nl_Name lib) (ABIs lib) (SHA256 lib).

Definition EnumerateNativeLibs (jobCtx : JobContext) : list SBOMComponent :=
  let root := libRoot jobCtx in
  match ReadDir d root with
  | None => []
  | Some abiEntries =>
      let byName := group (walk_libs root abiEntries) in
      (λ name, lib_component (native_lib root name (default [] (byName !! name)))) <$> sorted_keys byName
  end.

Definition nativeLibNames (jobCtx : JobContext) : gmap string (list string) :=
  match ReadDir d (libRoot jobCtx) with
  | None => ∅
  | Some abiEntries => sort_strings <$> group (walk_libs (libRoot jobCtx) abiEntries)
  end.
End tree.

(** ** Runtimes *)

Definition lib_path (abi name : string) : string := Join "lib" (abi +:+ "/" +:+ name).

Definition occurrencesFor (libNames : gmap string (list string)) (name : string) : list string :=
  (λ abi, lib_path abi name) <$> default [] (libNames !! name).

(** [order] is the order in which Go ranges over the map. *)
Definition classifyRuntime (order : gmap string (list string) → list (string * list string))
    (libNames : gmap string (list string)) (hasRNBundle : bool) : list SBOMComponent :=
  let flutter := flat_map (occurrencesFor libNames) ["libflutter.so"; "libapp.so"] in
  let rn := flat_map (occurrencesFor libNames) ["libhermes.so"; "libjscexecutor.so"; "libreactnativejni.so"]
            ++ (if hasRNBundle then [Join "assets" "index.android.bundle"] else []) in
  let xamarin := flat_map (λ '(name, abis), if bool_decide (name = "libmonodroid.so") || HasPrefix name "libmonosgen"
                                            then (λ abi, lib_path abi name) <$> abis else []) (order libNames) in
  (if decide (flutter = []) then [] else [NewRuntimeComponent "Flutter" flutter]) ++
  (if decide (rn = []) then [] else [NewRuntimeComponent "React Native" rn]) ++
  (if decide (xamarin = []) then [] else [NewRuntimeComponent "Xamarin/.NET" (sort_strings xamarin)]).

(** [IsFile]: the path names something that is not a directory. *)
Definition hasReactNativeBundle (IsFile : string → bool) (jobCtx : JobContext) : bool :=
  IsFile (Join (GetSourceDir jobCtx) "assets/index.android.bundle").

(** ** Firebase *)

Record service := mk_service { sv_Status : Z; AnalyticsEnabled : bool }.
(** The project, and the services of each client. *)
Record googleServicesConfig := mk_google { gs_ProjectID : string; gs_ProjectNumber : string; Client : list (gmap string service) }.

Definition googleServicesSearchPaths (jobCtx : JobContext) : list string :=
  let src := GetSourceDir jobCtx in
  [Join src "unknown/google-services.json"; Join src "res/raw/google-services.json"; Join src "google-services.json"].

Definition TrimSuffix (s suffix : string) : string :=
  if HasSuffix s suffix then take_str (String.length s - String.length suffix) s else s.

Definition enabled (svc : service) : bool := (2 <=? sv_Status svc) || AnalyticsEnabled svc.

Definition detectFirebaseSDKs (cfg : googleServicesConfig) : list string :=
  let names := flat_map (λ services, (λ kv, TrimSuffix kv.1 "_service") <$> filter (λ kv, enabled kv.2 = true) (map_to_list services))
                 (Client cfg) in
  sort_strings (elements (list_to_set names : gset string)).

Section firebase.
Context (d : disk) (Unmarshal : string → res googleServicesConfig).

(** The first file of the search path that can be read, parses and names a project. *)
Fixpoint first_config (paths : list string) : option (string * string * googleServicesConfig) :=
  match paths with
  | [] => None
  | path :: paths =>
      match ReadFile d path with
      | Err _ => first_config paths
      | Ok data =>
          match Unmarshal data with
          | Err _ => first_config paths
          | Ok cfg => if decide (gs_ProjectID cfg = "") then first_config paths else Some (path, data, cfg)
          end
      end
  end.

Definition detectFirebase (jobCtx : JobContext) : option SBOMComponent :=
  match first_config (googleServicesSearchPaths jobCtx) with
  | None => None
  | Some (path, _, cfg) =>
      let rel := match Rel (GetSourceDir jobCtx) path with Ok r => r | Err _ => path end in
      Some (NewFirebaseComponent (gs_ProjectID cfg) (detectFirebaseSDKs cfg) FirebaseSourceAndroid rel)
  end.

Definition CollectSBOMComponents `{Digests} (order : gmap string (list string) → list (string * list string))
    (IsFile : string → bool) (jobCtx : JobContext) : list SBOMComponent :=
  EnumerateNativeLibs d jobCtx ++
  classifyRuntime order (nativeLibNames d jobCtx) (hasReactNativeBundle IsFile jobCtx) ++
  option_list (detectFirebase jobCtx).
End firebase.

(** ** Findings on Firebase resources *)

Definition masvsIDStorage1 : string := "MASVS-STORAGE-1".
Definition ruleFirebaseRTDBPresent : string := "firebase-rtdb-present".
Definition ruleFirebaseStoragePresent : string := "firebase-storage-present".
Definition ruleFirebaseRTDBWorldReadable : string := "firebase-rtdb-world-readable".
Definition categoryConfig : string := "config".
Definition locationGoogleServices : string := "google-services.json".
Definition locationGoogleServiceInfoPlist : string := "GoogleService-Info.plist".
Definition firebaseEnvVerificationEnabled : string := "MORF_ENABLE_VERIFICATION".
Definition rtdbUserAgent : string := "MORF-firebase-probe".

Record FirebaseResourceConfig := mk_resource { RTDBURL : string; StorageBucket : string }.

(** [top]: the database URL and the bucket a best-effort decoding of the raw file
    leaves. *)
Definition AndroidFirebaseResourceConfig (top : string → string * string) (rawJSON : string)
    (cfg : option googleServicesConfig) : FirebaseResourceConfig :=
  match cfg with
  | None => mk_resource "" ""
  | Some cfg =>
      let '(databaseURL, bucket) := top rawJSON in
      let dbURL := if bool_decide (databaseURL = "") && bool_decide (gs_ProjectID cfg ≠ "")
                   then "https://" +:+ gs_ProjectID cfg +:+ "-default-rtdb.firebaseio.com" else databaseURL in
      mk_resource dbURL bucket
  end.

Definition isFirebaseRTDB (rawURL : string) : bool :=
  let lower := ToLower rawURL in Contains lower "firebaseio.com" || Contains lower "firebasedatabase.app".

Section probe.
(** [url.Parse]: the scheme and the host; [http.NewRequest]'s check of a URL; the
    environment; the limiter; the exchange of a GET with a user agent, by a client that
    follows no redirect. *)
Context (url_Parse : string → res (string * string)) (Getenv : string → string) {W : Type}
  (Wait : W → option error) (exchange : string → string → W → res Z * W).

(** The world and the URLs requested so far. *)
Definition rt : Type := W * list string.

Definition rtdbHostFromURL (rawURL : string) : string :=
  if decide (rawURL = "") then ""
  else match url_Parse rawURL with
       | Err _ => rawURL
       | Ok (scheme, host) => if decide (host = "") then rawURL else scheme +:+ "://" +:+ host
       end.

Definition probeRTDBWorldReadable (dbURL : string) (s : rt) : res bool * rt :=
  match Wait s.1 with
  | Some e => (Err (EWrap ("rate limiter: " +:+ Error e) [e]), s)
  | None =>
      let probeURL := trim_slashes dbURL +:+ "/.json" in
      match url_Parse probeURL with
      | Err e => (Err (EWrap ("build probe request: " +:+ Error e) [e]), s)
      | Ok _ =>
          let '(r, w) := exchange rtdbUserAgent probeURL s.1 in
          let s := (w, s.2 ++ [probeURL]) in
          match r with
          | Err e => (Err (EWrap ("probe request: " +:+ Error e) [e]), s)
          | Ok status => if status =? 200 then (Ok true, s)
                         else if (status =? 401) || (status =? 403) then (Ok false, s)
                         else (Err (ENew ("unexpected HTTP " +:+ itoa status +:+ " from RTDB probe")), s)
          end
      end
  end.

Definition rtdb_present (host configLocation : string) : PlatformFinding :=
  mk_platform ruleFirebaseRTDBPresent "Firebase Realtime Database URL present in config" SeverityInfo masvsIDPlatform1
    categoryConfig configLocation (host +:+ " — verify security rules are not world-readable") (TierForSeverity SeverityInfo).
Definition rtdb_world_readable (host configLocation : string) : PlatformFinding :=
  mk_platform ruleFirebaseRTDBWorldReadable "Firebase Realtime Database is world-readable" SeverityHigh masvsIDPlatform1
    categoryConfig configLocation (host +:+ " — returned HTTP 200 (no authentication required)") (TierForSeverity SeverityHigh).
Definition storage_present (bucket configLocation : string) : PlatformFinding :=
  mk_platform ruleFirebaseStoragePresent "Firebase Cloud Storage bucket present in config" SeverityInfo masvsIDStorage1
    categoryConfig configLocation (bucket +:+ " — verify bucket security rules are not world-readable") (TierForSeverity SeverityInfo).

Definition FirebaseMisconfigFindings (c : FirebaseResourceConfig) (configLocation : string) (s : rt)
    : list PlatformFinding * rt :=
  let '(findings, s) :=
    if bool_decide (RTDBURL c ≠ "") && isFirebaseRTDB (RTDBURL c) then
      let host := rtdbHostFromURL (RTDBURL c) in
      let findings := [rtdb_present host configLocation] in
      if decide (Getenv firebaseEnvVerificationEnabled = "true") then
        let '(r, s) := probeRTDBWorldReadable (RTDBURL c) s in
        match r with
        | Ok true => (findings ++ [rtdb_world_readable host configLocation], s)
        | _ => (findings, s)
        end
      else (findings, s)
    else ([], s) in
  (findings ++ (if decide (StorageBucket c = "") then [] else [storage_present (StorageBucket c) configLocation]), s).

Definition AnalyzeAndroidFirebaseMisconfig (top : string → string * string) (rawJSON : string)
    (cfg : option googleServicesConfig) (s : rt) : list PlatformFinding * rt :=
  match cfg with
  | None => ([], s)
  | Some c => if decide (gs_ProjectID c = "") then ([], s)
              else FirebaseMisconfigFindings (AndroidFirebaseResourceConfig top rawJSON cfg) locationGoogleServices s
  end.

Definition relocate (rel : string) (f : PlatformFinding) : PlatformFinding :=
  mk_platform (RuleID f) (Title f) (Severity f) (pf_MASVSID f) (Category f) rel (Evidence f) (pf_Tier f).

Definition CollectFirebaseMisconfigFindings (top : string → string * string) (d : disk)
    (Unmarshal : string → res googleServicesConfig) (jobCtx : JobContext) (s : rt) : list PlatformFinding * rt :=
  match first_config d Unmarshal (googleServicesSearchPaths jobCtx) with
  | None => ([], s)
  | Some (path, rawJSON, cfg) =>
      let '(findings, s) := AnalyzeAndroidFirebaseMisconfig top rawJSON (Some cfg) s in
      match Rel (GetSourceDir jobCtx) path with
      | Ok rel => if decide (rel = "") then (findings, s) else (relocate rel <$> findings, s)
      | Err _ => (findings, s)
      end
  end.

(** ** The iOS side *)

Section ios.
Context (FormatFloat : spec_float → string) (PlistUnmarshal : string → res (list (string * plist))) (d : disk).

Definition IOSFirebaseResourceConfig (data : string) : FirebaseResourceConfig :=
  if decide (data = "") then mk_resource "" ""
  else match PlistUnmarshal data with
       | Err _ => mk_resource "" ""
       | Ok raw => let flat := flattenPlistMap FormatFloat "" raw ∅ in
                   mk_resource (default "" (flat !! "DATABASE_URL")) (default "" (flat !! "STORAGE_BUCKET"))
       end.

Definition AnalyzeIOSFirebaseMisconfig (data : string) (cfg : option FirebaseConfig) (s : rt) : list PlatformFinding * rt :=
  match cfg with
  | None => ([], s)
  | Some cfg =>
      if decide (ProjectID cfg = "") then ([], s)
      else let c := IOSFirebaseResourceConfig data in
           if decide (RTDBURL c = "" ∧ StorageBucket c = "") then ([], s)
           else FirebaseMisconfigFindings c locationGoogleServiceInfoPlist s
  end.

Definition CollectIOSFirebaseMisconfigFindings (appBundlePath : string) (s : rt) : list PlatformFinding * rt :=
  if decide (appBundlePath = "") then ([], s)
  else match ReadFile d (Join appBundlePath GoogleServiceInfoName) with
       | Err _ => ([], s)
       | Ok data => match ParseGoogleServiceInfoPlist FormatFloat PlistUnmarshal data with
                    | Err _ => ([], s)
                    | Ok fc => AnalyzeIOSFirebaseMisconfig data (Some fc) s
                    end
       end.

Definition CollectIOSFirebaseMisconfigFindingsFromIPA (jobCtx : option JobContext) (s : rt) : list PlatformFinding * rt :=
  match jobCtx with
  | None => ([], s)
  | Some jobCtx =>
      if decide (GetIOSDir jobCtx = "") then ([], s)
      else match locateAppBundle d (GetIOSDir jobCtx) with
           | Err _ => ([], s)
           | Ok appBundle => CollectIOSFirebaseMisconfigFindings appBundle s
           end
  end.
End ios.
End probe.

(** ** Sorting *)

Lemma sort_strings_perm l k : l ≡ₚ k → sort_strings l = sort_strings k.
Proof.
  intros Hp. unfold sort_strings.
  refine (StronglySorted_unique String.le _ _ (StronglySorted_merge_sort _ _) (StronglySorted_merge_sort _ _) _).
  etrans; [apply merge_sort_Permutation|]. etrans; [exact Hp|]. symmetry. apply merge_sort_Permutation.
Qed.

Lemma elem_of_sort_strings s l : s ∈ sort_strings l ↔ s ∈ l.
Proof. unfold sort_strings. by rewrite merge_sort_Permutation. Qed.

(** ** The grouping *)

Lemma group_spec l n : ∀ m,
  default [] (foldl add_abi m l !! n) = default [] (m !! n) ++ (filter (λ na, na.1 = n) l).*2 ∧
  (is_Some (foldl add_abi m l !! n) ↔ is_Some (m !! n) ∨ n ∈ l.*1).
Proof.
  induction l as [|[x abi] l IH]; intros m; cbn [foldl].
  { split; [by rewrite app_nil_r|]. cbn. rewrite elem_of_nil. tauto. }
  destruct (IH (add_abi m (x, abi))) as [IH1 IH2]. rewrite IH1, IH2. unfold add_abi. cbn [fst snd fmap list_fmap].
  rewrite elem_of_cons. destruct (decide (x = n)) as [->|Hne].
  - rewrite lookup_insert_eq, filter_cons_True by done. cbn. split; [by rewrite <- app_assoc|]. naive_solver.
  - rewrite lookup_insert_ne, filter_cons_False by done. split; [done|]. naive_solver.
Qed.

Lemma group_abis l n : default [] (group l !! n) = (filter (λ na, na.1 = n) l).*2.
Proof. unfold group. by rewrite (proj1 (group_spec l n ∅)), lookup_empty. Qed.
Lemma group_names l n : is_Some (group l !! n) ↔ n ∈ l.*1.
Proof. unfold group. rewrite (proj2 (group_spec l n ∅)), lookup_empty, is_Some_alt. tauto. Qed.

Lemma elem_of_group l n abi : abi ∈ default [] (group l !! n) ↔ (n, abi) ∈ l.
Proof.
  rewrite group_abis, list_elem_of_fmap. split.
  - intros ([n' abi'] & -> & [Hn Hin]%list_elem_of_filter). cbn in Hn. by subst.
  - intros Hin. exists (n, abi). by rewrite list_elem_of_filter.
Qed.

Section libs.
Context `{Digests} (d : disk).

(** A library of a name ships for an ABI: it is a file of that directory of [lib/]. *)
Definition ships (root : string) (es : list dirent) (name abi : string) : Prop :=
  (∃ e, e ∈ es ∧ de_IsDir e = true ∧ de_Name e = abi) ∧ name ∈ so_of d root abi.

Lemma walk_ships root es name abi : (name, abi) ∈ walk_libs d root es ↔ ships root es name abi.
Proof.
  unfold walk_libs, ships. rewrite list_elem_of_In, in_flat_map. split.
  - intros (e & He & Hin). destruct (de_IsDir e) eqn:Hd; [|done].
    apply list_elem_of_In, list_elem_of_fmap in Hin as (n & [= -> ->] & Hn). split; [|done].
    exists e. by rewrite list_elem_of_In.
  - intros [(e & He & Hd & <-) Hn]. exists e. rewrite Hd, <- !list_elem_of_In. split; [done|].
    apply list_elem_of_fmap. by exists name.
Qed.

Lemma rep_digest l r : foldl (λ rep h, if decide (rep = "") then h else rep) r l =
  if decide (r = "") then default "" (head (filter (λ h, h ≠ "") l)) else r.
Proof.
  revert r. induction l as [|h l IH]; intros r; cbn [foldl].
  { destruct (decide (r = "")) as [->|]; done. }
  rewrite IH. destruct (decide (r = "")) as [->|Hr].
  - rewrite filter_cons. destruct (decide (h = "")) as [->|Hh]; [rewrite decide_False by tauto|rewrite decide_True by done]; done.
  - by rewrite decide_False.
Qed.

(** The inventory of native libraries is exact and reproducible.  The components
    have strictly ascending names, one for each library file name under [lib/]; each
    one occurs at exactly the ABIs that ship it, in ascending order, and carries the
    digest of the first of these files that can be hashed, or none if none can. *)
Theorem native_libs_exact jobCtx es :
  ReadDir d (libRoot jobCtx) = Some es →
  let root := libRoot jobCtx in
  let out := EnumerateNativeLibs d jobCtx in
  StronglySorted String.le (comp_Name <$> out) ∧ NoDup (comp_Name <$> out) ∧
  (∀ n, n ∈ comp_Name <$> out ↔ ∃ abi, ships root es n abi) ∧
  ∀ c, c ∈ out → ∃ abis sha, c = NewNativeLibComponent (comp_Name c) abis sha ∧
    StronglySorted String.le abis ∧ (∀ abi, abi ∈ abis ↔ ships root es (comp_Name c) abi) ∧
    sha = default "" (head (filter (λ h, h ≠ "")
            (omap (λ abi, match hashFileSHA256 d (Join (Join root abi) (comp_Name c)) with Ok h => Some h | Err _ => None end) abis))).
Proof.
  intros Hr. cbv zeta. unfold EnumerateNativeLibs. rewrite Hr.
  set (byName := group (walk_libs d (libRoot jobCtx) es)).
  set (f := λ name, lib_component (native_lib d (libRoot jobCtx) name (default [] (byName !! name)))).
  assert (Hname : comp_Name <$> (f <$> sorted_keys byName) = sorted_keys byName).
  { rewrite <- list_fmap_compose. rewrite <- (list_fmap_id (sorted_keys byName)) at 2. by apply list_fmap_ext. }
  rewrite Hname. split_and!.
  - apply (StronglySorted_merge_sort String.le).
  - unfold sorted_keys, sort_strings. rewrite merge_sort_Permutation. apply NoDup_fst_map_to_list.
  - intros n. rewrite elem_of_sorted_keys. unfold byName. rewrite group_names, list_elem_of_fmap. split.
    + intros ([n' abi] & -> & Hin). exists abi. by apply walk_ships.
    + intros [abi Hs]. exists (n, abi). by rewrite walk_ships.
  - intros c (name & -> & _)%list_elem_of_fmap.
    exists (sort_strings (default [] (byName !! name))), (SHA256 (native_lib d (libRoot jobCtx) name (default [] (byName !! name)))).
    change (comp_Name (f name)) with name. split_and!; [reflexivity|apply (StronglySorted_merge_sort String.le)| |].
    + intros abi. rewrite elem_of_sort_strings. unfold byName. by rewrite elem_of_group, walk_ships.
    + unfold native_lib. cbn [SHA256]. rewrite rep_digest. by rewrite decide_True.
Qed.
End libs.

#[local] Instance no_digests : Digests := toy_digests.
#[local] Notation apk_disk := (mk_disk
  (λ p, if decide (p = "/w/output/apk/source/lib") then Some [mk_dirent "arm64-v8a" true; mk_dirent "x86" true; mk_dirent "notes" false]
        else if decide (p = "/w/output/apk/source/lib/arm64-v8a") then Some [mk_dirent "liba.so" false; mk_dirent "libb.so" false]
        else if decide (p = "/w/output/apk/source/lib/x86") then Some [mk_dirent "liba.so" false; mk_dirent "readme" false] else None)
  (λ _, []) (λ _, true)
  (λ p, if decide (p = "/w/output/apk/source/lib/arm64-v8a/liba.so") then Err (ENew "unreadable") else Ok p)).

Lemma native_libs_exact_witness :
  comp_Name <$> EnumerateNativeLibs apk_disk (mk_ctx "j" "/w") = ["liba.so"; "libb.so"] ∧
  Occurrences <$> EnumerateNativeLibs apk_disk (mk_ctx "j" "/w") = [["lib/arm64-v8a/liba.so"; "lib/x86/liba.so"]; ["lib/arm64-v8a/libb.so"]] ∧
  NoDup (comp_Name <$> EnumerateNativeLibs apk_disk (mk_ctx "j" "/w")).
Proof.
  split; [by vm_compute|]. split; [by vm_compute|].
  exact (proj1 (proj2 (native_libs_exact apk_disk (mk_ctx "j" "/w")
    [mk_dirent "arm64-v8a" true; mk_dirent "x86" true; mk_dirent "notes" false] eq_refl))).
Defined.

(** ** Runtimes *)

Definition signature_of (runtime n : string) : Prop :=
  (runtime = "Flutter" ∧ n ∈ ["libflutter.so"; "libapp.so"]) ∨
  (runtime = "React Native" ∧ n ∈ ["libhermes.so"; "libjscexecutor.so"; "libreactnativejni.so"]) ∨
  (runtime = "Xamarin/.NET" ∧ (n = "libmonodroid.so" ∨ HasPrefix n "libmonosgen" = true)).

Lemma flat_map_some {X Y} (f : X → list Y) l : flat_map f l ≠ [] ↔ ∃ x, x ∈ l ∧ f x ≠ [].
Proof.
  induction l as [|x l IH]; cbn [flat_map]; [split; [done|by intros (x & ?%elem_of_nil & _)]|].
  split.
  - intros Hn. destruct (f x) as [|y k] eqn:E; [|exists x; rewrite E; split; [by left|done]].
    apply IH in Hn as (z & Hz & Hf). exists z. split; [by right|done].
  - intros (z & [->|Hz]%elem_of_cons & Hf) [E1 E2]%app_nil; [done|]. apply (proj2 IH); eauto.
Qed.

Lemma occurrences_some libNames l : (∀ n abis, libNames !! n = Some abis → abis ≠ []) →
  flat_map (occurrencesFor libNames) l ≠ [] ↔ ∃ n, n ∈ l ∧ is_Some (libNames !! n).
Proof.
  intros Hne. rewrite flat_map_some. unfold occurrencesFor.
  split; intros (n & Hn & Hx); exists n; (split; [done|]); destruct (libNames !! n) as [abis|] eqn:E; cbn in *; try done.
  intros E'%fmap_nil_inv. by destruct (Hne n abis).
Qed.

Lemma runtime_name n l : comp_Name <$> (if decide (l = []) then [] else [NewRuntimeComponent n l]) = if decide (l = []) then [] else [n].
Proof. by case_decide. Qed.

Definition xamarin_paths (l : list (string * list string)) : list string :=
  flat_map (λ '(name, abis), if bool_decide (name = "libmonodroid.so") || HasPrefix name "libmonosgen"
                             then (λ abi, lib_path abi name) <$> abis else []) l.

Lemma runtime_xamarin order libNames r :
  (∀ m, order m ≡ₚ map_to_list m) → (∀ n abis, libNames !! n = Some abis → abis ≠ []) →
  r ∈ comp_Name <$> (if decide (xamarin_paths (order libNames) = []) then []
                     else [NewRuntimeComponent "Xamarin/.NET" (sort_strings (xamarin_paths (order libNames)))]) ↔
  r = "Xamarin/.NET" ∧ ∃ n, (n = "libmonodroid.so" ∨ HasPrefix n "libmonosgen" = true) ∧ is_Some (libNames !! n).
Proof.
  intros Ho Hne.
  assert (Hx : xamarin_paths (order libNames) ≠ [] ↔
    ∃ n, (n = "libmonodroid.so" ∨ HasPrefix n "libmonosgen" = true) ∧ is_Some (libNames !! n)).
  { unfold xamarin_paths. rewrite flat_map_some. split.
    - intros ([n abis] & Hin & Hf). rewrite Ho, elem_of_map_to_list in Hin. exists n.
      destruct (_ || _) eqn:E; [|done]. split; [|by exists abis].
      apply orb_true_iff in E as [E|E]; [left; by apply bool_decide_eq_true in E|by right].
    - intros (n & Hn & [abis Hl]). exists (n, abis). rewrite Ho, elem_of_map_to_list. split; [done|].
      replace (bool_decide (n = "libmonodroid.so") || HasPrefix n "libmonosgen") with true.
      + intros E%fmap_nil_inv. by destruct (Hne n abis).
      + symmetry. apply orb_true_iff. rewrite bool_decide_eq_true. done. }
  case_decide as E; [|cbn; rewrite list_elem_of_singleton; tauto]. cbn. rewrite elem_of_nil. tauto.
Qed.

(** A runtime is reported exactly when one of its signatures ships, whatever order
    Go ranges over the map in.  The components do not depend on the iteration order,
    and Flutter, React Native and Xamarin are named exactly when a library of theirs
    is present (or, for React Native, the packaged bundle). *)
Theorem runtimes_exact order libNames hasRN :
  (∀ m, order m ≡ₚ map_to_list m) → (∀ n abis, libNames !! n = Some abis → abis ≠ []) →
  classifyRuntime order libNames hasRN = classifyRuntime map_to_list libNames hasRN ∧
  ∀ r, r ∈ comp_Name <$> classifyRuntime order libNames hasRN ↔
       (∃ n, signature_of r n ∧ is_Some (libNames !! n)) ∨ (r = "React Native" ∧ hasRN = true).
Proof.
  intros Ho Hne. split.
  { unfold classifyRuntime. set (f := λ '(name, abis), if bool_decide (name = "libmonodroid.so") || _ then _ else _).
    assert (Hp : flat_map f (order libNames) ≡ₚ flat_map f (map_to_list libNames)) by by rewrite Ho.
    rewrite (sort_strings_perm _ _ Hp). do 2 f_equal. destruct (decide (flat_map f (order libNames) = [])) as [E|E].
    - rewrite E in Hp. apply Permutation_nil_l in Hp. by rewrite decide_True.
    - rewrite decide_False; [done|]. intros E'. rewrite E' in Hp. by apply Permutation_nil_r in Hp. }
  intros r. unfold classifyRuntime. rewrite !fmap_app, !elem_of_app.
  assert (Hs : ∀ name l (P : Prop), (l ≠ [] ↔ P) → r ∈ comp_Name <$> (if decide (l = []) then [] else [NewRuntimeComponent name l]) ↔ r = name ∧ P).
  { intros name l P HP. rewrite runtime_name. case_decide; [rewrite elem_of_nil; tauto|]. rewrite list_elem_of_singleton. tauto. }
  rewrite (Hs "Flutter" _ (∃ n, n ∈ ["libflutter.so"; "libapp.so"] ∧ is_Some (libNames !! n))) by by apply occurrences_some.
  rewrite (Hs "React Native" _ ((∃ n, n ∈ ["libhermes.so"; "libjscexecutor.so"; "libreactnativejni.so"] ∧ is_Some (libNames !! n))
             ∨ hasRN = true)).
  2: { rewrite <- occurrences_some by done. destruct hasRN; [split; [by right|]; intros _ [? ?]%app_nil; done|].
       rewrite app_nil_r. naive_solver. }
  fold (xamarin_paths (order libNames)). rewrite runtime_xamarin by done. unfold signature_of. split.
  - intros [[-> (n & ? & ?)]|[[-> [(n & ? & ?)|?]]|[-> (n & ? & ?)]]]; first [by right|left; exists n; tauto].
  - intros [(n & [[-> ?]|[[-> ?]|[-> ?]]] & ?)|[-> ?]]; eauto 10.
Qed.

#[local] Notation toy_libs := (list_to_map [("libapp.so", ["x86"]); ("libmonosgen-2.0.so", ["arm64-v8a"; "x86"])] : gmap string (list string)).

Lemma runtimes_exact_witness :
  comp_Name <$> classifyRuntime (λ m, rev (map_to_list m)) toy_libs true = ["Flutter"; "React Native"; "Xamarin/.NET"] ∧
  classifyRuntime (λ m, rev (map_to_list m)) toy_libs true = classifyRuntime map_to_list toy_libs true.
Proof.
  split; [by vm_compute|].
  refine (proj1 (runtimes_exact (λ m, rev (map_to_list m)) toy_libs true _ _)).
  - intros m. symmetry. apply Permutation_rev.
  - intros n abis Hl. apply (elem_of_list_to_map_2 _ n abis) in Hl.
    apply elem_of_cons in Hl as [[= _ ->]|Hl]; [done|]. apply list_elem_of_singleton in Hl as [= _ ->]. done.
Defined.

(** ** The probe *)

Section probe_facts.
Context (url_Parse : string → res (string * string)) (Getenv : string → string) {W : Type}
  (Wait : W → option error) (exchange : string → string → W → res Z * W).
Implicit Types s : @rt W.

(** What an analysis may do, and what it may report: requests only when verification
    is enabled, one at most, and a world-readable database only on a 200 answer. *)
Definition probed (s : @rt W) (out : list PlatformFinding * @rt W) : Prop :=
  (Getenv firebaseEnvVerificationEnabled ≠ "true" → out.2 = s) ∧
  (out.2.2 = s.2 ∨ ∃ u, out.2.2 = s.2 ++ [u]) ∧
  (∀ f, f ∈ out.1 → RuleID f = ruleFirebaseRTDBWorldReadable →
     Getenv firebaseEnvVerificationEnabled = "true" ∧
     ∃ u w, out.2.2 = s.2 ++ [u] ∧ (exchange rtdbUserAgent u w).1 = Ok 200).

Lemma probed_none s : probed s ([], s).
Proof. split_and!; [done|by left|]. by intros f ?%elem_of_nil. Qed.

Lemma probed_relocate rel s out : probed s out → probed s (relocate rel <$> out.1, out.2).
Proof.
  intros (H1 & H2 & H3). split_and!; [done|done|].
  intros f (g & -> & Hg)%list_elem_of_fmap Hr. exact (H3 g Hg Hr).
Qed.

Lemma findings_probed c loc s : probed s (FirebaseMisconfigFindings url_Parse Getenv Wait exchange c loc s).
Proof.
  unfold FirebaseMisconfigFindings.
  assert (Hst : ∀ f, f ∈ (if decide (StorageBucket c = "") then [] else [storage_present (StorageBucket c) loc]) →
    RuleID f ≠ ruleFirebaseRTDBWorldReadable).
  { intros f. case_decide; [by intros ?%elem_of_nil|]. by intros ->%list_elem_of_singleton. }
  assert (Hpr : ∀ f h, f ∈ [rtdb_present h loc] → RuleID f ≠ ruleFirebaseRTDBWorldReadable).
  { intros f h. by intros ->%list_elem_of_singleton. }
  destruct (bool_decide _ && _).
  2: { split_and!; [done|by left|]. intros f [?%elem_of_nil|Hf]%elem_of_app Hr; [done|]. by destruct (Hst f Hf). }
  destruct (decide (Getenv firebaseEnvVerificationEnabled = "true")) as [Hon|Hoff].
  2: { split_and!; [done|by left|]. intros f [Hf|Hf]%elem_of_app Hr; [by destruct (Hpr f _ Hf)|by destruct (Hst f Hf)]. }
  assert (Hno : ∀ s', (s'.2 = s.2 ∨ ∃ u, s'.2 = s.2 ++ [u]) →
    probed s ([rtdb_present (rtdbHostFromURL url_Parse (RTDBURL c)) loc] ++
              (if decide (StorageBucket c = "") then [] else [storage_present (StorageBucket c) loc]), s')).
  { intros s' Hs'. split_and!; [done|done|].
    intros f [Hf|Hf]%elem_of_app Hr; [by destruct (Hpr f _ Hf)|by destruct (Hst f Hf)]. }
  unfold probeRTDBWorldReadable. destruct (Wait s.1); [apply Hno; by left|].
  destruct (url_Parse _); [|apply Hno; by left].
  destruct (exchange _ _ s.1) as [[status|e] w] eqn:Hx; [|apply Hno; right; by eexists].
  destruct (Z.eqb_spec status 200) as [->|]; [|destruct (_ || _); apply Hno; right; by eexists].
  split_and!; [done|right; by eexists|]. intros f [Hf|Hf]%elem_of_app Hr; [|by destruct (Hst f Hf)].
  split; [done|]. eexists _, s.1. split; [done|]. by rewrite Hx.
Qed.

(** Probing is opt-in, single and honest, on both platforms.  Unless verification
    is enabled in the environment an analysis of the Firebase configuration touches the
    network not at all; otherwise it makes one request at most; and a database is
    reported as world-readable only when that request was answered with status 200. *)
Theorem probe_opt_in top d Unmarshal FormatFloat PlistUnmarshal jobCtx ios_job s :
  probed s (CollectFirebaseMisconfigFindings url_Parse Getenv Wait exchange top d Unmarshal jobCtx s) ∧
  probed s (CollectIOSFirebaseMisconfigFindingsFromIPA url_Parse Getenv Wait exchange FormatFloat PlistUnmarshal d ios_job s).
Proof.
  split.
  - unfold CollectFirebaseMisconfigFindings. destruct (first_config _ _ _) as [[[path raw] cfg]|]; [|apply probed_none].
    assert (Ha : probed s (AnalyzeAndroidFirebaseMisconfig url_Parse Getenv Wait exchange top raw (Some cfg) s)).
    { unfold AnalyzeAndroidFirebaseMisconfig. case_decide; [apply probed_none|apply findings_probed]. }
    destruct (AnalyzeAndroidFirebaseMisconfig _ _ _ _ _ _ _ _) as [fs s'].
    destruct (Rel _ _); [|done]. case_decide; [done|]. exact (probed_relocate _ s (fs, s') Ha).
  - unfold CollectIOSFirebaseMisconfigFindingsFromIPA, CollectIOSFirebaseMisconfigFindings, AnalyzeIOSFirebaseMisconfig.
    repeat (case_match; try apply probed_none). apply findings_probed.
Qed.
End probe_facts.

(** ** Behaviours worth knowing *)

(** The probe goes to whatever host the configuration of the scanned application
    names: the test for a Firebase address looks anywhere in the URL. *)
Example probe_reaches_any_host :
  (FirebaseMisconfigFindings (λ _, Ok ("http", "169.254.169.254")) (λ _, "true") (λ _ : unit, None) (λ _ _ w, (Ok 200, w))
    (mk_resource "http://169.254.169.254/latest?firebaseio.com" "") locationGoogleServices (tt, [])).2.2 =
  ["http://169.254.169.254/latest?firebaseio.com/.json"].
Proof. by vm_compute. Qed.

(** A database URL without a scheme is evidence as it stands, with a secret in its
    query. *)
Example evidence_keeps_query :
  Evidence <$> (FirebaseMisconfigFindings (λ _, Ok ("", "")) (λ _, "") (λ _ : unit, None) (λ _ _ w, (Ok 200, w))
    (mk_resource "p.firebaseio.com/?auth=S3CRET" "") locationGoogleServices (tt, [])).1 =
  ["p.firebaseio.com/?auth=S3CRET — verify security rules are not world-readable"].
Proof. by vm_compute. Qed.
