(* ===== verification/Lockfiles.v ===== *)
(** * Lock files ([apk/lockfiles.go], [ios/lockfiles.go])

    The parsers of the lock files of Flutter, npm, yarn, CocoaPods and Swift packages,
    and the enrichment of a bill of materials from them.  The components are edited
    through pointers, so the caller's slice is part of the state; a map is ranged over in
    an order of the runtime's choice. *)
From Stdlib Require Import ZArith Ascii.
From S2P Require Import Prelude GoStr GoErr GoPath GoFloat MachO GoJson JsonText Artifact Sbom Ipa Apk Command.

Local Open Scope Z_scope.
#[local] Arguments lf : simpl never.
#[local] Arguments cr : simpl never.

(** ** Text *)

(** The lines of a text: a last one without an end counts if it is not empty. *)
Fixpoint raw_lines (line s : string) : list string :=
  match s with
  | "" => if decide (line = "") then [] else [line]
  | String c r => if decide (c = lf) then line :: raw_lines "" r else raw_lines (line +:+ String c "") r
  end.

Fixpoint while_short (l : list string) : list string :=
  match l with s :: l => if len s <? 65536 then s :: while_short l else [] | [] => [] end.

(** [bufio.Scanner]: a line that does not fit its buffer ends the scan. *)
Definition ScanLines (s : string) : list string := strip_cr <$> while_short (raw_lines "" s).

(** [strings.Trim] with a set of ASCII characters. *)
Fixpoint trim_left (cut : ascii → bool) (s : string) : string :=
  match s with String c r => if cut c then trim_left cut r else s | "" => "" end.
Fixpoint trim_right (cut : ascii → bool) (s : string) : string :=
  match s with
  | "" => ""
  | String c r => match trim_right cut r with "" => if cut c then "" else String c "" | t => String c t end
  end.
Definition Trim (cut : ascii → bool) (s : string) : string := trim_right cut (trim_left cut s).

Definition dquote : ascii := byte_of 34.
Definition squote : ascii := byte_of 39.
Definition tab : ascii := byte_of 9.
#[local] Arguments dquote : simpl never.
Definition is_dquote (c : ascii) : bool := bool_decide (c = dquote).
Definition is_quote (c : ascii) : bool := is_dquote c || bool_decide (c = squote).

(** The longest prefix of such characters, and the rest. *)
Fixpoint span (f : ascii → bool) (s : string) : string * string :=
  match s with
  | String c r => if f c then let '(a, b) := span f r in (String c a, b) else ("", s)
  | "" => ("", "")
  end.

(** ** pubspec.lock *)

(** Inside the packages, the current package, and what was read. *)
Definition pub_state : Type := bool * string * gmap string string.

Definition top_level (line : string) : bool :=
  match line with String c _ => negb (bool_decide (c = " "%char ∨ c = tab ∨ c = "#"%char)) | "" => false end.

Definition pub_line (st : pub_state) (line : string) : pub_state :=
  let '(inPackages, currentPkg, out) := st in
  if decide (line = "packages:") then (true, "", out)
  else if top_level line then (false, "", out)
  else if negb inPackages then st
  else if HasPrefix line "  " && negb (HasPrefix line "   ") then
    let trimmed := TrimSpace line in
    (inPackages, if HasSuffix trimmed ":" then TrimSuffix trimmed ":" else currentPkg, out)
  else if negb (bool_decide (currentPkg = "")) && Contains line "version:" then
    let rest := Trim is_quote (TrimSpace (TrimPrefix (TrimSpace line) "version:")) in
    (inPackages, currentPkg, if decide (rest = "") then out else <[currentPkg := rest]> out)
  else st.

Definition ParsePubspecLock (data : string) : gmap string string :=
  (foldl pub_line (false, "", ∅) (ScanLines data)).2.

(** ** yarn.lock *)

(** [yarnEntryRe]: an optional quote, the name with an optional at sign first, and an at
    sign. *)
Definition yarnEntryRe (s : string) : option string :=
  let s := match s with String c r => if is_dquote c then r else s | "" => "" end in
  let '(at_, s) := match s with String "@" r => ("@", r) | _ => ("", s) end in
  match span (λ c, negb (bool_decide (c = "@"%char) || is_dquote c)) s with
  | (String _ _ as name, String "@" _) => Some (at_ +:+ name)
  | _ => None
  end.

Definition yarn_package (line : string) : string :=
  let first := match Split line "," with s :: _ => s | [] => "" end in
  default "" (yarnEntryRe (Trim is_dquote (TrimSpace first))).

(** A line of the text: the parser stops at the mark of the newer format. *)
Fixpoint yarn_lines (lines : list string) (currentPkg : string) (out : gmap string string) : gmap string string :=
  match lines with
  | [] => out
  | line :: lines =>
      if decide (TrimSpace line = "__metadata:") then out
      else if bool_decide (line = "") || HasPrefix line "#" then yarn_lines lines "" out
      else if negb (HasPrefix line " ") && HasSuffix (TrimSpace line) ":" then yarn_lines lines (yarn_package line) out
      else if negb (bool_decide (currentPkg = "")) && HasPrefix line "  version" then
        let rest := TrimSpace (TrimPrefix (TrimSpace line) "version") in
        let rest := Trim is_dquote (TrimSpace (TrimPrefix rest ":")) in
        yarn_lines lines currentPkg
          (if bool_decide (rest = "") || bool_decide (is_Some (out !! currentPkg)) then out else <[currentPkg := rest]> out)
      else yarn_lines lines currentPkg out
  end.

Definition ParseYarnLock (data : string) : gmap string string := yarn_lines (ScanLines data) "" ∅.

(** ** Podfile.lock *)

Definition pod_char (c : ascii) : bool := is_digit c || is_alpha c || bool_decide (c ∈ ["_"; "."; "/"; "-"]%char).
Definition re_space (c : ascii) : bool := bool_decide (byte c ∈ [9; 10; 12; 13; 32]).

Definition parsePodEntry (rest : string) : option (string * string) :=
  match span pod_char (TrimSpace rest) with
  | ("", _) => None
  | (name, s) =>
      match span re_space s with
      | (String _ _, String "(" s) =>
          match span (not_byte ")") s with
          | (String _ _ as version, ")") => Some (name, version)
          | _ => None
          end
      | _ => None
      end
  end.

Definition pod_line (st : bool * gmap string string) (line : string) : bool * gmap string string :=
  let '(inPods, out) := st in
  if negb (HasPrefix line " ") && negb (HasPrefix line (String tab ""))
  then (bool_decide (TrimSuffix (TrimSpace line) ":" = "PODS"), out)
  else if negb inPods then st
  else if negb (HasPrefix line "  - ") then st
  else match parsePodEntry (TrimSuffix (TrimPrefix line "  - ") ":") with
       | Some (name, version) => (inPods, <[name := version]> out)
       | None => st
       end.

Definition ParsePodfileLock (data : string) : gmap string string := (foldl pod_line (false, ∅) (ScanLines data)).2.

(** ** JSON lock files *)

Section json.
Context `{JsonText}.
(** The integer a number's text stands for, if it is one of 64 bits. *)
Context (number_int : spec_float → option Z).

Definition string_value (v : json) (old : string) : string * option error :=
  match v with JString s => (s, None) | JNull => (old, None) | _ => (old, Some (type_mismatch v "string")) end.

(** An object with the text [version]. *)
Definition version_value (v : json) (old : string) : string * option error :=
  match v with
  | JObject l => decode_members ["version"] (λ _, string_value) l old
  | JNull => (old, None)
  | _ => (old, Some (type_mismatch v "struct"))
  end.

(** The whole text into a struct; an error anywhere discards it. *)
Definition Unmarshal_struct {A} (names : list string) (set : string → json → A → A * option error) (zero : A)
    (data : string) : option A :=
  match parse data with
  | Ok (JObject l) => match decode_members names set l zero with (a, None) => Some a | _ => None end
  | Ok JNull => Some zero
  | _ => None
  end.

Definition set_packages (_ : string) (v : json) (m : gmap string string) : gmap string string * option error :=
  match v with
  | JObject l => foldl (λ '(m, err) '(k, v), let '(version, e) := version_value v "" in
                                             (<[k := version]> m, first_error err e)) (m, None) l
  | JNull => (∅, None)
  | _ => (m, Some (type_mismatch v "map"))
  end.

(** The package of a key such as node_modules/a/node_modules/b. *)
Definition npm_name (key : string) : string :=
  let name := TrimPrefix key "node_modules/" in
  match Index name "/node_modules/" with
  | Some idx => drop_str (idx + String.length "/node_modules/") name
  | None => name
  end.

Definition npm_entry (out : gmap string string) (kv : string * string) : gmap string string :=
  let '(key, version) := kv in
  if bool_decide (key = "") || bool_decide (version = "") then out
  else let name := npm_name key in if decide (name = "") then out else <[name := version]> out.

(** [range]: the order in which a map is ranged over. *)
Definition ParsePackageLockJSON (range : gmap string string → list (string * string)) (data : string) : gmap string string :=
  match Unmarshal_struct ["packages"] set_packages ∅ data with
  | None => ∅
  | Some packages => foldl npm_entry ∅ (range packages)
  end.

(** A pin of a Swift package: its name and version. *)
Definition set_pin (n : string) (v : json) (p : string * string) : (string * string) * option error :=
  if decide (n = "state") then let '(version, e) := version_value v p.2 in ((p.1, version), e)
  else let '(name, e) := string_value v p.1 in ((name, p.2), e).

Definition pin_value (name : string) (v : json) : (string * string) * option error :=
  match v with
  | JObject l => decode_members [name; "state"] set_pin l ("", "")
  | JNull => (("", ""), None)
  | _ => (("", ""), Some (type_mismatch v "struct"))
  end.

Definition set_pins (name : string) (_ : string) (v : json) (pins : list (string * string))
    : list (string * string) * option error :=
  match v with
  | JArray l => ((pin_value name <$> l).*1, foldl first_error None (pin_value name <$> l).*2)
  | JNull => ([], None)
  | _ => (pins, Some (type_mismatch v "slice"))
  end.

Definition packageResolvedV2 (data : string) : option (list (string * string)) :=
  Unmarshal_struct ["pins"] (set_pins "identity") [] data.

Definition packageResolvedV1 (data : string) : option (list (string * string)) :=
  Unmarshal_struct ["object"]
    (λ _ v pins, match v with
                 | JObject l => decode_members ["pins"] (set_pins "package") l pins
                 | JNull => (pins, None)
                 | _ => (pins, Some (type_mismatch v "struct"))
                 end) [] data.

Definition probe_version (data : string) : option Z :=
  Unmarshal_struct ["version"]
    (λ _ v old, match v with
                | JNull => (old, None)
                | JNumber f => match number_int f with Some z => (z, None) | None => (old, Some (type_mismatch v "int")) end
                | _ => (old, Some (type_mismatch v "int"))
                end) 0 data.

Definition pin_step (out : gmap string string) (pin : string * string) : gmap string string :=
  if bool_decide (pin.1 = "") || bool_decide (pin.2 = "") then out else <[pin.1 := pin.2]> out.
Definition pinned (pins : option (list (string * string))) : gmap string string :=
  foldl pin_step ∅ (default [] pins).

Definition ParsePackageResolved (data : string) : gmap string string :=
  match probe_version data with
  | None => ∅
  | Some 1 => pinned (packageResolvedV1 data)
  | Some 2 => pinned (packageResolvedV2 data)
  | Some _ => match packageResolvedV2 data with
              | Some (_ :: _ as pins) => pinned (Some pins)
              | _ => pinned (packageResolvedV1 data)
              end
  end.
End json.

(** ** Components of a lock file *)

Definition lockfileCandidates (jobCtx : JobContext) (filename : string) : list string :=
  let src := GetSourceDir jobCtx in
  let ws := Workspace jobCtx in
  [Join src filename; Join ws filename; Join (Dir ws) filename].

Definition iosLockfileCandidates (jobCtx : JobContext) (filename : string) : list string :=
  let ws := Workspace jobCtx in
  [Join ws filename; Join (Dir ws) filename; Join (GetIOSDir jobCtx) filename].

Fixpoint readFirstExisting (read : string → res string) (candidates : list string) : option (string * string) :=
  match candidates with
  | [] => None
  | p :: candidates => match read p with Ok data => Some (data, p) | Err _ => readFirstExisting read candidates end
  end.

Definition lockfilePurl (name version : string) : string :=
  if decide (version = "") then "pkg:generic/" +:+ name else "pkg:generic/" +:+ name +:+ "@" +:+ version.

(** An identity that one look at a manifest backs. *)
Definition lock_identity (field value proof : string) : SBOMIdentity :=
  mk_identity field ConfidenceMedium value [mk_method TechniqueManifestAnalysis ConfidenceMedium proof].

Definition lock_identities (name version path : string) : list SBOMIdentity :=
  lock_identity "name" name path ::
  if decide (version = "") then [] else [lock_identity "version" version (name +:+ "@" +:+ version +:+ " (lockfile)")].

Definition newLockfileComponent (name version lockfilePath : string) : SBOMComponent :=
  let '(purl, group, matched) := PurlFor name "" version in
  mk_component "library" name version ("lockfile:" +:+ name)
    (if (matched : bool) then purl else lockfilePurl name version) [] (if (matched : bool) then group else "") ""
    (lock_identities name version lockfilePath ++ (if (matched : bool) then [lock_identity "purl" purl purl] else []))
    (occurrence lockfilePath).

Definition newIOSLockfileComponent (name version lockfilePath : string) : SBOMComponent :=
  mk_component "library" name version ("lockfile:" +:+ name) (lockfilePurl name version) [] "" ""
    (lock_identities name version lockfilePath) (occurrence lockfilePath).

(** [nc.Purl = purl; nc.BomRef = ref] *)
Definition with_coordinates (purl ref : string) (c : SBOMComponent) : SBOMComponent :=
  mk_component (comp_Type c) (Name c) (Version c) ref purl (Hashes c) (Group c) (Scope c) (Identity c) (Occurrences c).

Definition fill_version (version : string) (c : SBOMComponent) : SBOMComponent :=
  if decide (Version c = "")
  then mk_component (comp_Type c) (Name c) version (BomRef c) (Purl c) (Hashes c) (Group c) (Scope c) (Identity c) (Occurrences c)
  else c.

Definition upgradePurl (purl lockfilePath : string) (c : SBOMComponent) : SBOMComponent :=
  mk_component (comp_Type c) (Name c) (Version c) (BomRef c) purl (Hashes c) (Group c) (Scope c)
    (Identity c ++ [lock_identity "purl" purl lockfilePath]) (Occurrences c).

(** ** Android *)

(** The components a pointer can point to, first the caller's slice; the pointer of a
    name; and the names in order. *)
Record index := mk_index { heap : list SBOMComponent; byName : gmap string nat; order : list string }.

Definition index_component (ix : index) (ic : nat * SBOMComponent) : index :=
  let '(i, c) := ic in
  match byName ix !! Name c with
  | Some _ => ix
  | None => mk_index (heap ix) (<[Name c := i]> (byName ix)) (order ix ++ [Name c])
  end.

Definition new_index (components : list SBOMComponent) : index :=
  foldl index_component (mk_index components ∅ []) (zip (seq 0 (length components)) components).

(** One package of a lock file of the ecosystem [eco], whose new components have
    references that start with [ref]. *)
Definition apply_version (eco ref lockfilePath : string) (ix : index) (nv : string * string) : index :=
  let '(name, ver) := nv in
  let purl := "pkg:" +:+ eco +:+ "/" +:+ name +:+ "@" +:+ ver in
  match byName ix !! name with
  | Some p => mk_index (alter (λ c, upgradePurl purl lockfilePath (fill_version ver c)) p (heap ix)) (byName ix) (order ix)
  | None =>
      let nc := with_coordinates purl (ref +:+ ":" +:+ name) (newLockfileComponent name ver lockfilePath) in
      mk_index (heap ix ++ [nc]) (<[name := length (heap ix)]> (byName ix)) (order ix ++ [name])
  end.

Definition applyNPMVersions (versions : list (string * string)) (lockfilePath : string) (ix : index) : index :=
  foldl (apply_version "npm" "npm" lockfilePath) ix versions.

Section enrich.
Context `{JsonText}.
(** The orders in which the maps of the lock files are ranged over. *)
Context (range : string → gmap string string → list (string * string)).
Context (read : string → res string).

Definition enrich_pub (jobCtx : JobContext) (ix : index) : index :=
  match readFirstExisting read (lockfileCandidates jobCtx "pubspec.lock") with
  | Some (data, path) => foldl (apply_version "pub" "pub" path) ix (range path (ParsePubspecLock data))
  | None => ix
  end.

(** Whether the npm lock file named any package. *)
Definition enrich_npm (jobCtx : JobContext) (ix : index) : bool * index :=
  match readFirstExisting read (lockfileCandidates jobCtx "package-lock.json") with
  | Some (data, path) =>
      let versions := ParsePackageLockJSON (range "packages") data in
      (negb (bool_decide (versions = ∅)), applyNPMVersions (range path versions) path ix)
  | None => (false, ix)
  end.

Definition enrich_yarn (jobCtx : JobContext) (ix : index) : index :=
  match readFirstExisting read (lockfileCandidates jobCtx "yarn.lock") with
  | Some (data, path) => applyNPMVersions (range path (ParseYarnLock data)) path ix
  | None => ix
  end.

(** The components returned, and the caller's slice afterwards. *)
Definition EnrichFromAndroidLockfiles (jobCtx : JobContext) (components : list SBOMComponent)
    : list SBOMComponent * list SBOMComponent :=
  let ix := enrich_pub jobCtx (new_index components) in
  let '(npmHandled, ix) := enrich_npm jobCtx ix in
  let ix := if (npmHandled : bool) then ix else enrich_yarn jobCtx ix in
  (omap (λ name, p ← byName ix !! name; heap ix !! p) (order ix), take (length components) (heap ix)).
End enrich.

(** ** iOS *)

(** The pointer of a name in lower case, and of a name as it is. *)
Record ios_index := mk_ios_index {
  i_heap : list SBOMComponent; i_byName : gmap string nat; byOrig : gmap string nat; i_order : list string }.

Definition podPurlName (name : string) : string :=
  match IndexByte name "/" with Some idx => take_str idx name | None => name end.

(** [strings.ToUpper] of one byte: one that is not ASCII is no rune. *)
Definition upper_first (c : ascii) : string :=
  if (97 <=? byte c) && (byte c <=? 122) then String (byte_of (byte c - 32)) ""
  else if byte c <? 128 then String c "" else encode_rune rune_error.
Definition titleCase (s : string) : string := match s with "" => "" | String c r => upper_first c +:+ r end.

Definition pod_purl (name ver : string) : string := "pkg:cocoapods/" +:+ podPurlName name +:+ "@" +:+ ver.

Definition swift_purl (name ver : string) : string :=
  match PurlFor name "" ver with
  | (purl, _, true) => purl
  | _ => match PurlFor (titleCase name) "" ver with
         | (purl, _, true) => purl
         | _ => "pkg:swift/unknown/" +:+ name +:+ "@" +:+ ver
         end
  end.

Section ios.
Context (ToLower : string → string).
Context `{JsonText} (number_int : spec_float → option Z) (range : string → gmap string string → list (string * string)).
Context (read : string → res string).

Definition ios_component (ix : ios_index) (ic : nat * SBOMComponent) : ios_index :=
  let '(i, c) := ic in
  match i_byName ix !! ToLower (Name c) with
  | Some _ => ix
  | None => mk_ios_index (i_heap ix) (<[ToLower (Name c) := i]> (i_byName ix)) (<[Name c := i]> (byOrig ix)) (i_order ix ++ [Name c])
  end.

Definition new_ios_index (components : list SBOMComponent) : ios_index :=
  foldl ios_component (mk_ios_index components ∅ ∅ []) (zip (seq 0 (length components)) components).

Definition lookup_name (ix : ios_index) (name : string) : option nat :=
  match byOrig ix !! name with Some p => Some p | None => i_byName ix !! ToLower name end.

Definition apply_ios (purl_of : string → string → string) (ref lockfilePath : string) (ix : ios_index) (nv : string * string)
    : ios_index :=
  let '(name, ver) := nv in
  let purl := purl_of name ver in
  match lookup_name ix name with
  | Some p => mk_ios_index (alter (λ c, upgradePurl purl lockfilePath (fill_version ver c)) p (i_heap ix))
                (i_byName ix) (byOrig ix) (i_order ix)
  | None =>
      let nc := with_coordinates purl (ref +:+ ":" +:+ name) (newIOSLockfileComponent name ver lockfilePath) in
      mk_ios_index (i_heap ix ++ [nc]) (<[ToLower name := length (i_heap ix)]> (i_byName ix))
        (<[name := length (i_heap ix)]> (byOrig ix)) (i_order ix ++ [name])
  end.

Definition enrich_pods (jobCtx : JobContext) (ix : ios_index) : ios_index :=
  match readFirstExisting read (iosLockfileCandidates jobCtx "Podfile.lock") with
  | Some (data, path) => foldl (apply_ios pod_purl "pod" path) ix (range path (ParsePodfileLock data))
  | None => ix
  end.

Definition enrich_swift (jobCtx : JobContext) (ix : ios_index) : ios_index :=
  match readFirstExisting read (iosLockfileCandidates jobCtx "Package.resolved") with
  | Some (data, path) => foldl (apply_ios swift_purl "spm" path) ix (range path (ParsePackageResolved number_int data))
  | None => ix
  end.

Definition EnrichFromIOSLockfiles (jobCtx : JobContext) (components : list SBOMComponent)
    : list SBOMComponent * list SBOMComponent :=
  let ix := enrich_swift jobCtx (enrich_pods jobCtx (new_ios_index components)) in
  (omap (λ name, p ← match byOrig ix !! name with Some p => Some p | None => i_byName ix !! ToLower name end; i_heap ix !! p)
        (i_order ix), take (length components) (i_heap ix)).
End ios.

(** ** The reference: lists without pointers *)

Section merging.
(** Names are compared by this key. *)
Context (norm : string → string).

Definition named (c : SBOMComponent) (name : string) : bool := bool_decide (norm (Name c) = norm name).
Definition has (l : list SBOMComponent) (name : string) : bool := existsb (λ c, named c name) l.

(** Of several components with one name the first. *)
Definition distinct (l : list SBOMComponent) : list SBOMComponent :=
  foldl (λ acc c, if has acc (Name c) then acc else acc ++ [c]) [] l.

(** One package: the component of that name is upgraded, or a new one is added. *)
Definition merge (upgrade : string → string → SBOMComponent → SBOMComponent) (make : string → string → SBOMComponent)
    (l : list SBOMComponent) (nv : string * string) : list SBOMComponent :=
  let '(name, ver) := nv in
  if has l name then (λ c, if named c name then upgrade name ver c else c) <$> l else l ++ [make name ver].

(** The pointers [ps] lead to the components [l], which have different names, and a name
    is found at its pointer. *)
Definition pointed (h : list SBOMComponent) (find : string → option nat) (ps : list nat) (l : list SBOMComponent) : Prop :=
  Forall2 (λ p c, h !! p = Some c) ps l ∧ NoDup ps ∧ NoDup ((λ c, norm (Name c)) <$> l) ∧
  ∀ n p, find n = Some p ↔ ∃ i c, l !! i = Some c ∧ ps !! i = Some p ∧ norm (Name c) = norm n.

Lemma has_spec l n : has l n = true ↔ ∃ i c, l !! i = Some c ∧ norm (Name c) = norm n.
Proof.
  unfold has, named. rewrite existsb_exists. setoid_rewrite bool_decide_eq_true. setoid_rewrite <- list_elem_of_In.
  setoid_rewrite list_elem_of_lookup. naive_solver.
Qed.

Lemma pointed_miss h find ps l n : pointed h find ps l → find n = None → has l n = false.
Proof.
  intros (Hl & _ & _ & Hf) E. apply not_true_iff_false. rewrite has_spec. intros (i & c & Hi & Hc).
  destruct (Forall2_lookup_r _ _ _ _ _ Hl Hi) as (p & Hp & _). assert (find n = Some p) by (apply Hf; eauto). congruence.
Qed.

Lemma pointed_hit h find ps l n p : pointed h find ps l → find n = Some p → has l n = true.
Proof. intros (_ & _ & _ & Hf) E. apply Hf in E as (i & c & ? & _ & ?). apply has_spec. eauto. Qed.

Lemma pointed_collect h find ps l : pointed h find ps l → omap (λ n, p ← find n; h !! p) (Name <$> l) = l.
Proof.
  intros (Hl & _ & _ & Hf).
  assert (∀ k, (∀ c, c ∈ k → c ∈ l) → omap (λ n, p ← find n; h !! p) (Name <$> k : list string) = k); [|auto].
  induction k as [|c k IH]; intros Hk; [done|]. cbn.
  destruct (proj1 (list_elem_of_lookup l c) (Hk c (list_elem_of_here _ _))) as [i Hi].
  destruct (Forall2_lookup_r _ _ _ _ _ Hl Hi) as (p & Hp & Hc).
  rewrite (proj2 (Hf (Name c) p)) by eauto. cbn. rewrite Hc. f_equal. apply IH. intros c' Hc'. apply Hk. by right.
Qed.

(** A new name that points to a component not yet pointed to. *)
Lemma pointed_point h find find' ps l c i : pointed h find ps l → find (Name c) = None → h !! i = Some c → i ∉ ps →
  (∀ n, find' n = if decide (norm (Name c) = norm n) then Some i else find n) →
  pointed h find' (ps ++ [i]) (l ++ [c]).
Proof.
  intros Hp E Hi Hn Hf'. pose proof (pointed_miss _ _ _ _ _ Hp E) as Hhas. destruct Hp as (Hl & Hps & Hnames & Hf).
  assert (Hlen : length ps = length l) by (by eapply Forall2_length).
  split_and!.
  - apply Forall2_app; [done|]. by apply Forall2_cons.
  - apply NoDup_app. split_and!; [done| |by apply NoDup_singleton]. intros x Hx ->%list_elem_of_singleton. done.
  - rewrite fmap_app. apply NoDup_app. split_and!; [done| |apply NoDup_singleton].
    intros x (c' & -> & Hc')%list_elem_of_fmap Hx%list_elem_of_singleton. apply not_true_iff_false in Hhas. apply Hhas.
    apply has_spec. apply list_elem_of_lookup in Hc' as [j Hj]. eauto.
  - intros n p. rewrite Hf'. case_decide as Hn'.
    + split.
      * intros [= <-]. exists (length l), c. split_and!; [by apply list_lookup_middle| |done].
        rewrite <- Hlen. by apply list_lookup_middle.
      * intros (j & c' & Hj & Hp & Hc'). apply lookup_app_Some in Hj as [Hj|[Hge Hj]].
        -- exfalso. apply not_true_iff_false in Hhas. apply Hhas, has_spec. exists j, c'. split; [done|congruence].
        -- apply list_lookup_singleton_Some in Hj as [Hj <-]. rewrite lookup_app_r in Hp by lia.
           apply list_lookup_singleton_Some in Hp as [_ <-]. done.
    + rewrite Hf. split; intros (j & c' & Hj & Hp & Hc'); exists j, c'.
      * split_and!; [by apply lookup_app_l_Some|by apply lookup_app_l_Some|done].
      * apply lookup_app_Some in Hj as [Hj|[Hge Hj]].
        -- split_and!; [done| |done]. rewrite lookup_app_l in Hp; [done|]. rewrite Hlen. by eapply lookup_lt_Some.
        -- apply list_lookup_singleton_Some in Hj as [_ <-]. done.
Qed.

Lemma pointed_grow h find ps l c : pointed h find ps l → pointed (h ++ [c]) find ps l.
Proof.
  intros (Hl & ? & ? & ?). split; [|done]. eapply Forall2_impl; [exact Hl|]. intros p c' Hc. by apply lookup_app_l_Some.
Qed.

Lemma pointed_add h find find' ps l c : pointed h find ps l → find (Name c) = None →
  (∀ n, find' n = if decide (norm (Name c) = norm n) then Some (length h) else find n) →
  pointed (h ++ [c]) find' (ps ++ [length h]) (l ++ [c]).
Proof.
  intros Hp E Hf'. eapply pointed_point; [by apply pointed_grow|done| | |exact Hf'].
  - by apply list_lookup_middle.
  - intros Hin. destruct Hp as (Hl & _). apply list_elem_of_lookup in Hin as [i Hi].
    destruct (Forall2_lookup_l _ _ _ _ _ Hl Hi) as (c' & _ & Hc). apply lookup_lt_Some in Hc. lia.
Qed.

Lemma pointed_alter h find ps l n p f : pointed h find ps l → find n = Some p → (∀ c, Name (f c) = Name c) →
  pointed (alter f p h) find ps ((λ c, if named c n then f c else c) <$> l).
Proof.
  intros (Hl & Hps & Hnames & Hf) E Hname. apply Hf in E as (i & c & Hi & Hp & Hc).
  assert (Hkeep : ∀ c, Name (if named c n then f c else c) = Name c) by (intros c'; by destruct (named c' n)).
  split_and!.
  - apply Forall2_lookup. intros j. rewrite list_lookup_fmap. destruct (decide (j = i)) as [->|Hij].
    + rewrite Hp, Hi. cbn. constructor. unfold named. rewrite bool_decide_eq_true_2 by done.
      rewrite list_lookup_alter. pose proof (Forall2_lookup_lr _ _ _ _ _ _ Hl Hp Hi) as Hh. cbn in Hh. by rewrite Hh, decide_True.
    + destruct (ps !! j) as [q|] eqn:Hq.
      * destruct (Forall2_lookup_l _ _ _ _ _ Hl Hq) as (c' & Hj & Hc'). rewrite Hj. cbn. constructor.
        assert (q ≠ p). { intros ->. apply Hij. by apply (NoDup_lookup ps j i p). }
        rewrite list_lookup_alter_ne by done. unfold named. rewrite bool_decide_eq_false_2; [done|]. intros Hn'.
        apply Hij. eapply (NoDup_lookup ((λ c, norm (Name c)) <$> l)); [done| |].
        -- rewrite list_lookup_fmap, Hj. cbn. by rewrite Hn'.
        -- rewrite list_lookup_fmap, Hi. cbn. by rewrite Hc.
      * assert (l !! j = None) as ->. { apply lookup_ge_None. apply lookup_ge_None in Hq. apply Forall2_length in Hl. lia. }
        constructor.
  - done.
  - rewrite <- list_fmap_compose.
    assert (Hext : (λ c, norm (Name c)) ∘ (λ c, if named c n then f c else c) <$> l = (λ c, norm (Name c)) <$> l)
      by (apply list_fmap_ext; intros; cbn; by rewrite Hkeep).
    by rewrite Hext.
  - intros m q. rewrite Hf. setoid_rewrite list_lookup_fmap. split.
    + intros (j & c' & Hj & Hq & Hc'). exists j, (if named c' n then f c' else c'). rewrite Hj, Hkeep. done.
    + intros (j & c' & Hj & Hq & Hc'). destruct (l !! j) as [c0|] eqn:Ej; [|done]. injection Hj as <-. rewrite Hkeep in Hc'. by exists j, c0.
Qed.

Lemma distinct_snoc l c : distinct (l ++ [c]) = if has (distinct l) (Name c) then distinct l else distinct l ++ [c].
Proof. unfold distinct. by rewrite foldl_app. Qed.
End merging.

(** What a package of a lock file does to a component. *)
Definition upgraded (purl_of : string → string → string) (path name ver : string) (c : SBOMComponent) : SBOMComponent :=
  upgradePurl (purl_of name ver) path (fill_version ver c).

Lemma upgraded_Name purl_of path name ver c : Name (upgraded purl_of path name ver c) = Name c.
Proof. unfold upgraded, fill_version. by case_decide. Qed.

Definition made (new : string → string → string → SBOMComponent) (purl_of : string → string → string) (ref path name ver : string)
    : SBOMComponent := with_coordinates (purl_of name ver) (ref +:+ ":" +:+ name) (new name ver path).

Definition eco_purl (eco name ver : string) : string := "pkg:" +:+ eco +:+ "/" +:+ name +:+ "@" +:+ ver.

Lemma newLockfileComponent_Name name ver path : Name (newLockfileComponent name ver path) = name.
Proof. unfold newLockfileComponent. by destruct (PurlFor name "" ver) as [[??] []]. Qed.

Lemma zip_seq_snoc {A} (l : list A) x : zip (seq 0 (length (l ++ [x]))) (l ++ [x]) = zip (seq 0 (length l)) l ++ [(length l, x)].
Proof. rewrite length_app, seq_app. cbn. by rewrite zip_with_app by (by rewrite length_seq). Qed.

(** *** Android *)

(** The index holds the components [l]. *)
Definition holds (ix : index) (ps : list nat) (l : list SBOMComponent) : Prop :=
  pointed id (heap ix) (λ n, byName ix !! n) ps l ∧ order ix = Name <$> l.

Lemma holds_new components : ∃ ps, holds (new_index components) ps (distinct id components) ∧
  heap (new_index components) = components ∧ (∀ p, p ∈ ps → (p < length components)%nat) ∧
  (NoDup (Name <$> components) → ps = seq 0 (length components)).
Proof.
  unfold new_index. assert (H : ∀ k h, k `prefix_of` h →
    let ix := foldl index_component (mk_index h ∅ []) (zip (seq 0 (length k)) k) in
    ∃ ps, holds ix ps (distinct id k) ∧ heap ix = h ∧ (∀ p, p ∈ ps → (p < length k)%nat) ∧ (NoDup (Name <$> k) → ps = seq 0 (length k)));
    [|by apply (H components components)].
  intros k h. induction k as [|c k IH] using rev_ind; intros Hk; cbv zeta.
  - exists []. split_and!; [split; [|done]|done|intros p Hp; by apply not_elem_of_nil in Hp|done].
    split; [constructor|]. split; [constructor|]. split; [constructor|]. intros n p. cbn. rewrite lookup_empty.
    split; [done|]. by intros (i & c & Hi & _).
  - destruct Hk as [k' Hk']. destruct IH as (ps & [Hp Ho] & Hh & Hlt & Hseq); [exists ([c] ++ k'); by rewrite Hk', <- app_assoc|].
    rewrite zip_seq_snoc, foldl_app. cbn [foldl]. set (ix := foldl index_component _ _) in *. rewrite distinct_snoc.
    unfold index_component. destruct (byName ix !! Name c) as [p|] eqn:E.
    + rewrite (pointed_hit _ _ _ _ _ _ _ Hp E). exists ps. split_and!; try done.
      * intros p' Hp'. rewrite length_app. specialize (Hlt p' Hp'). lia.
      * intros Hnd. exfalso. rewrite fmap_app in Hnd. apply NoDup_app in Hnd as (_ & Hd & _).
        destruct Hp as (Hl & _ & _ & Hf). apply Hf in E as (i & c' & Hi & Hpi & Hc'). cbn in Hc'.
        pose proof (Forall2_lookup_lr _ _ _ _ _ _ Hl Hpi Hi) as Hc. cbn in Hc. apply (Hd (Name c)); [|by left].
        apply list_elem_of_fmap. exists c'. split; [done|]. apply list_elem_of_lookup_2 with p.
        rewrite Hh, Hk', <- app_assoc in Hc.
        rewrite lookup_app_l in Hc; [done|]. apply Hlt. by eapply list_elem_of_lookup_2.
    + rewrite (pointed_miss _ _ _ _ _ _ Hp E). exists (ps ++ [length k]). split; [split|split_and!].
      * eapply pointed_point; [exact Hp|exact E| | |].
        -- rewrite Hh, Hk', <- app_assoc. by apply list_lookup_middle.
        -- intros Hin. specialize (Hlt _ Hin). lia.
        -- intros n. cbn. case_decide as Hn; [by rewrite Hn, lookup_insert_eq|by rewrite lookup_insert_ne].
      * cbn. by rewrite Ho, fmap_app.
      * done.
      * intros p. rewrite elem_of_app, list_elem_of_singleton, length_app. cbn. intros [Hin| ->]; [specialize (Hlt _ Hin)|]; lia.
      * intros Hnd. rewrite fmap_app in Hnd. apply NoDup_app in Hnd as (Hnd & _ & _). by rewrite Hseq, length_app, seq_app.
Qed.

Lemma holds_apply eco ref path ix ps l nv : holds ix ps l →
  ∃ ps', holds (apply_version eco ref path ix nv) ps'
           (merge id (upgraded (eco_purl eco) path) (made newLockfileComponent (eco_purl eco) ref path) l nv) ∧
         (ps = seq 0 (length (heap ix)) → ps' = seq 0 (length (heap (apply_version eco ref path ix nv)))).
Proof.
  destruct nv as [name ver]. intros [Hp Ho]. unfold apply_version, merge. destruct (byName ix !! name) as [p|] eqn:E.
  - rewrite (pointed_hit _ _ _ _ _ _ _ Hp E). exists ps. split; [split|].
    + apply (pointed_alter id _ _ _ _ name p (upgraded (eco_purl eco) path name ver) Hp E), upgraded_Name.
    + cbn. rewrite Ho, <- list_fmap_compose. apply list_fmap_ext. intros i c _. cbn.
      destruct (named id c name); [by rewrite upgraded_Name|done].
    + cbn. by rewrite length_alter.
  - rewrite (pointed_miss _ _ _ _ _ _ Hp E). exists (ps ++ [length (heap ix)]).
    assert (Hn : Name (made newLockfileComponent (eco_purl eco) ref path name ver) = name) by apply newLockfileComponent_Name.
    split; [split|].
    + eapply pointed_add; [exact Hp|exact (eq_trans (f_equal (λ n, byName ix !! n) Hn) E)|].
      intros n. change (Name _) with (Name (made newLockfileComponent (eco_purl eco) ref path name ver)). rewrite Hn. cbn. case_decide as Hn'; [by rewrite Hn', lookup_insert_eq|by rewrite lookup_insert_ne].
    + rewrite fmap_app. cbn. by rewrite Ho, newLockfileComponent_Name.
    + intros ->. cbn. by rewrite length_app, seq_app.
Qed.

Lemma holds_fold eco ref path vs : ∀ ix ps l, holds ix ps l →
  ∃ ps', holds (foldl (apply_version eco ref path) ix vs) ps'
           (foldl (merge id (upgraded (eco_purl eco) path) (made newLockfileComponent (eco_purl eco) ref path)) l vs) ∧
         (ps = seq 0 (length (heap ix)) → ps' = seq 0 (length (heap (foldl (apply_version eco ref path) ix vs)))).
Proof.
  induction vs as [|nv vs IH]; intros ix ps l H; [by exists ps|]. cbn.
  destruct (holds_apply eco ref path ix ps l nv H) as (ps1 & H1 & Hs1). destruct (IH _ _ _ H1) as (ps2 & H2 & Hs2).
  exists ps2. split; [done|auto].
Qed.

(** All packages of a lock file at once: every component is upgraded to the version of
    its name, and the packages that are not there yet come after them. *)
Definition enriched (upgrade : string → string → SBOMComponent → SBOMComponent) (make : string → string → SBOMComponent)
    (versions : list (string * string)) (l : list SBOMComponent) : list SBOMComponent :=
  ((λ c, match (list_to_map versions : gmap string string) !! Name c with Some ver => upgrade (Name c) ver c | None => c end) <$> l)
  ++ (uncurry make <$> filter (λ nv, nv.1 ∉ Name <$> l) versions).

Lemma merge_enriched upgrade make vs : (∀ n v c, Name (upgrade n v c) = Name c) → (∀ n v, Name (make n v) = n) → NoDup vs.*1 →
  ∀ l, foldl (merge id upgrade make) l vs = enriched upgrade make vs l.
Proof.
  intros Hu Hm. induction vs as [|[n v] vs IH]; intros Hnd l.
  { unfold enriched. cbn. rewrite app_nil_r. symmetry. rewrite <- (list_fmap_id l) at 2. apply list_fmap_ext.
    intros i c _. by rewrite lookup_empty. }
  apply NoDup_cons in Hnd as [Hn Hnd]. cbn [foldl]. rewrite IH by done. cbn in Hn.
  assert (Hnone : (list_to_map vs : gmap string string) !! n = None) by (by apply not_elem_of_list_to_map_1).
  unfold merge. destruct (has id l n) eqn:Hh; unfold enriched.
  - apply has_spec in Hh as (i & c & Hi & Hc). cbn in Hc.
    assert (Hin : n ∈ Name <$> l) by (apply list_elem_of_fmap; exists c; split; [done|by eapply list_elem_of_lookup_2]).
    assert (Hnames : Name <$> ((λ c, if named id c n then upgrade n v c else c) <$> l) = Name <$> l).
    { rewrite <- list_fmap_compose. apply list_fmap_ext. intros j c' _. cbn. destruct (named id c' n); [by rewrite Hu|done]. }
    rewrite Hnames, filter_cons_False by (cbn; by intros ?). f_equal. rewrite <- list_fmap_compose. apply list_fmap_ext.
    intros j c' _. cbn. unfold named. case_bool_decide as Hc'; cbn in Hc'.
    + by rewrite Hu, Hc', Hnone, lookup_insert_eq.
    + by rewrite lookup_insert_ne.
  - assert (Hin : n ∉ Name <$> l).
    { intros (c & -> & Hc)%list_elem_of_fmap. apply list_elem_of_lookup in Hc as [i Hi].
      apply not_true_iff_false in Hh. apply Hh, has_spec. eauto. }
    rewrite filter_cons_True by done. rewrite !fmap_app, <- app_assoc. f_equal.
    + apply list_fmap_ext. intros j c Hc. rewrite list_to_map_cons, lookup_insert_ne; [done|]. intros ->. apply Hin.
      apply list_elem_of_fmap. exists c. split; [done|by eapply list_elem_of_lookup_2].
    + cbn. rewrite Hm, Hnone. cbn. do 2 f_equal. apply filter_ext_in.
      intros [m w] Hmw. rewrite elem_of_app. cbn. rewrite list_elem_of_singleton.
      assert (m ≠ n) by (intros ->; apply Hn; apply list_elem_of_fmap; by exists (n, w)). naive_solver.
Qed.

Section android.
Context `{JsonText} (range : string → gmap string string → list (string * string)) (read : string → res string).

(** The packages of a lock file, with its path. *)
Definition read_lock (jobCtx : JobContext) (name : string) (parse : string → gmap string string)
    : option (string * gmap string string) :=
  (λ '(data, path), (path, parse data)) <$> readFirstExisting read (lockfileCandidates jobCtx name).

(** The npm lock file counts if it names a package, the one of yarn otherwise. *)
Definition npm_lock (jobCtx : JobContext) : option (string * gmap string string) :=
  match read_lock jobCtx "package-lock.json" (ParsePackageLockJSON (range "packages")) with
  | Some (path, versions) => if decide (versions = ∅) then read_lock jobCtx "yarn.lock" ParseYarnLock else Some (path, versions)
  | None => read_lock jobCtx "yarn.lock" ParseYarnLock
  end.

Definition with_lock (eco ref : string) (lock : option (string * gmap string string)) (l : list SBOMComponent) : list SBOMComponent :=
  match lock with
  | Some (path, versions) =>
      enriched (upgraded (eco_purl eco) path) (made newLockfileComponent (eco_purl eco) ref path) (range path versions) l
  | None => l
  end.

Context (range_ok : ∀ k m, range k m ≡ₚ map_to_list m).

Lemma range_keys k m : NoDup (range k m).*1.
Proof. rewrite range_ok. apply NoDup_fst_map_to_list. Qed.

Lemma range_empty k : range k ∅ = [].
Proof. apply Permutation_nil_r. by rewrite range_ok, map_to_list_empty. Qed.

Lemma holds_lock eco ref lock ix ps l : holds ix ps l →
  let ix' := match lock with Some (path, versions) => foldl (apply_version eco ref path) ix (range path versions) | None => ix end in
  ∃ ps', holds ix' ps' (with_lock eco ref lock l) ∧ (ps = seq 0 (length (heap ix)) → ps' = seq 0 (length (heap ix'))).
Proof.
  intros Hh. destruct lock as [[path versions]|]; cbn; [|by exists ps].
  destruct (holds_fold eco ref path (range path versions) ix ps l Hh) as (ps' & H' & Hs). exists ps'.
  rewrite merge_enriched in H'; [done| | |apply range_keys]; intros; [apply upgraded_Name|apply newLockfileComponent_Name].
Qed.

Lemma enrich_pub_lock jobCtx ix : enrich_pub range read jobCtx ix =
  match read_lock jobCtx "pubspec.lock" ParsePubspecLock with
  | Some (path, versions) => foldl (apply_version "pub" "pub" path) ix (range path versions)
  | None => ix
  end.
Proof. unfold enrich_pub, read_lock. by destruct (readFirstExisting _ _) as [[??]|]. Qed.

Lemma enrich_js_lock jobCtx ix :
  (let '(handled, ix) := enrich_npm range read jobCtx ix in if (handled : bool) then ix else enrich_yarn range read jobCtx ix) =
  match npm_lock jobCtx with
  | Some (path, versions) => foldl (apply_version "npm" "npm" path) ix (range path versions)
  | None => ix
  end.
Proof.
  assert (Hy : ∀ ix, enrich_yarn range read jobCtx ix =
    match read_lock jobCtx "yarn.lock" ParseYarnLock with
    | Some (path, versions) => foldl (apply_version "npm" "npm" path) ix (range path versions) | None => ix end).
  { intros ix'. unfold enrich_yarn, read_lock. by destruct (readFirstExisting _ _) as [[??]|]. }
  unfold enrich_npm, npm_lock, read_lock at 1. destruct (readFirstExisting _ _) as [[data path]|]; cbn; [|apply Hy].
  case_bool_decide as He; case_decide; try done. cbn. rewrite He. unfold applyNPMVersions. rewrite range_empty. apply Hy.
Qed.

(** Enriching an Android bill of materials through pointers, maps and two lock files
    gives what plain lists give: of components with one name the first, each upgraded to
    the version the Flutter lock file and then the npm or yarn one have for its name, and
    the packages found nowhere else, once each, behind them; no other component is lost,
    whatever order the maps are ranged in.  If the names are distinct, the components of
    the caller have become the first ones of the answer. *)
Theorem android_enrichment jobCtx components :
  let result := EnrichFromAndroidLockfiles range read jobCtx components in
  result.1 = with_lock "npm" "npm" (npm_lock jobCtx)
               (with_lock "pub" "pub" (read_lock jobCtx "pubspec.lock" ParsePubspecLock) (distinct id components)) ∧
  (NoDup (Name <$> components) → result.2 = take (length components) result.1).
Proof.
  unfold EnrichFromAndroidLockfiles. pose proof (enrich_js_lock jobCtx (enrich_pub range read jobCtx (new_index components))) as Hjs.
  destruct (enrich_npm range read jobCtx _) as [handled ix]. rewrite Hjs. clear Hjs handled ix. rewrite enrich_pub_lock.
  destruct (holds_new components) as (ps & H0 & Hh & _ & Hseq).
  destruct (holds_lock "pub" "pub" (read_lock jobCtx "pubspec.lock" ParsePubspecLock) _ _ _ H0) as (ps1 & H1 & Hs1).
  destruct (holds_lock "npm" "npm" (npm_lock jobCtx) _ _ _ H1) as (ps2 & H2 & Hs2). cbn in *.
  set (ix := match npm_lock jobCtx with Some _ => _ | None => _ end) in *. set (l := with_lock _ _ _ (with_lock _ _ _ _)) in *.
  destruct H2 as [Hp Ho]. rewrite Ho, (pointed_collect id _ _ _ _ Hp). split; [done|].
  intros Hnd. f_equal. destruct Hp as (Hl & _). rewrite Hs2 in Hl; [|apply Hs1; rewrite Hh; auto].
  apply list_eq. intros i. pose proof (Forall2_length _ _ _ Hl) as Hlen. rewrite length_seq in Hlen.
  destruct (l !! i) as [c|] eqn:Hi.
  - destruct (Forall2_lookup_r _ _ _ _ _ Hl Hi) as (p & Hps & Hc). apply lookup_seq in Hps as [-> _]. done.
  - apply lookup_ge_None. apply lookup_ge_None in Hi. lia.
Qed.
End android.

(** *** iOS *)

Section ios_merge.
Context (ToLower : string → string).

Definition ios_holds (ix : ios_index) (ps : list nat) (l : list SBOMComponent) : Prop :=
  pointed ToLower (i_heap ix) (λ n, i_byName ix !! ToLower n) ps l ∧ i_order ix = Name <$> l ∧
  ∀ n p, byOrig ix !! n = Some p → i_byName ix !! ToLower n = Some p.

Lemma lookup_name_lower ix ps l n : ios_holds ix ps l → lookup_name ToLower ix n = i_byName ix !! ToLower n.
Proof. intros (_ & _ & H). unfold lookup_name. destruct (byOrig ix !! n) as [p|] eqn:E; [|done]. by rewrite (H _ _ E). Qed.

(** A new name in both maps. *)
Lemma both_maps ix name p : i_byName ix !! ToLower name = None →
  (∀ n q, byOrig ix !! n = Some q → i_byName ix !! ToLower n = Some q) →
  ∀ n q, <[name := p]> (byOrig ix) !! n = Some q → <[ToLower name := p]> (i_byName ix) !! ToLower n = Some q.
Proof.
  intros Hnone Ho n q. destruct (decide (n = name)) as [->|Hn].
  - by rewrite !lookup_insert_eq.
  - rewrite lookup_insert_ne by done. intros Hq%Ho. rewrite lookup_insert_ne; [done|]. intros E. by rewrite <- E, Hnone in Hq.
Qed.

Lemma find_insert (m : gmap string nat) name p n :
  <[ToLower name := p]> m !! ToLower n = if decide (ToLower name = ToLower n) then Some p else m !! ToLower n.
Proof. case_decide as H; [by rewrite H, lookup_insert_eq|by rewrite lookup_insert_ne]. Qed.

Lemma ios_holds_new components : ∃ ps, ios_holds (new_ios_index ToLower components) ps (distinct ToLower components).
Proof.
  unfold new_ios_index. assert (H : ∀ k h, k `prefix_of` h →
    let ix := foldl (ios_component ToLower) (mk_ios_index h ∅ ∅ []) (zip (seq 0 (length k)) k) in
    ∃ ps, ios_holds ix ps (distinct ToLower k) ∧ i_heap ix = h ∧ ∀ p, p ∈ ps → (p < length k)%nat);
    [|by destruct (H components components) as (ps & ? & _); [done|exists ps]].
  intros k h. induction k as [|c k IH] using rev_ind; intros Hk; cbv zeta.
  - exists []. split_and!; [|done|intros p Hp; by apply not_elem_of_nil in Hp]. split; [|by split; [|intros n p; cbn; rewrite lookup_empty]].
    split; [constructor|]. split; [constructor|]. split; [constructor|]. intros n p. cbn. rewrite lookup_empty.
    split; [done|]. by intros (i & c & Hi & _).
  - destruct Hk as [k' Hk']. destruct IH as (ps & Hix & Hh & Hlt); [exists ([c] ++ k'); by rewrite Hk', <- app_assoc|].
    rewrite zip_seq_snoc, foldl_app. cbn [foldl]. set (ix := foldl (ios_component ToLower) _ _) in *. rewrite distinct_snoc.
    destruct Hix as (Hp & Ho & Hm). unfold ios_component. destruct (i_byName ix !! ToLower (Name c)) as [p|] eqn:E.
    + rewrite (pointed_hit _ _ _ _ _ _ _ Hp E). exists ps. split_and!; [done|done|].
      intros p' Hp'. rewrite length_app. specialize (Hlt p' Hp'). lia.
    + rewrite (pointed_miss _ _ _ _ _ _ Hp E). exists (ps ++ [length k]). split; [split; [|split]|split_and!].
      * eapply pointed_point; [exact Hp|exact E| | |].
        -- rewrite Hh, Hk', <- app_assoc. by apply list_lookup_middle.
        -- intros Hin. specialize (Hlt _ Hin). lia.
        -- intros n. apply find_insert.
      * cbn. by rewrite Ho, fmap_app.
      * by apply both_maps.
      * done.
      * intros p. rewrite elem_of_app, list_elem_of_singleton, length_app. cbn. intros [Hin| ->]; [specialize (Hlt _ Hin)|]; lia.
Qed.

Lemma ios_holds_apply purl_of ref path ix ps l nv : ios_holds ix ps l →
  ∃ ps', ios_holds (apply_ios ToLower purl_of ref path ix nv) ps'
           (merge ToLower (upgraded purl_of path) (made newIOSLockfileComponent purl_of ref path) l nv).
Proof.
  destruct nv as [name ver]. intros Hix. unfold apply_ios, merge. rewrite (lookup_name_lower _ _ _ _ Hix).
  destruct Hix as (Hp & Ho & Hm). destruct (i_byName ix !! ToLower name) as [p|] eqn:E.
  - rewrite (pointed_hit _ _ _ _ _ _ _ Hp E). exists ps. split; [|split; [|done]].
    + apply (pointed_alter ToLower _ _ _ _ name p (upgraded purl_of path name ver) Hp E), upgraded_Name.
    + cbn. rewrite Ho, <- list_fmap_compose. apply list_fmap_ext. intros i c _. cbn.
      destruct (named ToLower c name); [by rewrite upgraded_Name|done].
  - rewrite (pointed_miss _ _ _ _ _ _ Hp E). exists (ps ++ [length (i_heap ix)]). split; [|split].
    + eapply pointed_add; [exact Hp|exact E|]. intros n. apply find_insert.
    + rewrite fmap_app. cbn. by rewrite Ho.
    + by apply both_maps.
Qed.

Lemma ios_holds_fold purl_of ref path vs : ∀ ix ps l, ios_holds ix ps l →
  ∃ ps', ios_holds (foldl (apply_ios ToLower purl_of ref path) ix vs) ps'
           (foldl (merge ToLower (upgraded purl_of path) (made newIOSLockfileComponent purl_of ref path)) l vs).
Proof.
  induction vs as [|nv vs IH]; intros ix ps l H; [by exists ps|]. cbn.
  destruct (ios_holds_apply purl_of ref path ix ps l nv H) as (ps1 & H1). exact (IH _ _ _ H1).
Qed.

Lemma ios_collect ix ps l : ios_holds ix ps l →
  omap (λ name, p ← match byOrig ix !! name with Some p => Some p | None => i_byName ix !! ToLower name end; i_heap ix !! p)
    (i_order ix) = l.
Proof.
  intros Hix. pose proof (λ n, lookup_name_lower ix ps l n Hix) as Hf. destruct Hix as (Hp & -> & _).
  rewrite <- (pointed_collect _ _ _ _ _ Hp) at 2. generalize (Name <$> l). intros k. induction k as [|n k IH]; [done|].
  cbn. change (match byOrig ix !! n with Some p => Some p | None => _ end) with (lookup_name ToLower ix n). rewrite Hf.
  by rewrite IH.
Qed.

Context `{JsonText} (number_int : spec_float → option Z) (range : string → gmap string string → list (string * string)).
Context (read : string → res string).

Definition merge_lock (jobCtx : JobContext) (name ref : string) (parse : string → gmap string string)
    (purl_of : string → string → string) (l : list SBOMComponent) : list SBOMComponent :=
  match readFirstExisting read (iosLockfileCandidates jobCtx name) with
  | Some (data, path) =>
      foldl (merge ToLower (upgraded purl_of path) (made newIOSLockfileComponent purl_of ref path)) l (range path (parse data))
  | None => l
  end.

(** Enriching an iOS bill of materials through pointers and two maps gives what a
    list searched without regard to case gives: the first component of each name, then
    one pod and one Swift package after the other, each upgrading the component of its
    name in any case, or added behind. *)
Theorem ios_enrichment jobCtx components :
  (EnrichFromIOSLockfiles ToLower number_int range read jobCtx components).1 =
  merge_lock jobCtx "Package.resolved" "spm" (ParsePackageResolved number_int) swift_purl
    (merge_lock jobCtx "Podfile.lock" "pod" ParsePodfileLock pod_purl (distinct ToLower components)).
Proof.
  unfold EnrichFromIOSLockfiles. cbn [fst]. destruct (ios_holds_new components) as (ps & H0).
  assert (∃ ps1, ios_holds (enrich_pods ToLower range read jobCtx (new_ios_index ToLower components)) ps1
    (merge_lock jobCtx "Podfile.lock" "pod" ParsePodfileLock pod_purl (distinct ToLower components))) as (ps1 & H1).
  { unfold enrich_pods, merge_lock. destruct (readFirstExisting _ _) as [[data path]|]; [|by exists ps]. by eapply ios_holds_fold. }
  assert (∃ ps2, ios_holds (enrich_swift ToLower number_int range read jobCtx
      (enrich_pods ToLower range read jobCtx (new_ios_index ToLower components))) ps2
    (merge_lock jobCtx "Package.resolved" "spm" (ParsePackageResolved number_int) swift_purl
      (merge_lock jobCtx "Podfile.lock" "pod" ParsePodfileLock pod_purl (distinct ToLower components)))) as (ps2 & H2).
  { unfold enrich_swift, merge_lock at 1. destruct (readFirstExisting _ (iosLockfileCandidates jobCtx "Package.resolved")) as [[data path]|];
      [|by exists ps1]. by eapply ios_holds_fold. }
  by eapply ios_collect.
Qed.
End ios_merge.

(** ** Reading a lock file back *)

Definition unlines (l : list string) : string := concat_str ((λ s, s +:+ String lf "") <$> l).

(** A line that the scanner gives as it is. *)
Definition line_ok (s : string) : Prop := IndexByte s lf = None ∧ len s < 65536 ∧ ends_cr s = false.

Lemma raw_lines_app x p r : IndexByte x lf = None → raw_lines p (x +:+ r) = raw_lines (p +:+ x) r.
Proof.
  revert p. induction x as [|c x IH]; intros p Hx; [by rewrite string_app_nil_r|].
  cbn in Hx |- *. destruct (decide (c = lf)); [done|]. destruct (IndexByte x lf); [done|].
  rewrite IH by done. by rewrite string_app_assoc.
Qed.

Lemma ScanLines_unlines l : Forall line_ok l → ScanLines (unlines l) = l.
Proof.
  unfold ScanLines. induction 1 as [|s l (Hlf & Hlen & Hcr) _ IH]; [done|].
  change (unlines (s :: l)) with ((s +:+ String lf "") +:+ unlines l). rewrite string_app_assoc, raw_lines_app by done.
  change ("" +:+ s) with s. cbn [raw_lines String.append]. rewrite decide_True by (exact eq_refl). cbn [while_short].
  rewrite (proj2 (Z.ltb_lt _ _) Hlen). cbn. rewrite IH. unfold strip_cr. by rewrite Hcr.
Qed.

(** *** Trimming text without blanks at its ends *)

Definition is_ascii (c : ascii) : bool := byte c <? 128.
Definition graphic (c : ascii) : bool := (33 <=? byte c) && (byte c <=? 126).

Lemma graphic_ascii c : graphic c = true → is_ascii c = true.
Proof. unfold graphic, is_ascii. lia. Qed.

Lemma graphic_no_space c : graphic c = true → is_space (byte c) = false.
Proof.
  unfold graphic, is_space. intros Hc. apply orb_false_iff. split; [|lia]. apply bool_decide_eq_false_2.
  rewrite !elem_of_cons, elem_of_nil. lia.
Qed.

Lemma runes_ascii c s : is_ascii c = true → runes (String c s) = (byte c, String c "") :: runes s.
Proof. unfold runes, is_ascii. cbn. intros Hc. unfold decode_rune. rewrite Hc. cbn. by destruct s. Qed.

Lemma drop_spaces_head l : (∀ p, head l = Some p → is_space p.1 = false) → drop_spaces l = l.
Proof. destruct l as [|[r b] l]; [done|]. intros H. specialize (H (r, b) eq_refl). cbn in H |- *. by rewrite H. Qed.

Lemma last_runes s : forall_chars is_ascii s = true → last (runes s) = (λ c, (byte c, String c "")) <$> last_char s.
Proof.
  induction s as [|c s IH]; [done|]. intros [Hc Hs]%forall_chars_String. rewrite runes_ascii by done.
  destruct s as [|d s]; [done|]. specialize (IH Hs). apply forall_chars_String in Hs as [Hd _]. rewrite (runes_ascii d) in * by done. exact IH.
Qed.

(** Text of ASCII characters with no blank at its ends. *)
Definition snug (s : string) : Prop :=
  forall_chars is_ascii s = true ∧ (∀ c r, s = String c r → graphic c = true) ∧ ∀ c, last_char s = Some c → graphic c = true.

Lemma TrimSpace_snug s : snug s → TrimSpace s = s.
Proof.
  intros (Ha & Hh & Hl). unfold TrimSpace. rewrite (drop_spaces_head (runes s)).
  - rewrite (drop_spaces_head (reverse _)); [by rewrite reverse_involutive, runes_concat|].
    intros p. rewrite head_reverse, last_runes by done. intros (c & Hc & ->)%fmap_Some. cbn. auto using graphic_no_space.
  - intros p Hp. destruct s as [|c s]; [done|]. rewrite runes_ascii in Hp by (by apply forall_chars_String in Ha as [? _]).
    injection Hp as <-. cbn. eauto using graphic_no_space.
Qed.

Lemma snug_edges a m b : graphic a = true → forall_chars is_ascii m = true → graphic b = true → snug (String a (m +:+ String b "")).
Proof.
  intros Ha Hm Hb. split; [|split].
  - cbn. rewrite forall_chars_app, Hm, graphic_ascii by done. cbn. by rewrite graphic_ascii.
  - by intros ? ? [= <- _].
  - intros c. change (String a (m +:+ String b "")) with (String a m +:+ String b ""). rewrite last_char_app by done. by intros [= <-].
Qed.

Lemma rev_app_app x y acc : String.rev_app (x +:+ y) acc = String.rev_app y (String.rev_app x acc).
Proof. revert acc. induction x as [|c x IH]; intros acc; [done|]. apply IH. Qed.

Lemma HasSuffix_char x c d : HasSuffix (x +:+ String c "") (String d "") = bool_decide (d = c).
Proof.
  unfold HasSuffix, String.rev. rewrite rev_app_app. cbn. unfold HasPrefix. apply bool_decide_ext. cbn.
  case_decide as E; [by split; [|eauto]|]. split; [by intros [? ?]|by intros ->].
Qed.

Lemma TrimSuffix_char x c d : TrimSuffix (x +:+ String c "") (String d "") = if decide (d = c) then x else x +:+ String c "".
Proof.
  unfold TrimSuffix. rewrite HasSuffix_char. case_decide; [rewrite bool_decide_eq_true_2 by done|by rewrite bool_decide_eq_false_2].
  rewrite string_length_app. cbn. rewrite Nat.add_sub. apply take_str_app.
Qed.

Lemma span_app f a b : forall_chars f a = true → (∀ c r, b = String c r → f c = false) → span f (a +:+ b) = (a, b).
Proof.
  intros Ha Hb. induction a as [|c a IH].
  - destruct b as [|c b]; [done|]. cbn. by rewrite (Hb c b eq_refl).
  - apply forall_chars_String in Ha as [Hc Ha]. cbn. by rewrite Hc, IH.
Qed.

Lemma Trim_quoted v : v ≠ "" → forall_chars (λ c, negb (is_quote c)) v = true → Trim is_quote (String dquote (v +:+ String dquote "")) = v.
Proof.
  intros Hv Hq. unfold Trim. cbn [trim_left]. replace (is_quote dquote) with true by done.
  assert (Hr : ∀ w, forall_chars (λ c, negb (is_quote c)) w = true → trim_right is_quote (w +:+ String dquote "") = w).
  { induction w as [|c w IH]; [done|]. intros [Hc Hw]%forall_chars_String. cbn. rewrite IH by done.
    destruct w; [|done]. by apply negb_true_iff in Hc as ->. }
  destruct v as [|c v]; [done|]. pose proof Hq as [Hc _]%forall_chars_String. cbn [String.append trim_left].
  apply negb_true_iff in Hc. rewrite Hc. apply (Hr (String c v)). done.
Qed.

(** *** pubspec.lock *)

(** A package: its name, its version, and the lines before and after the version. *)
Record pub_entry := mk_pub { pe_name : string; pe_before : list string; pe_version : string; pe_after : list string }.

Definition attr_line (s : string) : string := "    " +:+ s.
Definition pub_lines (e : pub_entry) : list string :=
  ("  " +:+ pe_name e +:+ ":") :: (attr_line <$> pe_before e) ++
  attr_line ("version: " +:+ String dquote (pe_version e +:+ String dquote "")) :: (attr_line <$> pe_after e).

Definition pub_ok (e : pub_entry) : Prop :=
  pe_name e ≠ "" ∧ forall_chars graphic (pe_name e) = true ∧
  pe_version e ≠ "" ∧ forall_chars (λ c, graphic c && negb (is_quote c)) (pe_version e) = true ∧
  Forall (λ s, Contains s "version:" = false) (pe_before e ++ pe_after e).

(** Lines before the packages, and behind them: another section. *)
Definition pub_rest (l : list string) : Prop :=
  match l with [] => True | h :: t => top_level h = true ∧ Forall (λ s, s ≠ "packages:") (h :: t) end.

Lemma pub_outside l cur out : Forall (λ s, s ≠ "packages:") l → ∃ cur', foldl pub_line (false, cur, out) l = (false, cur', out).
Proof.
  intros H. revert cur. induction H as [|s l Hs _ IH]; intros cur; [by exists cur|]. cbn [foldl]. unfold pub_line at 2.
  rewrite decide_False by done. destruct (top_level s); apply IH.
Qed.

Lemma pub_name_line cur out name : name ≠ "" → forall_chars graphic name = true →
  pub_line (true, cur, out) ("  " +:+ name +:+ ":") = (true, name, out).
Proof.
  intros Hn Hg. assert (Ht : TrimSpace ("  " +:+ name +:+ ":") = name +:+ ":").
  { change (TrimSpace ("  " +:+ name +:+ ":")) with (TrimSpace (name +:+ ":")). apply TrimSpace_snug.
    destruct name as [|c r]; [done|]. apply forall_chars_String in Hg as [Hc Hr].
    apply snug_edges; [done| |done]. by apply (forall_chars_impl graphic); [apply graphic_ascii|]. }
  assert (Hdeep : HasPrefix ("  " +:+ name +:+ ":") "   " = false).
  { destruct name as [|c r]; [done|]. apply forall_chars_String in Hg as [Hc _]. unfold HasPrefix.
    change (strip_prefix _ _) with (if decide (" "%char = c) then Some (r +:+ ":") else None).
    rewrite decide_False by (by intros <-). apply bool_decide_eq_false_2. by intros [? ?]. }
  unfold pub_line. rewrite Ht, (HasSuffix_char name ":" ":"), (TrimSuffix_char name ":" ":"), Hdeep. done.
Qed.

Lemma Contains_attr s : Contains (attr_line s) "version:" = Contains s "version:".
Proof. unfold attr_line. cbn [String.append]. by rewrite !Contains_cons. Qed.

Lemma pub_attr_lines cur out l : cur ≠ "" → Forall (λ s, Contains s "version:" = false) l →
  foldl pub_line (true, cur, out) (attr_line <$> l) = (true, cur, out).
Proof.
  intros Hcur. induction 1 as [|s l Hs _ IH]; [done|]. cbn [fmap list_fmap foldl]. rewrite <- IH at 2. f_equal.
  unfold pub_line. by rewrite Contains_attr, Hs, !andb_false_r.
Qed.

Lemma pub_version_line cur out v : cur ≠ "" → v ≠ "" → forall_chars (λ c, graphic c && negb (is_quote c)) v = true →
  pub_line (true, cur, out) (attr_line ("version: " +:+ String dquote (v +:+ String dquote ""))) = (true, cur, <[cur := v]> out).
Proof.
  intros Hcur Hv Hg. set (q := String dquote (v +:+ String dquote "")).
  assert (Ha : forall_chars is_ascii v = true).
  { apply (forall_chars_impl (λ c, graphic c && negb (is_quote c))); [|done]. intros c [Hc _]%andb_true_iff. by apply graphic_ascii. }
  assert (Hq : snug q) by (by apply snug_edges).
  assert (Hline : TrimSpace (attr_line ("version: " +:+ q)) = "version: " +:+ q).
  { change (TrimSpace ("version: " +:+ q) = "version: " +:+ q). apply TrimSpace_snug.
    change ("version: " +:+ q) with (String "v" (("ersion: " +:+ String dquote v) +:+ String dquote "")).
    apply snug_edges; [done| |done]. rewrite forall_chars_app. cbn. by rewrite Ha. }
  unfold pub_line. rewrite Hline. change (TrimPrefix ("version: " +:+ q) "version:") with (String " " q).
  change (TrimSpace (String " " q)) with (TrimSpace q). rewrite (TrimSpace_snug q Hq).
  assert (Ht : Trim is_quote q = v).
  { apply Trim_quoted; [done|]. apply (forall_chars_impl (λ c, graphic c && negb (is_quote c))); [|done]. by intros c [_ Hc]%andb_true_iff. }
  rewrite !Ht.
  rewrite (decide_False (P := v = "")) by done. rewrite Contains_attr.
  assert (Hc : Contains ("version: " +:+ q) "version:" = true) by (apply Contains_spec; by exists "", (" " +:+ q)).
  rewrite Hc, (bool_decide_eq_false_2 (cur = "")) by done. done.
Qed.

Lemma pub_entry_lines cur out e : pub_ok e →
  foldl pub_line (true, cur, out) (pub_lines e) = (true, pe_name e, <[pe_name e := pe_version e]> out).
Proof.
  intros (Hn & Hg & Hv & Hvg & [Hb Ha]%Forall_app). unfold pub_lines. cbn [foldl]. rewrite pub_name_line by done.
  rewrite foldl_app, pub_attr_lines by done. cbn [foldl]. rewrite pub_version_line by done. by apply pub_attr_lines.
Qed.

(** A pubspec.lock is read back: the packages with their versions, the last one of each
    name, whatever stands before and behind the section. *)
Lemma pubspec_read_back before es after : Forall (λ s, s ≠ "packages:") before → Forall pub_ok es → pub_rest after →
  let lines := before ++ "packages:" :: flat_map pub_lines es ++ after in
  Forall line_ok lines →
  ParsePubspecLock (unlines lines) = foldl (λ m e, <[pe_name e := pe_version e]> m) ∅ es.
Proof.
  intros Hb He Ha lines Hok. unfold ParsePubspecLock. rewrite ScanLines_unlines by done. unfold lines. rewrite foldl_app.
  destruct (pub_outside before "" ∅ Hb) as [cur ->]. cbn [foldl]. unfold pub_line at 2. rewrite decide_True by done.
  rewrite foldl_app. clear lines Hok Hb cur. generalize "" as cur. generalize (∅ : gmap string string) as out.
  induction He as [|e es He _ IH]; intros out cur; cbn [flat_map foldl].
  - destruct after as [|h t]; [done|]. destruct Ha as [Ht [Hh Hr]%Forall_cons]. cbn [foldl]. unfold pub_line at 2.
    rewrite decide_False, Ht by done. by destruct (pub_outside t "" out Hr) as [? ->].
  - rewrite foldl_app, pub_entry_lines by done. apply IH.
Qed.

(** *** Podfile.lock *)

Record pod_entry := mk_pod { pod_name : string; pod_version : string; pod_deps : list string }.

Definition pod_lines (e : pod_entry) : list string :=
  let line := "  - " +:+ pod_name e +:+ " (" +:+ pod_version e +:+ ")" in
  match pod_deps e with [] => [line] | deps => (line +:+ ":") :: ((λ d, "    - " +:+ d) <$> deps) end.

Definition pod_ok (e : pod_entry) : Prop :=
  pod_name e ≠ "" ∧ forall_chars pod_char (pod_name e) = true ∧
  pod_version e ≠ "" ∧ forall_chars (λ c, graphic c && not_byte ")" c) (pod_version e) = true.

Lemma pod_char_graphic c : pod_char c = true → graphic c = true ∧ re_space c = false.
Proof. destruct c as [[] [] [] [] [] [] [] []]; vm_compute; by intros. Qed.

Lemma parsePodEntry_ok name version : name ≠ "" → forall_chars pod_char name = true → version ≠ "" →
  forall_chars (λ c, graphic c && not_byte ")" c) version = true →
  parsePodEntry (name +:+ " (" +:+ version +:+ ")") = Some (name, version).
Proof.
  intros Hn Hc Hv Hvc. unfold parsePodEntry.
  assert (Hva : forall_chars is_ascii version = true).
  { apply (forall_chars_impl (λ c, graphic c && not_byte ")" c)); [|done]. intros c [Hg _]%andb_true_iff. by apply graphic_ascii. }
  rewrite TrimSpace_snug.
  - rewrite span_app; [|done|by intros ? ? [= <- _]]. destruct name as [|c name]; [done|].
    change (" (" +:+ version +:+ ")") with (" " +:+ ("(" +:+ version +:+ ")")). rewrite span_app; [|done|by intros ? ? [= <- _]].
    change ("(" +:+ version +:+ ")") with (String "(" (version +:+ ")")). cbn iota beta. rewrite span_app.
    + by destruct version.
    + apply (forall_chars_impl (λ c, graphic c && not_byte ")" c)); [|done]. by intros x [_ Hx]%andb_true_iff.
    + by intros ? ? [= <- _].
  - destruct name as [|c name]; [done|]. apply forall_chars_String in Hc as [Hc Hcs].
    replace (String c name +:+ " (" +:+ version +:+ ")") with (String c ((name +:+ " (" +:+ version) +:+ ")")) by (cbn; by rewrite !string_app_assoc).
    apply snug_edges; [by apply pod_char_graphic| |done]. rewrite forall_chars_app. cbn. rewrite Hva, andb_true_r.
    apply (forall_chars_impl pod_char); [|done]. intros x Hx. by apply graphic_ascii, pod_char_graphic.
Qed.

Lemma pod_dep_lines out l : foldl pod_line (true, out) ((λ d, "    - " +:+ d) <$> l) = (true, out).
Proof. induction l as [|d l IH]; [done|exact IH]. Qed.

Lemma pod_entry_lines out e : pod_ok e → foldl pod_line (true, out) (pod_lines e) = (true, <[pod_name e := pod_version e]> out).
Proof.
  intros (Hn & Hc & Hv & Hvc). pose proof (parsePodEntry_ok _ _ Hn Hc Hv Hvc) as Hp.
  assert (Hline : ∀ tail, TrimSuffix (pod_name e +:+ " (" +:+ pod_version e +:+ ")" +:+ tail) ":" = pod_name e +:+ " (" +:+ pod_version e +:+ ")" →
    pod_line (true, out) ("  - " +:+ pod_name e +:+ " (" +:+ pod_version e +:+ ")" +:+ tail) = (true, <[pod_name e := pod_version e]> out)).
  { intros tail Ht. unfold pod_line.
    change (TrimPrefix ("  - " +:+ ?x) "  - ") with x. rewrite Ht, Hp. done. }
  unfold pod_lines. destruct (pod_deps e) as [|d deps].
  - cbn [foldl]. rewrite <- (Hline ""); [by rewrite string_app_nil_r|]. rewrite string_app_nil_r.
    replace (pod_name e +:+ " (" +:+ pod_version e +:+ ")") with ((pod_name e +:+ " (" +:+ pod_version e) +:+ ")") by (by rewrite !string_app_assoc).
    by rewrite (TrimSuffix_char _ ")" ":").
  - cbn [foldl]. rewrite <- (pod_dep_lines (<[pod_name e:=pod_version e]> out) (d :: deps)), <- (Hline ":").
    + do 2 f_equal. by rewrite !string_app_assoc.
    + replace (pod_name e +:+ " (" +:+ pod_version e +:+ ")" +:+ ":") with ((pod_name e +:+ " (" +:+ pod_version e +:+ ")") +:+ ":")
        by (by rewrite !string_app_assoc). by rewrite (TrimSuffix_char _ ":" ":").
Qed.

(** Behind the pods: another section, with no further pods in the file. *)
Definition header (s : string) : bool := negb (HasPrefix s " ") && negb (HasPrefix s (String tab "")).
Definition pod_rest (l : list string) : Prop :=
  match l with [] => True | h :: _ => header h = true end ∧ Forall (λ s, header s = true → TrimSuffix (TrimSpace s) ":" ≠ "PODS") l.

Lemma pod_outside l out : Forall (λ s, header s = true → TrimSuffix (TrimSpace s) ":" ≠ "PODS") l →
  foldl pod_line (false, out) l = (false, out).
Proof.
  induction 1 as [|s l Hs _ IH]; [done|]. cbn [foldl]. rewrite <- IH at 2. f_equal. unfold pod_line. fold (header s).
  destruct (header s); [|done]. by rewrite bool_decide_eq_false_2 by auto.
Qed.

(** A Podfile.lock is read back: the pods with their versions and not their dependencies. *)
Lemma podfile_read_back es after : Forall pod_ok es → pod_rest after →
  let lines := "PODS:" :: flat_map pod_lines es ++ after in
  Forall line_ok lines →
  ParsePodfileLock (unlines lines) = foldl (λ m e, <[pod_name e := pod_version e]> m) ∅ es.
Proof.
  intros He Ha lines Hok. unfold ParsePodfileLock. rewrite ScanLines_unlines by done. unfold lines. cbn [foldl].
  change (pod_line (false, ∅) "PODS:") with (true, ∅ : gmap string string). clear lines Hok.
  rewrite foldl_app. generalize (∅ : gmap string string) as out. induction He as [|e es He _ IH]; intros out; cbn [flat_map foldl].
  - destruct Ha as [Hh Ha]. destruct after as [|h t]; [done|]. inversion_clear Ha as [|? ? Hr Hrs]. cbn [foldl]. unfold pod_line at 2.
    fold (header h). rewrite Hh, bool_decide_eq_false_2 by auto. by rewrite pod_outside.
  - rewrite foldl_app, pod_entry_lines by done. apply IH.
Qed.

(** The lock files of Flutter and CocoaPods are read back: whatever packages are
    printed, with whatever attributes or dependencies, between whatever other sections,
    the parser gives each package's last version and nothing else. *)
Theorem lock_files_read_back :
  (∀ before es after, Forall (λ s, s ≠ "packages:") before → Forall pub_ok es → pub_rest after →
    Forall line_ok (before ++ "packages:" :: flat_map pub_lines es ++ after) →
    ParsePubspecLock (unlines (before ++ "packages:" :: flat_map pub_lines es ++ after)) =
    foldl (λ m e, <[pe_name e := pe_version e]> m) ∅ es) ∧
  (∀ es after, Forall pod_ok es → pod_rest after → Forall line_ok ("PODS:" :: flat_map pod_lines es ++ after) →
    ParsePodfileLock (unlines ("PODS:" :: flat_map pod_lines es ++ after)) =
    foldl (λ m e, <[pod_name e := pod_version e]> m) ∅ es).
Proof. split; intros; [by apply pubspec_read_back|by apply podfile_read_back]. Qed.

(** ** Instances *)

(** A key that is not a name of its own has its version in the text all the same. *)
Example nested_key_read :
  ParsePubspecLock (unlines ["packages:"; "  a:"; "    version: 1.0.0"; "    sdk_version: 9"]) !! "a" = Some "sdk_version: 9".
Proof. by vm_compute. Qed.

(** A name followed by a comment leaves its version to the package before. *)
Example comment_moves_version :
  ParsePubspecLock (unlines ["packages:"; "  a:"; "    version: 1.0.0"; "  b: # pinned"; "    version: 2.0.0"]) = {["a" := "2.0.0"]}.
Proof. by vm_compute. Qed.

(** Which version of a package that is installed twice is reported depends on the order
    in which the map is ranged over. *)
Definition twice : list (string * string) := [("node_modules/b", "1.0.0"); ("node_modules/a/node_modules/b", "2.0.0")].
Example npm_version_by_chance :
  foldl npm_entry ∅ twice = {["b" := "2.0.0"]} ∧ foldl npm_entry ∅ (reverse twice) = {["b" := "1.0.0"]}.
Proof. by vm_compute. Qed.

Example npm_name_too_deep : npm_name "node_modules/a/node_modules/b/node_modules/c" = "b/node_modules/c".
Proof. by vm_compute. Qed.

(** An npm package that has the name of a Maven artifact gets its group. *)
Example npm_package_in_maven_group :
  let c := made newLockfileComponent (eco_purl "npm") "npm" "yarn.lock" "gson" "1.0.0" in
  Purl c = "pkg:npm/gson@1.0.0" ∧ Group c = "com.google.code.gson".
Proof. by vm_compute. Qed.

(** Of two components with one name the second is lost, lock files or not. *)
Example duplicate_lost :
  let lib path := NewNativeLibComponent "libfoo.so" [path] "" in
  (new_index [lib "a"; lib "b"]).(order) = ["libfoo.so"].
Proof. by vm_compute. Qed.

Example title_case_keeps_rest : titleCase "aLAMOFIRE" = "ALAMOFIRE".
Proof. by vm_compute. Qed.

Definition sample_ctx : JobContext := mk_ctx "j" "/tmp/w/j".
Definition sample_pubspec : string := unlines ["packages:"; "  http:"; "    version: " +:+ String dquote ("1.2.3" +:+ String dquote "")].
Definition sample_read (p : string) : res string := if decide (p = "/tmp/w/j/pubspec.lock") then Ok sample_pubspec else Err (ENew "no such file").
Definition ranged (_ : string) (m : gmap string string) : list (string * string) := map_to_list m.

Lemma android_enrichment_witness :
  Name <$> (EnrichFromAndroidLockfiles (H := Binary.format) ranged sample_read sample_ctx [NewRuntimeComponent "Flutter" ["x"]]).1 = ["Flutter"; "http"].
Proof.
  rewrite (proj1 (android_enrichment (H := Binary.format) ranged sample_read (λ _ m, reflexivity _) sample_ctx [NewRuntimeComponent "Flutter" ["x"]])).
  vm_compute. reflexivity.
Defined.
