(* ===== verification/Badging.v ===== *)
(** * Package data ([apk/packageparse.go], [models/PackageDataModel.go])

    The package data read from the output of [aapt dump badging].  The expressions of
    the parser are its matchers here; the tool, the hash of the file and the cache are
    parameters. *)
From Stdlib Require Import Ascii ZArith.
From S2P Require Import Prelude GoStr GoErr GoPath.

Local Open Scope Z_scope.

Definition apostrophe : ascii := byte_of 39.
Definition line_feed : ascii := byte_of 10.

(** ** The expressions *)

(** [ [^']+ ] and the closing quote: the value and what follows it. *)
Definition closed (s : string) : option (string * string) :=
  match until apostrophe s with
  | ("", _) => None
  | (v, String _ rest) => Some (v, rest)
  | (_, "") => None
  end.

(** [ lit'([^']+)' ] at the leftmost place it matches. *)
Fixpoint find_value (lit s : string) : option string :=
  match strip_prefix (lit +:+ String apostrophe "") s with
  | Some rest => match closed rest with
                 | Some (v, _) => Some v
                 | None => match s with "" => None | String _ s' => find_value lit s' end
                 end
  | None => match s with "" => None | String _ s' => find_value lit s' end
  end.

(** [ package:.*?lit'([^']+)' ] *)
Definition package_value (lit line : string) : option string :=
  match Index line "package:" with
  | Some i => find_value lit (drop_str (i + 8) line)
  | None => None
  end.

Definition ppPackageName : string → option string := package_value "name=".
Definition ppVersionCode : string → option string := package_value "versionCode=".
Definition ppVersionName : string → option string := package_value "versionName=".
Definition ppCompileSdkVersion : string → option string := package_value "compileSdkVersion=".
Definition ppSdkVersion : string → option string := find_value "sdkVersion:".
Definition ppTargetSdk : string → option string := find_value "targetSdkVersion:".

(** [FindAllStringSubmatch] of [ '([^']+)' ]; the fuel is the length of the text. *)
Fixpoint quoted_values (fuel : nat) (s : string) : list string :=
  match fuel, s with
  | S fuel, String c s' =>
      if decide (c = apostrophe) then
        match closed s' with
        | Some (v, rest) => v :: quoted_values fuel rest
        | None => quoted_values fuel s'
        end
      else quoted_values fuel s'
  | _, _ => []
  end.
Definition ppQuotedValue (s : string) : list string := quoted_values (String.length s) s.

(** ** The parser *)

Record PackageDataModel := mk_package {
  APKHash : string; PackageName : string; VersionCode : string; VersionName : string; CompileSdkVersion : string;
  SdkVersion : string; TargetSdk : string; MinSDK : string;
  SupportScreens : list string; Densities : list string; NativeCode : list string }.

(** The variables of the loop. *)
Record vars := mk_vars {
  package_name : string; version_code : string; version_name : string; compile_sdk_version : string;
  sdk_version : string; target_sdk : string;
  support_screens : list string; densities : list string; native_code : list string }.

Definition no_vars : vars := mk_vars "" "" "" "" "" "" [] [] [].

Definition package_step (line : string) (v : vars) : vars :=
  mk_vars (default (package_name v) (ppPackageName line)) (default (version_code v) (ppVersionCode line))
    (default (version_name v) (ppVersionName line)) (default (compile_sdk_version v) (ppCompileSdkVersion line))
    (sdk_version v) (target_sdk v) (support_screens v) (densities v) (native_code v).
Definition sdk_step (line : string) (v : vars) : vars :=
  mk_vars (package_name v) (version_code v) (version_name v) (compile_sdk_version v)
    (default (sdk_version v) (ppSdkVersion line)) (target_sdk v) (support_screens v) (densities v) (native_code v).
Definition target_step (line : string) (v : vars) : vars :=
  mk_vars (package_name v) (version_code v) (version_name v) (compile_sdk_version v) (sdk_version v)
    (default (target_sdk v) (ppTargetSdk line)) (support_screens v) (densities v) (native_code v).
Definition screens_step (l : list string) (v : vars) : vars :=
  mk_vars (package_name v) (version_code v) (version_name v) (compile_sdk_version v) (sdk_version v) (target_sdk v)
    l (densities v) (native_code v).
Definition densities_step (l : list string) (v : vars) : vars :=
  mk_vars (package_name v) (version_code v) (version_name v) (compile_sdk_version v) (sdk_version v) (target_sdk v)
    (support_screens v) l (native_code v).
Definition native_step (l : list string) (v : vars) : vars :=
  mk_vars (package_name v) (version_code v) (version_name v) (compile_sdk_version v) (sdk_version v) (target_sdk v)
    (support_screens v) (densities v) l.

Definition badging_line (v : vars) (raw : string) : vars :=
  let line := TrimSpace raw in
  let v := if HasPrefix line "package:" then package_step line v else v in
  let v := if HasPrefix line "sdkVersion:" then sdk_step line v else v in
  let v := if HasPrefix line "targetSdkVersion:" then target_step line v else v in
  let v := if HasPrefix line "supports-screens:"
           then screens_step (ppQuotedValue (TrimPrefix line "supports-screens:")) v else v in
  let v := if HasPrefix line "densities:" then densities_step (ppQuotedValue (TrimPrefix line "densities:")) v else v in
  if HasPrefix line "native-code:" then native_step (ppQuotedValue (TrimPrefix line "native-code:")) v else v.

Definition parse_badging (output : string) : vars := foldl badging_line no_vars (Split output line_feed).

Definition empty_package : PackageDataModel := mk_package "" "" "" "" "" "" "" "" [] [] [].

Definition package_of (apkHash : string) (v : vars) : PackageDataModel :=
  mk_package apkHash (package_name v) (version_code v) (version_name v) (compile_sdk_version v) (sdk_version v)
    (target_sdk v) (sdk_version v) (support_screens v) (densities v) (native_code v).

Section extract.
(** The state of the cache, its two operations, the hash of a file (empty when it
    cannot be read) and the tool. *)
Context {C : Type} (GetPackageDataFromCache : string → C → option PackageDataModel * C)
  (SetPackageDataInCache : string → PackageDataModel → C → C) (HashFileCached : string → string)
  (aapt : string → res string).

Definition ExtractPackageData (apkPath : string) (c : C) : PackageDataModel * C :=
  let apkHash := HashFileCached apkPath in
  let '(cached, c) := GetPackageDataFromCache apkHash c in
  match cached with
  | Some p => (p, c)
  | None =>
      match aapt apkPath with
      | Err _ => (empty_package, c)
      | Ok output =>
          let p := package_of apkHash (parse_badging output) in
          (p, if decide (apkHash = "") then c else SetPackageDataInCache apkHash p c)
      end
  end.
End extract.

(** ** What the tool prints *)

Inductive entry :=
  | EPackage (name code vname sdk : string)
  | ESdk (v : string) | ETarget (v : string)
  | EScreens (l : list string) | EDensities (l : list string) | ENative (l : list string)
  | EOther (s : string).

Definition q (v : string) : string := String apostrophe (v +:+ String apostrophe "").
Fixpoint qs (l : list string) : string := match l with [] => "" | v :: l => " " +:+ q v +:+ qs l end.

Definition print_entry (e : entry) : string :=
  match e with
  | EPackage n c v s => "package: name=" +:+ q n +:+ " versionCode=" +:+ q c +:+ " versionName=" +:+ q v +:+
                        " platformBuildVersionName='' compileSdkVersion=" +:+ q s +:+ " compileSdkVersionCodename=''"
  | ESdk v => "sdkVersion:" +:+ q v
  | ETarget v => "targetSdkVersion:" +:+ q v
  | EScreens l => "supports-screens:" +:+ qs l
  | EDensities l => "densities:" +:+ qs l
  | ENative l => "native-code:" +:+ qs l
  | EOther s => s
  end.

(** What an entry says. *)
Definition says (v : vars) (e : entry) : vars :=
  match e with
  | EPackage n c vn s => mk_vars n c vn s (sdk_version v) (target_sdk v) (support_screens v) (densities v) (native_code v)
  | ESdk x => mk_vars (package_name v) (version_code v) (version_name v) (compile_sdk_version v) x (target_sdk v)
                (support_screens v) (densities v) (native_code v)
  | ETarget x => mk_vars (package_name v) (version_code v) (version_name v) (compile_sdk_version v) (sdk_version v) x
                (support_screens v) (densities v) (native_code v)
  | EScreens l => screens_step l v
  | EDensities l => densities_step l v
  | ENative l => native_step l v
  | EOther _ => v
  end.

(** A value is not empty, holds no quote and does not end in an equals sign. *)
Fixpoint last_byte (s : string) : option ascii :=
  match s with "" => None | String c "" => Some c | String _ s' => last_byte s' end.
Definition value_ok (v : string) : Prop :=
  nonempty v = true ∧ forall_chars (not_byte apostrophe) v = true ∧ last_byte v ≠ Some "="%char.

Definition entry_ok (e : entry) : Prop :=
  TrimSpace (print_entry e) = print_entry e ∧ forall_chars (not_byte line_feed) (print_entry e) = true ∧
  match e with
  | EPackage n c v s => value_ok n ∧ value_ok c ∧ value_ok v ∧ value_ok s
  | ESdk v | ETarget v => value_ok v
  | EScreens l | EDensities l | ENative l => Forall value_ok l
  | EOther s => Forall (λ p, HasPrefix s p = false)
      ["package:"; "sdkVersion:"; "targetSdkVersion:"; "supports-screens:"; "densities:"; "native-code:"]
  end.

(** ** Reading back *)

(** [s] ends in [lit]. *)
Fixpoint ends_with (lit s : string) : bool :=
  bool_decide (s = lit) || match s with "" => false | String _ s' => ends_with lit s' end.

Lemma ends_with_last lit s c : ends_with (lit +:+ String c "") s = true → last_byte s = Some c.
Proof.
  induction s as [|x s IH]; cbn [ends_with]; rewrite orb_true_iff, bool_decide_eq_true.
  - intros [H|[=]]. by destruct lit.
  - intros [H|H%IH]; [|by destruct s]. rewrite H. clear. induction lit as [|y lit IH]; [done|].
    cbn. by destruct lit.
Qed.

Section find.
Context (lit : string) (Hlit : forall_chars (not_byte apostrophe) lit = true).

Lemma quote_prefix a r : forall_chars (not_byte apostrophe) a = true →
  strip_prefix (lit +:+ String apostrophe "") (a +:+ String apostrophe r) = if bool_decide (a = lit) then Some r else None.
Proof using Hlit.
  intros Ha. case_bool_decide as E.
  - subst. apply strip_prefix_Some. by rewrite string_app_assoc.
  - destruct (strip_prefix _ _) as [x|] eqn:H; [|done]. apply strip_prefix_Some in H. rewrite string_app_assoc in H.
    apply (f_equal (until apostrophe)) in H. cbn [String.append] in H.
    rewrite !until_app in H by done. congruence.
Qed.

Lemma closed_value v r : nonempty v = true → forall_chars (not_byte apostrophe) v = true →
  closed (v +:+ String apostrophe r) = Some (v, r).
Proof using. intros Hn Hv. unfold closed. rewrite until_app by done. by destruct v. Qed.

(** A text in quotes or between them that does not end in [lit] is passed over. *)
Lemma find_skip_clean a r : forall_chars (not_byte apostrophe) a = true → ends_with lit a = false →
  find_value lit (a +:+ String apostrophe r) = find_value lit r.
Proof using Hlit.
  induction a as [|c a IH]; cbn [ends_with]; intros Ha [E He]%orb_false_iff;
    pose proof (quote_prefix _ r Ha) as P; rewrite E in P.
  - cbn [String.append] in *. cbn [find_value]. by rewrite P.
  - apply forall_chars_String in Ha as [_ Ha]. cbn [String.append] in *. cbn [find_value].
    rewrite P. by apply IH.
Qed.

Lemma find_hit a v r : forall_chars (not_byte apostrophe) a = true → ends_with lit a = true →
  nonempty v = true → forall_chars (not_byte apostrophe) v = true →
  find_value lit (a +:+ String apostrophe (v +:+ String apostrophe r)) = Some v.
Proof using Hlit.
  intros Ha He Hn Hv. induction a as [|c a IH]; cbn [ends_with] in He; apply orb_true_iff in He;
    pose proof (quote_prefix _ (v +:+ String apostrophe r) Ha) as P; case_bool_decide as E.
  1,3: cbn [String.append] in *; cbn [find_value]; rewrite P; by rewrite closed_value.
  - by destruct He.
  - destruct He as [|He]; [done|]. apply forall_chars_String in Ha as [_ Ha]. cbn [String.append] in *. cbn [find_value].
    rewrite P. by apply IH.
Qed.
End find.

Lemma quoted_values_qs n l : Forall value_ok l → (String.length (qs l) ≤ n)%nat → quoted_values n (qs l) = l.
Proof.
  intros H. revert n. induction H as [|v l (Hn & Hv & _) _ IH]; intros n Hl; [by destruct n|].
  cbn [qs] in *. unfold q in *. cbn [String.append] in *. rewrite ?string_app_assoc in *. cbn [String.append] in *.
  cbn [String.length] in Hl. rewrite string_length_app in Hl. cbn [String.length] in Hl.
  destruct n as [|[|n]]; [lia..|]. cbn [quoted_values]. rewrite decide_False, decide_True by done.
  rewrite closed_value by done. rewrite IH by lia. done.
Qed.

Lemma value_ends v lit : value_ok v → ends_with (lit +:+ "=") v = false.
Proof. intros (_ & _ & H). apply not_true_iff_false. intros E%ends_with_last. done. Qed.

Lemma package_line_read n c v s x : value_ok n → value_ok c → value_ok v → value_ok s →
  package_step (print_entry (EPackage n c v s)) x = says x (EPackage n c v s).
Proof.
  intros Hn Hc Hv Hs. unfold package_step.
  assert (Hp : print_entry (EPackage n c v s) = "package:" +:+ (" name=" +:+ String apostrophe (n +:+ String apostrophe
    (" versionCode=" +:+ String apostrophe (c +:+ String apostrophe (" versionName=" +:+ String apostrophe (v +:+ String apostrophe
    (" platformBuildVersionName=" +:+ String apostrophe ("" +:+ String apostrophe (" compileSdkVersion=" +:+ String apostrophe
    (s +:+ String apostrophe " compileSdkVersionCodename=''"))))))))))).
  { cbn [print_entry]. unfold q. cbn [String.append]. repeat (rewrite string_app_assoc; cbn [String.append]). reflexivity. }
  assert (Hi : ∀ lit t, package_value lit ("package:" +:+ t) = find_value lit t) by done.
  rewrite Hp. unfold ppPackageName, ppVersionCode, ppVersionName, ppCompileSdkVersion. rewrite !Hi.
  pose proof Hn as (Hn1 & Hn2 & _). pose proof Hc as (Hc1 & Hc2 & _). pose proof Hv as (Hv1 & Hv2 & _).
  pose proof Hs as (Hs1 & Hs2 & _).
  rewrite (find_hit "name="); [|done..].
  rewrite (find_skip_clean "versionCode=" eq_refl " name="), (find_skip_clean "versionCode=" eq_refl n),
    (find_hit "versionCode=") by (try done; by apply (value_ends _ "versionCode")).
  rewrite (find_skip_clean "versionName=" eq_refl " name="), (find_skip_clean "versionName=" eq_refl n),
    (find_skip_clean "versionName=" eq_refl " versionCode="), (find_skip_clean "versionName=" eq_refl c),
    (find_hit "versionName=") by (try done; by apply (value_ends _ "versionName")).
  rewrite (find_skip_clean "compileSdkVersion=" eq_refl " name="), (find_skip_clean "compileSdkVersion=" eq_refl n),
    (find_skip_clean "compileSdkVersion=" eq_refl " versionCode="), (find_skip_clean "compileSdkVersion=" eq_refl c),
    (find_skip_clean "compileSdkVersion=" eq_refl " versionName="), (find_skip_clean "compileSdkVersion=" eq_refl v),
    (find_skip_clean "compileSdkVersion=" eq_refl " platformBuildVersionName="), (find_skip_clean "compileSdkVersion=" eq_refl ""),
    (find_hit "compileSdkVersion=") by (try done; by apply (value_ends _ "compileSdkVersion")).
  done.
Qed.

Lemma entry_read e x : entry_ok e → badging_line x (print_entry e) = says x e.
Proof.
  intros (Ht & _ & He). unfold badging_line. rewrite Ht. clear Ht. cbv zeta. destruct e as [n c v s|v|v|l|l|l|s].
  - destruct He as (Hn & Hc & Hv & Hs).
    set (p := package_step _ x). assert (Hp : p = says x (EPackage n c v s)) by (by apply package_line_read).
    clearbody p. subst p. done.
  - destruct He as (Hn & Hv & _). transitivity (sdk_step (print_entry (ESdk v)) x); [done|].
    unfold sdk_step. change (ppSdkVersion (print_entry (ESdk v))) with (find_value "sdkVersion:" ("sdkVersion:" +:+ String apostrophe (v +:+ String apostrophe ""))).
    by rewrite find_hit.
  - destruct He as (Hn & Hv & _). transitivity (target_step (print_entry (ETarget v)) x); [done|].
    unfold target_step. change (ppTargetSdk (print_entry (ETarget v))) with (find_value "targetSdkVersion:" ("targetSdkVersion:" +:+ String apostrophe (v +:+ String apostrophe ""))).
    by rewrite find_hit.
  - transitivity (screens_step (ppQuotedValue (qs l)) x); [done|]. unfold ppQuotedValue. by rewrite quoted_values_qs.
  - transitivity (densities_step (ppQuotedValue (qs l)) x); [done|]. unfold ppQuotedValue. by rewrite quoted_values_qs.
  - transitivity (native_step (ppQuotedValue (qs l)) x); [done|]. unfold ppQuotedValue. by rewrite quoted_values_qs.
  - cbn [print_entry]. rewrite !Forall_cons in He. destruct He as (-> & -> & -> & -> & -> & -> & _). done.
Qed.

Lemma Split_Join c (ls : list string) : ls ≠ [] → Forall (λ l, forall_chars (not_byte c) l = true) ls →
  Split (GoStr.Join ls (String c "")) c = ls.
Proof.
  intros Hne H. induction H as [|l ls Hl H IH]; [done|]. destruct ls as [|l' ls]; [by apply Split_none|].
  change (GoStr.Join (l :: l' :: ls) (String c "")) with (l +:+ String c (GoStr.Join (l' :: ls) (String c ""))).
  rewrite Split_app, Split_none, IH by done. done.
Qed.

(** What the tool prints, one entry a line, is read back: the package line gives its
    name, version code, version name and compile SDK, the other lines the SDK versions and
    the lists of screens, densities and native code, the last line of a kind counts, and
    lines of no interest change nothing. *)
Theorem badging_read es : Forall entry_ok es → parse_badging (GoStr.Join (print_entry <$> es) (String line_feed "")) = foldl says no_vars es.
Proof.
  intros H. destruct (decide (es = [])) as [->|Hne]; [done|]. unfold parse_badging. rewrite Split_Join.
  - generalize no_vars. clear Hne. induction H as [|e es He _ IH]; intros x; [done|].
    cbn [fmap list_fmap foldl]. rewrite entry_read by done. apply IH.
  - by destruct es.
  - apply Forall_fmap. eapply Forall_impl; [exact H|]. by intros e (_ & Hl & _).
Qed.

Definition sample_entries : list entry :=
  [EPackage "com.acme.app" "42" "1.2=b" "34"; ESdk "24"; ETarget "34"; EOther "uses-permission: name='android.permission.INTERNET'";
   EScreens ["small"; "normal"]; EDensities ["160"; "240"]; ENative ["arm64-v8a"]].

Lemma badging_read_witness :
  Forall entry_ok sample_entries ∧
  parse_badging (GoStr.Join (print_entry <$> sample_entries) (String line_feed "")) =
    mk_vars "com.acme.app" "42" "1.2=b" "34" "24" "34" ["small"; "normal"] ["160"; "240"] ["arm64-v8a"].
Proof.
  assert (H : Forall entry_ok sample_entries) by (repeat constructor; vm_compute; discriminate).
  split; [exact H|]. rewrite (badging_read sample_entries H). reflexivity.
Defined.

(** A version name that ends in a field's name takes the place of that field. *)
Example value_read_as_field :
  compile_sdk_version (badging_line no_vars (print_entry (EPackage "a" "1" "compileSdkVersion=" "34")))
  = " platformBuildVersionName=".
Proof. vm_compute. reflexivity. Qed.
