(* ===== verification/Response.v ===== *)
(** * Result envelopes ([response/*.go], [models/MetaDataModel.go], [models/Secrets.go])

    What a scan hands back: the basic data of the package, the message, and the
    fragments the platform handlers merge into the data.  A [gin.H] is a map from keys
    to values of a few Go types. *)
From Stdlib Require Import ZArith.
From S2P Require Import Prelude GoStr GoErr GoJson Detect Sbom Report Manifest Badging Ipa.

Local Open Scope Z_scope.

(** ** The models *)

Record ResourceData := mk_resources {
  Locale : list string; NumberOfStringResource : Z; PngDrawables : Z; NinePatchDrawables : Z; JpgDrawables : Z;
  GifDrawables : Z; XMLDrawables : Z; DifferentDrawables : Z; LdpiDrawables : Z; MdpiDrawables : Z; HdpiDrawables : Z;
  XhdpiDrawables : Z; XxhdpiDrawables : Z; XxxhdpiDrawables : Z; NodpiDrawables : Z; TvdpiDrawables : Z;
  UnspecifiedDpiDrawables : Z; RawResources : Z; Menu : Z; Layouts : Z; DifferentLayouts : Z }.

Record certificate := mk_certificate {
  c_FileName : string; SignAlgorithm : string; SignAlgorithmOID : string; StartDate : string; EndDate : string;
  PublicKeyMd5 : string; CertBase64Md5 : string; CertMd5 : string; c_Version : Z; IssuerName : string; SubjectName : string }.

(** [AndroidManifest] of the metadata: the four component lists and the target SDK are
    those of [Manifest.AndroidManifest], the other fields stand beside it. *)
Record manifest_facts := mk_facts {
  mf_PackageName : string; mf_VersionCode : string; NumberOfActivities : Z; NumberOfServices : Z;
  NumberOfContentProviders : Z; NumberOfBroadcastReceivers : Z; UsesPermissions : list string; UsesLibrary : list string;
  UsesFeature : list string; Permissions : list string; PermissionsProtectionLevel : list string;
  UsesMinSdkVersion : string; UsesMaxSdkVersion : string }.

Record MetaDataModel := mk_metadata {
  md_FileName : string; FileSize : Z; DexSize : Z; ArscSize : Z;
  md_Manifest : AndroidManifest; md_Facts : manifest_facts; CertificateDatas : certificate;
  md_ResourceData : ResourceData; FileDigest : string * string * string }.

Definition set_manifest (m : AndroidManifest) (md : MetaDataModel) : MetaDataModel :=
  mk_metadata (md_FileName md) (FileSize md) (DexSize md) (ArscSize md) m (md_Facts md) (CertificateDatas md)
    (md_ResourceData md) (FileDigest md).

Definition no_resources : ResourceData := mk_resources [] 0 0 0 0 0 0 0 0 0 0 0 0 0 0 0 0 0 0 0 0.
Definition empty_metadata : MetaDataModel :=
  mk_metadata "" 0 0 0 (mk_manifest "" [] [] [] []) (mk_facts "" "" 0 0 0 0 [] [] [] [] [] "" "")
    (mk_certificate "" "" "" "" "" "" "" "" 0 "" "") no_resources ("", "", "").

Record Secrets := mk_secrets {
  s_FileName : string; s_APKHash : string; APKVersion : string; s_SecretModel : list SecretModel;
  s_PackageDataModel : PackageDataModel; s_Metadata : MetaDataModel;
  s_Activities : list ManifestActivityInfo; s_Services : list ManifestServiceInfo;
  s_ContentProviders : list ManifestProviderInfo; s_BroadcastReceivers : list ManifestReceiverInfo }.

(** The component lists move out of the metadata. *)
Definition CreateSecretModel (apkPath : string) (packageModel : PackageDataModel) (metadata : MetaDataModel)
    (scanner_data : list SecretModel) : Secrets :=
  let m := md_Manifest metadata in
  mk_secrets apkPath (APKHash packageModel) (VersionName packageModel) scanner_data packageModel
    (set_manifest (mk_manifest (UsesTargetSdkVersion m) [] [] [] []) metadata)
    (Activities m) (Services m) (ContentProviders m) (BroadcastReceivers m).

(** ** Values of an envelope *)

Inductive item :=
  | IString (s : string)
  | IInt (z : Z)
  | IBool (b : bool)
  | IStrings (l : list string)
  | ISecrets (l : list SecretModel)
  | IComponents (l : list ManifestActivityInfo)
  | IProviders (l : list ManifestProviderInfo)
  | IJSON (j : json)
  | IInts (m : gmap string Z)
  | IResource (strings : Z) (drawables : gmap string Z) (layouts : Z)
  | ISBOM (l : list SBOMComponent)
  | IFindings (l : list PlatformFinding).

Inductive value := VString (s : string) | VData (m : gmap string item).
Notation gin_H := (gmap string value).

(** ** Envelopes *)

Definition CreateErrorResponse (message : string) : gin_H := {["error" := VString message]}.
Definition CreateSuccessResponse (data : gmap string item) : gin_H :=
  {["message" := VString "Success"; "data" := VData data]}.
Definition CreateDuplicateResponse (data : gmap string item) : gin_H :=
  {["message" := VString "Item already exists"; "data" := VData data]}.

Definition CreateBasicResponse (secret : Secrets) (scannerData : list SecretModel) : gmap string item :=
  {["fileName" := IString (s_FileName secret);
    "packageName" := IString (PackageName (s_PackageDataModel secret));
    "version" := IString (VersionName (s_PackageDataModel secret));
    "minSdk" := IString (UsesMinSdkVersion (md_Facts (s_Metadata secret)));
    "targetSdk" := IString (UsesTargetSdkVersion (md_Manifest (s_Metadata secret)));
    "permissions" := IStrings (UsesPermissions (md_Facts (s_Metadata secret)));
    "secretCount" := IInt (Z.of_nat (length scannerData));
    "secrets" := ISecrets scannerData]}.

(** [data, ok := response["data"].(gin.H)] and an update of [data], which is shared. *)
Definition on_data (f : gmap string item → gmap string item) (response : gin_H) : gin_H :=
  match response !! "data" with
  | Some (VData data) => <["data" := VData (f data)]> response
  | _ => response
  end.

Definition TransformComponents (metadata : MetaDataModel) (secret : Secrets) : gmap string item :=
  {["activities" := IComponents (s_Activities secret);
    "services" := IComponents (s_Services secret);
    "contentProviders" := IProviders (s_ContentProviders secret);
    "broadcastReceivers" := IComponents (s_BroadcastReceivers secret);
    "usesLibrary" := IStrings (UsesLibrary (md_Facts metadata));
    "customPermissions" := IStrings (Permissions (md_Facts metadata));
    "usesFeatures" := IStrings (UsesFeature (md_Facts metadata))]}.

Definition AddMetadataToResponse (metadata : MetaDataModel) (secret : Secrets) : gin_H → gin_H :=
  on_data (λ data, TransformComponents metadata secret ∪ data).

Definition createDrawablesResponse (r : ResourceData) : gmap string Z :=
  {["png" := PngDrawables r; "jpg" := JpgDrawables r; "gif" := GifDrawables r; "xml" := XMLDrawables r]}.
Definition CreateResourceResponse (r : ResourceData) : item :=
  IResource (NumberOfStringResource r) (createDrawablesResponse r) (Layouts r).
Definition AddResourceDataToResponse (r : ResourceData) : gin_H → gin_H :=
  on_data <["resourceData" := CreateResourceResponse r]>.

Section ios.
(** [json.Unmarshal] into an [interface{}]. *)
Context (Unmarshal : string → res json).

Definition decodeJSONField (s : string) : json :=
  if decide (s = "") then JNull else match Unmarshal s with Ok v => v | Err _ => JNull end.

Definition TransformMetadata (m : IOSMetadata) : gmap string item :=
  {["platform" := IString "ios";
    "bundleIdentifier" := IString (im_BundleIdentifier m);
    "bundleVersion" := IString (im_BundleVersion m);
    "deploymentTarget" := IString (im_DeploymentTarget m);
    "executableName" := IString (im_ExecutableName m);
    "isEncrypted" := IBool (im_IsEncrypted m);
    "architectures" := IJSON (decodeJSONField (im_Architectures m));
    "urlSchemes" := IJSON (decodeJSONField (im_URLSchemes m));
    "entitlements" := IJSON (decodeJSONField (im_Entitlements m));
    "frameworks" := IJSON (decodeJSONField (im_Frameworks m));
    "atsExceptions" := IJSON (decodeJSONField (im_ATSExceptions m))]}.

Definition AddIOSMetadataToResponse (m : IOSMetadata) : gin_H → gin_H :=
  on_data (λ data, TransformMetadata m ∪ data).
End ios.

(** ** Facts *)

(** The value under a key of the data of an envelope. *)
Definition data_of (r : gin_H) (k : string) : option item :=
  match r !! "data" with Some (VData d) => d !! k | _ => None end.

Lemma data_of_on_data f r k :
  data_of (on_data f r) k = match r !! "data" with Some (VData d) => f d !! k | _ => None end.
Proof. unfold data_of, on_data. destruct (r !! "data") as [[s|d]|] eqn:E; [by rewrite E| |by rewrite E]. by rewrite lookup_insert_eq. Qed.

Lemma on_data_message f r : on_data f r !! "message" = r !! "message".
Proof. unfold on_data. destruct (r !! "data") as [[s|d]|]; [done| |done]. by rewrite lookup_insert_ne. Qed.

Lemma on_data_is_data f r d : r !! "data" = Some (VData d) → on_data f r !! "data" = Some (VData (f d)).
Proof. intros H. unfold on_data. rewrite H. by rewrite lookup_insert_eq. Qed.
