(* ===== verification/Hash.v ===== *)
(** * Hashes of files ([utils/hash.go])

    The digest that names a package, and the memo of it, which trusts the size and the
    modification time of a file.  The files at the time of a call are a parameter. *)
From Stdlib Require Import ZArith.
From S2P Require Import Prelude GoStr GoErr.

Local Open Scope Z_scope.

(** What a call finds: the absolute form of a path, size and modification time, whether
    the file opens, and its digest or why it cannot be read. *)
Record files := mk_files {
  f_Abs : string → res string; f_Stat : string → res (Z * Z); f_Open : string → option error; f_Digest : string → res string }.

Record hashCacheEntry := mk_entry { hash : string; size : Z; modTime : Z }.
Definition hash_cache : Type := gmap string hashCacheEntry.

Definition absolute (f : files) (path : string) : string := match f_Abs f path with Ok p => p | Err _ => path end.

Definition ExtractHash (f : files) (path : string) : string :=
  match f_Open f path with
  | Some _ => ""
  | None => match f_Digest f path with Ok h => h | Err _ => "" end
  end.

Definition failed (what path : string) (e : error) : error := EWrap ("HashFileCached: " +:+ what +:+ " " +:+ path +:+ ": " +:+ Error e) [e].

Definition HashFileCached (f : files) (path : string) (cache : hash_cache) : res string * hash_cache :=
  let absPath := absolute f path in
  match f_Stat f absPath with
  | Err e => (Err (failed "stat" absPath e), cache)
  | Ok (sz, mt) =>
      let compute :=
        match f_Open f absPath with
        | Some e => (Err (failed "open" absPath e), cache)
        | None => match f_Digest f absPath with
                  | Err e => (Err (failed "read" absPath e), cache)
                  | Ok h => (Ok h, <[absPath := mk_entry h sz mt]> cache)
                  end
        end in
      match cache !! absPath with
      | Some e => if (size e =? sz) && (modTime e =? mt) then (Ok (hash e), cache) else compute
      | None => compute
      end
  end.

(** One call after the other, each on the files of its time. *)
Fixpoint calls (cache : hash_cache) (l : list (files * string)) : list (res string) :=
  match l with
  | [] => []
  | (f, path) :: l => let '(r, cache) := HashFileCached f path cache in r :: calls cache l
  end.

(** A file whose size and modification time did not change has not changed. *)
Definition stamped (fs : list files) : Prop := ∀ f g p st h h', f ∈ fs → g ∈ fs →
  f_Stat f p = Ok st → f_Stat g p = Ok st → f_Digest f p = Ok h → f_Digest g p = Ok h' → h = h'.

(** Every entry is the digest of some call. *)
Definition entries_of (fs : list files) (cache : hash_cache) : Prop := ∀ p e, cache !! p = Some e →
  ∃ g, g ∈ fs ∧ f_Stat g p = Ok (size e, modTime e) ∧ f_Digest g p = Ok (hash e).

(** One call keeps the entries, and answers with the digest of the file as it is. *)
Lemma call_sound fs f path cache : stamped fs → f ∈ fs → entries_of fs cache →
  let '(r, cache') := HashFileCached f path cache in
  entries_of fs cache' ∧ ∀ h h', r = Ok h → f_Digest f (absolute f path) = Ok h' → h = h'.
Proof.
  intros Hst Hf Hc. unfold HashFileCached. set (p := absolute f path).
  destruct (f_Stat f p) as [[sz mt]|e] eqn:Es; [|by split].
  set (r := match f_Open f p with None => _ | Some _ => _ end).
  assert (Hr : let '(r, cache') := r in entries_of fs cache' ∧ ∀ h h', r = Ok h → f_Digest f p = Ok h' → h = h').
  { unfold r. destruct (f_Open f p); [by split|]. destruct (f_Digest f p) as [h|e] eqn:Ed; [|by split]. split; [|congruence].
    intros q e [[<- <-]|[_ Hq]]%lookup_insert_Some; [by exists f|by apply Hc]. }
  destruct (cache !! p) as [e|] eqn:Ee; [|exact Hr]. destruct (_ && _) eqn:Em; [|exact Hr]. split; [done|].
  intros h h' [= <-] Hd. destruct (Hc _ _ Ee) as (g & Hg & Hs & Hh).
  apply andb_true_iff in Em as [H1%Z.eqb_eq H2%Z.eqb_eq]. rewrite H1, H2 in Hs. exact (Hst g f p _ _ _ Hg Hf Hs Es Hh Hd).
Qed.

(** The memo of file hashes is sound: as long as a file that kept its size and its
    modification time kept its content, every answer is the digest of the file as it is
    at the call, whatever was hashed before. *)
Theorem hash_memo_sound l : stamped l.*1 →
  Forall2 (λ c r, ∀ h h', r = Ok h → f_Digest c.1 (absolute c.1 c.2) = Ok h' → h = h') l (calls ∅ l).
Proof.
  intros Hst. assert (H : ∀ k cache, k ⊆ l → entries_of l.*1 cache →
    Forall2 (λ c r, ∀ h h', r = Ok h → f_Digest c.1 (absolute c.1 c.2) = Ok h' → h = h') k (calls cache k)).
  { induction k as [|[f path] k IH]; intros cache Hk Hc; [constructor|]. cbn [calls].
    pose proof (call_sound l.*1 f path cache Hst) as Hcall. destruct (HashFileCached f path cache) as [r cache'].
    destruct Hcall as [Hc' Hr]; [|done|].
    - apply list_elem_of_fmap. exists (f, path). split; [done|]. apply Hk. by left.
    - constructor; [exact Hr|]. apply IH; [|done]. intros x Hx. apply Hk. by right. }
  apply H; [done|]. by intros p e Hp%lookup_empty_Some.
Qed.

(** A file that opens and reads is hashed the same with and without the memo. *)
Lemma first_hash f path h : f_Abs f path = Ok path → is_ok (f_Stat f path) = true → f_Open f path = None → f_Digest f path = Ok h →
  (HashFileCached f path ∅).1 = Ok (ExtractHash f path).
Proof.
  intros Ha Hs Ho Hd. unfold HashFileCached, ExtractHash, absolute. rewrite Ha, Ho, Hd.
  by destruct (f_Stat f path) as [[??]|].
Qed.

(** ** Instances *)

Definition one_file (sz mt : Z) (digest : string) : files := mk_files Ok (λ _, Ok (sz, mt)) (λ _, None) (λ _, Ok digest).

(** A file that is replaced by one of the same size within the resolution of the clock
    keeps its old hash. *)
Example replaced_file_keeps_hash : calls ∅ [(one_file 9 1 "aa", "/f"); (one_file 9 1 "bb", "/f"); (one_file 9 2 "bb", "/f")] = [Ok "aa"; Ok "aa"; Ok "bb"].
Proof. by vm_compute. Qed.

Lemma hash_memo_sound_witness : ∀ h, (calls ∅ [(one_file 9 1 "aa", "/f")]) = [Ok h] → h = "aa".
Proof.
  assert (Hst : stamped [(one_file 9 1 "aa", "/f")].*1).
  { intros f g p st h h' Hf%list_elem_of_singleton Hg%list_elem_of_singleton. subst f g. cbn. congruence. }
  intros h Hh. pose proof (hash_memo_sound [(one_file 9 1 "aa", "/f")] Hst) as H. rewrite Hh in H.
  inversion H as [|? ? ? ? H1 _]. exact (H1 h "aa" eq_refl eq_refl).
Defined.
