(* ===== verification/Pipeline.v ===== *)
(** * The scan pipelines ([worker/worker.go], [apk/scanner.go], [apk/metadata.go],
    [apk/analysis.go])

    [scanAPK] and [scanIPA] from the claimed job to the envelope, and the synchronous
    extraction, put together from the components: resolution of the artifact, archive
    guard, duplicate lookup, metadata and package data, decompilation, the two passes of
    ripgrep, precision filter, live verification, persistence, bill of materials and
    findings.  What one scan meets outside the program is the class [Machine]: the
    tools, the file system, the decoders, the database and the network.  A tool is a
    function of its command line, so the two decompilations and the two metadata
    extractions, which the code runs side by side, are run one after the other. *)
From Stdlib Require Import ZArith.
From S2P Require Import Prelude GoStr GoErr GoTime GoFloat GoUrl GoPath GoJson Config Retry ScanJob Redis Queue Worker Storage Artifact Archive Detect Precision Sigv4 Sbom Report Verify Manifest MachO Plist Ipa Apk Badging Response.

Local Open Scope Z_scope.

#[local] Notation Join := GoPath.Join.
#[local] Notation gin_H := (gmap string Response.value).

(** ** The machine *)

Class Machine := {
  LookupEnv : string → option string;
  uuid : string;
  (** The file system and its calls. *)
  files : gmap string string;
  statfs : string → option (Z * Z);
  tree : disk;
  os_MkdirAll : string → option error;
  os_Symlink : string → string → option error;
  os_Open : string → option error;
  os_OpenFile : string → option error;
  io_Copy : string → option error;
  os_Close : string → option error;
  io_ReadAll : string → res string;
  filepath_Abs : string → res string;
  is_file : string → bool;
  (** The store of artifacts, and the temporary copy. *)
  store : option StorageOps;
  temp_name : string → string;
  temp_ok : bool; copy_ok : bool; close_ok : bool;
  zip_OpenReader : gmap string string → string → res (list zip_entry);
  ParseFloat : string → option spec_float;
  fixed1 : spec_float → string;
  (** The tools, and the state of the context when the scan starts and when it ends. *)
  tool : list string → res string;
  cancelled : bool;
  deadline : bool;
  (** The cache, the database and its rows. *)
  cached_metadata : string → option MetaDataModel;
  cached_package : string → option PackageDataModel;
  database : bool;
  duplicate_row : string → option string;
  Unmarshal_Secrets : string → res Secrets;
  Unmarshal_MetaData : string → res MetaDataModel;
  Marshal_secrets : list SecretModel → res string;
  (** Patterns and ripgrep. *)
  engine : RegexEngine;
  (** What [GetPatternCache] gives the process. *)
  patterns : string → res PatternCache;
  is_dir : string → bool;
  pattern_file : res string;
  rg : list string → list string * rg_exit;
  rg_corpus : option string → list string → list string * rg_exit;
  (** The precision filter's helpers. *)
  ReplaceAllString : regexp → string → string → string;
  URLDecode : string → option string;
  RawURLDecode : string → option string;
  json_keys : string → option (gset string);
  Log2 : spec_float → spec_float;
  rune_order : gmap Z Z → list (Z * Z);
  (** Verification and the Firebase probe. *)
  digests : Digests;
  net_state : Type;
  decode_slack : string → res (bool * string);
  decode_google : string → res (string * string * list string);
  decode_cloudflare : string → res (bool * string);
  Now : net_state → gotime;
  limiter_Wait : net_state → option error * net_state;
  NewRequest_err : string → option error;
  http_Do : probe → net_state → res answer * net_state;
  verifier : Verify.st (N := net_state);
  url_Parse : string → res (string * string);
  probe_state : Type;
  probe_Wait : probe_state → option error;
  probe_exchange : string → string → probe_state → res Z * probe_state;
  probes : Apk.rt (W := probe_state);
  json_top : string → string * string;
  Unmarshal_google : string → res googleServicesConfig;
  map_order : gmap string (list string) → list (string * list string);
  (** Reading an iOS bundle. *)
  OpenZip : string → res (list zip_file);
  fs_outcome : fsop → option error;
  OpenFat : string → fat;
  OpenMachO : string → res File;
  plist_decoder : decoder;
  FormatFloat : spec_float → string;
  Unmarshal_plist : string → res (list (string * plist));
  Entitlements_of : string → option (list (string * plist));
  marshal_list : list string → string;
  marshal_map : gmap string string → string;
  append_open : string → option error;
  append_flush : string → option (nat * error);
  Unmarshal_json : string → res json }.

#[export] Existing Instance engine.
#[export] Existing Instance digests.

(** What a scan does outside Redis. *)
Inductive act :=
  | ATool (argv : list string) (timeout : Z)
  | AStage (path : string)
  | ACacheMetadata (hash : string) (m : MetaDataModel)
  | ACachePackage (hash : string) (p : PackageDataModel)
  | AInsert (s : Secrets)
  | AInsertIOS (s : Secrets) (m : IOSMetadata)
  | AMetric (name : string)
  | ASlack (text : string)
  | ABackup (s : Secrets)
  | ACleanup (workspace : string).

Section pipeline.
Context `{RS : RedisServer} `{Machine}.

(** ** Computations of a scan *)

Definition X (A : Type) : Type := world → A * list act * world.

#[export] Instance X_ret : MRet X := λ A a w, (a, [], w).
#[export] Instance X_bind : MBind X := λ A B f m w,
  let '(a, tr, w1) := m w in
  let '(b, tr', w2) := f a w1 in (b, tr ++ tr', w2).

Definition tell (a : act) : X unit := λ w, (tt, [a], w).

(** [if err != nil { return err }], the error as [f] wraps it. *)
Definition try_ {A B} (m : X (res A)) (f : error → error) (k : A → X (res B)) : X (res B) :=
  r ← m; match r with Ok a => k a | Err e => mret (Err (f e)) end.

Definition wrap (p : string) (e : error) : error := EWrap (p +:+ ": " +:+ Error e) [e].

(** The phase is advisory: its error is dropped. *)
Definition phase (jobID p : string) : X unit := λ w, let '(_, w') := SetJobPhase jobID p w in (tt, [], w').

Definition Getenv (k : string) : string := default "" (LookupEnv k).

Definition run_tool (timeout : Z) (argv : list string) : X (res string) := _ ← tell (ATool argv timeout); mret (tool argv).

(** ** Command lines ([apk/scanner.go]) *)

Definition toolsDir : string :=
  let d := TrimSpace (Getenv "MORF_TOOLS_DIR") in if decide (d = "") then "/app/tools" else d.
Definition apktoolJar : string := Join toolsDir "apktool.jar".
Definition apkanalyzerJar : string := Join toolsDir "apkanalyzer.jar".

Definition jvmHeapFlag : string :=
  let v := TrimSpace (Getenv "MORF_JVM_MAX_HEAP_MB") in
  let mb := if decide (v = "") then 2048 else
            match Atoi v with Some n => if 0 <? n then n else 2048 | None => 2048 end in
  "-Xmx" +:+ itoa mb +:+ "m".

Definition scan_limits : limits := init_limits Getenv ParseFloat.

(** ** On one state of the file system *)

Section on_files.
Context (f : gmap string string).

(** The first sixteen bytes of the digest, in hexadecimal ([utils/hash.go]). *)
Definition digest16 (path : string) : res string :=
  match f !! path with
  | None => Err (ENew ("open " +:+ path +:+ ": no such file or directory"))
  | Some c => Ok (take_str 32 (sha256Hex c))
  end.
Definition ExtractHash (path : string) : string := match digest16 path with Ok h => h | Err _ => "" end.
(** What [HashFileCached] computes when its memo has no entry for the file as it is. *)
Definition hash_file (path : string) : res string :=
  match digest16 path with Ok h => Ok h | Err e => Err (wrap ("HashFileCached: open " +:+ path) e) end.

(** The error of [CheckAPKSafe]. *)
Definition safety (path : string) : option error :=
  rejection_error scan_limits fixed1 path <$> CheckAPKSafe scan_limits (zip_OpenReader f) path.

(** ** Metadata ([apk/metadata.go]) *)

(** [strings.Replace(s, ".apk", ".json", -1)]; the fuel is the length. *)
Fixpoint replace_all (fuel : nat) (s old new : string) : string :=
  match fuel, Index s old with
  | S fuel, Some i => take_str i s +:+ new +:+ replace_all fuel (drop_str (i + String.length old) s) old new
  | _, _ => s
  end.

Definition copyFileForStaging (src dst : string) : option error :=
  match os_Open src with
  | Some e => Some e
  | None =>
      match os_OpenFile dst with
      | Some e => Some e
      | None => match io_Copy dst with Some e => Some e | None => os_Close dst end
      end
  end.

Definition xmltree (apkPath : string) : X (res string) :=
  run_tool (minutes 2) ["aapt"; "dump"; "xmltree"; apkPath; "AndroidManifest.xml"].

Definition startFileParser (jsonPath apkPath : string) : X (res MetaDataModel) :=
  match os_Open jsonPath with
  | Some e => mret (Err (wrap ("failed to open metadata JSON " +:+ Quote jsonPath) e))
  | None =>
      match io_ReadAll jsonPath with
      | Err e => mret (Err (wrap ("failed to read metadata JSON " +:+ Quote jsonPath) e))
      | Ok byteValue =>
          match Unmarshal_MetaData byteValue with
          | Err e => mret (Err (wrap ("failed to unmarshal metadata JSON " +:+ Quote jsonPath) e))
          | Ok metadata =>
              dump ← xmltree apkPath;
              let dump := match dump with Ok t => Some t | Err _ => None end in
              let metadata := set_manifest (ExtractComponentExportInfo dump (md_Manifest metadata)) metadata in
              _ ← match hash_file apkPath with
                  | Ok apkHash => if decide (apkHash = "") then mret tt else tell (ACacheMetadata apkHash metadata)
                  | Err _ => mret tt
                  end;
              mret (Ok metadata)
          end
      end
  end.

Definition stage (apkPath stagedAPK : string) : option error :=
  let absAPK := match filepath_Abs apkPath with Ok p => p | Err _ => apkPath end in
  match os_Symlink absAPK stagedAPK with
  | None => None
  | Some _ => copyFileForStaging absAPK stagedAPK
  end.

Definition apkanalyzer (stagingDir : string) (jobCtx : JobContext) : list string :=
  ["java"; jvmHeapFlag; "-cp"; apkanalyzerJar; "sk.styk.martin.bakalarka.execute.Main"; "-analyze"; "--in"; stagingDir;
   "--out"; GetOutputDir jobCtx].

Definition StartMetaDataCollection (apkPath : string) (jobCtx : JobContext) : X (res MetaDataModel) :=
  match cached_metadata (ExtractHash apkPath) with
  | Some cachedMetadata => mret (Ok cachedMetadata)
  | None =>
      let stagingDir := Join (GetInputDir jobCtx) "apkanalyzer" in
      match os_MkdirAll stagingDir with
      | Some e => mret (Err (wrap "failed to create apkanalyzer staging dir" e))
      | None =>
          let stagedAPK := Join stagingDir (path_Base apkPath) in
          _ ← tell (AStage stagedAPK);
          match stage apkPath stagedAPK with
          | Some e => mret (Err (wrap "failed to stage APK for apkanalyzer" e))
          | None =>
              try_ (run_tool (minutes 5) (apkanalyzer stagingDir jobCtx)) (wrap "apkanalyzer metadata extraction failed") (λ _,
              let file_name := path_Base apkPath in
              startFileParser (Join (GetOutputDir jobCtx) (replace_all (String.length file_name) file_name ".apk" ".json")) apkPath)
          end
      end
  end.

(** The reads and writes of the cache and the run of the tool inside
    [ExtractPackageData], in order: a miss is followed by the tool. *)
Definition package_run (apkPath : string) : PackageDataModel * list act :=
  let get h tr := match cached_package h with
                  | Some p => (Some p, tr)
                  | None => (None, tr ++ [ATool ["aapt"; "dump"; "badging"; apkPath] (minutes 2)])
                  end in
  ExtractPackageData get (λ h p tr, tr ++ [ACachePackage h p]) ExtractHash (λ p, tool ["aapt"; "dump"; "badging"; p]) apkPath [].
Definition package_data (apkPath : string) : X PackageDataModel := λ w, (package_run apkPath, w).

Definition ExtractMetadataAndPackageData (apkPath : string) (jobCtx : JobContext)
    : X (res MetaDataModel * PackageDataModel) :=
  metadata ← StartMetaDataCollection apkPath jobCtx;
  packageModel ← package_data apkPath;
  mret (metadata, packageModel).

(** ** The secret scan ([apk/scanner.go]) *)

Definition scan_pass (jobCtx : JobContext) (roots : list string) (opts : ScanOptions) : res (list SecretModel) :=
  scanCorpusWithOpts (patterns "android") is_dir pattern_file rg roots opts.

Definition text_opts : ScanOptions := mk_opts false [] 0.
Definition binary_opts : ScanOptions :=
  mk_opts true androidBinaryExcludes (binaryPassMaxFileSizeMB (Getenv "MORF_BINARY_MAX_FILESIZE_MB")).

Definition StartScanE (jobCtx : JobContext) : res (list SecretModel) :=
  textSecrets ← scan_pass jobCtx [GetSourceDir jobCtx; GetResDir jobCtx] text_opts;
  binSecrets ← scan_pass jobCtx (androidBinaryRoots jobCtx) binary_opts;
  mret (textSecrets ++ binSecrets).

(** The historical entry point: an error reads as no findings. *)
Definition StartScan (jobCtx : JobContext) : list SecretModel := match StartScanE jobCtx with Ok s => s | Err _ => [] end.

Definition apktool (flag apkPath out : string) : list string :=
  ["java"; jvmHeapFlag; "-jar"; apktoolJar; "d"; "-f"; flag; apkPath; "-o"; out].

(** [%v] of an error. *)
Definition show_result (r : res string) : string := match r with Ok _ => "<nil>" | Err e => Error e end.

Definition StartSecScanE (apkPath : string) (jobCtx : JobContext) : X (res (list SecretModel)) :=
  match safety apkPath with
  | Some e =>
      _ ← tell (AMetric "failed"); _ ← tell (AMetric "zipbomb");
      mret (Err (wrap ("apk safety check failed for " +:+ Quote apkPath) e))
  | None =>
      source ← run_tool (minutes 10) (apktool "-r" apkPath (GetSourceDir jobCtx));
      resources ← run_tool (minutes 10) (apktool "-s" apkPath (GetResDir jobCtx));
      if negb (is_ok source && is_ok resources) then
        _ ← tell (AMetric "failed"); _ ← tell (AMetric "decompilation");
        mret (Err (EWrap ("apk decompilation failed (source_err=" +:+ show_result source +:+ ", res_err=" +:+
                          show_result resources +:+ "): " +:+ sentinel_msg ErrNonRetryable) [ESentinel ErrNonRetryable]))
      else
        match StartScanE jobCtx with
        | Err e =>
            _ ← tell (AMetric "failed"); _ ← tell (AMetric "pattern_scan"); mret (Err (wrap "pattern scan failed" e))
        | Ok rawSecrets => _ ← tell (AMetric "success"); mret (Ok (SanitizeSecrets rawSecrets))
        end
  end.

Definition StartSecScan (apkPath : string) (jobCtx : JobContext) : X (list SecretModel) :=
  r ← StartSecScanE apkPath jobCtx; mret (match r with Ok s => s | Err _ => [] end).
End on_files.

(** ** The worker's scans ([worker/worker.go]) *)

(** The first directory that cannot be made. *)
Definition CreateWorkspace (jobCtx : JobContext) : option error :=
  foldr (λ dir rest, match os_MkdirAll dir with Some e => Some e | None => rest end) None (workspace_dirs jobCtx).

(** What both scans do first: the phase, the cancellation check, the artifact and its
    guard.  The file system is the one resolution leaves. *)
Definition admit_artifact (job : ScanJob) (jobCtx : JobContext) : X (res (string * gmap string string)) :=
  _ ← phase (ID job) "unpacking";
  if cancelled then mret (Err (ENew "job cancelled"))
  else
    let '(r, f) := resolveAPKPath LookupEnv statfs store temp_name temp_ok copy_ok close_ok job jobCtx files in
    match r with
    | Err e => mret (Err e)
    | Ok localPath =>
        match safety f localPath with
        | Some e => mret (Err (EWrap ("safety check failed: " +:+ sentinel_msg ErrNonRetryable +:+ ": " +:+ Error e)
                                 [ESentinel ErrNonRetryable; e]))
        | None => mret (Ok (localPath, f))
        end
    end.

(** The stored result of the same file, when the database has one that still parses. *)
Definition find_duplicate (f : gmap string string) (localPath : string) : option Secrets :=
  if negb database then None
  else match duplicate_row (ExtractHash f localPath) with
       | None => None
       | Some jsonData => match Unmarshal_Secrets jsonData with Ok s => Some s | Err _ => None end
       end.

Definition android_envelope (make : gmap string item → gin_H) (secret : Secrets) (scannerData : list SecretModel) : gin_H :=
  AddResourceDataToResponse (md_ResourceData (s_Metadata secret))
    (AddMetadataToResponse (s_Metadata secret) secret (make (CreateBasicResponse secret scannerData))).

Definition duplicate_apk (existing : Secrets) : gin_H :=
  android_envelope CreateDuplicateResponse existing (s_SecretModel existing).

Definition precise (secrets : list SecretModel) : list SecretModel :=
  ApplyPrecision ReplaceAllString URLDecode RawURLDecode json_keys Log2 rune_order secrets.

Definition verified (secrets : list SecretModel) : list SecretModel :=
  (VerifySecrets decode_slack decode_google decode_cloudflare Now limiter_Wait NewRequest_err http_Do Getenv secrets verifier).1.

Definition android_sbom (jobCtx : JobContext) : list SBOMComponent :=
  CollectSBOMComponents tree Unmarshal_google map_order is_file jobCtx.

Definition android_findings (metadata : MetaDataModel) (jobCtx : JobContext) : list PlatformFinding :=
  AnalyzeExposure (Some (md_Manifest metadata)) ++
  (CollectFirebaseMisconfigFindings url_Parse Getenv probe_Wait probe_exchange json_top tree Unmarshal_google jobCtx probes).1.

(** [data["sbomComponents"] = comps], when there are any. *)
Definition with_sbom (comps : list SBOMComponent) (data : gmap string item) : gmap string item :=
  if decide (comps = []) then data else <["sbomComponents" := ISBOM comps]> data.

(** From the admitted artifact on. *)
Definition scan_apk_file (job : ScanJob) (jobCtx : JobContext) (localPath : string) (f : gmap string string) : X (res gin_H) :=
  match find_duplicate f localPath with
  | Some existing => _ ← tell (AMetric "duplicate"); mret (Ok (duplicate_apk existing))
  | None =>
      _ ← phase (ID job) "parsing";
      mp ← ExtractMetadataAndPackageData f localPath jobCtx;
      match mp with
      | (Err metaErr, _) => mret (Err (wrap "metadata extraction failed" metaErr))
      | (Ok metadata, packageModel) =>
          _ ← phase (ID job) "scanning";
          try_ (StartSecScanE f localPath jobCtx) (wrap "secret scan failed") (λ scannerData,
          let scannerData := verified (precise scannerData) in
          _ ← phase (ID job) "compiling";
          match Marshal_secrets scannerData with
          | Err e => mret (Err (ENew ("failed to marshal scanner data: " +:+ Error e)))
          | Ok _ =>
              let secret := Response.CreateSecretModel (OriginalFilename job) packageModel metadata scannerData in
              _ ← (if database then tell (AInsert secret) else mret tt);
              let result := android_envelope CreateSuccessResponse secret scannerData in
              mret (Ok (on_data (λ data, <["platformFindings" := IFindings (android_findings metadata jobCtx)]>
                                           (with_sbom (android_sbom jobCtx) data)) result))
          end)
      end
  end.

(** The workspace around a scan; its removal is deferred. *)
Definition in_workspace (job : ScanJob) (body : JobContext → X (res gin_H)) : X (res gin_H) :=
  let jobCtx := NewJobContextForID uuid (ID job) in
  match CreateWorkspace jobCtx with
  | Some e => mret (Err (ENew ("failed to create workspace: " +:+ Error e)))
  | None => r ← body jobCtx; _ ← tell (ACleanup (Workspace jobCtx)); mret r
  end.

Definition scanAPK (job : ScanJob) : X (res gin_H) :=
  in_workspace job (λ jobCtx,
    try_ (admit_artifact job jobCtx) id (λ '(localPath, f), scan_apk_file job jobCtx localPath f)).

(** [ios.StartIOSExtraction] on the machine. *)
Definition ios_extraction (ipaPath : string) (jobCtx : JobContext)
    : res (list SecretModel * IOSMetadata * list SBOMComponent) :=
  let corpusDir := Join (GetIOSBinDir jobCtx) "corpus" in
  StartIOSExtraction scan_limits fixed1 OpenZip fs_outcome OpenFat OpenMachO plist_decoder tree FormatFloat Unmarshal_plist
    Entitlements_of map_order marshal_list marshal_map append_open append_flush
    (λ corpus, scanCorpusWithOpts (patterns "ios") is_dir pattern_file (rg_corpus corpus) [corpusDir] text_opts)
    ipaPath jobCtx.

Definition ios_package (apkHash : string) (m : IOSMetadata) : PackageDataModel :=
  mk_package apkHash (im_BundleIdentifier m) "" (im_BundleVersion m) "" "" "" "" [] [] [].

Definition ios_findings (jobCtx : JobContext) : list PlatformFinding :=
  (CollectIOSFirebaseMisconfigFindingsFromIPA url_Parse Getenv probe_Wait probe_exchange FormatFloat Unmarshal_plist
     tree (Some jobCtx) probes).1.

Definition duplicate_ipa (existing : Secrets) : gin_H :=
  CreateDuplicateResponse (CreateBasicResponse existing (s_SecretModel existing)).

Definition scan_ipa_file (job : ScanJob) (jobCtx : JobContext) (localPath : string) (f : gmap string string) : X (res gin_H) :=
  match find_duplicate f localPath with
  | Some existing => _ ← tell (AMetric "duplicate"); mret (Ok (duplicate_ipa existing))
  | None =>
      _ ← phase (ID job) "scanning";
      match ios_extraction localPath jobCtx with
      | Err extractErr => mret (Err (wrap "ios extraction failed" extractErr))
      | Ok (secretsModels, iosMeta, iosSBOM) =>
          let secretsModels := verified (precise secretsModels) in
          _ ← phase (ID job) "compiling";
          let apkHash := ExtractHash f localPath in
          let secret := mk_secrets (OriginalFilename job) apkHash (im_BundleVersion iosMeta) secretsModels
                          (ios_package apkHash iosMeta) empty_metadata [] [] [] [] in
          _ ← (if database then tell (AInsertIOS secret iosMeta) else mret tt);
          let result := AddIOSMetadataToResponse Unmarshal_json iosMeta
                          (CreateSuccessResponse (CreateBasicResponse secret secretsModels)) in
          mret (Ok (on_data (λ data, <["platformFindings" := IFindings (ios_findings jobCtx)]> (with_sbom iosSBOM data)) result))
      end
  end.

Definition scanIPA (job : ScanJob) : X (res gin_H) :=
  in_workspace job (λ jobCtx,
    try_ (admit_artifact job jobCtx) id (λ '(localPath, f), scan_ipa_file job jobCtx localPath f)).

(** A scan as the worker runs it: what it does outside Redis is not the worker's. *)
Definition as_scan (scan : ScanJob → X (res gin_H)) (job : ScanJob) : P scan_outcome := λ w,
  let '(r, _, w') := scan job w in
  (match r with Ok result => Scanned (Some result) | Err e => ScanFailed e deadline end, [], w').

(** ** The synchronous extraction ([apk/analysis.go]) *)

Definition addSBOMComponents (resp : gin_H) (jobCtx : JobContext) : gin_H := on_data (with_sbom (android_sbom jobCtx)) resp.

Definition processAPKData (apkPath : string) (jobCtx : JobContext) : X (res (Secrets * list SecretModel * string)) :=
  match safety files apkPath with
  | Some e => mret (Err (wrap "safety check failed" e))
  | None =>
      mp ← ExtractMetadataAndPackageData files apkPath jobCtx;
      match mp with
      | (Err metaErr, _) => mret (Err metaErr)
      | (Ok metadata, packageModel) =>
          try_ (StartSecScanE files apkPath jobCtx) id (λ scannerData,
          match Marshal_secrets scannerData with
          | Err e => mret (Err e)
          | Ok secretData =>
              mret (Ok (Response.CreateSecretModel (path_Base apkPath) packageModel metadata scannerData, scannerData, secretData))
          end)
      end
  end.

Definition handleExistingAPK (jsonData : string) (isSlack : bool) : X (option gin_H) :=
  if isSlack then _ ← tell (ASlack jsonData); mret None
  else match Unmarshal_Secrets jsonData with
       | Err _ => mret (Some (CreateErrorResponse "Error parsing existing data"))
       | Ok existing => mret (Some (duplicate_apk existing))
       end.

(** [alive] is the outcome of opening and pinging the connection. *)
Definition handleDatabaseOperations (db : bool) (alive : option error) (secret : Secrets) : X (option error) :=
  if negb db then mret (Some (ENew "database connection is not initialized"))
  else if negb database then mret (Some (ENew "database operations are disabled - please check DATABASE_URL environment variable"))
  else match alive with
       | Some e => mret (Some (wrap "database connection lost" e))
       | None => _ ← tell (AInsert secret); mret None
       end.

Definition StartExtractProcess (db isSlack : bool) (alive : option error) (apkPath : string) : X (option gin_H) :=
  if negb db then mret (Some (CreateErrorResponse "Database connection is required"))
  else
    let jobCtx := NewJobContextForID uuid "" in
    match CreateWorkspace jobCtx with
    | Some _ => mret (Some (CreateErrorResponse "Failed to create workspace"))
    | None =>
        r ← match duplicate_row (ExtractHash files apkPath) with
            | Some jsonData => _ ← tell (AMetric "duplicate"); handleExistingAPK jsonData isSlack
            | None =>
                d ← processAPKData apkPath jobCtx;
                match d with
                | Err _ => _ ← tell (AMetric "failed"); _ ← tell (AMetric "apk_processing");
                           mret (Some (CreateErrorResponse "Error processing APK"))
                | Ok (secret, scannerData, secretData) =>
                    _ ← handleDatabaseOperations db alive secret;
                    _ ← tell (ABackup secret);
                    if isSlack then _ ← tell (ASlack secretData); mret None
                    else mret (Some (addSBOMComponents (android_envelope CreateSuccessResponse secret scannerData) jobCtx))
                end
            end;
        _ ← tell (ACleanup (Workspace jobCtx)); mret r
    end.

(** The command line: nothing is returned, the report is written. *)
Definition StartCliExtraction (is_db_req : bool) (apkPath : string) : X unit :=
  let jobCtx := NewJobContextForID uuid "" in
  match CreateWorkspace jobCtx with
  | Some _ => mret tt
  | None =>
      _ ← match safety files apkPath with
          | Some _ => mret tt
          | None =>
              mp ← ExtractMetadataAndPackageData files apkPath jobCtx;
              match mp with
              | (Err _, _) => mret tt
              | (Ok metadata, packageModel) =>
                  let fileName := if HasPrefix apkPath "/" then path_Base apkPath else apkPath in
                  r ← StartSecScanE files apkPath jobCtx;
                  match r with
                  | Err _ => mret tt
                  | Ok scanner_data =>
                      let secret := Response.CreateSecretModel fileName packageModel metadata scanner_data in
                      _ ← (if is_db_req then tell (AInsert secret) else mret tt);
                      tell (ABackup secret)
                  end
              end
          end;
      tell (ACleanup (Workspace jobCtx))
  end.
End pipeline.
