(* ===== verification/PipelineSpec.v ===== *)
(** * What the scan pipelines guarantee

    A scan is fenced by the archive guard, hands over exactly what its passes found, and
    leaves the queue alone; the worker's theorems therefore apply to it. *)
From Stdlib Require Import ZArith.
From S2P Require Import Prelude GoStr GoErr GoTime GoPath Config Retry ScanJob Redis Wp Queue QueueSpec JobLife Worker WorkerSpec Storage Artifact Archive Detect Precision Sbom Report Manifest Plist Ipa Apk Badging Response Pipeline DetectSpec.

Local Open Scope Z_scope.

#[local] Notation gin_H := (gmap string Response.value).

(** ** Running a computation *)

Section runs.
Context `{RS : RedisServer}.

Lemma X_bind_inv {A B} (m : X A) (g : A → X B) w b tr w' : (m ≫= g) w = (b, tr, w') →
  ∃ a tr1 w1 tr2, m w = (a, tr1, w1) ∧ g a w1 = (b, tr2, w') ∧ tr = tr1 ++ tr2.
Proof.
  unfold mbind, X_bind. destruct (m w) as [[a tr1] w1] eqn:E. destruct (g a w1) as [[b' tr2] w2] eqn:E2.
  intros [= -> <- ->]. by exists a, tr1, w1, tr2.
Qed.

Lemma try_inv {A B} (m : X (res A)) h (k : A → X (res B)) w r tr w' : try_ m h k w = (r, tr, w') →
  (∃ a tr1 w1 tr2, m w = (Ok a, tr1, w1) ∧ k a w1 = (r, tr2, w') ∧ tr = tr1 ++ tr2) ∨
  (∃ e, m w = (Err e, tr, w') ∧ r = Err (h e)).
Proof.
  intros (a & tr1 & w1 & tr2 & Hm & Hk & ->)%X_bind_inv. destruct a as [a|e]; [left; eauto 8|].
  right. injection Hk as <- <- <-. exists e. by rewrite app_nil_r.
Qed.

Lemma ret_inv {A} (a b : A) w tr w' : mret (M := X) a w = (b, tr, w') → b = a ∧ tr = [] ∧ w' = w.
Proof. by intros [= <- <- <-]. Qed.
Lemma tell_inv a u w tr w' : tell a w = (u, tr, w') → tr = [a] ∧ w' = w.
Proof. by intros [= <- <- <-]. Qed.
Lemma phase_inv id p u w tr w' : phase id p w = (u, tr, w') → tr = [].
Proof. unfold phase. destruct (SetJobPhase id p w). by intros [= <- <- <-]. Qed.
End runs.

(** Takes a run apart. *)
Ltac run :=
  repeat match goal with
  | H : (_ ≫= _) _ = (_, _, _) |- _ => apply X_bind_inv in H as (? & ? & ? & ? & ? & H & ->)
  | H : mret _ _ = (_, _, _) |- _ => apply ret_inv in H as (? & -> & ->)
  | H : tell _ _ = (_, _, _) |- _ => apply tell_inv in H as (-> & ->)
  | H : phase _ _ _ = (_, _, _) |- _ => apply phase_inv in H as ->
  end; simplify_eq.

Section spec.
Context `{RS : RedisServer} `{Machine}.

(** ** The secret scan *)

(** The two passes over the decompiled tree. *)
Definition passes (jobCtx : JobContext) (text bin : list SecretModel) : Prop :=
  scan_pass jobCtx [GetSourceDir jobCtx; GetResDir jobCtx] text_opts = Ok text ∧
  scan_pass jobCtx (androidBinaryRoots jobCtx) binary_opts = Ok bin.

Definition decompiled (apkPath : string) (jobCtx : JobContext) : Prop :=
  is_ok (tool (apktool "-r" apkPath (GetSourceDir jobCtx))) = true ∧
  is_ok (tool (apktool "-s" apkPath (GetResDir jobCtx))) = true.

Lemma StartScanE_inv jobCtx raw : StartScanE jobCtx = Ok raw → ∃ text bin, passes jobCtx text bin ∧ raw = text ++ bin.
Proof.
  unfold StartScanE, passes. destruct (scan_pass _ _ text_opts) as [text|e]; [|done].
  cbn. destruct (scan_pass _ _ binary_opts) as [bin|e]; [|done]. intros [= <-]. eauto.
Qed.

Lemma StartSecScanE_inv f p jobCtx w r tr w' : StartSecScanE f p jobCtx w = (r, tr, w') →
  (∃ e, safety f p = Some e ∧ r = Err (wrap ("apk safety check failed for " +:+ Quote p) e)) ∨
  (safety f p = None ∧
   ((∃ e, r = Err e ∧ (errors_Is e ErrNonRetryable = true ∧ ¬ decompiled p jobCtx ∨
                        ∃ e', StartScanE jobCtx = Err e' ∧ e = wrap "pattern scan failed" e')) ∨
    (decompiled p jobCtx ∧ ∃ text bin, passes jobCtx text bin ∧ r = Ok (SanitizeSecrets (text ++ bin))))).
Proof.
  unfold StartSecScanE, decompiled. destruct (safety f p) as [e|]; [intros; run; left; eauto|]. intros Hr. right. split; [done|].
  unfold run_tool in Hr. run. destruct (is_ok (tool (apktool "-r" _ _))), (is_ok (tool (apktool "-s" _ _))); cbn [andb negb] in Hr; run.
  2-4: left; eexists; (split; [done|]); left; (split; [done|]); intros [? ?]; done.
  destruct (StartScanE jobCtx) as [raw|e] eqn:E; run; [|left; eauto 8].
  apply StartScanE_inv in E as (text & bin & Hp & ->). right. eauto 8.
Qed.

(** ** Metadata *)

(** Where the metadata of a package comes from: the cache, or the analyser's report read
    with the dump of the manifest. *)
Definition metadata_from (f : gmap string string) (p : string) (jobCtx : JobContext) (md : MetaDataModel) : Prop :=
  cached_metadata (ExtractHash f p) = Some md ∨
  (cached_metadata (ExtractHash f p) = None ∧
   is_ok (tool (apkanalyzer (GoPath.Join (GetInputDir jobCtx) "apkanalyzer") jobCtx)) = true ∧
   ∃ path text md0, io_ReadAll path = Ok text ∧ Unmarshal_MetaData text = Ok md0 ∧
     md = set_manifest (ExtractComponentExportInfo
            match tool ["aapt"; "dump"; "xmltree"; p; "AndroidManifest.xml"] with Ok t => Some t | Err _ => None end
            (md_Manifest md0)) md0).

Lemma startFileParser_inv f jsonPath p w md tr w' : startFileParser f jsonPath p w = (Ok md, tr, w') →
  ∃ text md0, io_ReadAll jsonPath = Ok text ∧ Unmarshal_MetaData text = Ok md0 ∧
    md = set_manifest (ExtractComponentExportInfo
           match tool ["aapt"; "dump"; "xmltree"; p; "AndroidManifest.xml"] with Ok t => Some t | Err _ => None end
           (md_Manifest md0)) md0.
Proof.
  unfold startFileParser, xmltree, run_tool. destruct (os_Open jsonPath); [intros; run|].
  destruct (io_ReadAll jsonPath) as [text|e]; [|intros; run]. destruct (Unmarshal_MetaData text) as [md0|e] eqn:E; [|intros; run].
  intros Hr. run. exists text, md0. done.
Qed.

Lemma StartMetaDataCollection_inv f p jobCtx w md tr w' :
  StartMetaDataCollection f p jobCtx w = (Ok md, tr, w') → metadata_from f p jobCtx md.
Proof.
  unfold StartMetaDataCollection, metadata_from. destruct (cached_metadata _) as [md'|]; [intros; run; by left|].
  intros Hr. right. split; [done|]. destruct (os_MkdirAll _); [run|]. run. destruct (stage _ _); [run|].
  apply try_inv in Hr as [(a & tr1 & w1 & tr2 & Ht & Hk & ->)|(e & _ & ?)]; [|done]. unfold run_tool in Ht. run.
  split; [by match goal with E : _ = tool _ |- _ => rewrite <- E | E : tool _ = _ |- _ => rewrite E end|]. apply startFileParser_inv in Hk as (text & md0 & ? & ? & ?). eauto 8.
Qed.

(** ** The whole scan *)

(** The artifact a scan is given: the path, and the file system after resolution. *)
Definition admitted (job : ScanJob) (jobCtx : JobContext) (p : string) (f : gmap string string) : Prop :=
  cancelled = false ∧
  resolveAPKPath LookupEnv statfs store temp_name temp_ok copy_ok close_ok job jobCtx files = (Ok p, f) ∧ safety f p = None.

Lemma admit_inv job jobCtx w r tr w' : admit_artifact job jobCtx w = (r, tr, w') →
  tr = [] ∧ ∀ p f, r = Ok (p, f) ↔ admitted job jobCtx p f.
Proof.
  unfold admit_artifact, admitted. intros Hr. run. destruct cancelled; [run; naive_solver|].
  destruct (resolveAPKPath _ _ _ _ _ _ _ _ _ _) as [[q|e] f0] eqn:E; [|run; naive_solver].
  destruct (safety f0 q) eqn:Es; run; naive_solver.
Qed.

Definition job_ctx (job : ScanJob) : JobContext := NewJobContextForID uuid (ID job).

Lemma in_workspace_inv job body w r tr w' : in_workspace job body w = (r, tr, w') →
  (∃ e, CreateWorkspace (job_ctx job) = Some e ∧ r = Err (ENew ("failed to create workspace: " +:+ Error e)) ∧ tr = []) ∨
  (CreateWorkspace (job_ctx job) = None ∧ ∃ tr0 w0, body (job_ctx job) w = (r, tr0, w0) ∧
   tr = tr0 ++ [ACleanup (Workspace (job_ctx job))]).
Proof.
  unfold in_workspace, job_ctx. destruct (CreateWorkspace _) as [e|]; intros Hr; run; [left; eauto|right].
  split; [done|]. rewrite app_nil_r. eauto.
Qed.

(** What an Android scan that is not a duplicate hands over. *)
Definition reports (job : ScanJob) (p : string) (f : gmap string string) (r : gin_H) (tr : list act) : Prop :=
  let jc := job_ctx job in
  decompiled p jc ∧ ∃ text bin md, passes jc text bin ∧ metadata_from f p jc md ∧
  let secrets := verified (precise (SanitizeSecrets (text ++ bin))) in
  data_of r "secrets" = Some (ISecrets secrets) ∧
  data_of r "secretCount" = Some (IInt (Z.of_nat (length secrets))) ∧
  data_of r "platformFindings" = Some (IFindings (android_findings md jc)) ∧
  data_of r "sbomComponents" = (if decide (android_sbom jc = []) then None else Some (ISBOM (android_sbom jc))) ∧
  (database = true → AInsert (Response.CreateSecretModel (OriginalFilename job) (package_run f p).1 md secrets) ∈ tr).

Lemma data_of_android make secret l k data :
  make (CreateBasicResponse secret l) !! "data" = Some (VData data) →
  k ∉ dom (TransformComponents (s_Metadata secret) secret) → k ≠ "resourceData" →
  data_of (android_envelope make secret l) k = data !! k.
Proof.
  intros Hm Hk Hr. unfold android_envelope, AddResourceDataToResponse, AddMetadataToResponse. rewrite data_of_on_data.
  erewrite on_data_is_data by done. rewrite lookup_insert_ne by done. apply lookup_union_r. by apply not_elem_of_dom.
Qed.

Lemma with_sbom_other comps d k : k ≠ "sbomComponents" → with_sbom comps d !! k = d !! k.
Proof. intros Hk. unfold with_sbom. case_decide; [done|]. by rewrite lookup_insert_ne. Qed.

Lemma android_data make secret l :
  make = CreateSuccessResponse ∨ make = CreateDuplicateResponse →
  android_envelope make secret l !! "data" = Some (VData (<["resourceData" := CreateResourceResponse (md_ResourceData (s_Metadata secret))]>
    (TransformComponents (s_Metadata secret) secret ∪ CreateBasicResponse secret l))).
Proof.
  intros Hm. unfold android_envelope, AddResourceDataToResponse, AddMetadataToResponse.
  erewrite on_data_is_data; [done|]. apply on_data_is_data. by destruct Hm as [->| ->].
Qed.

Lemma final_data r0 (d : gmap string item) md jc k : r0 !! "data" = Some (VData d) →
  data_of (on_data (λ data, <["platformFindings" := IFindings (android_findings md jc)]> (with_sbom (android_sbom jc) data)) r0) k
  = if decide (k = "platformFindings") then Some (IFindings (android_findings md jc))
    else if decide (k = "sbomComponents" ∧ android_sbom jc ≠ []) then Some (ISBOM (android_sbom jc)) else d !! k.
Proof.
  intros Hd. rewrite data_of_on_data, Hd. case_decide as E; [by subst; rewrite lookup_insert_eq|].
  rewrite lookup_insert_ne by done. unfold with_sbom.
  destruct (decide (android_sbom jc = [])) as [En|En]; case_decide as Ek; try (destruct Ek; done); [done| |].
  - destruct Ek as [-> _]. by rewrite lookup_insert_eq.
  - rewrite lookup_insert_ne; [done|]. intros <-. by apply Ek.
Qed.

Lemma android_data_keys secret l :
  let d := <["resourceData" := CreateResourceResponse (md_ResourceData (s_Metadata secret))]>
             (TransformComponents (s_Metadata secret) secret ∪ CreateBasicResponse secret l) in
  d !! "secrets" = Some (ISecrets l) ∧ d !! "secretCount" = Some (IInt (Z.of_nat (length l))) ∧
  d !! "sbomComponents" = None ∧ d !! "platformFindings" = None.
Proof. done. Qed.

Lemma scan_apk_file_inv job p f w r tr w' : scan_apk_file job (job_ctx job) p f w = (Ok r, tr, w') →
  (∃ s, find_duplicate f p = Some s ∧ r = duplicate_apk s) ∨
  (find_duplicate f p = None ∧ safety f p = None ∧ reports job p f r tr).
Proof.
  unfold scan_apk_file. destruct (find_duplicate f p) as [s|]; intros Hr; [run; left; eauto|right].
  split; [done|]. run. unfold ExtractMetadataAndPackageData in *. run.
  match goal with E : package_data _ _ _ = _ |- _ => unfold package_data in E; destruct (package_run f p) as [pkg trp] eqn:Epkg; injection E as <- <- <- end.
  match goal with E : StartMetaDataCollection _ _ _ _ = (?m, _, _) |- _ => destruct m as [md|e]; [|run] end.
  match goal with E : StartMetaDataCollection _ _ _ _ = _ |- _ => apply StartMetaDataCollection_inv in E as Hmd end.
  run. apply try_inv in Hr as [(secrets & tr1 & w1 & tr2 & Hs & Hk & ->)|(e & _ & ?)]; [|done].
  apply StartSecScanE_inv in Hs as [(e & _ & ?)|(Hsafe & [(e & ? & _)|(Hd & text & bin & Hp & Hs)])]; [done..|].
  injection Hs as ->. split; [done|]. run. destruct (Marshal_secrets _); [|run]. run.
  split; [exact Hd|]. exists text, bin, md. rewrite Epkg. split; [done|]. split; [done|]. cbv zeta.
  set (l := verified _).
  match goal with |- context [android_envelope CreateSuccessResponse ?s l] => set (secret := s) in * end.
  pose proof (android_data_keys secret l) as (K1 & K2 & K3 & K4).
  pose proof (android_data CreateSuccessResponse secret l (or_introl eq_refl)) as Hdat.
  rewrite !(final_data _ _ _ _ _ Hdat). split_and!.
  - exact K1.
  - exact K2.
  - done.
  - rewrite decide_False by done. destruct (decide (android_sbom (job_ctx job) = [])) as [E|E].
    + rewrite decide_False by (by intros [_ ?]). exact K3.
    + by rewrite decide_True.
  - intros Hdb. rewrite Hdb in *. run. cbn [fst]. subst secret l. clear.
    match goal with |- ?a ∈ _ => assert (Hin : a ∈ [a]) by (by apply list_elem_of_singleton) end. rewrite !elem_of_app. tauto.
Qed.

(** ** Fencing *)

Definition is_tool (a : act) : bool := match a with ATool _ _ => true | _ => false end.
Definition runs_tool (tr : list act) : bool := existsb is_tool tr.

Lemma scan_file_tools job p f s w r tr w' : find_duplicate f p = Some s →
  scan_apk_file job (job_ctx job) p f w = (r, tr, w') → runs_tool tr = false.
Proof. unfold scan_apk_file. intros ->. intros Hr. run. done. Qed.

Lemma scanAPK_cases job w r tr w' : scanAPK job w = (r, tr, w') →
  (∃ e, r = Err e ∧ runs_tool tr = false ∧ (∀ p f, ¬ admitted job (job_ctx job) p f ∨ CreateWorkspace (job_ctx job) ≠ None)) ∨
  (∃ p f tr0 w0 w1, admitted job (job_ctx job) p f ∧ scan_apk_file job (job_ctx job) p f w0 = (r, tr0, w1) ∧
     tr = tr0 ++ [ACleanup (Workspace (job_ctx job))]).
Proof.
  unfold scanAPK. intros [(e & Hc & -> & ->)|(Hc & tr0 & w0 & Hb & ->)]%in_workspace_inv.
  - left. eexists. split; [done|]. split; [done|]. intros p f. right. congruence.
  - apply try_inv in Hb as [([p f] & tr1 & w1 & tr2 & Ha & Hk & ->)|(e & Ha & ->)]; apply admit_inv in Ha as Hi; destruct Hi as [-> Hi].
    + right. exists p, f, tr2, w1. eexists. split; [by apply Hi|]. done.
    + left. eexists. split; [done|]. split; [done|]. intros p f. left. intros Had%Hi. done.
Qed.

(** C9: an archive is guarded before anything is run on it.  Whatever the machine does,
    a tool runs in an Android scan only when the artifact could be resolved, the archive
    guard accepts the file at the path the tools get, and the database has no result for
    the same file. *)
Theorem tools_after_guard job w r tr w' : scanAPK job w = (r, tr, w') → runs_tool tr = true →
  ∃ p f, admitted job (job_ctx job) p f ∧ find_duplicate f p = None.
Proof.
  intros [(e & _ & Hn & _)|(p & f & tr0 & w0 & w1 & Ha & Hs & ->)]%scanAPK_cases Ht; [congruence|].
  exists p, f. split; [done|]. destruct (find_duplicate f p) as [s|] eqn:E; [|done]. exfalso.
  pose proof (scan_file_tools job p f s _ _ _ _ E Hs) as Hn. unfold runs_tool in *. by rewrite existsb_app, Hn in Ht.
Qed.

(** C20: a scan never reports less than it found.  When an Android scan succeeds it hands
    over the stored result of the same file, or the secrets of both passes over the tree
    of two successful decompilations, de-duplicated, filtered and verified, with their
    number, the exposures and Firebase findings and the bill of materials, and the same
    secrets are stored when there is a database.  Any stage that fails fails the scan. *)
Theorem scan_reports_all job w r tr w' : scanAPK job w = (Ok r, tr, w') →
  ∃ p f, admitted job (job_ctx job) p f ∧
  ((∃ s, find_duplicate f p = Some s ∧ r = duplicate_apk s) ∨
   (find_duplicate f p = None ∧ ∃ tr0, tr = tr0 ++ [ACleanup (Workspace (job_ctx job))] ∧ reports job p f r tr0)).
Proof.
  intros [(e & ? & _)|(p & f & tr0 & w0 & w1 & Ha & Hs & ->)]%scanAPK_cases; [done|]. exists p, f. split; [done|].
  apply scan_apk_file_inv in Hs as [?|(? & _ & ?)]; [by left|right]. eauto.
Qed.

(** With a remote store no scan gets anywhere.  The temporary copy of the artifact is
    gone when resolution returns, so the archive guard, whose [zip.OpenReader] fails on a
    missing file, refuses it: both scans fail, no tool runs. *)
Theorem remote_scan_fails (ops : StorageOps) job w :
  store = Some ops → StorageKey job ≠ "" → st_LocalPath (StorageKey job) = None →
  (∀ f p, f !! p = None → is_ok (zip_OpenReader f p) = false) →
  (is_ok (scanAPK job w).1.1 = false ∧ runs_tool (scanAPK job w).1.2 = false) ∧ is_ok (scanIPA job w).1.1 = false.
Proof.
  intros Hst Hk Hl Hz.
  assert (Hna : ∀ p f, ¬ admitted job (job_ctx job) p f).
  { intros p f (_ & Hr & Hs). rewrite Hst in Hr.
    pose proof (resolved_remote_missing LookupEnv statfs ops temp_name temp_ok copy_ok close_ok job (job_ctx job) files p Hk Hl) as Hm.
    rewrite Hr in Hm. specialize (Hm eq_refl). specialize (Hz f p Hm).
    unfold safety, CheckAPKSafe in Hs. by destruct (zip_OpenReader f p). }
  split.
  - destruct (scanAPK job w) as [[r tr] w'] eqn:E. cbn. apply scanAPK_cases in E as [(e & -> & Hn & _)|(p & f & ? & ? & ? & Ha & _)]; [done|].
    by apply Hna in Ha.
  - destruct (scanIPA job w) as [[r tr] w'] eqn:E. cbn. unfold scanIPA in E.
    apply in_workspace_inv in E as [(e & _ & -> & _)|(_ & tr0 & w0 & Hb & _)]; [done|].
    apply try_inv in Hb as [([p f] & tr1 & w1 & tr2 & Ha & _ & _)|(e & _ & ->)]; [|done].
    apply admit_inv in Ha as [_ Ha]. exfalso. by apply (Hna p f), Ha.
Qed.

(** ** The queue *)

(** What a scan leaves of Redis: the lists, leases, statuses, and the records of all
    other jobs. *)
Definition harmless (id : string) (w w' : world) : Prop :=
  healthy w → healthy w' ∧ absq (db w') ≡ absq (db w) ∧ db_strs (db w') = db_strs (db w) ∧
    status_of (db w') id = status_of (db w) id ∧ ∀ id', id' ≠ id → hash (db w') (jobKey id') = hash (db w) (jobKey id').

#[local] Instance harmless_preorder id : PreOrder (harmless id).
Proof.
  split; [by intros w Hh; split_and!|]. intros w1 w2 w3 H1 H2 Hh. destruct (H1 Hh) as (Hh2 & ? & ? & ? & E1).
  destruct (H2 Hh2) as (? & ? & ? & ? & E2). split_and!; try done; [by etrans|congruence..|]. intros id' Hi. by rewrite E2, E1.
Qed.

Definition calm {A} (id : string) (m : X A) : Prop := ∀ w, harmless id w (m w).2.

Lemma calm_ret {A} id (a : A) : calm id (mret a).
Proof. intros w Hh. by split_and!. Qed.
Lemma calm_tell id a : calm id (tell a).
Proof. intros w Hh. by split_and!. Qed.
Lemma calm_bind {A B} id (m : X A) (g : A → X B) : calm id m → (∀ a, calm id (g a)) → calm id (m ≫= g).
Proof.
  intros Hm Hg w. unfold mbind, X_bind. specialize (Hm w). destruct (m w) as [[a tr1] w1].
  specialize (Hg a w1). destruct (g a w1) as [[b tr2] w2]. by etrans.
Qed.
Lemma calm_try {A B} id (m : X (res A)) h (k : A → X (res B)) : calm id m → (∀ a, calm id (k a)) → calm id (try_ m h k).
Proof. intros Hm Hk. apply calm_bind; [done|]. intros [a|e]; [apply Hk|apply calm_ret]. Qed.

Context `{!RedisLaws RS}.

Lemma calm_phase id p : calm id (phase id p).
Proof.
  intros w Hh. unfold phase.
  assert (Hw : wp (SetJobPhase id p) (λ _ w', healthy w' ∧ db w' = db_eff (HSET (jobKey id) {["phase" := p]}) (db w)) w).
  { unfold SetJobPhase. apply wp_bind, hwp_command; [done|]. intros rp w' Hh' _ Hd _. by apply wp_ret. }
  unfold wp in Hw. destruct (SetJobPhase id p w) as [r w']. cbn in *. destruct Hw as [Hh' Hd].
  split_and!; [done| | | |].
  - apply absq_equiv. intros k. by rewrite Hd.
  - by rewrite Hd.
  - rewrite Hd. unfold status_of, hash. cbn. rewrite lookup_insert_eq. cbn. rewrite lookup_union_r; [done|].
    by rewrite lookup_singleton_ne.
  - intros id' Hi. rewrite Hd. unfold hash. cbn. rewrite lookup_insert_ne; [done|]. by intros ?%(inj jobKey).
Qed.
End spec.

#[export] Hint Resolve calm_ret calm_tell calm_bind calm_try calm_phase : calm.

(** A computation put together from calm ones is calm. *)
Ltac calm := repeat first [done | case_match | apply calm_ret | apply calm_tell | apply calm_phase | apply calm_bind | apply calm_try | intros ?].

Section calm.
Context `{RS : RedisServer} `{!RedisLaws RS} `{Machine}.

Lemma calm_tool id t argv : calm id (run_tool t argv).
Proof. unfold run_tool. calm. Qed.
Lemma calm_package id f p : calm id (package_data f p).
Proof. intros w Hh. by split_and!. Qed.
Hint Resolve calm_tool calm_package : calm.
Ltac calm' := repeat first [apply calm_tool | apply calm_package | progress calm].

Lemma calm_metadata id f p jc : calm id (StartMetaDataCollection f p jc).
Proof. unfold StartMetaDataCollection, startFileParser, xmltree. calm'. Qed.

Lemma calm_secrets id f p jc : calm id (StartSecScanE f p jc).
Proof. unfold StartSecScanE. calm'. Qed.

Lemma calm_admit job jc : calm (ID job) (admit_artifact job jc).
Proof. unfold admit_artifact. calm'. Qed.

Lemma calm_apk job : calm (ID job) (scanAPK job).
Proof.
  unfold scanAPK, in_workspace, scan_apk_file, ExtractMetadataAndPackageData.
  repeat first [apply calm_metadata | apply calm_secrets | apply calm_admit | progress calm'].
Qed.

Lemma calm_ipa job : calm (ID job) (scanIPA job).
Proof.
  unfold scanIPA, in_workspace, scan_ipa_file.
  repeat first [apply calm_admit | progress calm'].
Qed.
End calm.

(** ** The worker *)

Section worker.
Context `{RS : RedisServer} `{!RedisLaws RS} `{Machine} {codec : MapCodec}.
Context (workerMaxRetries workerRetryBase workerRetryMaxDur : Z) (have_store ctx_done : bool)
        (marshal : option gin_H → res string).

#[local] Notation processJob :=
  (processJob workerMaxRetries workerRetryBase workerRetryMaxDur have_store ctx_done VString marshal (as_scan scanAPK) (as_scan scanIPA)).

(** A scan that answers for the job as [O] says. *)
Lemma as_scan_calm (F : string → Prop) (O : ScanJob → scan_outcome → Prop) scan :
  (∀ job, calm (ID job) (scan job)) → (∀ job w, O job (as_scan scan job w).1.1) → calm_scan F O (as_scan scan).
Proof.
  intros Hc HO job w Hh. specialize (HO job w). destruct (Hc job w Hh) as (? & ? & ? & ? & ?). unfold pwp, as_scan in *.
  destruct (scan job w) as [[r tr] w']. split_and!; auto.
Qed.

(** The pipelines keep out of the queue.  With Redis reachable, both scans leave the
    lists, the leases, the status of their job and the records of all others as they
    were, on every path: what the worker's theorems ask of a scan. *)
Theorem pipelines_calm (F : string → Prop) :
  calm_scan F (λ _ _, True) (as_scan scanAPK) ∧ calm_scan F (λ _ _, True) (as_scan scanIPA).
Proof. split; apply as_scan_calm; [apply calm_apk|done|apply calm_ipa|done]. Qed.

(** What the guard refuses is not worth another attempt. *)
Lemma refused_for_good job w p f e :
  CreateWorkspace (job_ctx job) = None → cancelled = false →
  resolveAPKPath LookupEnv statfs store temp_name temp_ok copy_ok close_ok job (job_ctx job) files = (Ok p, f) →
  safety f p = Some e →
  ∃ e', isRetryable (Some e') = false ∧ (scanAPK job w).1.1 = Err e' ∧ (scanIPA job w).1.1 = Err e'.
Proof.
  intros Hw Hc Hr Hs. eexists (EWrap ("safety check failed: " +:+ sentinel_msg ErrNonRetryable +:+ ": " +:+ Error e) [ESentinel ErrNonRetryable; e]).
  split; [apply sentinel_precedence; by cbn|].
  unfold scanAPK, scanIPA, in_workspace, try_, admit_artifact, phase. fold (job_ctx job). rewrite Hw, Hc, Hr, Hs.
  unfold mbind, X_bind, mret, X_ret. destruct (SetJobPhase _ _ w). done.
Qed.

(** An archive the guard refuses is dead-lettered on its first delivery.  With Redis
    reachable, a popped job whose artifact resolves to a file that [CheckAPKSafe] rejects
    ends failed, at the head of the dead-letter queue and off the processing list,
    whatever retries it has left. *)
Theorem unsafe_upload_dead_lettered (wid id : string) (w : world) p f e :
  let job := set_processing (time_Now w) wid (read_hash (hash (db w) (jobKey id))) in
  healthy w → hash (db w) (jobKey id) !! "id" = Some id →
  status_of (db w) id ∈ [JobStatusQueued; JobStatusProcessing] →
  CreateWorkspace (job_ctx job) = None → cancelled = false → deadline = false →
  resolveAPKPath LookupEnv statfs store temp_name temp_ok copy_ok close_ok job (job_ctx job) files = (Ok p, f) →
  safety f p = Some e →
  pwp (processJob wid id) (λ _ _ w', healthy w' ∧
    absq (db w') ≡ (a_step (OpAck wid id) (a_step (OpDead id) (absq (db w))).2).2 ∧
    status_of (db w') id = JobStatusFailed) w.
Proof.
  intros job Hh Hid Hst Hw Hc Hdl Hr Hs. assert (Hjid : ID job = id) by (by apply ID_read_hash).
  set (O := λ (j : ScanJob) (o : scan_outcome (json := Response.value)), j = job → ∃ e', o = ScanFailed e' false ∧ isRetryable (Some e') = false).
  assert (HO : ∀ scan, (scan = scanAPK ∨ scan = scanIPA) → ∀ j w, O j (as_scan scan j w).1.1).
  { intros scan Hscan j w0 ->. destruct (refused_for_good job w0 p f e Hw Hc Hr Hs) as (e' & Hn & Ha & Hi).
    exists e'. split; [|done]. unfold as_scan. destruct Hscan as [-> | ->].
    - destruct (scanAPK job w0) as [[r tr] w1]. cbn in *. subst r. by rewrite Hdl.
    - destruct (scanIPA job w0) as [[r tr] w1]. cbn in *. subst r. by rewrite Hdl. }
  eapply pwp_mono; [|apply (processJob_healthy _ _ _ _ _ _ _ _ _ (λ _, False) O); try done].
  - fold job. intros _ es w' (Hh' & o & d & Ho & (Ha & Hst' & _) & Hd'). destruct (Ho eq_refl) as (e' & -> & Hn).
    unfold failure_of, settled, settled_status, failure_op, will_retry in Ha, Hst'. rewrite Hn in Ha, Hst'. rewrite Hjid in *. cbn [andb] in *.
    split_and!; [done| |by rewrite Hd']. rewrite Hd', absq_ack. by apply a_step_proper.
  - apply as_scan_calm; [apply calm_apk|apply HO; by left].
  - apply as_scan_calm; [apply calm_ipa|apply HO; by right].
Qed.
End worker.

(** ** Instances *)

(** A machine with one package: ripgrep finds a key in the text pass and nothing in the
    binary one. *)
Definition bench_on (disk_files : gmap string string) (st : option StorageOps) (entries : list zip_entry) : Machine := {|
  LookupEnv _ := None; uuid := "u";
  files := disk_files; statfs _ := None;
  tree := mk_disk (λ _, None) (λ _, []) (λ _, false) (λ _, Err (ENew "none"));
  os_MkdirAll _ := None; os_Symlink _ _ := None; os_Open _ := None; os_OpenFile _ := None; io_Copy _ := None;
  os_Close _ := None; io_ReadAll _ := Ok "{}"; filepath_Abs p := Ok p; is_file _ := false;
  store := st; temp_name _ := ""; temp_ok := true; copy_ok := true; close_ok := true;
  zip_OpenReader f p := match f !! p with Some _ => Ok entries | None => Err (ENew "open") end;
  ParseFloat _ := None; fixed1 _ := "";
  tool _ := Ok ""; cancelled := false; deadline := false;
  cached_metadata _ := None; cached_package _ := None;
  database := true; duplicate_row _ := None; Unmarshal_Secrets _ := Err (ENew "");
  Unmarshal_MetaData _ := Ok empty_metadata; Marshal_secrets _ := Ok "[]";
  engine := literal_engine; patterns _ := Ok sample_cache; is_dir _ := true; pattern_file := Ok "/tmp/p";
  rg args := if decide ("-a" ∈ args) then ([], RgFailed 1) else (["a/b.smali:3:key = AKIA"; "a/b.smali:9:AKIA again"], RgOk);
  rg_corpus _ _ := ([], RgFailed 1);
  ReplaceAllString _ s _ := s; URLDecode s := Some s; RawURLDecode s := Some s; json_keys _ := None;
  Log2 f := f; rune_order := map_to_list;
  digests := Sigv4.toy_digests; net_state := unit;
  decode_slack _ := Err (ENew ""); decode_google _ := Err (ENew ""); decode_cloudflare _ := Err (ENew "");
  Now _ := mk_time 0 0; limiter_Wait s := (None, s); NewRequest_err _ := None; http_Do _ s := (Err (ENew ""), s);
  verifier := Verify.mk_st tt ∅ [];
  url_Parse _ := Err (ENew ""); probe_state := unit; probe_Wait _ := None; probe_exchange _ _ s := (Err (ENew ""), s);
  probes := (tt, []); json_top _ := ("", ""); Unmarshal_google _ := Err (ENew ""); map_order := map_to_list;
  OpenZip _ := Err (ENew ""); fs_outcome _ := None; OpenFat _ := MachO.NotFat; OpenMachO _ := Err (ENew "");
  plist_decoder := mk_decoder (λ _, Err (ENew "")) (λ _, None) (λ _, None) (λ _, Err (ENew "")); FormatFloat _ := ""; Unmarshal_plist _ := Err (ENew ""); Entitlements_of _ := None;
  marshal_list _ := "[]"; marshal_map _ := "{}"; append_open _ := None; append_flush _ := None;
  Unmarshal_json _ := Err (ENew "") |}.

Definition bench_with : option StorageOps → list zip_entry → Machine := bench_on {["/data/a.apk" := "bytes"]}.

#[local] Instance bench : Machine := bench_with None [].

Definition bench_job : ScanJob := read_hash {["id" := "j1"; "apk_path" := "/data/a.apk"]}.
Definition bench_world : world := mem_world empty_rdb [] 0.

Lemma surjective3 {A B C} (t : A * B * C) : t = (t.1.1, t.1.2, t.2).
Proof. by destruct t as [[? ?] ?]. Qed.

Lemma tools_after_guard_witness :
  runs_tool (scanAPK bench_job bench_world).1.2 = true ∧
  ∃ p f, admitted bench_job (job_ctx bench_job) p f ∧ find_duplicate f p = None.
Proof.
  assert (H : runs_tool (scanAPK bench_job bench_world).1.2 = true) by (vm_compute; reflexivity).
  split; [exact H|]. exact (tools_after_guard bench_job bench_world _ _ _ (surjective3 _) H).
Defined.

(** The two hits are the same secret; it is reported once. *)
Lemma scan_reports_all_witness :
  ∃ r p f, (scanAPK bench_job bench_world).1.1 = Ok r ∧ admitted bench_job (job_ctx bench_job) p f ∧
  data_of r "secretCount" = Some (IInt 1) ∧
  ((∃ s, find_duplicate f p = Some s ∧ r = duplicate_apk s) ∨
   (find_duplicate f p = None ∧ ∃ tr0, (scanAPK bench_job bench_world).1.2 = tr0 ++ [ACleanup (Workspace (job_ctx bench_job))] ∧
      reports bench_job p f r tr0)).
Proof.
  assert (C : match (scanAPK bench_job bench_world).1.1 with Ok r => data_of r "secretCount" | Err _ => None end = Some (IInt 1))
    by (vm_compute; reflexivity).
  destruct (scanAPK bench_job bench_world) as [[[r|e] tr] w'] eqn:E; [|done]. cbn [fst snd] in *.
  destruct (scan_reports_all bench_job bench_world r tr w' E) as (p & f & Ha & Hr).
  exists r, p, f. split; [done|]. split; [exact Ha|]. split; [exact C|exact Hr].
Defined.

Lemma remote_scan_fails_witness :
  let M := bench_with (Some remote_ops) [] in
  (is_ok (@scanAPK _ M (stored_job "obj") bench_world).1.1 = false ∧
   runs_tool (@scanAPK _ M (stored_job "obj") bench_world).1.2 = false) ∧
  is_ok (@scanIPA _ M (stored_job "obj") bench_world).1.1 = false.
Proof.
  intros M. apply (@remote_scan_fails _ M remote_ops); [done|done|done|].
  intros f p Hf. cbn. by rewrite Hf.
Defined.

(** A package with an entry that climbs out of the tree. *)
Definition climbing : list zip_entry := [Archive.mk_entry "../x" 1 1].

Definition queued_db : rdb :=
  set_list (processingKey "wk") ["j1"]
    (set_hash (jobKey "j1") {["id" := "j1"; "status" := "queued"; "apk_path" := "/data/a.apk"]} empty_rdb).

Lemma unsafe_upload_dead_lettered_witness :
  let M := bench_with None climbing in
  let run := processJob 3 0 0 true true VString (λ _, Ok "{}") (as_scan (@scanAPK _ M)) (as_scan (@scanIPA _ M)) "wk" "j1"
               (mem_world queued_db [] 0) in
  rlist (db run.2) dlqKey = ["j1"] ∧ status_of (db run.2) "j1" = JobStatusFailed.
Proof.
  intros M run.
  assert (H : ∃ e, @safety M (@files M) "/data/a.apk" = Some e) by (eexists; reflexivity).
  destruct H as [e He].
  assert (Hp : pwp (processJob 3 0 0 true true VString (λ _, Ok "{}") (as_scan (@scanAPK _ M)) (as_scan (@scanIPA _ M)) "wk" "j1")
    (λ _ _ w', healthy w' ∧ absq (db w') ≡ (a_step (OpAck "wk" "j1") (a_step (OpDead "j1") (absq (db (mem_world queued_db [] 0)))).2).2 ∧
       status_of (db w') "j1" = JobStatusFailed) (mem_world queued_db [] 0)).
  { apply (@unsafe_upload_dead_lettered _ _ M _ 3 0 0 true true (λ _, Ok "{}") "wk" "j1" _ "/data/a.apk" (@files M) e); try done.
    unfold status_of. cbn. left. }
  unfold run. unfold pwp in Hp. destruct (processJob _ _ _ _ _ _ _ _ _ _ _ _) as [[u es] w'].
  destruct Hp as (_ & (_ & Hd & _) & Hs). split; [exact Hd|exact Hs].
Defined.

Lemma pipelines_calm_witness :
  calm_scan (λ _, True) (λ _ _, True) (as_scan scanAPK) ∧ calm_scan (λ _, True) (λ _ _, True) (as_scan scanIPA).
Proof. exact (pipelines_calm (λ _, True)). Defined.

(** ** What modelling showed *)

(** Patterns that cannot be loaded: the scan succeeds and finds nothing. *)
Lemma unloadable_patterns_scan_clean `{Machine} jobCtx e : patterns "android" = Err e → StartScanE jobCtx = Ok [].
Proof. intros He. unfold StartScanE, scan_pass, scanCorpusWithOpts. by rewrite He. Qed.

(** A decompiler that runs out of time is taken for a corrupt archive. *)
Lemma slow_decompiler_not_retried `{RS : RedisServer} `{Machine} f p jobCtx w e :
  safety f p = None → tool (apktool "-r" p (GetSourceDir jobCtx)) = Err (wrap e (ESentinel ContextDeadlineExceeded)) →
  ∃ e', (StartSecScanE f p jobCtx w).1.1 = Err e' ∧ isRetryable (Some e') = false.
Proof.
  intros Hs Ht. unfold StartSecScanE, run_tool. rewrite Hs, Ht. eexists. split; [reflexivity|].
  by apply sentinel_precedence.
Qed.

(** The envelope of a duplicate has neither findings nor a bill of materials. *)
Lemma duplicate_without_findings s :
  data_of (duplicate_apk s) "platformFindings" = None ∧ data_of (duplicate_apk s) "sbomComponents" = None.
Proof. unfold duplicate_apk, data_of. rewrite android_data by (by right). done. Qed.

(** The synchronous extraction of the same package. *)
Definition sync_result : option gin_H := (StartExtractProcess true false None "/data/a.apk" bench_world).1.1.
Example synchronous_result_lacks_findings :
  (sync_result ≫= λ r, data_of r "secretCount") = Some (IInt 1) ∧ (sync_result ≫= λ r, data_of r "platformFindings") = None ∧
  match (scanAPK bench_job bench_world).1.1 with Ok r => data_of r "platformFindings" | Err _ => None end = Some (IFindings []).
Proof. vm_compute. done. Qed.
