(* ===== verification/Backup.v ===== *)
(** * Report files ([utils/report.go], [utils/directory_parser.go], [backup/handler.go])

    Where the reports of a scan are written.  The name of a file and the version of a
    package come from outside; the file system decides which operations fail. *)
From Stdlib Require Import Ascii.
From S2P Require Import Prelude GoStr GoErr GoPath Badging Response.

(** The outcomes of file operations: [Mkdir] and [MkdirAll], the test for a directory, and
    writing a file. *)
Record report_fs := mk_report_fs { fs_Mkdir : string → option error; fs_DirExists : string → bool; fs_Write : string → option error }.

(** What is done, in order. *)
Inductive report_op := OMkdir (dir : string) | OWrite (path data : string).

(** Operations with the error that ended them. *)
Definition report_run : Type := list report_op * option error.

Definition then_ (a : report_run) (b : report_run) : report_run :=
  match a with (ops, None) => (ops ++ b.1, b.2) | _ => a end.

Section reports.
Context (fs : report_fs) (backup_path : string).

Definition CheckBackUpDirExists : bool := fs_DirExists fs backup_path.
(** The error of the directory is not looked at. *)
Definition CreateBackUpDir : report_run := ([OMkdir backup_path], None).

Definition WriteToFile (path data : string) : report_run := ([OWrite path data], fs_Write fs path).

Definition report_name (fileName mid version : string) : string :=
  path_Base fileName +:+ mid +:+ path_Base version +:+ ".json".

Definition CreateReport (secret : Secrets) (json_data secret_data fileName : string) : report_run :=
  let version := VersionName (s_PackageDataModel secret) in
  let report := report_name fileName "_" version in
  let secrets := report_name fileName "_Secrets_" version in
  then_ ([OMkdir "results"], fs_Mkdir fs "results")
  (then_ (WriteToFile (backup_path +:+ report) json_data)
  (then_ (WriteToFile ("results/" +:+ report) json_data)
  (then_ (WriteToFile (backup_path +:+ secrets) secret_data)
         (WriteToFile ("results/" +:+ secrets) secret_data)))).

(** What [HandleBackup] and the command-line extraction share. *)
Definition backup_dir : report_run := if CheckBackUpDirExists then ([], None) else CreateBackUpDir.

(** The error of the report is dropped. *)
Definition HandleBackup (MarshalIndent : Secrets → res string) (secret : Secrets) (secretData : string) : report_run :=
  then_ backup_dir
    (match MarshalIndent secret with
     | Err e => ([], Some e)
     | Ok jsonData => ((CreateReport secret jsonData secretData (s_FileName secret)).1, None)
     end).

(** ** Where reports go *)

(** A path below a directory: no part of it leads upwards. *)
Definition below (dir path : string) : Prop := ∃ rest, path = dir +:+ rest ∧ ".." ∉ Split rest slash.

Lemma underscore_not_up a b : a +:+ String "_" b ≠ "..".
Proof. by destruct a as [|? [|? [|? ?]]]. Qed.

Lemma report_name_below fileName mid version : forall_chars (not_byte slash) mid = true → (∃ m, mid = String "_" m) →
  ".." ∉ Split (report_name fileName mid version) slash.
Proof.
  intros Hmid [m ->]. unfold report_name.
  assert (Htail : ∀ p, forall_chars (not_byte slash) p = true → ".." ∉ Split (p +:+ String "_" m +:+ path_Base version +:+ ".json") slash).
  { intros p Hp. destruct (path_Base_plain version) as [->|[_ Hv]].
    - change (String "_" m +:+ "/" +:+ ".json") with (String "_" m +:+ String slash ".json"). rewrite <- (string_app_assoc p), Split_app.
      rewrite Split_none by (by rewrite forall_chars_app, Hp, Hmid). cbn [Split app]. intros [H|H%list_elem_of_singleton]%elem_of_cons; [|done].
      symmetry in H. by apply underscore_not_up in H.
    - rewrite Split_none by (rewrite !forall_chars_app, Hp, Hmid, Hv; done). intros H%list_elem_of_singleton.
      symmetry in H. by apply underscore_not_up in H. }
  destruct (path_Base_plain fileName) as [->|[_ Hf]]; [|by apply Htail].
  change ("/" +:+ ?x) with (String slash x). change (String slash ?x) with ("" +:+ String slash x). rewrite Split_app. cbn [Split app].
  intros [H|H]%elem_of_cons; [done|]. by apply (Htail "").
Qed.

Lemma then_ops (a b : report_run) op : op ∈ (then_ a b).1 → op ∈ a.1 ∨ op ∈ b.1.
Proof. destruct a as [ops [e|]]; cbn; [by left|]. intros H%elem_of_app. tauto. Qed.

(** Reports are confined.  Whatever the name of the scanned file and the version the
    package states, every file a report writes lies below the backup path or below
    results, holds the whole report or the findings, and exactly when no operation fails
    are all four files written; [HandleBackup] writes the same files. *)
Theorem reports_confined MarshalIndent secret json_data secret_data fileName :
  let r := CreateReport secret json_data secret_data fileName in
  (∀ path data, OWrite path data ∈ r.1 → (below backup_path path ∨ below "results/" path) ∧ (data = json_data ∨ data = secret_data)) ∧
  (r.2 = None ↔ fs_Mkdir fs "results" = None ∧ ∀ path data, OWrite path data ∈ r.1 → fs_Write fs path = None) ∧
  (r.2 = None → length r.1 = 5%nat) ∧
  ∀ path data, OWrite path data ∈ (HandleBackup MarshalIndent secret secret_data).1 →
    ∃ json, MarshalIndent secret = Ok json ∧ OWrite path data ∈ (CreateReport secret json secret_data (s_FileName secret)).1.
Proof.
  intros r. split_and!.
  - unfold r, CreateReport. intros path data H. assert (Hb : ∀ mid, forall_chars (not_byte slash) mid = true → (∃ m, mid = String "_" m) →
      below backup_path (backup_path +:+ report_name fileName mid (VersionName (s_PackageDataModel secret))) ∧
      below "results/" ("results/" +:+ report_name fileName mid (VersionName (s_PackageDataModel secret)))).
    { intros mid H1 H2. split; (eexists; split; [reflexivity|by apply report_name_below]). }
    destruct (Hb "_" eq_refl ltac:(by eexists)) as [B1 B2]. destruct (Hb "_Secrets_" eq_refl ltac:(by eexists)) as [B3 B4].
    repeat (apply then_ops in H as [H|H]); apply list_elem_of_singleton in H; injection H as -> -> || done; auto.
  - unfold r, CreateReport, then_, WriteToFile. split.
    + repeat (case_match; simplify_eq/=; [done|]). intros Hn. split; [done|]. intros path data Hin. set_solver.
    + intros [-> H]. cbn. repeat (case_match; simplify_eq/=; [exfalso|]); set_solver.
  - unfold r, CreateReport, then_, WriteToFile. by repeat (case_match; simplify_eq/=).
  - intros path data H. unfold HandleBackup in H. apply then_ops in H as [H|H].
    + unfold backup_dir, CreateBackUpDir in H. destruct CheckBackUpDirExists; [by apply not_elem_of_nil in H|]. by apply list_elem_of_singleton in H.
    + destruct (MarshalIndent secret) as [json|e]; [by exists json|by apply not_elem_of_nil in H].
Qed.
End reports.

(** ** Instances *)

Definition demo_secret (name version : string) : Secrets :=
  mk_secrets name "" version [] (mk_package "" "" "" version "" "" "" "" [] [] []) empty_metadata [] [] [] [].

Definition demo_fs (broken : option string) : report_fs :=
  mk_report_fs (λ _, None) (λ _, false) (λ path, if decide (Some path = broken) then Some (ENew "no space left") else None).

(** A hostile name and version. *)
Example hostile_names_confined :
  CreateReport (demo_fs None) "backup/" (demo_secret "" "../../etc/passwd") "J" "S" "/tmp/x/../a.apk" =
    ([OMkdir "results"; OWrite "backup/a.apk_passwd.json" "J"; OWrite "results/a.apk_passwd.json" "J";
      OWrite "backup/a.apk_Secrets_passwd.json" "S"; OWrite "results/a.apk_Secrets_passwd.json" "S"], None).
Proof. by vm_compute. Qed.

(** A backup that could not be written is reported as done. *)
Example failed_backup_unnoticed :
  let fs := demo_fs (Some "backup/a.apk_1.json") in
  (CreateReport fs "backup/" (demo_secret "a.apk" "1") "J" "S" "a.apk").2 = Some (ENew "no space left") ∧
  HandleBackup fs "backup/" (λ _, Ok "J") (demo_secret "a.apk" "1") "S" =
    ([OMkdir "backup/"; OMkdir "results"; OWrite "backup/a.apk_1.json" "J"], None).
Proof. by vm_compute. Qed.

(** Two packages of one file name and version share the files: the later report replaces
    the earlier. *)
Example reports_collide :
  (CreateReport (demo_fs None) "backup/" (demo_secret "" "1") "J" "S" "a/app.apk").1 =
  (CreateReport (demo_fs None) "backup/" (demo_secret "" "2/1") "J" "S" "b/app.apk").1.
Proof. by vm_compute. Qed.
