(* ===== verification/Cli.v ===== *)
(** * The command line ([cmd/scan.go], [cmd/gate.go])

    [morf scan] and [morf gate]: one in-process scan, its report in SARIF, JSON or
    CycloneDX, the exit code, and the baseline file with its allowlists.  The scan is
    that of [Pipeline]; the JSON text, the fingerprint and the outcome of file
    operations are parameters. *)
From Stdlib Require Import ZArith Ascii.
From S2P Require Import Prelude GoStr GoErr GoTime GoPath GoFloat GoJson JsonText ScanJob Redis Artifact Detect Sbom Osv Report Export Gate Verify Manifest Ipa Apk Response Pipeline.

Local Open Scope Z_scope.

(** ** Encodings ([models/]) *)

Definition secret_json (s : SecretModel) : json :=
  JObject ([text_field "type" (Type_ s); ("lineNo", JInt (LineNo s)); text_field "fileLocation" (FileLocation s);
            text_field "secretType" (SecretType s); text_field "secretString" (SecretString s);
            text_field "secretConfidence" (SecretConfidence s)] ++
           (if nonzero (Score s) then [("score", JNumber (Score s))] else []) ++
           omit_empty "tier" (Tier s) ++ omit_empty "verificationStatus" (VerificationStatus s) ++
           omit_empty "masvsId" (MASVSID s)).

Definition platform_json (pf : PlatformFinding) : json :=
  JObject ([text_field "ruleId" (RuleID pf); text_field "title" (Title pf); text_field "severity" (Report.Severity pf)] ++
           omit_empty "masvsId" (pf_MASVSID pf) ++
           [text_field "category" (Category pf); text_field "location" (Location pf); text_field "evidence" (Evidence pf)] ++
           omit_empty "tier" (pf_Tier pf)).

Definition hash_json (h : SBOMHash) : json := JObject [text_field "alg" (Alg h); text_field "content" (Content h)].
Definition sbom_method_json (m : SBOMMethod) : json :=
  JObject [text_field "technique" (Technique m); ("confidence", JNumber (m_Confidence m)); text_field "value" (Value m)].
Definition sbom_identity_json (i : SBOMIdentity) : json :=
  JObject ([text_field "field" (Field i); ("confidence", JNumber (Confidence i))] ++
           omit_empty "concludedValue" (ConcludedValue i) ++ [list_field sbom_method_json "methods" (Methods i)]).
Definition sbom_json (c : SBOMComponent) : json :=
  JObject ([text_field "type" (comp_Type c); text_field "name" (Sbom.Name c)] ++ omit_empty "version" (Version c) ++
           [text_field "bom-ref" (BomRef c)] ++ omit_empty "purl" (Purl c) ++ omit_nil hash_json "hashes" (Hashes c) ++
           omit_empty "group" (Group c) ++ omit_empty "scope" (Scope c) ++
           [("evidence", JObject (omit_nil sbom_identity_json "identity" (Identity c) ++
              omit_nil (λ o, JObject [text_field "location" o]) "occurrences" (Occurrences c)))]).

(** ** The scan ([runScanForFile]) *)

Section scanning.
Context `{RS : RedisServer} `{Machine}.

(** What a scan hands to the commands. *)
Record scanned := mk_scanned {
  sc_secrets : list SecretModel; sc_sbom : list SBOMComponent;
  sc_findings : list PlatformFinding; sc_platform : string }.

(** The environment after [os.Setenv(MORF_ENABLE_VERIFICATION, "true")]. *)
Definition verifying (doVerify : bool) (k : string) : string :=
  if doVerify && bool_decide (k = envVerificationEnabled) then "true" else Getenv k.

Definition verified_with (env : string → string) (secrets : list SecretModel) : list SecretModel :=
  (VerifySecrets decode_slack decode_google decode_cloudflare Now limiter_Wait NewRequest_err http_Do env secrets verifier).1.

Definition firebase_findings (env : string → string) (jobCtx : JobContext) : list PlatformFinding :=
  (CollectFirebaseMisconfigFindings url_Parse env probe_Wait probe_exchange json_top tree Unmarshal_google jobCtx probes).1.

Definition scan_android (path : string) (jobCtx : JobContext) : X (res scanned) :=
  try_ (StartSecScanE files path jobCtx) id (λ secrets,
    let sbom := android_sbom jobCtx in
    mp ← ExtractMetadataAndPackageData files path jobCtx;
    let exposure := match mp.1 with Ok meta => AnalyzeExposure (Some (md_Manifest meta)) | Err _ => [] end in
    mret (Ok (mk_scanned secrets sbom (exposure ++ firebase_findings Getenv jobCtx) "android"))).

Definition scan_ios (path : string) (jobCtx : JobContext) : X (res scanned) :=
  match ios_extraction path jobCtx with
  | Err e => mret (Err e)
  | Ok (secrets, _, sbom) => mret (Ok (mk_scanned secrets sbom (ios_findings jobCtx) "ios"))
  end.

Definition runScanForFile (path : string) (doVerify : bool) : X (res scanned) :=
  let lower := ToLower path in
  let jobCtx := NewJobContextForID uuid "" in
  match CreateWorkspace jobCtx with
  | Some e => mret (Err (wrap "create workspace" e))
  | None =>
      r ← (if HasSuffix lower ".apk" then scan_android path jobCtx
           else if HasSuffix lower ".ipa" then scan_ios path jobCtx
           else mret (Err (ENew "file must be .apk or .ipa")));
      _ ← tell (ACleanup (Workspace jobCtx));
      mret match r with
           | Err e => Err e
           | Ok s => Ok (mk_scanned (verified_with (verifying doVerify) (precise (sc_secrets s)))
                           (sc_sbom s) (sc_findings s) (sc_platform s))
           end
  end.
End scanning.

(** ** Rendering and the exit code ([cmd/scan.go]) *)

Definition exitOK : Z := 0.
Definition exitOperational : Z := 1.
Definition exitPolicy : Z := 4.

Definition scanFailOn (failOn : string) : res string :=
  let v := ToLower (TrimSpace failOn) in
  if decide (v = "" ∨ v = "verified") then Ok FailOnNewVerified
  else if decide (v = "any") then Ok FailOnNewAny
  else if decide (v = "keep") then Ok FailOnTierKeep
  else if decide (v = "none") then Ok NonePolicy
  else Err (ENew ("invalid --fail-on " +:+ Quote failOn +:+ ": want one of none|any|verified|keep")).

Definition policyLabel (p : string) : string :=
  if decide (p = FailOnNewVerified) then "verified"
  else if decide (p = FailOnNewAny) then "any"
  else if decide (p = FailOnTierKeep) then "keep"
  else if decide (p = NonePolicy) then "none" else p.

Definition passFail (failed : bool) : string := if failed then "FAIL" else "PASS".

Record scanOptions := mk_opts {
  o_format : string; o_out : string; o_verify : bool; o_failOn : string;
  o_sarif : bool; o_reveal : bool; o_target : string; o_platform : string; o_withCVE : bool }.

(** A command's answer: the document, the summary, the exit code, the error. *)
Record answer := mk_answer { a_out : string; a_summary : string; a_code : Z; a_err : option error }.

Definition operational (e : error) : answer := mk_answer "" "" exitOperational (Some e).

Section commands.
Context `{T : JsonText} (MarshalIndent_sarif : sarifLog → res string)
  (Unmarshal_payload : string → res scanResultData) (tool_version : string) (now : gotime)
  (EnrichComponents : list SBOMComponent → list OSVVulnerability) (fingerprint : string → string).

Definition scan_envelope (target platform : string) (secrets : list SecretModel) (pfs : list PlatformFinding) : json :=
  JObject [("data", JObject [text_field "platform" platform; list_field platform_json "platformFindings" pfs;
                             list_field secret_json "secrets" secrets; text_field "target" target])].

(** Decoded and printed again, with indentation. *)
Definition reindent (raw : string) : res string :=
  match Unmarshal_any raw with Err e => Err e | Ok pretty => MarshalIndent pretty end.

Definition render_json (env : json) (reveal : bool) : res string :=
  match Marshal env with
  | Err e => Err e
  | Ok raw =>
      match (if reveal then Ok raw else MaskResultJSON Unmarshal_map Marshal_map raw) with
      | Err e => Err e
      | Ok raw => reindent raw
      end
  end.

Definition renderFindings (format target platform : string) (secrets : list SecretModel) (pfs : list PlatformFinding)
    (reveal : bool) : res string :=
  let f := ToLower format in
  if decide (f = "sarif") then EncodeSARIFWithFindings MarshalIndent_sarif target platform secrets pfs
  else if decide (f = "json") then render_json (scan_envelope target platform secrets pfs) reveal
  else Err (ENew ("invalid format " +:+ Quote format +:+ ": want json or sarif")).

Definition sbom_envelope (target platform : string) (sbom : list SBOMComponent) : json :=
  JObject [("data", JObject [text_field "fileName" target; text_field "platform" platform;
                             list_field sbom_json "sbomComponents" sbom])].

Definition sbom_job (target raw : string) : ScanJob :=
  mk_job "" "" "" "" target zero_time None None None "" "" raw "" 0 "" "" 0 "" "" ∅.

Definition renderSBOM (target platform : string) (sbom : list SBOMComponent) (withCVE : bool) : res string :=
  match Marshal (sbom_envelope target platform sbom) with
  | Err e => Err e
  | Ok raw =>
      let job := sbom_job target raw in
      let r := if withCVE
               then ExportResultWithOSV MarshalIndent Unmarshal_any Unmarshal_payload tool_version now
                      (Some EnrichComponents) false true job ExportFormatCycloneDX
               else ExportResult MarshalIndent Unmarshal_any Unmarshal_payload tool_version now job ExportFormatCycloneDX in
      match r with Ok (out, _) => Ok out | Err e => Err e end
  end.

(** The format in effect. *)
Definition format_of (opts : scanOptions) : string :=
  let format := if o_sarif opts then "sarif" else o_format opts in
  if decide (format = "") then "sarif" else format.

Definition is_inventory (format : string) : bool :=
  bool_decide (ToLower format = "cyclonedx-sbom") || bool_decide (ToLower format = "cyclonedx").

Definition scan_gate (policy : string) (secrets : list SecretModel) : GateResult :=
  Evaluate fingerprint secrets (Some NewBaseline) policy.

Definition evaluateAndRender (opts : scanOptions) (secrets : list SecretModel) (sbom : list SBOMComponent)
    (pfs : list PlatformFinding) : answer :=
  let format := format_of opts in
  if is_inventory format then
    match renderSBOM (o_target opts) (o_platform opts) sbom (o_withCVE opts) with
    | Err e => operational e
    | Ok rendered =>
        mk_answer rendered
          ("MORF SBOM: " +:+ itoa (Z.of_nat (length sbom)) +:+ " component(s) [" +:+ o_platform opts +:+
           "] (evidence-based inventory)" +:+ (if o_withCVE opts then " [+OSV/CVE enrichment]" else "")) exitOK None
    end
  else
    match scanFailOn (o_failOn opts) with
    | Err e => operational e
    | Ok policy =>
        match renderFindings format (o_target opts) (o_platform opts) secrets pfs (o_reveal opts) with
        | Err e => operational e
        | Ok rendered =>
            let res := scan_gate policy secrets in
            mk_answer rendered
              ("MORF scan: " +:+ count_str secrets +:+ " finding(s) (" +:+ count_str (NewVerified res) +:+
               " verified-active), " +:+ itoa (Z.of_nat (length pfs)) +:+ " platform finding(s); fail-on=" +:+
               policyLabel policy +:+ " -> " +:+ passFail (Failed res) +:+ " [" +:+ Reason res +:+ "]")
              (if Failed res then exitPolicy else exitOK) None
        end
    end.

(** ** The process: what it printed, and the files *)

(** Files that exist and cannot be read; the error of writing a file, and what a failed
    write leaves. *)
Context (unreadable : string → bool) (write_error : string → option error)
  (damage : string → gmap string string → gmap string string) (stdout_error : string → option error).

Record proc := mk_proc { stdout : list string; stderr : list string; p_files : gmap string string }.

Definition print_out (s : string) (p : proc) : option error * proc :=
  match stdout_error s with
  | Some e => (Some e, p)
  | None => (None, mk_proc (stdout p ++ [s]) (stderr p) (p_files p))
  end.
Definition print_err (s : string) (p : proc) : proc := mk_proc (stdout p) (stderr p ++ [s]) (p_files p).

Definition os_WriteFile (path data : string) (p : proc) : option error * proc :=
  match write_error path with
  | Some e => (Some e, mk_proc (stdout p) (stderr p) (damage path (p_files p)))
  | None => (None, mk_proc (stdout p) (stderr p) (<[path := data]> (p_files p)))
  end.

Definition writeOutput (opts : scanOptions) (data : string) (p : proc) : option error * proc :=
  if decide (TrimSpace (o_out opts) = "") then print_out data p else os_WriteFile (o_out opts) data p.

Definition for_artifact (opts : scanOptions) (path platform : string) : scanOptions :=
  mk_opts (o_format opts) (o_out opts) (o_verify opts) (o_failOn opts) (o_sarif opts) (o_reveal opts)
    (if decide (o_target opts = "") then path_Base path else o_target opts) platform (o_withCVE opts).

Definition warns (opts : scanOptions) : bool := o_reveal opts && negb (o_sarif opts) && bool_decide (folded (o_format opts) = folded "json").

Definition finish_scan (opts : scanOptions) (path : string) (s : scanned) (p : proc) : Z * option error * proc :=
  let opts := for_artifact opts path (sc_platform s) in
  let dest := if decide (TrimSpace (o_out opts) = "") then "stdout" else o_out opts in
  let p := if warns opts
           then print_err ("WARNING: --reveal-secrets wrote UNMASKED secret values to " +:+ dest +:+
                           " — handle as sensitive.") p else p in
  let a := evaluateAndRender opts (sc_secrets s) (sc_sbom s) (sc_findings s) in
  match a_err a with
  | Some e => (exitOperational, Some e, p)
  | None =>
      match writeOutput opts (a_out a) p with
      | (Some e, p) => (exitOperational, Some e, p)
      | (None, p) => (a_code a, None, print_err (a_summary a) p)
      end
  end.

(** ** The gate ([cmd/gate.go]) *)

Context (marshal_baseline : baselineJSON → string) (unmarshal_baseline : string → option baselineJSON).

Definition os_ReadFile (path : string) (p : proc) : option string := if unreadable path then None else p_files p !! path.
Definition os_IsNotExist (path : string) (p : proc) : bool := negb (unreadable path) && bool_decide (p_files p !! path = None).

Definition loadBaselineOrEmpty (path : string) (p : proc) : res Baseline :=
  if decide (TrimSpace path = "") then Ok NewBaseline
  else if os_IsNotExist path p then Ok NewBaseline
  else LoadBaseline unmarshal_baseline (os_ReadFile path p).

Definition save_baseline (path : string) (b : Baseline) (p : proc) : option error * proc :=
  let '(err, p) := os_WriteFile path (Save marshal_baseline b) p in
  (wrap ("gate: write baseline " +:+ Quote path) <$> err, p).

Record gateOptions := mk_gate_opts {
  g_baseline : string; g_updateBaseline : bool; g_verify : bool; g_failOn : string; g_jsonOut : bool }.

(** The masked findings of a list, read back from the JSON report. *)
Definition maskList (secrets : list SecretModel) : res (list json) :=
  if decide (length secrets = 0%nat) then Ok []
  else match renderFindings "json" "" "" secrets [] false with
       | Err e => Err e
       | Ok raw =>
           match Unmarshal_any raw with
           | Err e => Err e
           | Ok env =>
               Ok match at_path env [Key "data"; Key "secrets"] with Some (JArray l) => l | _ => [] end
           end
       end.

Definition maskGateResult (r : GateResult) : res string :=
  match maskList (NewFindings r) with
  | Err e => Err e
  | Ok nf =>
      match maskList (NewVerified r) with
      | Err e => Err e
      | Ok nv => MarshalIndent (JObject [("failed", JBool (Failed r)); ("newFindings", JArray nf);
                                         ("newVerified", JArray nv); text_field "reason" (Reason r)])
      end
  end.

(** The document is printed with [--json] only. *)
Definition evaluateGate (opts : gateOptions) (secrets : list SecretModel) (base : Baseline) : answer :=
  match scanFailOn (g_failOn opts) with
  | Err e => operational e
  | Ok policy =>
      let r := Evaluate fingerprint secrets (Some base) policy in
      match (if g_jsonOut opts then maskGateResult r else Ok "") with
      | Err e => operational e
      | Ok out =>
          mk_answer out
            ("MORF gate: " +:+ count_str (NewFindings r) +:+ " new finding(s), " +:+ count_str (NewVerified r) +:+
             " new verified-active; fail-on=" +:+ policyLabel policy +:+ " -> " +:+ passFail (Failed r) +:+ " [" +:+
             Reason r +:+ "]")
            (if Failed r then exitPolicy else exitOK) None
      end
  end.

Definition newline : string := String (byte_of 10) "".

Definition update_baseline (opts : gateOptions) (secrets : list SecretModel) (p : proc) : Z * option error * proc :=
  if decide (TrimSpace (g_baseline opts) = "")
  then (exitOperational, Some (ENew "--update-baseline requires --baseline <path>"), p)
  else
    match save_baseline (g_baseline opts) (BaselineFromScan fingerprint secrets) p with
    | (Some e, p) => (exitOperational, Some e, p)
    | (None, p) =>
        (exitOK, None, print_err ("MORF gate: baseline updated (" +:+ g_baseline opts +:+ "), " +:+ count_str secrets +:+
                                  " finding(s) accepted" +:+ newline) p)
    end.

Definition finish_gate (opts : gateOptions) (secrets : list SecretModel) (p : proc) : Z * option error * proc :=
  match loadBaselineOrEmpty (g_baseline opts) p with
  | Err e => (exitOperational, Some e, p)
  | Ok base =>
      let a := evaluateGate opts secrets base in
      match a_err a with
      | Some e => (exitOperational, Some e, p)
      | None =>
          match (if g_jsonOut opts then print_out (a_out a +:+ newline) p else (None, p)) with
          | (Some e, p) => (exitOperational, Some e, p)
          | (None, p) =>
              let p := print_err (a_summary a) p in
              if g_updateBaseline opts then update_baseline opts secrets p else (a_code a, None, p)
          end
      end
  end.

(** [morf gate allow] *)
Definition split_step (st : gset string * list string) (tok : string) : gset string * list string :=
  let '(seen, out) := st in
  let tok := TrimSpace tok in
  if decide (tok = "") then (seen, out)
  else if decide (tok ∈ seen) then (seen, out) else ({[tok]} ∪ seen, out ++ [tok]).

Definition splitComma (l : list string) : list string :=
  (foldl split_step (∅, []) (flat_map (λ s, Split s ",") l)).2.

(** How many of the entries are new to their set. *)
Definition added (before after : gset string) : Z := Z.of_nat (size after) - Z.of_nat (size before).

Definition allow_entries (fps typs : list string) (b : Baseline) : Baseline * Z :=
  let b1 := foldl (λ b fp, Allow fp b) b fps in
  let b2 := foldl (λ b t, AllowType t b) b1 typs in
  (b2, added (AllowedFingerprints b) (AllowedFingerprints b1) + added (AllowedTypes b1) (AllowedTypes b2)).

Definition runGateAllow (baseline : string) (fingerprints types : list string) (p : proc) : option error * proc :=
  if decide (TrimSpace baseline = "") then (Some (ENew "--baseline <path> is required for gate allow"), p)
  else
    let fps := splitComma fingerprints in
    let typs := splitComma types in
    if decide (length fps = 0%nat ∧ length typs = 0%nat)
    then (Some (ENew "gate allow: at least one --allow-fingerprint or --allow-type is required"), p)
    else
      match loadBaselineOrEmpty baseline p with
      | Err e => (Some e, p)
      | Ok base =>
          let '(base, n) := allow_entries fps typs base in
          match save_baseline baseline base p with
          | (Some e, p) => (Some e, p)
          | (None, p) =>
              (None, print_err ("MORF gate: allowlist updated (" +:+ baseline +:+ ") — " +:+ itoa n +:+
                                " new entr(y/ies) added (" +:+ itoa (Z.of_nat (length fps)) +:+ " fingerprint(s), " +:+
                                itoa (Z.of_nat (length typs)) +:+ " type(s))" +:+ newline) p)
          end
      end.

(** ** The commands *)

Context `{RS : RedisServer} `{Machine}.

Definition runScan (opts : scanOptions) (path : string) (p : proc) : X (Z * option error * proc) :=
  r ← runScanForFile path (o_verify opts);
  mret match r with Err e => (exitOperational, Some e, p) | Ok s => finish_scan opts path s p end.

Definition runGate (opts : gateOptions) (path : string) (p : proc) : X (Z * option error * proc) :=
  r ← runScanForFile path (g_verify opts);
  mret match r with Err e => (exitOperational, Some e, p) | Ok s => finish_gate opts (sc_secrets s) p end.
End commands.
