(* ===== verification/CliSpec.v ===== *)
(** * What the commands guarantee

    Reports do not depend on the values of the secrets beyond their masks, the exit code
    tells a policy hit from a failure, and the baseline file behaves as a set of accepted
    findings. *)
From Stdlib Require Import ZArith Ascii.
From S2P Require Import Prelude GoStr GoErr GoTime GoPath GoFloat GoJson JsonText ScanJob Redis Artifact Detect Sbom Osv Report Export Gate Verify Manifest Ipa Apk Response Pipeline PipelineSpec Cli.

Local Open Scope Z_scope.

(** ** Values behind their masks *)

(** Two findings that differ at most in their values, which have the same mask. *)
Definition alike (s s' : SecretModel) : Prop :=
  maskSecret (SecretString s) = maskSecret (SecretString s') ∧
  s' = mk_secret (Type_ s) (LineNo s) (FileLocation s) (SecretType s) (SecretString s') (SecretConfidence s)
         (Score s) (Tier s) (VerificationStatus s) (MASVSID s).

Lemma maskSecret_clean v : maskSecret (clean v) = maskSecret v.
Proof. unfold maskSecret. by rewrite to_runes_clean. Qed.

Lemma cleaned_object l : as_any (cleaned (JObject l)) = JObject (as_map ((λ '(k, v), (clean k, as_any (cleaned v))) <$> l)).
Proof. cbn. do 2 f_equal. rewrite <- list_fmap_compose. by apply list_fmap_ext; intros ? [k v] ?. Qed.

(** The key of a field is its own clean form. *)
Ltac clean_keys :=
  repeat match goal with
  | |- context [clean (String ?a ?b)] => replace (clean (String a b)) with (String a b) by (vm_compute; reflexivity)
  end.

Definition mask_with (g : string → string) (v : json) : json :=
  match v with
  | JObject m => match get m "secretString" with
                 | JString s => JObject (adjust "secretString" (λ _, JString (g s)) m)
                 | _ => v
                 end
  | _ => v
  end.

Lemma alike_erased s s' : alike s s' → erased (secret_json s) = erased (secret_json s').
Proof. intros [_ ->]. reflexivity. Qed.

Lemma alike_masked s s' : alike s s' →
  mask_item (as_any (cleaned (secret_json s))) = mask_item (as_any (cleaned (secret_json s'))).
Proof.
  intros [Hm ->]. rewrite <- (maskSecret_clean (SecretString s)), <- (maskSecret_clean (SecretString s')) in Hm.
  unfold secret_json, omit_empty, text_field.
  cbn [Type_ LineNo FileLocation SecretType SecretString SecretConfidence Score Tier VerificationStatus MASVSID].
  destruct (nonzero (Score s)), (decide (Tier s = "")), (decide (VerificationStatus s = "")), (decide (MASVSID s = ""));
    rewrite !cleaned_object; cbn [app fmap list_fmap cleaned as_any]; clean_keys;
    change mask_item with (mask_with maskSecret);
    generalize (clean (Type_ s)) (clean (FileLocation s)) (clean (SecretType s)) (clean (SecretConfidence s))
      (clean (Tier s)) (clean (VerificationStatus s)) (clean (MASVSID s)) (as_any (cleaned (JInt (LineNo s)))); revert Hm;
    generalize (clean (SecretString s)) (clean (SecretString s')) maskSecret; intros v v' g Hm ? ? ? ? ? ? ? ?;
    vm_compute; by rewrite Hm.
Qed.

Lemma new_to_empty fingerprint s : is_new fingerprint (Some NewBaseline) s = true.
Proof. unfold is_new, isKnown, NewBaseline. cbn. rewrite !bool_decide_eq_false_2 by set_solver. done. Qed.

Section masking.
Context `{T : JsonText} `{!JsonTextLaws T}.

Lemma Marshal_alike v v' : erased v = erased v' →
  (∃ e, Marshal v = Err e ∧ Marshal v' = Err e) ∨ (∃ t t', Marshal v = Ok t ∧ Marshal v' = Ok t').
Proof.
  intros He. destruct (Marshal v) as [t|e] eqn:E.
  - right. destruct (Marshal v') as [t'|e'] eqn:E'; [eauto|]. symmetry in He.
    pose proof (Marshal_fails _ _ _ He E'). congruence.
  - left. pose proof (Marshal_fails _ _ _ He E). eauto.
Qed.

Lemma Unmarshal_map_object raw v m : parse raw = Ok v → as_any v = JObject m → Unmarshal_map raw = Ok (Some m).
Proof. unfold Unmarshal_map. intros -> Hv. destruct v; try done. by rewrite Hv. Qed.

(** A report is printed from the masked tree alone. *)
Lemma render_masked env env' m m' :
  erased env = erased env' → as_any (cleaned env) = JObject m → as_any (cleaned env') = JObject m' →
  mask_result m = mask_result m' → render_json env false = render_json env' false.
Proof.
  intros He Hm Hm' Hmask. unfold render_json.
  destruct (Marshal_alike _ _ He) as [(e & -> & ->)|(t & t' & E & E')]; [done|]. rewrite E, E'.
  apply parse_Marshal in E, E'. unfold MaskResultJSON.
  rewrite (Unmarshal_map_object _ _ _ E Hm), (Unmarshal_map_object _ _ _ E' Hm'). cbn. by rewrite Hmask.
Qed.

Lemma scan_envelope_map target platform secrets pfs :
  as_any (cleaned (scan_envelope target platform secrets pfs)) =
  JObject [("data", JObject [("platform", JString (clean platform));
     ("platformFindings", JArray (as_any ∘ cleaned ∘ platform_json <$> pfs));
     ("secrets", JArray (as_any ∘ cleaned ∘ secret_json <$> secrets)); ("target", JString (clean target))])].
Proof.
  unfold scan_envelope, list_field, text_field. rewrite cleaned_object. cbn [fmap list_fmap]. rewrite cleaned_object.
  cbn [fmap list_fmap cleaned as_any]. clean_keys. rewrite !list_fmap_compose.
  generalize (clean platform) (clean target) (as_any <$> (cleaned <$> (platform_json <$> pfs)))
    (as_any <$> (cleaned <$> (secret_json <$> secrets))).
  intros. by vm_compute.
Qed.

Lemma Forall2_fmap_eq {A B} (f g : A → B) (R : A → A → Prop) l l' :
  (∀ x y, R x y → f x = g y) → Forall2 R l l' → f <$> l = g <$> l'.
Proof. intros H. induction 1 as [|x y l l' Hxy _ IH]; [done|]. cbn. by rewrite (H x y), IH. Qed.

Lemma render_json_alike target platform secrets secrets' pfs : Forall2 alike secrets secrets' →
  render_json (scan_envelope target platform secrets pfs) false =
  render_json (scan_envelope target platform secrets' pfs) false.
Proof.
  intros Ha. eapply render_masked; [|apply scan_envelope_map..|].
  - unfold scan_envelope, list_field. cbn. rewrite <- !list_fmap_compose.
    assert (erased ∘ secret_json <$> secrets = erased ∘ secret_json <$> secrets') as ->; [|done].
    eapply Forall2_fmap_eq, Ha. apply alike_erased.
  - assert (Hs : mask_item <$> (as_any ∘ cleaned ∘ secret_json <$> secrets) =
                 mask_item <$> (as_any ∘ cleaned ∘ secret_json <$> secrets')).
    { rewrite <- !list_fmap_compose. eapply Forall2_fmap_eq, Ha. intros ?? H. by apply alike_masked. }
    revert Hs. generalize (as_any ∘ cleaned ∘ secret_json <$> secrets) (as_any ∘ cleaned ∘ secret_json <$> secrets').
    intros l l' Hs. change (mask_result ?m) with (adjust "data" mask_data m). cbn -[mask_item fmap]. by rewrite Hs.
Qed.

Lemma alike_entry s s' : alike s s' → secret_entry s = secret_entry s' ∧ secret_result s = secret_result s'.
Proof. intros [Hm ->]. split; [done|]. unfold secret_result. cbn. by rewrite Hm. Qed.

Lemma sarif_alike target platform secrets secrets' pfs : Forall2 alike secrets secrets' →
  sarif_doc target platform secrets pfs = sarif_doc target platform secrets' pfs.
Proof.
  intros Ha. unfold sarif_doc.
  assert (∀ st, foldl (emit secret_entry secret_result) st secrets = foldl (emit secret_entry secret_result) st secrets') as ->; [|done].
  induction Ha as [|s s' l l' Hs _ IH]; [done|]. intros st. cbn [foldl].
  destruct (alike_entry _ _ Hs) as [He Hr]. assert (emit secret_entry secret_result st s = emit secret_entry secret_result st s') as -> by (unfold emit; by rewrite He, Hr). apply IH.
Qed.

Lemma filter_alike (P : SecretModel → Prop) `{!∀ x, Decision (P x)} (R : SecretModel → SecretModel → Prop) l l' :
  (∀ s s', R s s' → P s ↔ P s') → Forall2 R l l' → Forall2 R (filter P l) (filter P l').
Proof.
  intros HP. induction 1 as [|s s' l l' Hs _ IH]; [constructor|]. rewrite !filter_cons. specialize (HP _ _ Hs).
  case_decide; case_decide; [by constructor|tauto..|done].
Qed.

(** Findings that a baseline cannot tell apart. *)
Definition same_to_gate (fingerprint : string → string) (base : Baseline) (s s' : SecretModel) : Prop :=
  alike s s' ∧ is_new fingerprint (Some base) s = is_new fingerprint (Some base) s'.

Lemma Evaluate_alike fingerprint base policy secrets secrets' :
  Forall2 (same_to_gate fingerprint base) secrets secrets' →
  let r := Evaluate fingerprint secrets (Some base) policy in
  let r' := Evaluate fingerprint secrets' (Some base) policy in
  Forall2 alike (NewFindings r) (NewFindings r') ∧ Forall2 alike (NewVerified r) (NewVerified r') ∧
  Failed r = Failed r' ∧ Reason r = Reason r'.
Proof.
  intros Ha. set (isnew s := is_new fingerprint (Some base) s = true).
  assert (HF : Forall2 alike (filter isnew secrets) (filter isnew secrets')).
  { eapply Forall2_impl; [eapply filter_alike, Ha|by intros ?? []]. intros s s' [_ E]. unfold isnew. by rewrite E. }
  assert (HV : Forall2 alike (filter (λ s, VerificationStatus s = Gate.statusActive) (filter isnew secrets))
                 (filter (λ s, VerificationStatus s = Gate.statusActive) (filter isnew secrets'))).
  { eapply filter_alike, HF. by intros s s' [_ ->]. }
  assert (HK : Forall2 alike (filter (λ s, Tier s = tierKeep) (filter isnew secrets))
                 (filter (λ s, Tier s = tierKeep) (filter isnew secrets'))).
  { eapply filter_alike, HF. by intros s s' [_ ->]. }
  assert (Hnil : ∀ l l', Forall2 alike l l' → bool_decide (l = []) = bool_decide (l' = []) ∧ count_str l = count_str l').
  { intros l l' H. split; [by destruct H|]. unfold count_str. by rewrite (Forall2_length _ _ _ H). }
  destruct (Hnil _ _ HF) as [F1 F2], (Hnil _ _ HV) as [V1 V2], (Hnil _ _ HK) as [K1 K2].
  unfold isnew in *. unfold Evaluate. cbv zeta. rewrite F1, F2, V1, V2, K1, K2. repeat case_decide; done.
Qed.

Context (MarshalIndent_sarif : sarifLog → res string) (Unmarshal_payload : string → res scanResultData)
  (tool_version : string) (now : gotime) (enrich : list SBOMComponent → list OSVVulnerability) (fingerprint : string → string).

Lemma renderFindings_alike format target platform secrets secrets' pfs reveal :
  Forall2 alike secrets secrets' → (ToLower format = "json" → reveal = false) →
  renderFindings MarshalIndent_sarif format target platform secrets pfs reveal =
  renderFindings MarshalIndent_sarif format target platform secrets' pfs reveal.
Proof.
  intros Ha Hr. unfold renderFindings, EncodeSARIFWithFindings. cbv zeta. case_decide; [by rewrite (sarif_alike _ _ _ _ _ Ha)|].
  case_decide; [|done]. rewrite Hr by done. by apply render_json_alike.
Qed.

Lemma maskList_alike secrets secrets' : Forall2 alike secrets secrets' →
  maskList MarshalIndent_sarif secrets = maskList MarshalIndent_sarif secrets'.
Proof.
  intros Ha. unfold maskList. rewrite (Forall2_length _ _ _ Ha). case_decide; [done|].
  by rewrite (renderFindings_alike _ _ _ _ _ _ _ Ha).
Qed.

(** C15: reports never depend on the value of a secret beyond its mask.  Two scans whose
    findings differ only in their values, with the same masks, give the same document, the
    same summary and the same exit code, in every format, unless the plaintext is asked for
    with --reveal-secrets in JSON; and the gate gives the same answer for them, document
    included, when the baseline does not tell them apart. *)
Theorem reports_hide_values (opts : scanOptions) (gopts : gateOptions) (secrets secrets' : list SecretModel)
    (sbom : list SBOMComponent) (pfs : list PlatformFinding) (base : Baseline) :
  Forall2 alike secrets secrets' →
  ((ToLower (format_of opts) = "json" → o_reveal opts = false) →
   evaluateAndRender MarshalIndent_sarif Unmarshal_payload tool_version now enrich fingerprint opts secrets sbom pfs =
   evaluateAndRender MarshalIndent_sarif Unmarshal_payload tool_version now enrich fingerprint opts secrets' sbom pfs) ∧
  (Forall2 (λ s s', is_new fingerprint (Some base) s = is_new fingerprint (Some base) s') secrets secrets' →
   evaluateGate MarshalIndent_sarif fingerprint gopts secrets base =
   evaluateGate MarshalIndent_sarif fingerprint gopts secrets' base).
Proof.
  intros Ha. split.
  - intros Hr. unfold evaluateAndRender, scan_gate. cbv zeta. destruct (is_inventory _); [done|].
    destruct (scanFailOn _) as [policy|]; [|done]. rewrite (renderFindings_alike _ _ _ _ _ _ _ Ha Hr).
    destruct (renderFindings _ _ _ _ _ _ _); [|done].
    assert (He : Forall2 (same_to_gate fingerprint NewBaseline) secrets secrets').
    { eapply Forall2_impl; [exact Ha|]. intros s s' H. split; [done|]. by rewrite !new_to_empty. }
    destruct (Evaluate_alike _ _ policy _ _ He) as (_ & HV & -> & ->). unfold count_str.
    by rewrite (Forall2_length _ _ _ Ha), (Forall2_length _ _ _ HV).
  - intros Hn. unfold evaluateGate. destruct (scanFailOn _) as [policy|]; [|done]. cbv zeta.
    assert (Hg : Forall2 (same_to_gate fingerprint base) secrets secrets') by 
      by (clear -Ha Hn; induction Ha; inversion Hn; subst; constructor; [by split|auto]).
    destruct (Evaluate_alike _ _ policy _ _ Hg) as (HF & HV & HE & HR).
    unfold maskGateResult, count_str. rewrite HE, HR, (maskList_alike _ _ HF), (maskList_alike _ _ HV).
    by rewrite (Forall2_length _ _ _ HF), (Forall2_length _ _ _ HV).
Qed.
End masking.

(** ** Baselines *)

Lemma of_to_json b : of_json (to_json b) = b.
Proof.
  destruct b as [F AF AT]. unfold of_json, to_json, sliceToSet, setToSortedSlice. cbn.
  assert (∀ m : gset string, list_to_set (merge_sort string_le (elements m)) = m) as E.
  { intros m. apply set_eq. intros x. by rewrite elem_of_list_to_set, merge_sort_Permutation, elem_of_elements. }
  by rewrite !E.
Qed.

(** The entries of a repeated flag. *)
Definition tokens (l : list string) : list string := filter (λ t, t ≠ "") (TrimSpace <$> flat_map (λ s, Split s ",") l).

Lemma split_steps l seen out : list_to_set out = seen →
  let '(seen', out') := foldl split_step (seen, out) l in
  (list_to_set out' : gset string) = seen ∪ list_to_set (filter (λ t, t ≠ "") (TrimSpace <$> l)).
Proof.
  revert seen out. induction l as [|t l IH]; intros seen out Ho; [cbn; set_solver|]. cbn [foldl split_step fmap list_fmap].
  cbv zeta. rewrite filter_cons. destruct (decide (TrimSpace t = "")) as [E|E].
  - rewrite (decide_False (P := TrimSpace t ≠ "")) by tauto. by apply IH.
  - rewrite (decide_True (P := TrimSpace t ≠ "")) by done. case_decide as Hs.
    + specialize (IH seen out Ho). destruct (foldl _ _ _). rewrite IH. set_solver.
    + specialize (IH ({[TrimSpace t]} ∪ seen) (out ++ [TrimSpace t])). destruct (foldl _ _ _).
      rewrite IH; [set_solver|]. rewrite list_to_set_app_L. set_solver.
Qed.

Lemma splitComma_tokens l : (list_to_set (splitComma l) : gset string) = list_to_set (tokens l).
Proof.
  unfold splitComma, tokens. pose proof (split_steps (flat_map (λ s, Split s ",") l) ∅ [] eq_refl) as H'.
  destruct (foldl _ _ _). cbn [snd]. by rewrite H', union_empty_l_L.
Qed.

(** What [morf gate allow] does to the accepted findings. *)
Definition allow_spec (fps typs : list string) (b : Baseline) : Baseline :=
  mk_baseline (Fingerprints b) (AllowedFingerprints b ∪ list_to_set (tokens fps)) (AllowedTypes b ∪ list_to_set (tokens typs)).

Lemma allow_all fps b : foldl (λ b fp, Allow fp b) b fps =
  mk_baseline (Fingerprints b) (AllowedFingerprints b ∪ list_to_set fps) (AllowedTypes b).
Proof.
  revert b. induction fps as [|fp fps IH]; intros b; cbn [foldl]; [destruct b; cbn; f_equal; set_solver|].
  rewrite IH. cbn. f_equal. set_solver.
Qed.

Lemma allow_types typs b : foldl (λ b t, AllowType t b) b typs =
  mk_baseline (Fingerprints b) (AllowedFingerprints b) (AllowedTypes b ∪ list_to_set typs).
Proof.
  revert b. induction typs as [|t typs IH]; intros b; cbn [foldl]; [destruct b; cbn; f_equal; set_solver|].
  rewrite IH. cbn. f_equal. set_solver.
Qed.

Lemma allow_entries_spec fps typs b : (allow_entries (splitComma fps) (splitComma typs) b).1 = allow_spec fps typs b.
Proof. unfold allow_entries. cbn. rewrite allow_types, allow_all. unfold allow_spec. cbn. by rewrite !splitComma_tokens. Qed.

(** ** Exit codes *)

Section commands.
Context `{T : JsonText} (MarshalIndent_sarif : sarifLog → res string) (Unmarshal_payload : string → res scanResultData)
  (tool_version : string) (now : gotime) (enrich : list SBOMComponent → list OSVVulnerability) (fingerprint : string → string).
Context (unreadable : string → bool) (write_error : string → option error)
  (damage : string → gmap string string → gmap string string) (stdout_error : string → option error).
Context (marshal_baseline : baselineJSON → string) (unmarshal_baseline : string → option baselineJSON).

#[local] Notation evaluate := (evaluateAndRender MarshalIndent_sarif Unmarshal_payload tool_version now enrich fingerprint).
#[local] Notation finish := (finish_scan MarshalIndent_sarif Unmarshal_payload tool_version now enrich fingerprint
  write_error damage stdout_error).

(** A finding that meets the policy of the flag. *)
Definition tripped (failOn : string) (secrets : list SecretModel) : Prop :=
  ∃ policy s, scanFailOn failOn = Ok policy ∧ s ∈ secrets ∧ gating policy s = true.

Lemma evaluate_code opts secrets sbom pfs : let a := evaluate opts secrets sbom pfs in
  match a_err a with
  | Some _ => a_code a = exitOperational
  | None => (a_code a = exitOK ∨ a_code a = exitPolicy) ∧
      (a_code a = exitPolicy ↔ is_inventory (format_of opts) = false ∧ tripped (o_failOn opts) secrets)
  end.
Proof.
  cbv zeta. unfold evaluateAndRender. cbv zeta. destruct (is_inventory _) eqn:Hi.
  - destruct (renderSBOM _ _ _ _ _ _ _ _); [|done]. cbn. split; [by left|]. by split; [|intros [? _]].
  - unfold tripped. destruct (scanFailOn _) as [policy|e]; [|done]. destruct (renderFindings _ _ _ _ _ _ _); [|done].
    cbn. pose proof (Evaluate_failed fingerprint secrets (Some NewBaseline) policy) as HF. unfold scan_gate.
    destruct (Failed _).
    + split; [by right|]. split; [|done]. intros _. split; [done|]. destruct HF as [(s & Hs & _ & Hg) _]; [done|]. eauto.
    + split; [by left|]. split; [done|]. intros [_ (policy' & s & [= <-] & Hs & Hg)]. destruct HF as [_ HF].
      discriminate HF. exists s. split_and!; [done|apply new_to_empty|done].
Qed.

(** Where the document went. *)
Definition emitted (opts : scanOptions) (doc : string) (p p' : proc) : Prop :=
  if decide (TrimSpace (o_out opts) = "") then stdout p' = stdout p ++ [doc] ∧ p_files p' = p_files p
  else stdout p' = stdout p ∧ p_files p' = <[o_out opts := doc]> (p_files p).

Lemma finish_scan_code opts path s p : let '(code, err, p') := finish opts path s p in
  let opts' := for_artifact opts path (sc_platform s) in
  let a := evaluate opts' (sc_secrets s) (sc_sbom s) (sc_findings s) in
  match err with
  | Some _ => code = exitOperational
  | None => a_err a = None ∧ code = a_code a ∧ emitted opts (a_out a) p p'
  end.
Proof.
  unfold finish_scan. cbv zeta. set (a := evaluate _ _ _ _). destruct (a_err a) as [e|] eqn:Ea; [done|].
  unfold writeOutput, emitted, print_out, os_WriteFile. cbn [o_out for_artifact].
  destruct (decide (TrimSpace (o_out opts) = "")); [destruct (stdout_error _)|destruct (write_error _)]; try done;
    by destruct (warns _).
Qed.

Context `{RS : RedisServer} `{Machine}.

#[local] Notation scan := (runScan MarshalIndent_sarif Unmarshal_payload tool_version now enrich fingerprint
  write_error damage stdout_error).

(** C11: the exit code of morf scan tells a policy hit from a failure.  It is 0, 1 or 4; it
    is 1 exactly when the command reports an error; it is 4 exactly when the scan ran, the
    format asks for findings and one of them meets the policy of --fail-on; and whenever it
    is not 1, the document was written, once, to the output that was asked for. *)
Theorem scan_exit_code (opts : scanOptions) (path : string) (p : proc) (w : world) :
  let '((code, err, p'), _, _) := scan opts path p w in
  let '(r, _, _) := runScanForFile path (o_verify opts) w in
  (code = exitOK ∨ code = exitOperational ∨ code = exitPolicy) ∧
  (code = exitOperational ↔ is_Some err) ∧
  (code = exitPolicy ↔ err = None ∧ is_inventory (format_of opts) = false ∧
     ∃ s, r = Ok s ∧ tripped (o_failOn opts) (sc_secrets s)) ∧
  (code ≠ exitOperational → ∃ s, r = Ok s ∧ emitted opts
     (a_out (evaluate (for_artifact opts path (sc_platform s)) (sc_secrets s) (sc_sbom s) (sc_findings s))) p p').
Proof.
  unfold runScan, mbind, X_bind. destruct (runScanForFile path (o_verify opts) w) as [[r tr] w1]. cbn.
  destruct r as [s|e]; [|split_and!; [by auto|by split; [eexists|]|split; [done|by intros (? & _)]|done]].
  pose proof (finish_scan_code opts path s p) as HF. destruct (finish opts path s p) as [[code err] p']. cbv zeta in HF.
  destruct err as [e|]; [subst; split_and!; [by auto|by split; [eexists|]|split; [done|by intros (? & _)]|done]|].
  destruct HF as (Ha & -> & He).
  pose proof (evaluate_code (for_artifact opts path (sc_platform s)) (sc_secrets s) (sc_sbom s) (sc_findings s)) as HE.
  cbv zeta in HE. rewrite Ha in HE. destruct HE as [H1 H2]. change (format_of (for_artifact opts path (sc_platform s))) with (format_of opts) in H2.
  cbn [o_failOn for_artifact] in H2. split_and!.
  - tauto.
  - split; [|by intros []]. intros E. rewrite E in H1. by destruct H1.
  - rewrite H2. split; [intros [? ?]; eauto|]. intros (_ & ? & s' & [= <-] & ?). done.
  - intros _. eauto.
Qed.

(** ** The gate *)

#[local] Notation baseline_at := (loadBaselineOrEmpty unreadable unmarshal_baseline).
#[local] Notation allow_cmd := (runGateAllow unreadable write_error damage marshal_baseline unmarshal_baseline).
#[local] Notation gate_cmd := (finish_gate MarshalIndent_sarif fingerprint unreadable write_error damage stdout_error
  marshal_baseline unmarshal_baseline).

Lemma save_baseline_spec path b b0 p err p' :
  (∀ j, unmarshal_baseline (marshal_baseline j) = Some j) → TrimSpace path ≠ "" → baseline_at path p = Ok b0 →
  save_baseline write_error damage marshal_baseline path b p = (err, p') →
  match err with
  | None => baseline_at path p' = Ok b
  | Some _ => p_files p' = damage path (p_files p)
  end.
Proof.
  intros Hc Hp. unfold loadBaselineOrEmpty, save_baseline, os_WriteFile, os_IsNotExist, os_ReadFile, LoadBaseline, Save.
  rewrite decide_False by done. intros Hb. assert (Hr : unreadable path = false) by (by destruct (unreadable path)). rewrite Hr in *.
  destruct (write_error path) as [e|]; intros [= <- <-]; [done|]. cbn [p_files]. rewrite decide_False by done.
  rewrite lookup_insert_eq, bool_decide_eq_false_2 by done. cbn. by rewrite Hc, of_to_json.
Qed.

(** The outcome of a gate on the accepted findings. *)
Definition gate_spec (opts : gateOptions) (secrets : list SecretModel) (b : Baseline) (code : Z) (b' : Baseline) : Prop :=
  if g_updateBaseline opts then code = exitOK ∧ b' = BaselineFromScan fingerprint secrets
  else b' = b ∧ (code = exitOK ∨ code = exitPolicy) ∧
    (code = exitPolicy ↔ ∃ policy s, scanFailOn (g_failOn opts) = Ok policy ∧ s ∈ secrets ∧
       isKnown (Some b) (fingerprint (SecretString s)) (SecretType s) = false ∧ gating policy s = true).

Lemma evaluateGate_code opts secrets b : let a := evaluateGate MarshalIndent_sarif fingerprint opts secrets b in
  a_err a = None → (a_code a = exitOK ∨ a_code a = exitPolicy) ∧
    (a_code a = exitPolicy ↔ ∃ policy s, scanFailOn (g_failOn opts) = Ok policy ∧ s ∈ secrets ∧
       isKnown (Some b) (fingerprint (SecretString s)) (SecretType s) = false ∧ gating policy s = true).
Proof.
  cbv zeta. unfold evaluateGate. destruct (scanFailOn _) as [policy|e]; [|done]. cbv zeta.
  destruct (if g_jsonOut opts then _ else _); [|done]. intros _. cbn [a_code].
  pose proof (Evaluate_failed fingerprint secrets (Some b) policy) as HF. destruct (Failed _).
  - split; [by right|]. split; [|done]. intros _. destruct HF as [(s & Hs & Hn%negb_true_iff & Hg) _]; [done|]. eauto 8.
  - split; [by left|]. split; [done|]. intros (policy' & s & [= <-] & Hs & Hn & Hg). destruct HF as [_ HF]. discriminate HF.
    exists s. unfold is_new. rewrite Hn. done.
Qed.

Lemma print_out_files s p err p' : print_out stdout_error s p = (err, p') → p_files p' = p_files p.
Proof. unfold print_out. destruct (stdout_error s); by intros [= <- <-]. Qed.

Lemma baseline_at_files path p p' : p_files p' = p_files p → baseline_at path p' = baseline_at path p.
Proof. intros E. unfold loadBaselineOrEmpty, os_IsNotExist, os_ReadFile. by rewrite E. Qed.

End commands.

(** ** Observations *)

(** The Firebase probe runs before --verify takes effect, so the flag does not reach it:
    the platform findings are the same with and without it. *)
Lemma verify_flag_spares_probe `{RS : RedisServer} `{Machine} path w :
  let findings v := match (runScanForFile path v w).1.1 with Ok s => Ok (sc_findings s) | Err e => Err e end in
  findings true = findings false.
Proof.
  unfold runScanForFile. cbv zeta. destruct (CreateWorkspace _); [done|]. unfold mbind, X_bind.
  set (run := if HasSuffix (ToLower path) ".apk" then _ else _). destruct (run w) as [[r tr] w1]. by destruct r.
Qed.

(** ** Instances *)

Definition sample_find (value st : string) : SecretModel :=
  mk_secret "AWS" 7 "a.smali" "AWS" value "high" (S754_zero false) "keep" st "".
Definition sample_opts : scanOptions := mk_opts "json" "" false "verified" false false "a.apk" "android" false.
Definition sample_gate (failOn : string) (update json_ : bool) : gateOptions := mk_gate_opts "base.json" update false failOn json_.
Definition no_sarif (l : sarifLog) : res string := Ok "sarif".

Lemma reports_hide_values_witness :
  evaluateAndRender (T := Binary.format) no_sarif (λ _, Err (ENew "")) "1.0" (mk_time 0 0) (λ _, []) id sample_opts
    [sample_find "AKIA1234567890XY" "active"] [] [] =
  evaluateAndRender (T := Binary.format) no_sarif (λ _, Err (ENew "")) "1.0" (mk_time 0 0) (λ _, []) id sample_opts
    [sample_find "AKIAzzzzzzzzzzzzXY" "active"] [] [] ∧
  evaluateGate (T := Binary.format) no_sarif id (sample_gate "any" false true) [sample_find "AKIA1234567890XY" "active"] NewBaseline =
  evaluateGate (T := Binary.format) no_sarif id (sample_gate "any" false true) [sample_find "AKIAzzzzzzzzzzzzXY" "active"] NewBaseline.
Proof.
  assert (Ha : Forall2 alike [sample_find "AKIA1234567890XY" "active"] [sample_find "AKIAzzzzzzzzzzzzXY" "active"]).
  { constructor; [|constructor]. split; [by vm_compute|done]. }
  pose proof (reports_hide_values (T := Binary.format) no_sarif (λ _, Err (ENew "")) "1.0" (mk_time 0 0) (λ _, []) id sample_opts
    (sample_gate "any" false true) _ _ [] [] NewBaseline Ha) as [H1 H2].
  split; [by apply H1|]. apply H2. constructor; [|constructor]. by vm_compute.
Defined.

Definition bits_marshal (j : baselineJSON) : string := Binary.bits (encode (bj_code j)).
Definition bits_unmarshal (s : string) : option baselineJSON :=
  (λ '(a, (b, c)), mk_bj a b c) <$> decode (Binary.of_bits s).
Lemma bits_codec j : bits_unmarshal (bits_marshal j) = Some j.
Proof. unfold bits_unmarshal, bits_marshal. rewrite Binary.of_bits_bits, decode_encode. by destruct j. Qed.

Definition no_files : proc := mk_proc [] [] ∅.
#[local] Notation sample_allow := (runGateAllow (λ _, false) (λ _, None) (λ _ f, f) bits_marshal bits_unmarshal).
#[local] Notation sample_run := (finish_gate (T := Binary.format) no_sarif id (λ _, false) (λ _, None) (λ _ f, f) (λ _, None)
  bits_marshal bits_unmarshal).
#[local] Notation sample_at := (loadBaselineOrEmpty (λ _, false) bits_unmarshal).


(** Accepting a scan forgets what [morf gate allow] wrote into the same file: a finding of
    an allowed type passes before the baseline is updated and fails after it. *)
Example update_discards_allowlist :
  let p1 := (sample_allow "base.json" [] ["AWS"] no_files).2 in
  let p2 := (sample_run (sample_gate "any" true false) [sample_find "k1" ""] p1).2 in
  (sample_run (sample_gate "any" false false) [sample_find "k2" ""] p1).1.1 = exitOK ∧
  (sample_run (sample_gate "any" false false) [sample_find "k2" ""] p2).1.1 = exitPolicy.
Proof. by vm_compute. Qed.
