(* ===== verification/Patterns.v ===== *)
(** * Pattern files ([utils/pattern.go], [utils/directory_parser.go])

    The operations behind the pattern routes: resolution of a file name inside the
    patterns directory, and the edits, each of which loads a file, changes its list and
    writes it back.  Every access to the file system may fail; the YAML codec and the
    file system are parameters. *)
From Stdlib Require Import Ascii.
From S2P Require Import Prelude GoStr GoErr GoPath Redis Wp Cache Detect Storage.

Local Open Scope Z_scope.

(** ** The file system ([afero.Fs]) *)

Class AppFS := {
  fs_state : Type;
  fs_Read : string → fs_state → res string * fs_state;
  fs_Write : string → string → fs_state → res unit * fs_state;
  fs_Remove : string → fs_state → res unit * fs_state;
  fs_Exists : string → fs_state → bool * fs_state;
  fs_ReadDir : string → fs_state → list string * fs_state;
  fs_files : fs_state → filesys }.

(** A read never changes a file and gives what the file holds, a write changes its own
    file only, and a completed one leaves there what was written. *)
Class AppFSLaws (F : AppFS) : Prop := {
  read_eff p f : fs_files (fs_Read p f).2 = fs_files f;
  read_Ok p f c : (fs_Read p f).1 = Ok c → fs_files f !! p = Some c;
  write_Ok p c f : (fs_Write p c f).1 = Ok tt → fs_files (fs_Write p c f).2 = <[p := c]> (fs_files f);
  write_other p c f q : q ≠ p → fs_files (fs_Write p c f).2 !! q = fs_files f !! q;
  remove_Ok p f : (fs_Remove p f).1 = Ok tt → fs_files (fs_Remove p f).2 = delete p (fs_files f);
  remove_Err p f e : (fs_Remove p f).1 = Err e → fs_files (fs_Remove p f).2 = fs_files f;
  exists_eff p f : fs_files (fs_Exists p f).2 = fs_files f;
  readdir_eff p f : fs_files (fs_ReadDir p f).2 = fs_files f }.

(** ** Patterns *)

Record Pattern := mk_pat {
  pt_Name : string; pt_Regex : string; pt_Confidence : string; pt_Enabled : bool }.

Record PatternFile := mk_pattern_file { pf_Filename : string; pf_Patterns : list Pattern }.

(** An entry as the loader decodes it. *)
Record file_entry := mk_file_entry {
  fe_name : string; fe_regex : string; fe_confidence : string; fe_enabled : option bool }.

Definition of_entry (y : file_entry) : Pattern :=
  mk_pat (fe_name y) (fe_regex y) (fe_confidence y) (default true (fe_enabled y)).

Definition set_enabled (b : bool) (p : Pattern) : Pattern :=
  mk_pat (pt_Name p) (pt_Regex p) (pt_Confidence p) b.

#[export] Instance pattern_eq_dec : EqDecision Pattern.
Proof. solve_decision. Defined.

(** The first pattern of a name, replaced by its image. *)
Fixpoint update_first (name : string) (f : Pattern → Pattern) (l : list Pattern) : option (list Pattern) :=
  match l with
  | [] => None
  | p :: l => if decide (pt_Name p = name) then Some (f p :: l)
              else cons p <$> update_first name f l
  end.

Section validation.
Context {E : RegexEngine}.

Definition ValidatePattern (p : Pattern) : option error :=
  if decide (pt_Name p = "") then Some (ENew "pattern name is required")
  else if decide (pt_Regex p = "") then Some (ENew "pattern regex is required")
  else match Compile (pt_Regex p) with
  | None => Some (ENew "invalid regex")
  | Some _ =>
      if decide (pt_Confidence p ∉ ["high"; "low"; "medium"])
      then Some (ENew "confidence must be 'high', 'medium', or 'low'") else None
  end.

(** The loop that validates every pattern of a request. *)
Fixpoint validate_all (l : list Pattern) : option error :=
  match l with
  | [] => None
  | p :: l => match ValidatePattern p with
              | Some e => Some (ENew ("invalid pattern " +:+ pt_Name p +:+ ": " +:+ Error e))
              | None => validate_all l
              end
  end.

Definition TestPattern (p : Pattern) (sampleText : string) : res (bool * list string) :=
  match Compile (pt_Regex p) with
  | None => Err (ENew "invalid regex")
  | Some r => let matches := FindAllString r sampleText in
              Ok (bool_decide (matches ≠ []), matches)
  end.

End validation.

(** ** Operations *)

Section operations.
Context `{S : RedisServer} {F : AppFS} {E : RegexEngine}.
(** The environment and the working directory. *)
Context (Getenv : string → string) (wd : res string).
(** [yaml.Unmarshal] into the loader's struct and [yaml.Marshal] of the saver's. *)
Context (Unmarshal : string → res (list file_entry)) (Marshal : list Pattern → res string).

(** What an operation works on: the files, and the metadata cache it invalidates. *)
Record store := mk_store { st_fs : fs_state; st_pod : pod; st_world : world }.

Definition St (A : Type) : Type := store → res A * store.

#[export] Instance St_ret : MRet St := λ A a s, (Ok a, s).
#[export] Instance St_bind : MBind St := λ A B f m s,
  match m s with
  | (Ok a, s') => f a s'
  | (Err e, s') => (Err e, s')
  end.

(** A value or an error at hand. *)
Definition lift {A} (r : res A) : St A := λ s, (r, s).

(** [if err := ...; err != nil { return err }] *)
Definition check (e : option error) : St unit := λ s, (match e with Some e => Err e | None => Ok tt end, s).

(** A call on the file system. *)
Definition on_fs {A} (f : fs_state → A * fs_state) : St A := λ s,
  let '(a, fs) := f (st_fs s) in (Ok a, mk_store fs (st_pod s) (st_world s)).

(** [fmt.Errorf("prefix: %v", err)] around a call. *)
Definition wrapping {A} (prefix : string) (m : St A) : St A := λ s,
  match m s with
  | (Err e, s') => (Err (ENew (prefix +:+ ": " +:+ Error e)), s')
  | r => r
  end.

Definition GetPatternsDir : string :=
  let dir := TrimSpace (Getenv "MORF_PATTERNS_DIR") in
  if decide (dir = "") then "/app/patterns" else dir.

Definition resolvePatternPath (filename : string) : res string :=
  let base := path_Base filename in
  if decide (base = "." ∨ base = ".." ∨ base = "/" ∨ TrimSpace base = "")
  then Err (ENew ("invalid pattern filename: " +:+ Quote filename))
  else
    let lower := ToLower base in
    if negb (HasSuffix lower ".yaml") && negb (HasSuffix lower ".yml")
    then Err (ENew ("pattern filename must have a .yaml or .yml extension: " +:+ Quote filename))
    else
      match Abs wd GetPatternsDir with
      | Err e => Err (EWrap ("failed to resolve patterns directory: " +:+ Error e) [e])
      | Ok dir =>
          let full := GoPath.Join dir base in
          let escapes := Err (ENew ("pattern filename escapes patterns directory: " +:+ Quote filename)) in
          match Rel dir full with
          | Err _ => escapes
          | Ok rel => if decide (rel = ".." ∨ HasPrefix rel "../" = true ∨ IsAbs rel = true)
                      then escapes else Ok full
          end
      end.

Definition LoadPatternsFromFile (filePath : string) : St (list Pattern) :=
  yamlFile ← on_fs (fs_Read filePath);
  match yamlFile with
  | Err e => lift (Err (EWrap ("failed to read pattern file " +:+ filePath +:+ ": " +:+ Error e) [e]))
  | Ok text =>
      match Unmarshal text with
      | Err e => lift (Err (ENew ("failed to unmarshal YAML: " +:+ Error e)))
      | Ok l => mret (of_entry <$> l)
      end
  end.

(** A failed invalidation is logged only. *)
Definition invalidate : St unit := λ s,
  let '(_, p, w) := InvalidateAllMetadataCache (st_pod s) (st_world s) in
  (Ok tt, mk_store (st_fs s) p w).

Definition SavePatternsToFile (filePath : string) (patterns : list Pattern) : St unit :=
  data ← wrapping "failed to marshal YAML" (lift (Marshal patterns));
  fullPath ← lift (resolvePatternPath filePath);
  written ← on_fs (fs_Write fullPath data);
  _ ← wrapping "failed to write file" (lift written);
  invalidate.

(** One file of a listing: unreadable files are logged and left out. *)
Definition list_file (patternsDir name : string) : St (list PatternFile) := λ s,
  if is_yaml name then
    match LoadPatternsFromFile (GoPath.Join patternsDir name) s with
    | (Ok l, s) => (Ok [mk_pattern_file name l], s)
    | (Err _, s) => (Ok [], s)
    end
  else (Ok [], s).

Fixpoint list_files (patternsDir : string) (names : list string) : St (list PatternFile) :=
  match names with
  | [] => mret []
  | name :: names => l ← list_file patternsDir name; k ← list_files patternsDir names; mret (l ++ k)
  end.

Definition ListPatternFiles : St (list PatternFile) :=
  names ← on_fs (fs_ReadDir GetPatternsDir);
  list_files GetPatternsDir names.

Definition GetPatternFileContent (filename : string) : St string :=
  fullPath ← lift (resolvePatternPath filename);
  r ← on_fs (fs_Read fullPath);
  lift r.

Definition LoadPatternsByFilename (filename : string) : St (list Pattern) :=
  fullPath ← lift (resolvePatternPath filename);
  LoadPatternsFromFile fullPath.

Definition UpdatePatternFile (filename : string) (patterns : list Pattern) : St unit :=
  _ ← check (validate_all patterns);
  SavePatternsToFile filename patterns.

Definition DeletePatternFile (filename : string) : St unit :=
  fullPath ← lift (resolvePatternPath filename);
  r ← on_fs (fs_Remove fullPath);
  lift r.

(** The error of the existence test is dropped. *)
Definition CreatePatternFile (filename : string) (patterns : list Pattern) : St unit :=
  let filename := if negb (HasSuffix filename ".yaml") && negb (HasSuffix filename ".yml")
                  then filename +:+ ".yaml" else filename in
  fullPath ← lift (resolvePatternPath filename);
  exists_ ← on_fs (fs_Exists fullPath);
  if (exists_ : bool) then lift (Err (ENew ("file already exists: " +:+ filename))) else
  _ ← check (validate_all patterns);
  SavePatternsToFile filename patterns.

(** The start of the four edits: the patterns the file holds now. *)
Definition existing (filename : string) : St (list Pattern) :=
  fullPath ← lift (resolvePatternPath filename);
  wrapping "failed to load existing patterns" (LoadPatternsFromFile fullPath).

Definition not_found {A} (patternName : string) : St A :=
  lift (Err (ENew ("pattern '" +:+ patternName +:+ "' not found"))).

Definition AddPatternToFile (filename : string) (pattern : Pattern) : St unit :=
  _ ← check (ValidatePattern pattern);
  existingPatterns ← existing filename;
  if existsb (λ p, bool_decide (pt_Name p = pt_Name pattern)) existingPatterns
  then lift (Err (ENew ("pattern with name '" +:+ pt_Name pattern +:+ "' already exists")))
  else SavePatternsToFile filename (existingPatterns ++ [pattern]).

Definition UpdatePatternInFile (filename patternName : string) (updatedPattern : Pattern) : St unit :=
  _ ← check (ValidatePattern updatedPattern);
  existingPatterns ← existing filename;
  match update_first patternName (λ _, updatedPattern) existingPatterns with
  | None => not_found patternName
  | Some l => SavePatternsToFile filename l
  end.

Definition DeletePatternFromFile (filename patternName : string) : St unit :=
  existingPatterns ← existing filename;
  let newPatterns := filter (λ p, pt_Name p ≠ patternName) existingPatterns in
  if Nat.eqb (length newPatterns) (length existingPatterns) then not_found patternName
  else SavePatternsToFile filename newPatterns.

Definition EnableDisablePattern (filename patternName : string) (enabled : bool) : St unit :=
  existingPatterns ← existing filename;
  match update_first patternName (set_enabled enabled) existingPatterns with
  | None => not_found patternName
  | Some l => SavePatternsToFile filename l
  end.

End operations.

(** ** Resolution *)

Section resolution.
Context (Getenv : string → string) (wd : res string) (wd_abs : ∀ d, wd = Ok d → IsAbs d = true).

Definition yaml_name (b : string) : bool := HasSuffix (ToLower b) ".yaml" || HasSuffix (ToLower b) ".yml".

(** A pattern file is always a file of the patterns directory.  Whatever name a
    request carries, it resolves exactly when its last component is an ordinary name
    with a YAML extension (and the directory is known), and then to that component
    directly inside the directory: never to another directory, however the name climbs. *)
Theorem pattern_paths_confined (filename p : string) :
  resolvePatternPath Getenv wd filename = Ok p ↔
  ∃ cs, Abs wd (GetPatternsDir Getenv) = Ok (rooted cs) ∧ Forall plain_comp cs ∧
    p = rooted (cs ++ [path_Base filename]) ∧ plain_comp (path_Base filename) ∧
    TrimSpace (path_Base filename) ≠ "" ∧ yaml_name (path_Base filename) = true.
Proof.
  unfold resolvePatternPath, yaml_name. generalize (path_Base_plain filename). set (b := path_Base filename). intros Hpb.
  assert (Hb : plain_comp b ↔ ¬ (b = "." ∨ b = ".." ∨ b = "/")).
  { unfold plain_comp. destruct Hpb as [E'|[Hne Hx]]; [|assert (b ≠ "/") by (intros E0; rewrite E0 in Hx; done); tauto].
    rewrite E'. split; [intros (_ & _ & _ & ?); done|tauto]. }
  case_decide as Hd.
  { split; [done|]. intros (cs & _ & _ & _ & Hp & Ht & _). tauto. }
  rewrite <- negb_orb. destruct (_ || _); cbn [negb]; [|split; [done|]; by intros (cs & _ & _ & _ & _ & _ & ?)].
  assert (Hp : plain_comp b) by tauto.
  split.
  - destruct (Abs wd (GetPatternsDir Getenv)) as [dir|] eqn:Ea; [|done].
    destruct (Abs_rooted _ _ _ wd_abs Ea) as (cs & -> & Hc).
    rewrite Join_rooted, Rel_child by done. case_decide; [done|]. intros [= <-]. exists cs. split_and!; try done. tauto.
  - intros (cs & -> & Hc & -> & _ & Ht & _). rewrite Join_rooted, Rel_child by done. rewrite decide_False; [done|].
    destruct Hp as (_ & _ & Hdd & Hx). intros [?|[Hpre|Habs]]; [done| |].
    + apply HasPrefix_spec in Hpre as [r Hr]. rewrite Hr in Hx. done.
    + apply HasPrefix_spec in Habs as [r Hr]. rewrite Hr in Hx. done.
Qed.

End resolution.

Lemma pattern_paths_confined_witness :
  resolvePatternPath (λ _, "") (Err (ENew "")) "../../etc/extra.yml" = Ok "/app/patterns/extra.yml" ∧
  resolvePatternPath (λ _, "") (Err (ENew "")) "../../etc/passwd" ≠ Ok "/app/patterns/passwd".
Proof.
  assert (Hw : ∀ d, (Err (ENew "") : res string) = Ok d → IsAbs d = true) by done. split.
  - apply (pattern_paths_confined (λ _, "") (Err (ENew "")) Hw). exists ["app"; "patterns"].
    split_and!; [by vm_compute|repeat constructor; by vm_compute|by vm_compute| |by vm_compute|by vm_compute].
    repeat split; by vm_compute.
  - intros H. apply (pattern_paths_confined (λ _, "") (Err (ENew "")) Hw) in H as (cs & _ & _ & _ & _ & _ & H).
    by vm_compute in H.
Defined.

(** ** Edits *)

(** What the four edits mean on the patterns of a file. *)
Inductive edit :=
  | AddPattern (p : Pattern)
  | UpdatePattern (name : string) (p : Pattern)
  | DeletePattern (name : string)
  | EnablePattern (name : string) (b : bool).

Section edits.
Context `{S : RedisServer} `{F : AppFS} `{!AppFSLaws F} {E : RegexEngine}.
Context (Getenv : string → string) (wd : res string).
Context (Unmarshal : string → res (list file_entry)) (Marshal : list Pattern → res string).

#[local] Notation resolve := (resolvePatternPath Getenv wd).
#[local] Notation save := (SavePatternsToFile Getenv wd Marshal).
#[local] Notation load := (existing Getenv wd Unmarshal).

Definition run_edit (filename : string) (e : edit) : St unit :=
  match e with
  | AddPattern p => AddPatternToFile Getenv wd Unmarshal Marshal filename p
  | UpdatePattern name p => UpdatePatternInFile Getenv wd Unmarshal Marshal filename name p
  | DeletePattern name => DeletePatternFromFile Getenv wd Unmarshal Marshal filename name
  | EnablePattern name b => EnableDisablePattern Getenv wd Unmarshal Marshal filename name b
  end.

Definition valid (p : Pattern) : Prop := ValidatePattern p = None.
#[export] Instance valid_dec p : Decision (valid p).
Proof. unfold valid. destruct (ValidatePattern p); [right|left]; done. Defined.

Definition at_name (name : string) (f : Pattern → Pattern) (l : list Pattern) : option (list Pattern) :=
  ip ← list_find (λ p, pt_Name p = name) l; Some (<[ip.1 := f ip.2]> l).

Definition edited (e : edit) (l : list Pattern) : option (list Pattern) :=
  match e with
  | AddPattern p => if decide (valid p ∧ pt_Name p ∉ pt_Name <$> l) then Some (l ++ [p]) else None
  | UpdatePattern name p => if decide (valid p) then at_name name (λ _, p) l else None
  | DeletePattern name =>
      if decide (name ∈ pt_Name <$> l) then Some (filter (λ p, pt_Name p ≠ name) l) else None
  | EnablePattern name b => at_name name (set_enabled b) l
  end.

(** Why an edit that makes no sense on a list is refused. *)
Definition refusal (e : edit) : error :=
  match e with
  | AddPattern p => ENew ("pattern with name '" +:+ pt_Name p +:+ "' already exists")
  | UpdatePattern name _ | DeletePattern name | EnablePattern name _ =>
      ENew ("pattern '" +:+ name +:+ "' not found")
  end.

Lemma update_first_at_name name f l : update_first name f l = at_name name f l.
Proof.
  unfold at_name. induction l as [|p l IH]; [done|]. cbn. case_decide; [done|]. rewrite IH.
  by destruct (list_find _ l) as [[i q]|].
Qed.

Lemma filter_length_eq name l :
  Nat.eqb (length (filter (λ p, pt_Name p ≠ name) l)) (length l) = negb (bool_decide (name ∈ pt_Name <$> l)).
Proof.
  apply bool_iff. rewrite Nat.eqb_eq, negb_true_iff, bool_decide_eq_false. induction l as [|p l IH].
  { split; [intros _; apply not_elem_of_nil|done]. }
  rewrite fmap_cons, filter_cons, not_elem_of_cons. pose proof (length_filter (λ p, pt_Name p ≠ name) l).
  case_decide; cbn; [|split; [lia|naive_solver]]. rewrite <- IH. split; [|lia]. split; [naive_solver|lia].
Qed.

Lemma named_existsb name l :
  existsb (λ p, bool_decide (pt_Name p = name)) l = bool_decide (name ∈ pt_Name <$> l).
Proof.
  apply bool_iff. rewrite existsb_exists, bool_decide_eq_true, list_elem_of_fmap.
  setoid_rewrite <- list_elem_of_In. setoid_rewrite bool_decide_eq_true. naive_solver.
Qed.

(** Every edit loads, changes the list, and saves; a refused change saves nothing. *)
Lemma run_edit_shape filename e s :
  (∃ err, run_edit filename e s = (Err err, s) ∧ ∀ l, edited e l = None) ∨
  run_edit filename e s =
    (l ← load filename;
     match edited e l with Some l' => save filename l' | None => lift (Err (refusal e)) end) s.
Proof.
  assert (Hext : ∀ (f g : list Pattern → St unit), (∀ l s, f l s = g l s) →
    (l ← load filename; f l) s = (l ← load filename; g l) s).
  { intros f g H. unfold mbind, St_bind. destruct (load filename s) as [[l|] s']; [apply H|done]. }
  destruct e as [p|name p|name|name b]; cbn [run_edit edited].
  - unfold AddPatternToFile, check, mbind at 1, St_bind at 1. destruct (ValidatePattern p) as [err|] eqn:Hv.
    { left. exists err. split; [done|]. intros l. rewrite decide_False; [done|]. unfold valid. rewrite Hv. by intros [? _]. }
    right. apply Hext. intros l s'. rewrite named_existsb. case_bool_decide.
    + by rewrite decide_False by tauto.
    + by rewrite decide_True by done.
  - unfold UpdatePatternInFile, check, mbind at 1, St_bind at 1. destruct (ValidatePattern p) as [err|] eqn:Hv.
    { left. exists err. split; [done|]. intros l. rewrite decide_False; [done|]. unfold valid. by rewrite Hv. }
    right. apply Hext. intros l s'. rewrite update_first_at_name, decide_True by done. by destruct (at_name _ _ _).
  - right. apply Hext. intros l s'. cbv zeta. rewrite filter_length_eq. case_bool_decide; [by rewrite decide_True by done|by rewrite decide_False by done].
  - right. apply Hext. intros l s'. rewrite update_first_at_name. by destruct (at_name _ _ _).
Qed.

End edits.

Section refinement.
Context `{S : RedisServer} `{F : AppFS} `{!AppFSLaws F} {E : RegexEngine}.
Context (Getenv : string → string) (wd : res string).
Context (Unmarshal : string → res (list file_entry)) (Marshal : list Pattern → res string).

#[local] Notation resolve := (resolvePatternPath Getenv wd).
#[local] Notation save := (SavePatternsToFile Getenv wd Marshal).
#[local] Notation load := (existing Getenv wd Unmarshal).
#[local] Notation run := (run_edit Getenv wd Unmarshal Marshal).

Definition files (s : store) : filesys := fs_files (st_fs s).

(** The patterns a file holds. *)
Definition held (s : store) (path : string) : option (list Pattern) :=
  text ← files s !! path;
  match Unmarshal text with Ok l => Some (of_entry <$> l) | Err _ => None end.

Lemma invalidate_files s : ∃ s', invalidate s = (Ok tt, s') ∧ files s' = files s.
Proof. unfold invalidate. destruct (InvalidateAllMetadataCache _ _) as [[e p] w]. by eexists. Qed.

Lemma load_spec filename s :
  let '(r, s') := load filename s in
  files s' = files s ∧
  ∀ l, r = Ok l → ∃ path, resolve filename = Ok path ∧ held s path = Some l.
Proof.
  unfold existing, mbind, St_bind, lift at 1. destruct (resolve filename) as [path|]; [|done].
  unfold wrapping, LoadPatternsFromFile, mbind, St_bind, on_fs.
  pose proof (read_eff path (st_fs s)) as Heff. pose proof (read_Ok path (st_fs s)) as Hok.
  destruct (fs_Read path (st_fs s)) as [[text|e] fs]; cbn in *; [|done].
  destruct (Unmarshal text) as [l|e] eqn:Eu; cbn; (split; [done|]); [|done].
  intros ? [= <-]. exists path. split; [done|]. unfold held, files. rewrite (Hok _ eq_refl). cbn. by rewrite Eu.
Qed.

Lemma save_eq filename l s :
  save filename l s =
  match Marshal l with
  | Err e => (Err (ENew ("failed to marshal YAML: " +:+ Error e)), s)
  | Ok data =>
      match resolve filename with
      | Err e => (Err e, s)
      | Ok full =>
          let '(r, fs) := fs_Write full data (st_fs s) in
          let s' := mk_store fs (st_pod s) (st_world s) in
          match r with
          | Ok _ => invalidate s'
          | Err e => (Err (ENew ("failed to write file: " +:+ Error e)), s')
          end
      end
  end.
Proof.
  unfold SavePatternsToFile, wrapping, mbind, St_bind, lift. destruct (Marshal l); [|done].
  destruct (resolve filename) as [full|]; [|done]. unfold on_fs. by destruct (fs_Write full _ _) as [[u|e] fs].
Qed.

Lemma save_spec filename l s :
  let '(r, s') := save filename l s in
  match r with
  | Ok _ => ∃ path text, resolve filename = Ok path ∧ Marshal l = Ok text ∧ files s' = <[path := text]> (files s)
  | Err _ => files s' = files s ∨
      ∃ path, resolve filename = Ok path ∧ ∀ q, q ≠ path → files s' !! q = files s !! q
  end.
Proof.
  rewrite save_eq. destruct (Marshal l) as [text|] eqn:Em; [|by left]. destruct (resolve filename) as [path|]; [|by left].
  pose proof (write_Ok path text (st_fs s)) as Hok. pose proof (write_other path text (st_fs s)) as Ho.
  destruct (fs_Write path text (st_fs s)) as [[u|e] fs]; cbn -[invalidate] in *.
  - destruct (invalidate_files (mk_store fs (st_pod s) (st_world s))) as (s' & -> & ->).
    exists path, text. destruct u. split_and!; [done..|]. by apply Hok.
  - right. eauto.
Qed.

(** Soundness, whatever the file system does. *)
Lemma run_edit_spec filename e s :
  let '(r, s') := run filename e s in
  match r with
  | Ok _ => ∃ path l l' text, resolve filename = Ok path ∧ held s path = Some l ∧ edited e l = Some l' ∧
      Marshal l' = Ok text ∧ files s' = <[path := text]> (files s)
  | Err _ => files s' = files s ∨
      ∃ path l, resolve filename = Ok path ∧ held s path = Some l ∧ is_Some (edited e l) ∧
        ∀ q, q ≠ path → files s' !! q = files s !! q
  end.
Proof.
  destruct (run_edit_shape Getenv wd Unmarshal Marshal filename e s) as [(err & -> & _)| ->]; [by left|].
  unfold mbind, St_bind. pose proof (load_spec filename s) as Hl.
  destruct (load filename s) as [[l|err] s1]; destruct Hl as [Hf Hl]; [|by left].
  destruct (Hl l eq_refl) as (path & Hp & Hst). destruct (edited e l) as [l'|] eqn:He; [|by left].
  pose proof (save_spec filename l' s1) as Hs. rewrite Hf, Hp in Hs. destruct (save filename l' s1) as [[u|err] s'].
  - destruct Hs as (p & text & [= <-] & Hm & Hx). exists path, l, l', text. done.
  - destruct Hs as [Hs|(p & [= <-] & Ho)]; [by left|right]. exists path, l. split_and!; eauto.
Qed.

(** Completeness, when the file can be read and written. *)
Lemma run_edit_complete filename path text e l l' s
    (Hdecode : ∀ k t, Marshal k = Ok t → ∃ y, Unmarshal t = Ok y ∧ of_entry <$> y = k)
    (Hread : ∀ f c, fs_files f !! path = Some c → (fs_Read path f).1 = Ok c)
    (Hwrite : ∀ f c, (fs_Write path c f).1 = Ok tt) :
  resolve filename = Ok path → held s path = Some l → edited e l = Some l' → Marshal l' = Ok text →
  (run filename e s).1 = Ok tt ∧ held (run filename e s).2 path = Some l' ∧
  ∀ q, q ≠ path → files (run filename e s).2 !! q = files s !! q.
Proof.
  intros Hp Hst He Hm.
  assert (Hload : ∃ s1, load filename s = (Ok l, s1) ∧ files s1 = files s).
  { unfold existing, mbind, St_bind, lift at 1. rewrite Hp. unfold wrapping, LoadPatternsFromFile, mbind, St_bind, on_fs.
    unfold held, mbind, option_bind in Hst. destruct (files s !! path) as [c|] eqn:Ef; [|done].
    pose proof (read_eff path (st_fs s)) as Heff. pose proof (Hread (st_fs s) c Ef) as Hr.
    destruct (fs_Read path (st_fs s)) as [r fs]; cbn in *. subst r.
    destruct (Unmarshal c); [|done]. injection Hst as <-. by eexists. }
  assert (Hrun : run filename e s = save filename l' (load filename s).2).
  { destruct (run_edit_shape Getenv wd Unmarshal Marshal filename e s) as [(err & _ & Hn)| ->].
    { by rewrite Hn in He. }
    unfold mbind, St_bind. destruct Hload as (s1 & -> & _). by rewrite He. }
  rewrite Hrun. destruct Hload as (s1 & -> & Hf). cbn [snd].
  assert (Hsave : ∃ s', save filename l' s1 = (Ok tt, s') ∧ files s' = <[path := text]> (files s)).
  { rewrite save_eq, Hm, Hp.
    pose proof (write_Ok path text (st_fs s1)) as Hok. pose proof (Hwrite (st_fs s1) text) as Hw.
    destruct (fs_Write path text (st_fs s1)) as [r fs]; cbn -[invalidate] in *. subst r.
    destruct (invalidate_files (mk_store fs (st_pod s1) (st_world s1))) as (s' & -> & Hs').
    exists s'. split; [done|]. rewrite Hs'. unfold files in *. cbn. rewrite <- Hf. by apply Hok. }
  destruct Hsave as (s' & -> & Hs'). split; [done|]. cbn [snd]. unfold held. rewrite Hs', lookup_insert_eq. cbn.
  destruct (Hdecode _ _ Hm) as (y & -> & ->). split; [done|]. intros q Hq. by rewrite lookup_insert_ne.
Qed.


(** Edits keep the patterns of a file usable. *)
Lemma edited_valid e l l' : Forall valid l → edited e l = Some l' → Forall valid l'.
Proof.
  intros Hv He.
  assert (Hat : ∀ name f, (∀ p, valid p → valid (f p)) → at_name name f l = Some l' → Forall valid l').
  { intros name f Hf. unfold at_name, mbind, option_bind. destruct (list_find _ l) as [[i p]|] eqn:Ef; [|done]. intros [= <-].
    apply list_find_Some in Ef as (Hi & _). apply Forall_insert; [done|]. apply Hf. by eapply Forall_lookup_1. }
  destruct e; cbn in He.
  - case_decide as Hd; [|done]. injection He as <-. apply Forall_app. split; [done|]. apply Forall_singleton, Hd.
  - case_decide; [|done]. eapply Hat; [|done]. done.
  - case_decide; [|done]. injection He as <-. apply Forall_forall. intros p [_ Hp]%list_elem_of_filter. by rewrite Forall_forall in Hv; apply Hv.
  - eapply Hat; [|done]. done.
Qed.

End refinement.

(** ** What an edit does to the scans *)

Section scans.
Context `{S : RedisServer} `{F : AppFS} `{!AppFSLaws F} {E : RegexEngine}.
Context (Getenv : string → string) (wd : res string).
Context (Unmarshal : string → res (list file_entry)) (Marshal : list Pattern → res string).

(** The entry of a saved pattern as the detector's loader decodes it: the saver writes no
    control id and no platform. *)
Definition saved_entry (p : Pattern) : yaml_pattern :=
  mk_yaml_pattern (pt_Name p) (pt_Regex p) (pt_Confidence p) "" (Some (pt_Enabled p)).

(** An edit makes a pattern file anonymous.  After any completed edit the detector
    reads the file without its platform header and without any OWASP control: every
    pattern it contributes to a scan is scoped by the file's name alone and has no
    control id, although the edited pattern may be one of many. *)
Theorem edits_drop_tags (Unmarshal_scan : string → option SecretPatterns)
    (Hscan : ∀ l t, Marshal l = Ok t → Unmarshal_scan t = Some (mk_patterns "" "" (saved_entry <$> l)))
    (filename path : string) (e : edit) (s : store) :
  resolvePatternPath Getenv wd filename = Ok path →
  (run_edit Getenv wd Unmarshal Marshal filename e s).1 = Ok tt →
  ∃ text sp, files (run_edit Getenv wd Unmarshal Marshal filename e s).2 !! path = Some text ∧
    Unmarshal_scan text = Some sp ∧
    ∀ platform name p, p ∈ file_patterns platform name sp → p_MASVS p = "" ∧ p_Platform p = filePlatform name "".
Proof.
  intros Hp Hr. pose proof (run_edit_spec Getenv wd Unmarshal Marshal filename e s) as H.
  destruct (run_edit Getenv wd Unmarshal Marshal filename e s) as [[u|err] s']; [|done].
  destruct H as (path' & l & l' & text & Hp' & _ & _ & Hm & Hf). rewrite Hp in Hp'. injection Hp' as <-.
  exists text, (mk_patterns "" "" (saved_entry <$> l')). split_and!.
  - cbn. by rewrite Hf, lookup_insert_eq.
  - by apply Hscan.
  - intros platform name p. unfold file_patterns. cbn. case_match; [|by intros ?%elem_of_nil].
    intros (y & -> & Hy)%list_elem_of_fmap. apply list_elem_of_filter in Hy as (_ & Hy).
    apply list_elem_of_fmap in Hy as (q & -> & _). cbn. done.
Qed.

End scans.

(** ** An in-memory file system whose operations can be made to fail *)

(** The fault schedule: [true] fails the next operation. *)
Definition flaky_next (f : filesys * list bool) : bool := default false (head f.2).
Definition flaky_step (g : filesys) (f : filesys * list bool) : filesys * list bool := (g, tail f.2).

#[export] Instance mem_fs : AppFS := {|
  fs_state := filesys * list bool;
  fs_Read p f := (if flaky_next f then Err (ENew "read error")
                  else match f.1 !! p with Some c => Ok c | None => Err (ENew "file does not exist") end, flaky_step f.1 f);
  fs_Write p c f := if flaky_next f then (Err (ENew "write error"), flaky_step (<[p := ""]> f.1) f)
                    else (Ok tt, flaky_step (<[p := c]> f.1) f);
  fs_Remove p f := if flaky_next f then (Err (ENew "remove error"), flaky_step f.1 f)
                   else match f.1 !! p with
                        | Some _ => (Ok tt, flaky_step (delete p f.1) f)
                        | None => (Err (ENew "file does not exist"), flaky_step f.1 f) end;
  fs_Exists p f := (negb (flaky_next f) && bool_decide (is_Some (f.1 !! p)), flaky_step f.1 f);
  fs_ReadDir _ f := ((map_to_list f.1).*1, flaky_step f.1 f);
  fs_files f := f.1 |}.

#[export] Instance mem_fs_laws : AppFSLaws mem_fs.
Proof.
  split; cbn; intros; repeat case_match; cbn in *; simplify_eq;
    by rewrite ?lookup_insert_ne by done.
Qed.

Section witnesses.
#[local] Instance any_regex : RegexEngine := {|
  regexp := string; Compile := Some; NumSubexp _ := 0%nat; MatchString := Contains;
  FindStringSubmatchIndex _ _ := None; FindAllStringSubmatchIndex _ _ := []; FindAllString _ _ := [] |}.
Definition sample_key : Pattern := mk_pat "Key" "AKIA" "high" true.
Definition sample_token : Pattern := mk_pat "Token" "xox" "low" true.
Definition sample_off : Pattern := set_enabled false sample_token.

(** A codec of three documents: the shipped text, and the texts of two saved lists. *)
Definition sample_shipped : string := "platform: ios, masvs: MASVS-STORAGE-1, Key, Token".
Definition sample_Unmarshal (t : string) : res (list file_entry) :=
  if decide (t = sample_shipped) then
    Ok [mk_file_entry "Key" "AKIA" "high" None; mk_file_entry "Token" "xox" "low" None]
  else if decide (t = "Key, Token off") then
    Ok [mk_file_entry "Key" "AKIA" "high" (Some true); mk_file_entry "Token" "xox" "low" (Some false)]
  else if decide (t = "Key, Key") then
    Ok [mk_file_entry "Key" "AKIA" "high" (Some true); mk_file_entry "Key" "AKIA" "high" (Some true)]
  else Err (ENew "yaml").
Definition sample_Marshal (l : list Pattern) : res string :=
  if decide (l = [sample_key; sample_off]) then Ok "Key, Token off"
  else if decide (l = [sample_key; sample_key]) then Ok "Key, Key" else Err (ENew "yaml").
Definition sample_scan (t : string) : option SecretPatterns :=
  if decide (t = sample_shipped) then
    Some (mk_patterns "ios" "MASVS-STORAGE-1"
      [mk_yaml_pattern "Key" "AKIA" "high" "" None; mk_yaml_pattern "Token" "xox" "low" "" None])
  else if decide (t = "Key, Token off") then Some (mk_patterns "" "" (saved_entry <$> [sample_key; sample_off]))
  else if decide (t = "Key, Key") then Some (mk_patterns "" "" (saved_entry <$> [sample_key; sample_key])) else None.

Definition sample_store (faults : list bool) : store :=
  mk_store (F := mem_fs) ({["/app/patterns/mobile.yml" := sample_shipped]}, faults) (mk_pod None false 0 []) (mem_world empty_rdb [] 0).

#[local] Notation run := (run_edit (λ _, "") (Err (ENew "")) sample_Unmarshal sample_Marshal).


(** A file scoped to iOS, with a control id, scans Android applications without one after
    one of its patterns has been switched off. *)
Example edit_unscopes_file :
  let s' := (run "mobile.yml" (EnablePattern "Token" false) (sample_store [])).2 in
  let scan s := (λ t, length (default [] (file_patterns "android" "mobile.yml" <$> sample_scan t))) <$>
                  files s !! "/app/patterns/mobile.yml" in
  let controls s := (λ t, p_MASVS <$> default [] (file_patterns "ios" "mobile.yml" <$> sample_scan t)) <$>
                  files s !! "/app/patterns/mobile.yml" in
  scan (sample_store []) = Some 0%nat ∧ scan s' = Some 1%nat ∧
  controls (sample_store []) = Some ["MASVS-STORAGE-1"; "MASVS-STORAGE-1"] ∧ controls s' = Some [""].
Proof. by vm_compute. Qed.

Lemma edits_drop_tags_witness :
  ∃ text sp, files (run "mobile.yml" (EnablePattern "Token" false) (sample_store [])).2 !! "/app/patterns/mobile.yml" = Some text ∧
    sample_scan text = Some sp ∧
    ∀ platform name p, p ∈ file_patterns platform name sp → p_MASVS p = "" ∧ p_Platform p = filePlatform name "".
Proof.
  apply (edits_drop_tags (λ _, "") (Err (ENew "")) sample_Unmarshal sample_Marshal sample_scan);
    [|by vm_compute|by vm_compute].
  intros l t. unfold sample_Marshal. repeat case_decide; [..|done]; intros [= <-]; by subst.
Defined.

(** Creation asks whether the file exists and drops the error of the question: when the
    question fails, an existing file is overwritten. *)
Example create_can_overwrite :
  let '(r, s') := CreatePatternFile (λ _, "") (Err (ENew "")) sample_Marshal "mobile.yml" [sample_key; sample_off] (sample_store [false]) in
  let '(r', s'') := CreatePatternFile (λ _, "") (Err (ENew "")) sample_Marshal "mobile.yml" [sample_key; sample_off] (sample_store [true]) in
  r ≠ Ok tt ∧ r' = Ok tt ∧ files s' !! "/app/patterns/mobile.yml" = Some sample_shipped ∧
  files s'' !! "/app/patterns/mobile.yml" = Some "Key, Token off".
Proof. by vm_compute. Qed.

(** An addition refuses a name that is taken; an update to it does not. *)
Example update_can_duplicate :
  (run "mobile.yml" (AddPattern sample_key) (sample_store [])).1 ≠ Ok tt ∧
  edited (UpdatePattern "Token" sample_key) [sample_key; sample_token] = Some [sample_key; sample_key].
Proof. split; [by vm_compute|by vm_compute]. Qed.

End witnesses.
