(* ===== verification/Mcp.v ===== *)
(** * The MCP server ([mcp/server.go])

    The five tools behind the stdio server: scanning a file, listing the patterns,
    checking one credential, explaining a finding, and re-opening a report.  The protocol
    library gives a tool its arguments and carries its answer; it is a parameter, as are
    the JSON text, the decoder of SARIF documents and the files. *)
From Stdlib Require Import ZArith Ascii.
From S2P Require Import Prelude GoStr GoErr GoTime GoPath GoFloat GoJson JsonText Redis Artifact Detect Report Export Verify Ipa Response Pipeline Cli.
From S2P Require Patterns.

Local Open Scope Z_scope.

(** The arguments of a call, as the library reads them. *)
Record call := mk_call {
  RequireString : string → res string;
  GetString : string → string → string;
  GetBool : string → bool → bool }.

(** [sdk.CallToolResult] *)
Inductive tool_result := ToolText (s : string) | ToolError (s : string).

Definition newline : string := String (byte_of 10) "".

(** ** Summaries *)

#[local] Notation counts := (gmap string Z).

Definition count_one (k : string) (m : counts) : counts := <[k := default 0 (m !! k) + 1]> m.

Definition or_else (s d : string) : string := if decide (s = "") then d else s.

Definition tier_key (s : SecretModel) : string := or_else (Tier s) "unclassified".
Definition status_key (s : SecretModel) : string := or_else (VerificationStatus s) "unchecked".
Definition type_key (s : SecretModel) : string := or_else (or_else (SecretType s) (Type_ s)) "unknown".

(** One map of the loop over the findings. *)
Definition tally (key : SecretModel → string) (secrets : list SecretModel) : counts :=
  foldl (λ m s, count_one (key s) m) ∅ secrets.

Definition formatCounts (m : counts) : string :=
  GoStr.Join ((λ k, k +:+ "=" +:+ itoa (default 0 (m !! k))) <$> merge_sort String.le (fst <$> map_to_list m)) ", ".

Definition summarize (target platform : string) (secrets : list SecretModel) : string :=
  "MORF scan of " +:+ target +:+ " (" +:+ platform +:+ "): " +:+ itoa (Z.of_nat (length secrets)) +:+ " finding(s)" +:+
  (if decide (length secrets = 0%nat) then ""
   else newline +:+ "  by tier: " +:+ formatCounts (tally tier_key secrets) +:+
        newline +:+ "  by verification: " +:+ formatCounts (tally status_key secrets) +:+
        newline +:+ "  by type: " +:+ formatCounts (tally type_key secrets)).

(** After the last slash or backslash. *)
Definition filepathBase (p : string) : string :=
  match LastIndexByte p "/"%char, LastIndexByte p "\"%char with
  | Some i, Some j => drop_str (Datatypes.S (Nat.max i j)) p
  | Some i, None | None, Some i => drop_str (Datatypes.S i) p
  | None, None => p
  end.

Section tools.
Context `{T : JsonText} (MarshalIndent_sarif : sarifLog → res string).

(** ** [scan_file] *)

Definition mcp_envelope (target platform : string) (secrets : list SecretModel) : json :=
  JObject [("data", JObject [text_field "platform" platform; list_field secret_json "secrets" secrets;
                             text_field "target" target])].

Definition renderFindings (format target platform : string) (secrets : list SecretModel) : res string :=
  if decide (format = "sarif") then EncodeSARIF MarshalIndent_sarif target platform secrets
  else if decide (format = "json") then render_json (mcp_envelope target platform secrets) false
  else Err (ENew ("invalid format " +:+ Quote format +:+ ": want json or sarif")).

(** The answer for the findings of a scan. *)
Definition scan_answer (format path platform : string) (secrets : list SecretModel) : tool_result :=
  let target := filepathBase path in
  match renderFindings format target platform secrets with
  | Err e => ToolError ("render failed: " +:+ Error e)
  | Ok rendered => ToolText (summarize target platform secrets +:+ newline +:+ newline +:+ rendered)
  end.

Section machine.
Context `{RS : RedisServer} `{Machine}.

Definition forced (secrets : list SecretModel) : list SecretModel :=
  (VerifySecretsForced decode_slack decode_google decode_cloudflare Now limiter_Wait NewRequest_err http_Do secrets verifier).1.

Definition mcp_ios (path : string) (jobCtx : JobContext) : res (list SecretModel * string) :=
  match ios_extraction path jobCtx with Ok (secrets, _, _) => Ok (secrets, "ios") | Err e => Err e end.

Definition runScanForFile (path : string) (doVerify : bool) : X (res (list SecretModel * string)) :=
  let lower := ToLower path in
  let jobCtx := NewJobContextForID uuid "" in
  match CreateWorkspace jobCtx with
  | Some e => mret (Err (wrap "create workspace" e))
  | None =>
      r ← (if HasSuffix lower ".apk" then
             try_ (StartSecScanE files path jobCtx) id (λ secrets, mret (Ok (secrets, "android")))
           else if HasSuffix lower ".ipa" then mret (mcp_ios path jobCtx)
           else mret (Err (ENew "file must be .apk or .ipa")));
      _ ← tell (ACleanup (Workspace jobCtx));
      mret match r with
           | Err e => Err e
           | Ok (secrets, platform) =>
               let secrets := precise secrets in
               Ok (if doVerify then forced secrets else verified secrets, platform)
           end
  end.

Definition scanFileHandler (req : call) : X tool_result :=
  match RequireString req "path" with
  | Err e => mret (ToolError (Error e))
  | Ok path =>
      let path := TrimSpace path in
      if decide (path = "") then mret (ToolError "path must not be empty")
      else
        let format := or_else (ToLower (TrimSpace (GetString req "format" "sarif"))) "sarif" in
        if negb (bool_decide (format = "sarif")) && negb (bool_decide (format = "json"))
        then mret (ToolError ("invalid format " +:+ Quote format +:+ ": want sarif or json"))
        else
          r ← runScanForFile path (GetBool req "verify" false);
          mret match r with
               | Err e => ToolError ("scan failed: " +:+ Error e)
               | Ok (secrets, platform) => scan_answer format path platform secrets
               end
  end.

(** ** [verify_secret] *)

Definition credential (type value : string) : SecretModel := mk_secret "" 0 "" type value "" (S754_zero false) "" "" "".

Definition status_answer (type status : string) : tool_result :=
  match MarshalIndent (JObject [text_field "type" type; text_field "verificationStatus" status]) with
  | Err e => ToolError ("failed to encode result: " +:+ Error e)
  | Ok body => ToolText body
  end.

Definition verifySecretHandler (req : call) : tool_result :=
  match RequireString req "type" with
  | Err e => ToolError (Error e)
  | Ok type =>
      let type := TrimSpace type in
      if decide (type = "") then ToolError "type must not be empty"
      else match RequireString req "value" with
           | Err e => ToolError (Error e)
           | Ok value =>
               if decide (TrimSpace value = "") then ToolError "value must not be empty"
               else
                 let out := (if GetBool req "enable" false then forced else verified) [credential type value] in
                 status_answer type (match out with s :: _ => or_else (VerificationStatus s) statusUnknown | [] => statusUnknown end)
           end
  end.

(** ** [explain_finding] *)

Definition explainTier (tier : string) : string :=
  if decide (tier = "keep") then "high-precision finding retained as a confident true positive."
  else if decide (tier = "info") then "retained but downgraded to informational (lower precision / likely noise)."
  else "unrecognized tier; MORF assigns " +:+ Quote "keep" +:+ " or " +:+ Quote "info" +:+ " during precision scoring.".

Definition explainStatus (status : string) : string :=
  if decide (status = "active") then "the provider confirmed the credential is valid/live — treat as an active leak."
  else if decide (status = "inactive") then "the provider confirmed the credential is revoked/invalid."
  else if decide (status = "unknown") then "no verifier exists for this type, or the check was inconclusive."
  else if decide (status = "unchecked") then "verification was disabled or not attempted (the default)."
  else "unrecognized status; expected active|inactive|unknown|unchecked.".

(** Consecutive duplicates are dropped. *)
Fixpoint dedupe_go (last : string) (l : list string) : list string :=
  match l with
  | [] => []
  | s :: l => if decide (s = last) then dedupe_go last l else s :: dedupe_go s l
  end.
Definition dedupe (l : list string) : list string := match l with [] => [] | s :: l => s :: dedupe_go s l end.

(** The patterns whose name contains the type. *)
Definition matching (type : string) (l : list PatternInfo) : list PatternInfo :=
  filter (λ p, Contains (ToLower (p_Name p)) (ToLower type) = true) l.

Definition pattern_line (type : string) (matched : list string) : string :=
  if decide (length matched = 0%nat)
  then "No loaded pattern name contains " +:+ Quote type +:+ "; treating it as a free-form type." +:+ newline
  else "Matching pattern(s): " +:+ GoStr.Join (dedupe (merge_sort String.le matched)) ", " +:+ newline.

Definition masvs_line (ids : gset string) : string :=
  if decide (ids = ∅)
  then "OWASP MASVS control: MASVS-STORAGE-1 (hardcoded/stored secret; no explicit control mapped for this pattern)" +:+ newline
  else "OWASP MASVS control(s): " +:+ GoStr.Join (merge_sort String.le (elements ids)) ", " +:+ newline.

(** A line for an argument that is not blank. *)
Definition argument_line (req : call) (name label : string) (explain : string → string) (prefix : string) : string :=
  let v := ToLower (TrimSpace (GetString req name "")) in
  if decide (v = "") then "" else prefix +:+ label +:+ " " +:+ Quote v +:+ ": " +:+ explain v +:+ newline.

Definition explanation (req : call) (type : string) (cache : res PatternCache) : string :=
  let found := match cache with Ok c => matching type (Detect.Patterns c) | Err _ => [] end in
  "Finding type: " +:+ type +:+ newline +:+ newline +:+
  pattern_line type (p_Name <$> found) +:+
  masvs_line (list_to_set (filter (λ m, m ≠ "") (p_MASVS <$> found))) +:+
  newline +:+ "Why it matters: a " +:+ type +:+ " credential embedded in a mobile package can be extracted by anyone who " +:+
  "unpacks the app, letting an attacker impersonate the app or access the backing service." +:+ newline +:+
  argument_line req "tier" "Tier" explainTier newline +:+
  argument_line req "verificationStatus" "Verification" explainStatus "".

Definition explainFindingHandler (req : call) : tool_result :=
  match RequireString req "type" with
  | Err e => ToolError (Error e)
  | Ok type =>
      let type := TrimSpace type in
      if decide (type = "") then ToolError "type must not be empty" else ToolText (explanation req type (patterns "any"))
  end.
End machine.

(** ** [list_patterns] *)

Definition pattern_json (p : Patterns.Pattern) : json :=
  JObject [text_field "name" (Patterns.pt_Name p); text_field "confidence" (Patterns.pt_Confidence p);
           ("enabled", JBool (Patterns.pt_Enabled p))].

Definition file_json (f : Patterns.PatternFile) : json :=
  JObject [text_field "filename" (Patterns.pf_Filename f); ("count", JInt (Z.of_nat (length (Patterns.pf_Patterns f))));
           list_field pattern_json "patterns" (Patterns.pf_Patterns f)].

Definition total_patterns (l : list Patterns.PatternFile) : Z :=
  foldl (λ n f, n + Z.of_nat (length (Patterns.pf_Patterns f))) 0 l.

Definition listPatternsHandler `{S : RedisServer} {F : Patterns.AppFS} (Getenv : string → string)
    (Unmarshal : string → res (list Patterns.file_entry)) (s : Patterns.store) : tool_result * Patterns.store :=
  match Patterns.ListPatternFiles Getenv Unmarshal s with
  | (Err e, s) => (ToolError ("failed to list patterns: " +:+ Error e), s)
  | (Ok l, s) =>
      (match MarshalIndent (JObject [text_field "patternsDir" (Patterns.GetPatternsDir Getenv);
                                     ("fileCount", JInt (Z.of_nat (length l)));
                                     ("totalPatternCount", JInt (total_patterns l)); list_field file_json "files" l]) with
       | Err e => ToolError ("failed to encode patterns: " +:+ Error e)
       | Ok body => ToolText body
       end, s)
  end.

(** ** Decoding a masked report ([json.Unmarshal] into a struct) *)

(** The error for a value of the wrong type under a field; the integer a number's text
    stands for, if it is one of 64 bits. *)
Context (mismatch : string → json → error) (number_int : spec_float → option Z).

Definition text_value (field : string) (v : json) (old : string) : string * option error :=
  match v with JString s => (s, None) | JNull => (old, None) | _ => (old, Some (mismatch field v)) end.

Definition set_secret_text (n s : string) (m : SecretModel) : SecretModel :=
  let pick k old := if decide (n = k) then s else old in
  mk_secret (pick "type" (Type_ m)) (LineNo m) (pick "fileLocation" (FileLocation m)) (pick "secretType" (SecretType m))
    (pick "secretString" (SecretString m)) (pick "secretConfidence" (SecretConfidence m)) (Score m) (pick "tier" (Tier m))
    (pick "verificationStatus" (VerificationStatus m)) (pick "masvsId" (MASVSID m)).

Definition secret_fields : list string :=
  ["type"; "lineNo"; "fileLocation"; "secretType"; "secretString"; "secretConfidence"; "score"; "tier";
   "verificationStatus"; "masvsId"].

Definition set_secret (n : string) (v : json) (m : SecretModel) : SecretModel * option error :=
  if decide (n = "lineNo") then
    match v with
    | JNull => (m, None)
    | JNumber f => match number_int f with
                   | Some z => (mk_secret (Type_ m) z (FileLocation m) (SecretType m) (SecretString m) (SecretConfidence m)
                                  (Score m) (Tier m) (VerificationStatus m) (MASVSID m), None)
                   | None => (m, Some (mismatch n v))
                   end
    | _ => (m, Some (mismatch n v))
    end
  else if decide (n = "score") then
    match v with
    | JNull => (m, None)
    | JNumber f => (mk_secret (Type_ m) (LineNo m) (FileLocation m) (SecretType m) (SecretString m) (SecretConfidence m)
                      f (Tier m) (VerificationStatus m) (MASVSID m), None)
    | _ => (m, Some (mismatch n v))
    end
  else match v with
       | JString s => (set_secret_text n s m, None)
       | JNull => (m, None)
       | _ => (m, Some (mismatch n v))
       end.

Definition zero_secret : SecretModel := mk_secret "" 0 "" "" "" "" (S754_zero false) "" "" "".

Definition decode_secret (v : json) : SecretModel * option error :=
  match v with
  | JObject l => decode_members secret_fields set_secret l zero_secret
  | JNull => (zero_secret, None)
  | _ => (zero_secret, Some (mismatch "secrets" v))
  end.

Record report := mk_report { r_Target : string; r_Platform : string; r_Secrets : list SecretModel }.

Definition set_data (n : string) (v : json) (r : report) : report * option error :=
  if decide (n = "secrets") then
    match v with
    | JArray l => (mk_report (r_Target r) (r_Platform r) (fst <$> (decode_secret <$> l)),
                   foldl first_error None (snd <$> (decode_secret <$> l)))
    | JNull => (mk_report (r_Target r) (r_Platform r) [], None)
    | _ => (r, Some (mismatch n v))
    end
  else
    let '(s, e) := text_value n v (if decide (n = "target") then r_Target r else r_Platform r) in
    (if decide (n = "target") then mk_report s (r_Platform r) (r_Secrets r) else mk_report (r_Target r) s (r_Secrets r), e).

Definition set_report (n : string) (v : json) (r : report) : report * option error :=
  match v with
  | JObject l => decode_members ["target"; "platform"; "secrets"] set_data l r
  | JNull => (r, None)
  | _ => (r, Some (mismatch n v))
  end.

Definition Unmarshal_report (text : string) : res report :=
  match parse text with
  | Err e => Err e
  | Ok v => match (match v with
                   | JObject l => decode_members ["data"] set_report l (mk_report "" "" [])
                   | JNull => (mk_report "" "" [], None)
                   | _ => (mk_report "" "" [], Some (mismatch "" v))
                   end) with
            | (r, None) => Ok r
            | (_, Some e) => Err e
            end
  end.

(** ** [get_results] *)

Definition finding_json (s : SecretModel) : json :=
  JObject ([text_field "secretType" (or_else (SecretType s) (Type_ s)); text_field "secretString" (SecretString s);
            text_field "fileLocation" (FileLocation s)] ++
           (if decide (LineNo s = 0) then [] else [("lineNo", JInt (LineNo s))]) ++ omit_empty "tier" (Tier s) ++
           omit_empty "verificationStatus" (VerificationStatus s) ++
           (if nonzero (Score s) then [("score", JNumber (Score s))] else [])).

Definition results_answer (summary format path : string) (findings : list json) : tool_result :=
  match MarshalIndent (JObject [("findings", JArray findings); text_field "format" format; text_field "source" path;
                                text_field "summary" summary]) with
  | Err e => ToolError ("failed to encode result: " +:+ Error e)
  | Ok body => ToolText body
  end.

Definition handleJSONResults (path raw : string) : tool_result :=
  match MaskResultJSON Unmarshal_map Marshal_map raw with
  | Err e => ToolError ("masking failed: " +:+ Error e)
  | Ok masked =>
      match Unmarshal_report masked with
      | Err e => ToolError ("cannot parse masked JSON: " +:+ Error e)
      | Ok env =>
          let target := or_else (r_Target env) (filepathBase path) in
          let platform := or_else (r_Platform env) "unknown" in
          results_answer (summarize target platform (r_Secrets env)) "json" path (finding_json <$> r_Secrets env)
      end
  end.

(** A run of a SARIF document: rule, level and properties of its results, and its own
    properties. *)
Record sarif_item := mk_item { it_rule : string; it_level : string; it_props : gmap string json }.
Record sarif_run := mk_run { run_items : list sarif_item; run_props : gmap string json }.
Context (Unmarshal_sarif : string → res (list sarif_run)).

(** [json.Unmarshal] of a property into a string; its error is dropped. *)
Definition prop_text (props : gmap string json) (k old : string) : string :=
  match props !! k with Some (JString s) => s | _ => old end.

Definition item_secret (r : sarif_item) : SecretModel :=
  mk_secret "" 0 "" (it_rule r) "" "" (S754_zero false)
    (if decide (it_level r = "error") then "keep" else if decide (it_level r = "note") then "info" else "")
    (prop_text (it_props r) "verificationStatus" "") "".

(** The message is not part of the preview. *)
Definition preview_json (r : sarif_item) : json := JObject [text_field "ruleId" (it_rule r); text_field "level" (it_level r)].

Definition handleSARIFResults (path raw : string) : tool_result :=
  match Unmarshal_sarif raw with
  | Err e => ToolError ("cannot parse SARIF: " +:+ Error e)
  | Ok [] => ToolError "SARIF document has no runs"
  | Ok (run :: _) =>
      let target := or_else (prop_text (run_props run) "target" "") (filepathBase path) in
      let platform := prop_text (run_props run) "platform" "unknown" in
      results_answer (summarize target platform (item_secret <$> run_items run)) "sarif" path (preview_json <$> run_items run)
  end.

Definition sniffResultFormat (raw : string) : res string :=
  let missing := Err (ENew ("missing expected keys: want " +:+ Quote "data" +:+ " (JSON) or " +:+ Quote "runs" +:+ " (SARIF)")) in
  match parse raw with
  | Err e => Err (EWrap ("cannot parse as JSON: " +:+ Error e) [e])
  | Ok (JObject l) => if decide ("runs" ∈ l.*1) then Ok "sarif" else if decide ("data" ∈ l.*1) then Ok "json" else missing
  | Ok JNull => missing
  | Ok v => let e := type_mismatch v "map[string]json.RawMessage" in Err (EWrap ("cannot parse as JSON: " +:+ Error e) [e])
  end.

Definition getResultsMaxBytes : Z := 10 * 1024 * 1024.

Inductive stat_result := StatMissing | StatFailed (e : error) | StatOk (regular : bool) (size : Z).
Context (os_Stat : string → stat_result) (os_ReadFile : string → res string).

Definition getResultsHandler (req : call) : tool_result :=
  match RequireString req "path" with
  | Err e => ToolError (Error e)
  | Ok path =>
      let path := TrimSpace path in
      if decide (path = "") then ToolError "path must not be empty"
      else match os_Stat path with
      | StatMissing => ToolError ("file not found: " +:+ path)
      | StatFailed e => ToolError ("cannot stat file: " +:+ Error e)
      | StatOk regular size =>
          if negb regular then ToolError ("path is not a regular file: " +:+ path)
          else if getResultsMaxBytes <? size
          then ToolError ("file is too large (" +:+ itoa size +:+ " bytes; limit " +:+ itoa getResultsMaxBytes +:+ "): " +:+ path)
          else match os_ReadFile path with
          | Err e => ToolError ("cannot read file: " +:+ Error e)
          | Ok raw =>
              match sniffResultFormat raw with
              | Err e => ToolError ("not a valid MORF output file: " +:+ Error e)
              | Ok format => if decide (format = "json") then handleJSONResults path raw else handleSARIFResults path raw
              end
          end
      end
  end.
End tools.
