(* ===== verification/McpSpec.v ===== *)
(** * What the MCP tools give away

    No tool answers with the value of a secret: scans answer with masks, checks with a
    status, and re-opened reports are masked again, provided their members are named as
    the program names them. *)
From Stdlib Require Import ZArith Ascii.
From S2P Require Import Prelude GoStr GoErr GoTime GoFloat GoJson JsonText Redis Detect DetectSpec Report Export Verify Response Pipeline PipelineSpec Cli CliSpec Mcp.

Local Open Scope Z_scope.

(** ** Findings and statuses *)

Lemma tally_alike key secrets secrets' : (∀ s s', alike s s' → key s = key s') →
  Forall2 alike secrets secrets' → tally key secrets = tally key secrets'.
Proof.
  intros Hk Ha. unfold tally. generalize (∅ : gmap string Z) as m.
  induction Ha as [|s s' l l' Hs _ IH]; [done|]. intros m. cbn [foldl]. by rewrite (Hk s s' Hs).
Qed.

Lemma summarize_alike target platform secrets secrets' : Forall2 alike secrets secrets' →
  summarize target platform secrets = summarize target platform secrets'.
Proof.
  intros Ha. unfold summarize. rewrite (Forall2_length _ _ _ Ha).
  rewrite (tally_alike tier_key _ _ ltac:(by intros s s' [_ ->]) Ha), (tally_alike status_key _ _ ltac:(by intros s s' [_ ->]) Ha),
    (tally_alike type_key _ _ ltac:(by intros s s' [_ ->]) Ha). done.
Qed.

(** Every count is the number of findings of its key. *)
Lemma tally_spec key secrets k :
  tally key secrets !! k =
  (if decide (filter (λ s, key s = k) secrets = []) then None else Some (Z.of_nat (length (filter (λ s, key s = k) secrets)))).
Proof.
  unfold tally.
  assert (H : ∀ m, foldl (λ m s, count_one (key s) m) m secrets !! k =
    if decide (filter (λ s, key s = k) secrets = []) then m !! k
    else Some (default 0 (m !! k) + Z.of_nat (length (filter (λ s, key s = k) secrets)))).
  { induction secrets as [|s l IH]; intros m; [done|]. cbn [foldl]. rewrite IH, filter_cons. unfold count_one.
    destruct (decide (key s = k)) as [<-|Hk].
    - rewrite lookup_insert_eq, (decide_False (P := s :: _ = [])) by done.
      destruct (decide (filter (λ s0, key s0 = key s) l = [])) as [E|E]; rewrite ?E; cbn [length default from_option id]; f_equal; lia.
    - by rewrite lookup_insert_ne by done. }
  rewrite H. case_decide; [done|]. by rewrite lookup_empty.
Qed.

Lemma mcp_envelope_map target platform secrets : as_any (cleaned (mcp_envelope target platform secrets)) =
  JObject [("data", JObject [("platform", JString (clean platform));
     ("secrets", JArray (as_any ∘ cleaned ∘ secret_json <$> secrets)); ("target", JString (clean target))])].
Proof.
  unfold mcp_envelope, list_field, text_field. rewrite cleaned_object. cbn [fmap list_fmap]. rewrite cleaned_object.
  cbn [fmap list_fmap cleaned as_any]. clean_keys. rewrite !list_fmap_compose.
  generalize (clean platform) (clean target) (as_any <$> (cleaned <$> (secret_json <$> secrets))).
  intros. by vm_compute.
Qed.

Section tools.
Context `{T : JsonText} `{!JsonTextLaws T} (MarshalIndent_sarif : sarifLog → res string).

Lemma scan_answer_alike format path platform secrets secrets' : Forall2 alike secrets secrets' →
  scan_answer MarshalIndent_sarif format path platform secrets = scan_answer MarshalIndent_sarif format path platform secrets'.
Proof.
  intros Ha. unfold scan_answer. cbv zeta. rewrite (summarize_alike _ _ _ _ Ha). unfold renderFindings, EncodeSARIF, EncodeSARIFWithFindings.
  rewrite (sarif_alike _ _ _ _ _ Ha). case_decide; [done|]. case_decide; [|done].
  assert (He : erased (mcp_envelope (filepathBase path) platform secrets) = erased (mcp_envelope (filepathBase path) platform secrets')).
  { unfold mcp_envelope, list_field. cbn. rewrite <- !list_fmap_compose.
    assert (erased ∘ secret_json <$> secrets = erased ∘ secret_json <$> secrets') as ->; [|done].
    eapply Forall2_fmap_eq, Ha. apply alike_erased. }
  rewrite (render_masked _ _ _ _ He (mcp_envelope_map _ _ _) (mcp_envelope_map _ _ _)); [done|].
  assert (Hs : mask_item <$> (as_any ∘ cleaned ∘ secret_json <$> secrets) =
               mask_item <$> (as_any ∘ cleaned ∘ secret_json <$> secrets')).
  { rewrite <- !list_fmap_compose. eapply Forall2_fmap_eq, Ha. intros ?? Hs. by apply alike_masked. }
  revert Hs. generalize (as_any ∘ cleaned ∘ secret_json <$> secrets) (as_any ∘ cleaned ∘ secret_json <$> secrets').
  intros l l' Hs. change (mask_result ?m) with (adjust "data" mask_data m). cbn -[mask_item fmap]. by rewrite Hs.
Qed.

Section machine.
Context `{RS : RedisServer} `{Machine}.

Lemma forced_status s : clock_ok Now limiter_Wait http_Do →
  cache_ok decode_slack decode_google decode_cloudflare verifier →
  match forced [s] with [s'] => verified_status (VerificationStatus s') | _ => False end.
Proof.
  intros Hclock Hok. unfold forced, VerifySecretsForced, verifyWithRegistry.
  match goal with |- context [let '(_, _) := ?t in _] => destruct t as [l1 x1] eqn:E1 end.
  eapply awsPrePass_spec in E1 as [He1 Hall1]; [|done..].
  match goal with |- context [(?t).1] => destruct t as [l2 x2] eqn:E2 end.
  eapply verify_loop_spec in E2 as [_ Hall2]; [|done|exact (proj1 He1)].
  cbn in Hall1. inversion Hall1 as [|? s1 ? ? H1 Hn]; subst. inversion Hn; subst.
  inversion Hall2 as [|? s2 ? ? H2 Hn2]; subst. inversion Hn2; subst. cbn.
  destruct (pairable s) eqn:Ep.
  - assert (Ep1 : pairable s1 = true) by (destruct H1 as [-> _]; by rewrite pairable_set_status).
    rewrite Ep1 in H2. subst s2. apply H1.
  - subst s1. rewrite Ep in H2. apply H2.
Qed.

(** The statuses a check may answer with. *)
Definition statuses : list string := [statusActive; statusInactive; statusUnknown; statusUnchecked].

End machine.

(** ** Re-opened reports *)

(** Below the members that fold to [n], which must be named [n] exactly. *)
Definition named (n : string) (f : json → bool) (v : json) : bool :=
  match v with
  | JObject m => forallb (λ '(k, x), negb (bool_decide (folded k = folded n)) || bool_decide (k = n) && f x) m
  | _ => true
  end.
Definition each (f : json → bool) (v : json) : bool := match v with JArray l => forallb f l | _ => true end.

(** No member is a differently cased [data], [secrets] or [secretString]. *)
Definition plain_names : json → bool := named "data" (named "secrets" (each (named "secretString" (λ _, true)))).

(** A value that may be shown. *)
Definition hidden (s : string) : Prop := s = "" ∨ ∃ v, s = clean (maskSecret v).

Lemma named_elem n f m k x : named n f (JObject m) = true → (k, x) ∈ m → folded k = folded n → k = n ∧ f x = true.
Proof.
  cbn. rewrite forallb_forall. intros H Hx Hk. specialize (H _ (proj1 (list_elem_of_In _ _) Hx)). cbn in H.
  rewrite (bool_decide_eq_true_2 _ Hk) in H. cbn in H. apply andb_true_iff in H as [H%bool_decide_eq_true ?]. done.
Qed.

Lemma each_elem f l x : each f (JArray l) = true → x ∈ l → f x = true.
Proof. cbn. rewrite forallb_forall. intros H Hx. by apply H, list_elem_of_In. Qed.

Lemma folded_clean k : folded (clean k) = folded k.
Proof. unfold folded. by rewrite to_runes_clean. Qed.

Context (mismatch : string → json → error) (number_int : spec_float → option Z).

Lemma field_of_folded names k n : field_of names k = Some n → n ∈ names ∧ folded k = folded n.
Proof.
  unfold field_of. case_decide; [by intros [= ->]|]. intros Hh.
  assert (Hin : n ∈ filter (λ n, folded n = folded k) names) by (destruct (filter _ names); [done|injection Hh as ->; by left]).
  by apply list_elem_of_filter in Hin as [-> ?].
Qed.

Lemma decode_members_inv {A} (P : A → Prop) names set l (a : A) : P a →
  (∀ n k v a, (k, v) ∈ l → field_of names k = Some n → P a → P (set n v a).1) → P (decode_members names set l a).1.
Proof.
  intros Ha Hset. unfold decode_members. generalize (@None error) as err. revert a Ha.
  induction l as [|[k v] l IH]; intros a Ha err; [done|]. cbn [foldl].
  assert (Hl : ∀ n k v a, (k, v) ∈ l → field_of names k = Some n → P a → P (set n v a).1) by (intros; eapply Hset; [by right|done..]).
  destruct (field_of names k) as [n|] eqn:E; [|by apply IH].
  specialize (Hset n k v a ltac:(by left) E Ha). destruct (set n v a) as [a' e]. by apply IH.
Qed.

(** The members of an adjusted object. *)
Lemma adjust_elem k f m k' x : NoDup m.*1 → (k', x) ∈ adjust k f m →
  ∃ y, (k', y) ∈ m ∧ x = if decide (k' = k) then f y else y.
Proof.
  induction m as [|[k0 y] m IH]; [by intros _ []%elem_of_nil|]. cbn. intros [Hn Hd]%NoDup_cons.
  destruct (decide (k = k0)) as [<-|E].
  - intros [[= -> ->]|Hx]%elem_of_cons; [exists y; rewrite decide_True by done; split; [by left|done]|].
    exists x. split; [by right|]. rewrite decide_False; [done|]. intros ->. apply Hn, list_elem_of_fmap. by exists (k, x).
  - intros [[= -> ->]|Hx]%elem_of_cons; [exists y; rewrite decide_False by (by intros ->); split; [by left|done]|].
    destruct (IH Hd Hx) as (z & Hz & ->). exists z. split; [by right|done].
Qed.

Lemma set_secret_hidden n v m : (∀ s, n = "secretString" → v = JString s → hidden s) →
  hidden (SecretString m) → hidden (SecretString (set_secret mismatch number_int n v m).1).
Proof.
  intros Hv Hm. unfold set_secret. case_decide; [repeat case_match; done|]. case_decide; [repeat case_match; done|].
  destruct v; try done. cbn. case_decide; [by eapply Hv|done].
Qed.

Lemma decode_masked_entry e : decoded e → named "secretString" (λ _, true) e = true →
  hidden (SecretString (decode_secret mismatch number_int (cleaned (mask_item e))).1).
Proof.
  intros Hd Hn. destruct e as [| | | | |m]; try (by left). destruct (decoded_object m Hd) as [Hnd _].
  assert (HP : ∀ m', (∀ k x s, (k, x) ∈ m' → folded k = folded "secretString" → x = JString s → ∃ v, s = maskSecret v) →
    hidden (SecretString (decode_secret mismatch number_int (cleaned (JObject m'))).1)).
  { intros m' Hm'. cbn. apply (decode_members_inv (λ s, hidden (SecretString s))); [by left|].
    intros n k v a Hk Hf Ha. apply set_secret_hidden; [|done]. intros s -> ->.
    apply field_of_folded in Hf as [_ Hf]. apply list_elem_of_fmap in Hk as ([k' x] & [= -> Hx] & Hin).
    rewrite folded_clean in Hf. destruct x; try done. injection Hx as ->. destruct (Hm' _ _ _ Hin Hf eq_refl) as [v ->]. right. eauto. }
  cbn [mask_item]. rewrite get_find. destruct (find_key m "secretString") as [[]|] eqn:E; cbn [default from_option id]; apply HP.
  all: intros k x s0 Hx Hk ->.
  4: { apply adjust_elem in Hx as (y & Hy & Hxy); [|done]. destruct (named_elem _ _ _ _ _ Hn Hy Hk) as [-> _].
       rewrite decide_True in Hxy by done. injection Hxy as ->. eauto. }
  all: exfalso; destruct (named_elem _ _ _ _ _ Hn Hx Hk) as [-> _]; clear -E Hx Hnd; revert E;
    induction m as [|[k y] m IH]; [by apply elem_of_nil in Hx|]; cbn; apply NoDup_cons in Hnd as [Hn Hd];
    apply elem_of_cons in Hx as [Heq|Hx]; [simplify_eq; by rewrite decide_True|];
    (rewrite decide_False; [by apply IH|]; intros <-; apply Hn, list_elem_of_fmap; eexists; split; [|exact Hx]; done).
Qed.

Definition shows_nothing (r : report) : Prop := Forall (λ s, hidden (SecretString s)) (r_Secrets r).

Lemma set_data_hidden d k v n r : decoded d → each (named "secretString" (λ _, true)) d = true →
  (folded k = folded "secrets" → v = cleaned (mask_list d)) → field_of ["target"; "platform"; "secrets"] k = Some n →
  shows_nothing r → shows_nothing (set_data mismatch number_int n v r).1.
Proof.
  intros Hd Hn Hv Hf Hr. unfold set_data. case_decide as E.
  - subst n. apply field_of_folded in Hf as [_ Hf]. rewrite (Hv Hf). destruct d as [| | | |l|]; try done; [by left|].
    unfold shows_nothing. cbn. apply Forall_forall. intros s Hs.
    apply list_elem_of_fmap in Hs as ([s' err] & -> & Hs). apply list_elem_of_fmap in Hs as (x & Hx & Hin).
    apply list_elem_of_fmap in Hin as (y & -> & Hin). apply list_elem_of_fmap in Hin as (e & -> & Hin).
    pose proof (decode_masked_entry e (decoded_array _ _ Hd Hin) (each_elem _ _ _ Hn Hin)) as HH. by rewrite <- Hx in HH.
  - destruct (text_value _ _ _ _) as [s e]. cbn. by case_decide.
Qed.

Lemma set_report_hidden d r n : decoded d → named "secrets" (each (named "secretString" (λ _, true))) d = true →
  shows_nothing r → shows_nothing (set_report mismatch number_int n (cleaned (mask_data d)) r).1.
Proof.
  intros Hd Hn Hr. destruct d as [| | | | |m]; try done. destruct (decoded_object m Hd) as [Hnd Hch]. cbn [mask_data cleaned set_report].
  apply (decode_members_inv shows_nothing); [done|]. intros f k v a Hin Hf Ha.
  apply list_elem_of_fmap in Hin as ([k' x] & [= -> ->] & Hin). apply adjust_elem in Hin as (y & Hy & ->); [|done].
  destruct (decide (folded k' = folded "secrets")) as [Hk|Hk].
  - destruct (named_elem _ _ _ _ _ Hn Hy Hk) as [-> He]. rewrite decide_True by done.
    eapply set_data_hidden; [by eapply Hch|exact He| |exact Hf|done]. done.
  - eapply (set_data_hidden JNull); [by exists JNull|done| |exact Hf|done]. rewrite folded_clean. by intros ?.
Qed.

Lemma report_hidden env m text r : as_any env = JObject m → plain_names (as_any env) = true →
  Marshal (JObject (mask_result m)) = Ok text → Unmarshal_report mismatch number_int text = Ok r → shows_nothing r.
Proof.
  intros Hm Hn Ht. apply parse_Marshal in Ht. unfold Unmarshal_report. rewrite Ht. cbn [cleaned].
  set (l := _ <$> mask_result m). assert (Hd : decoded (JObject m)) by (by exists env). rewrite Hm in Hn.
  destruct (decoded_object m Hd) as [Hnd Hch].
  assert (HP : shows_nothing (decode_members ["data"] (set_report mismatch number_int) l (mk_report "" "" [])).1).
  { apply (decode_members_inv shows_nothing); [constructor|]. intros f k v a Hin Hf Ha.
    apply list_elem_of_fmap in Hin as ([k' x] & [= -> ->] & Hin). apply adjust_elem in Hin as (y & Hy & ->); [|done].
    apply field_of_folded in Hf as [Hf1 Hf2]. apply list_elem_of_singleton in Hf1 as ->. rewrite folded_clean in Hf2.
    destruct (named_elem _ _ _ _ _ Hn Hy Hf2) as [-> He]. rewrite decide_True by done.
    apply set_report_hidden; [by eapply Hch|exact He|done]. }
  destruct (decode_members _ _ _ _) as [r' [e|]]; [done|]. by intros [= <-].
Qed.

Context (Unmarshal_sarif : string → res (list sarif_run)) (os_Stat : string → stat_result) (os_ReadFile : string → res string).

(** An answer made of a report that shows nothing, or of the rules and levels of a run. *)
Definition shown (path raw text : string) : Prop :=
  (∃ target platform secrets, Forall (λ s, hidden (SecretString s)) secrets ∧
     results_answer (summarize target platform secrets) "json" path (finding_json <$> secrets) = ToolText text) ∨
  (∃ target platform run rest, Unmarshal_sarif raw = Ok (run :: rest) ∧
     results_answer (summarize target platform (item_secret <$> run_items run)) "sarif" path (preview_json <$> run_items run) =
       ToolText text).

(** A re-opened report is masked again.  When get_results answers with a text, the path
    named a regular file of at most ten MiB whose text is a JSON object with runs or data;
    the text is made of a run's rules and levels, or of findings each of whose values is
    empty or a mask, even if the file was written unmasked.  For a JSON report this takes
    that its members are named as the program names them: a member that differs in the case
    of its letters is not masked, but is read. *)
Theorem reopened_results_masked (req : call) (text : string) :
  (∀ path raw v, os_ReadFile path = Ok raw → parse raw = Ok v → plain_names (as_any v) = true) →
  getResultsHandler mismatch number_int Unmarshal_sarif os_Stat os_ReadFile req = ToolText text →
  ∃ p raw l, RequireString req "path" = Ok p ∧ let path := TrimSpace p in
    path ≠ "" ∧ (∃ size, os_Stat path = StatOk true size ∧ size ≤ getResultsMaxBytes) ∧ os_ReadFile path = Ok raw ∧
    parse raw = Ok (JObject l) ∧ ("runs" ∈ l.*1 ∨ "data" ∈ l.*1) ∧ shown path raw text.
Proof.
  intros Hplain. unfold getResultsHandler. destruct (RequireString req "path") as [p|e]; [|done]. cbv zeta.
  case_decide as Hp; [done|]. destruct (os_Stat (TrimSpace p)) as [|e|[] size] eqn:Es; [done..| |done]. cbn [negb].
  destruct (Z.ltb_spec getResultsMaxBytes size); [done|]. destruct (os_ReadFile (TrimSpace p)) as [raw|e] eqn:Er; [|done].
  unfold sniffResultFormat. destruct (parse raw) as [v|e] eqn:Ev; [|done]. destruct v as [| | | | |l]; try done.
  intros Ht. exists p, raw, l. split; [done|]. cbv zeta. split; [done|]. split; [eauto|]. split; [done|]. split; [done|].
  destruct (decide ("runs" ∈ l.*1)) as [Hr|Hr].
  - split; [by left|]. cbn in Ht. right. unfold handleSARIFResults in Ht. destruct (Unmarshal_sarif raw) as [[|run rest]|e]; [done| |done].
    do 4 eexists. split; [done|exact Ht].
  - destruct (decide ("data" ∈ l.*1)) as [Hd|Hd]; [|done]. split; [by right|]. left. cbn in Ht. unfold handleJSONResults, MaskResultJSON in Ht.
    assert (Hm : ∃ m, as_any (JObject l) = JObject m) by (cbn; eauto). destruct Hm as [m Hm].
    rewrite (Unmarshal_map_object _ _ _ Ev Hm) in Ht. unfold Marshal_map in Ht. cbn [fmap option_fmap option_map] in Ht.
    destruct (Marshal (JObject (mask_result m))) as [masked|e] eqn:Em; [|done].
    destruct (Unmarshal_report _ _ masked) as [r|e] eqn:Eu; [|done]. do 3 eexists. split; [|exact Ht].
    exact (report_hidden _ _ _ _ Hm (Hplain _ _ _ Er Ev) Em Eu).
Qed.
End tools.

(** ** Instances *)

#[local] Instance sample_machine : Machine := bench_with None [].

Definition sample_call : call := mk_call (λ k, Ok (if decide (k = "value") then "ghp_0123456789" else "github")) (λ _ d, d) (λ _ b, b).


Definition no_mismatch (field : string) (v : json) : error := ENew ("json: " +:+ field).
Definition report_with (key value : string) : json :=
  JObject [("data", JObject [("secrets", JArray [JObject [("secretType", JString "AWS"); (key, JString value)]])])].
Definition open_report (key value : string) : res report :=
  match MaskResultJSON (Unmarshal_map (H := Binary.format)) (Marshal_map (H := Binary.format)) (Binary.text (report_with key value)) with
  | Ok masked => Unmarshal_report (T := Binary.format) no_mismatch (λ _, None) masked
  | Err e => Err e
  end.

Definition sample_path : call := mk_call (λ _, Ok "/tmp/out.json") (λ _ d, d) (λ _ b, b).
#[local] Notation sample_get := (getResultsHandler (T := Binary.format) no_mismatch (λ _, None) (λ _, Err (ENew "")) (λ _, StatOk true 100)
  (λ _, Ok (Binary.text (report_with "secretString" "AKIA1234567890XY"))) sample_path).

(** Read back: the value of the one finding is its mask. *)
Lemma reopened_results_masked_witness :
  ∃ text, sample_get = ToolText text ∧
    shown (T := Binary.format) (λ _, Err (ENew "")) "/tmp/out.json" (Binary.text (report_with "secretString" "AKIA1234567890XY")) text.
Proof.
  destruct sample_get as [text|e] eqn:E; [|exfalso; revert E; vm_compute; discriminate].
  exists text. split; [reflexivity|].
  destruct (reopened_results_masked (T := Binary.format) no_mismatch (λ _, None) (λ _, Err (ENew "")) (λ _, StatOk true 100)
    (λ _, Ok (Binary.text (report_with "secretString" "AKIA1234567890XY"))) sample_path text) as (p & raw & l & [= <-] & H).
  - intros path raw v [= <-] Hv. cbn in Hv. rewrite Binary.read_text in Hv. injection Hv as <-. by vm_compute.
  - exact E.
  - destruct H as (_ & _ & [= <-] & _ & _ & H). exact H.
Defined.

Example masked_when_reopened : exists r, open_report "secretString" "AKIA1234567890XY" = Ok r ∧
  (SecretString <$> r_Secrets r) = ["AKIA…XY"].
Proof. eexists. split; by vm_compute. Qed.

(** A member that differs in the case of its letters is not masked, and is read: the
    value comes back in clear. *)
Example cased_member_leaks : exists r, open_report "SecretString" "AKIA1234567890XY" = Ok r ∧
  (SecretString <$> r_Secrets r) = ["AKIA1234567890XY"].
Proof. eexists. split; by vm_compute. Qed.

(** explain_finding loads the patterns of no platform: those of a file for iOS are not
    among them, although scans of iOS packages use them. *)
Example ios_patterns_unexplained :
  let ios_file := mk_patterns "ios" "MASVS-CRYPTO-1" [mk_yaml_pattern "iOS Key" "AKIA" "high" "" None] in
  load_patterns (E := literal_engine) (λ _, Some ios_file) "any" ["ios-secrets.yml"] = [] ∧
  length (load_patterns (E := literal_engine) (λ _, Some ios_file) "ios" ["ios-secrets.yml"]) = 1%nat.
Proof. by vm_compute. Qed.
