(* ===== verification/Benchmark.v ===== *)
(** * The detection benchmark ([benchmark/benchmark.go], [benchmark/hydrate.go],
      [benchmark/report.go], [cmd/bench.go])

    The embedded corpus is written to a temporary directory, scanned by the detection
    engine and scored against its labels before and after the precision filter.  The
    embedded files, the file system, ripgrep and the text of floats are parameters. *)
From Stdlib Require Import ZArith Ascii.
From S2P Require Import Prelude GoStr GoErr GoPath GoFloat GoUrl GoJson JsonText Detect Precision Crypto Ipa Pipeline.

Local Open Scope Z_scope.

(** ** Records *)

Record GroundTruth := mk_truth {
  gt_Platform : string; gt_SecretType : string; FileBasename : string; Expect : bool; ExpectedTier : string }.

Record Metrics := mk_metrics { TP : Z; FP : Z; FN : Z; m_Precision : spec_float; m_Recall : spec_float; F1 : spec_float }.

Record Report := mk_report {
  rp_Platform : string; Before : Metrics; After : Metrics; FalsePositiveDrop : Z; RawFindings : Z; KeptFindings : Z;
  TierCounts : gmap string Z; TierMismatches : list string }.

(** ** Scores *)

Definition ratio (num den : Z) : spec_float :=
  if decide (den = 0) then S754_zero false else float_div (float_of_Z num) (float_of_Z den).

(** [Precision], [Recall] and [F1] of the counts. *)
Definition derived (tp fp fn : Z) : Metrics :=
  let p := ratio tp (tp + fp) in
  let r := ratio tp (tp + fn) in
  mk_metrics tp fp fn p r
    (if SFltb (S754_zero false) (float_add p r)
     then float_div (float_mul (float_mul (float_of_Z 2) p) r) (float_add p r) else S754_zero false).

Definition key : Type := string * string.
Definition label_key (l : GroundTruth) : key := (gt_SecretType l, FileBasename l).
Definition finding_key (f : SecretModel) : key := (SecretType f, path_Base (FileLocation f)).

Definition labels_by_key (labels : list GroundTruth) : gmap key GroundTruth :=
  foldl (λ m l, <[label_key l := l]> m) ∅ labels.

(** One finding: the matched keys, the true and the false positives. *)
Definition attribute (labelByKey : gmap key GroundTruth) (st : gset key * Z * Z) (f : SecretModel) : gset key * Z * Z :=
  let '(matched, tp, fp) := st in
  let k := finding_key f in
  match labelByKey !! k with
  | None => (matched, tp, fp + 1)
  | Some l => if Expect l then ({[k]} ∪ matched, tp + 1, fp) else ({[k]} ∪ matched, tp, fp + 1)
  end.

Definition missed (matched : gset key) (fn : Z) (l : GroundTruth) : Z :=
  if negb (Expect l) then fn else if decide (label_key l ∈ matched) then fn else fn + 1.

Definition score (findings : list SecretModel) (labels : list GroundTruth) : Metrics :=
  let '(matched, tp, fp) := foldl (attribute (labels_by_key labels)) (∅, 0, 0) findings in
  derived tp fp (foldl (missed matched) 0 labels).

Definition tier_labels (labels : list GroundTruth) : gmap key string :=
  foldl (λ m l, if Expect l && negb (bool_decide (ExpectedTier l = "")) then <[label_key l := ExpectedTier l]> m else m) ∅ labels.

Definition tier_mismatch (want : gmap key string) (s : SecretModel) : option string :=
  exp ← want !! finding_key s;
  if decide (Tier s = exp) then None
  else Some (SecretType s +:+ " (" +:+ (finding_key s).2 +:+ "): got tier " +:+ Quote (Tier s) +:+ ", want " +:+ Quote exp).

Definition tierMismatches (kept : list SecretModel) (labels : list GroundTruth) : list string :=
  sort_strings (omap (tier_mismatch (tier_labels labels)) kept).

Definition labelsForPlatform (labels : list GroundTruth) (platform : string) : list GroundTruth :=
  filter (λ l, gt_Platform l = platform) labels.

Definition tier_counts (kept : list SecretModel) : gmap string Z :=
  foldl (λ m s, <[Tier s := default 0 (m !! Tier s) + 1]> m) ∅ kept.

(** ** Labels *)

Section labels.
Context `{JsonText}.

Definition set_truth (n : string) (v : json) (l : GroundTruth) : GroundTruth * option error :=
  if decide (n = "expect") then
    match v with
    | JBool b => (mk_truth (gt_Platform l) (gt_SecretType l) (FileBasename l) b (ExpectedTier l), None)
    | JNull => (l, None)
    | _ => (l, Some (type_mismatch v "bool"))
    end
  else match v with
       | JString s =>
           let pick k old := if decide (n = k) then s else old in
           (mk_truth (pick "platform" (gt_Platform l)) (pick "secretType" (gt_SecretType l))
              (pick "fileBasename" (FileBasename l)) (Expect l) (pick "expectedTier" (ExpectedTier l)), None)
       | JNull => (l, None)
       | _ => (l, Some (type_mismatch v "string"))
       end.

Definition decode_truth (v : json) : GroundTruth * option error :=
  let zero := mk_truth "" "" "" false "" in
  match v with
  | JObject l => decode_members ["platform"; "secretType"; "fileBasename"; "expect"; "expectedTier"] set_truth l zero
  | JNull => (zero, None)
  | _ => (zero, Some (type_mismatch v "benchmark.GroundTruth"))
  end.

(** The labels; the description is decoded and not used. *)
Definition set_labels (n : string) (v : json) (ls : list GroundTruth) : list GroundTruth * option error :=
  if decide (n = "labels") then
    match v with
    | JArray l => ((decode_truth <$> l).*1, foldl first_error None (decode_truth <$> l).*2)
    | JNull => ([], None)
    | _ => (ls, Some (type_mismatch v "[]benchmark.GroundTruth"))
    end
  else match v with JString _ | JNull => (ls, None) | _ => (ls, Some (type_mismatch v "string")) end.

Definition loadLabels (ReadFile : string → res string) : res (list GroundTruth) :=
  match ReadFile "corpus/labels.json" with
  | Err e => Err (EWrap ("read embedded labels: " +:+ Error e) [e])
  | Ok raw =>
      match (match parse raw with
             | Err e => ([], Some e)
             | Ok (JObject l) => decode_members ["description"; "labels"] set_labels l []
             | Ok JNull => ([], None)
             | Ok v => ([], Some (type_mismatch v "benchmark.labelsFile"))
             end) with
      | (_, Some e) => Err (EWrap ("parse labels.json: " +:+ Error e) [e])
      | ([], None) => Err (ENew "labels.json contained no labels")
      | (ls, None) => Ok ls
      end
  end.
End labels.

(** ** The corpus *)

(** Tokens and the encoding of what they stand for. *)
Definition hydrationB64 : list (string * string) :=
  [("__MORF_BENCH_AWS_SMALI__", "QUtJQVo3WFE0UExNMldEOE5SVlQ=");
   ("__MORF_BENCH_STRIPE__", "c2tfbGl2ZV80ZUMzOUhxTHlqV0Rhcmp0VDF6ZHA3ZGM=");
   ("__MORF_BENCH_GHP__", "Z2hwXzAxMjM0NTY3ODlhYmNkZWZnaGlqa2xtbm9wcXJzdHV2d3h5eg==");
   ("__MORF_BENCH_GOOGLE__", "QUl6YVN5QjNuSzlwUXI3c1QxdVZ3WDJ5WjRhQjZjRDhlRjBnSDJq");
   ("__MORF_BENCH_SLACK__", "eG94Yi0yNDAxMjM0NTY3ODkwYWJjZGVmZ2hYeTdaazNBYjlDZDFFZjVHaDJJajRLbA==");
   ("__MORF_BENCH_AWS_DECOY__", "QUtJQTAwMDAwMDAwMDAwMDAwMDA=");
   ("__MORF_BENCH_SENDGRID__", "U0cuQjFhMkMzZDRFNWY2RzdoOEk5ajBLbC5tTjFvUDJxUjNzVDR1VjV3WDZ5WjdhQjhjRDllRjBnSDFpSjJrTDNtTjRv")].

Definition binaryExcludes : list string :=
  ["-g"; "!**/smali*/**"; "-g"; "!**/res/**"; "-g"; "!**/original/**"; "-g"; "!**/unknown/**"].
Definition ipaContainerPlatform : string := "ipa-container".
Definition benchPlatforms : list string := ["android"; "ios"; ipaContainerPlatform].

Section corpus.
(** The base64 decoder, and the order in which the map of tokens is ranged over. *)
Context (DecodeString : string → option string) (range : list (string * string)).

Definition hydrate_token (data : string) (kv : string * string) : string :=
  if Contains data kv.1
  then match DecodeString kv.2 with Some val => replace_all (String.length data) data kv.1 val | None => data end
  else data.

Definition hydrate (data : string) : string := foldl hydrate_token data range.

(** The outcome of an operation on the file system, the entries of a walk of the
    embedded files (a directory, or what its content reads as), and the operations
    attempted with the first error. *)
Context (outcome : fsop → option error) (walk : string → list (string * option (res string))).

Definition extract_entry (dst : string) (e : string * option (res string)) : option error * list fsop :=
  let target := Join dst e.1 in
  match e.2 with
  | None => (outcome (MkdirAll target), [MkdirAll target])
  | Some (Err err) => (Some (EWrap ("read embedded " +:+ e.1 +:+ ": " +:+ Error err) [err]), [])
  | Some (Ok data) =>
      match outcome (MkdirAll (Dir target)) with
      | Some err => (Some err, [MkdirAll (Dir target)])
      | None => (outcome (WriteFile target (hydrate data)), [MkdirAll (Dir target); WriteFile target (hydrate data)])
      end
  end.

Fixpoint extract_entries (dst : string) (es : list (string * option (res string))) : option error * list fsop :=
  match es with
  | [] => (None, [])
  | e :: es => match extract_entry dst e with
               | (Some err, ops) => (Some err, ops)
               | (None, ops) => let '(err, ops') := extract_entries dst es in (err, ops ++ ops')
               end
  end.

Definition extractTree (prefix dst : string) : option error * list fsop := extract_entries dst (walk prefix).

(** *** The archive *)

Definition writeEntry (f : zip_file) (target : string) : option error * list fsop :=
  match zf_content f with
  | Err e => (Some (EWrap ("open zip entry " +:+ Quote (zf_Name f) +:+ ": " +:+ Error e) [e]), [])
  | Ok data =>
      match outcome (CreateFile target) with
      | Some e => (Some (EWrap ("create " +:+ Quote target +:+ ": " +:+ Error e) [e]), [CreateFile target])
      | None => match outcome (WriteFile target data) with
                | Some e => (Some (EWrap ("write " +:+ Quote target +:+ ": " +:+ Error e) [e]), [CreateFile target; WriteFile target data])
                | None => (None, [CreateFile target; WriteFile target data])
                end
      end
  end.

Fixpoint unzip_files (cleanDst : string) (fs : list zip_file) : option error * list fsop :=
  match fs with
  | [] => (None, [])
  | f :: fs =>
      let name := zf_Name f in
      if IsAbs name || HasPrefix name "/" || HasPrefix name "\"
      then (Some (ENew ("zip entry " +:+ Quote name +:+ " has absolute path (zip-slip)")), [])
      else
        let target := Join cleanDst name in
        if bool_decide (target ≠ cleanDst) && negb (HasPrefix target (cleanDst +:+ "/"))
        then (Some (ENew ("zip entry " +:+ Quote name +:+ " escapes extraction root (zip-slip)")), [])
        else
          match (if zf_IsDir f then
                   match outcome (MkdirAll target) with
                   | Some e => (Some (EWrap ("mkdir " +:+ Quote target +:+ ": " +:+ Error e) [e]), [MkdirAll target])
                   | None => (None, [MkdirAll target])
                   end
                 else
                   match outcome (MkdirAll (Dir target)) with
                   | Some e => (Some (EWrap ("mkdir parent of " +:+ Quote target +:+ ": " +:+ Error e) [e]), [MkdirAll (Dir target)])
                   | None => let '(err, ops) := writeEntry f target in (err, MkdirAll (Dir target) :: ops)
                   end) with
          | (Some e, ops) => (Some e, ops)
          | (None, ops) => let '(err, ops') := unzip_files cleanDst fs in (err, ops ++ ops')
          end
  end.

Definition unzipIPA (OpenReader : string → res (list zip_file)) (src dst : string) : option error * list fsop :=
  match OpenReader src with
  | Err e => (Some (EWrap ("open ipa zip " +:+ Quote src +:+ ": " +:+ Error e) [e]), [])
  | Ok fs => unzip_files (Clean dst) fs
  end.
End corpus.

(** ** Running *)

(** The variable [MORF_PATTERNS_DIR], and the directories removed. *)
Record bench := mk_bench { b_env : option string; b_removed : list string }.

Section run.
Context {E : RegexEngine} (ReplaceAllString : regexp → string → string → string).
Context (URLDecode RawURLDecode : string → option string) (json_keys : string → option (gset string)).
Context (Log2 : spec_float → spec_float) (map_order : gmap Z Z → list (Z * Z)).
Context `{JsonText}.
(** The patterns of a platform when the variable points to a directory, and the other
    ingredients of a ripgrep pass. *)
Context (patterns : option string → string → res PatternCache) (is_dir : string → bool) (pattern_file : res string)
  (rg : list string → list string * rg_exit) (max_filesize : string).

Definition precise : list SecretModel → list SecretModel :=
  ApplyPrecision ReplaceAllString URLDecode RawURLDecode json_keys Log2 map_order.

(** What is found under [root], and what is left of it. *)
Definition raw_findings (env : option string) (platform root : string) : res (list SecretModel) :=
  let scanPlatform := if decide (platform = ipaContainerPlatform) then "ios" else platform in
  match scanCorpusWithOpts (patterns env scanPlatform) is_dir pattern_file rg [root] (mk_opts false [] 0) with
  | Err e => Err (EWrap ("text scan: " +:+ Error e) [e])
  | Ok textHits =>
      match scanCorpusWithOpts (patterns env scanPlatform) is_dir pattern_file rg [root]
              (mk_opts true binaryExcludes (binaryPassMaxFileSizeMB max_filesize)) with
      | Err e => Err (EWrap ("binary text scan: " +:+ Error e) [e])
      | Ok binHits => Ok (SanitizeSecrets (textHits ++ binHits))
      end
  end.

Definition report_of (platform : string) (raw : list SecretModel) (labels : list GroundTruth) : Report :=
  let kept := precise raw in
  let platLabels := labelsForPlatform labels platform in
  let before := score raw platLabels in
  let after := score kept platLabels in
  mk_report platform before after (FP before - FP after) (Z.of_nat (length raw)) (Z.of_nat (length kept))
    (tier_counts kept) (tierMismatches kept platLabels).

Definition runPlatform (env : option string) (platform root : string) (labels : list GroundTruth) : res Report :=
  match raw_findings env platform root with Err e => Err e | Ok raw => Ok (report_of platform raw labels) end.

(** Temporary directories, the embedded files, the archive reader and the outcome of
    file operations. *)
Context (MkdirTemp : string → res string) (outcome : fsop → option error) (OpenReader : string → res (list zip_file)).
Context (DecodeString : string → option string) (range : list (string * string)) (embedded : string → res string)
  (walk : string → list (string * option (res string))).

Definition remove (dir : string) (b : bench) : bench := mk_bench (b_env b) (b_removed b ++ [dir]).

Definition runIPAContainerCase (corpusDir : string) (labels : list GroundTruth) (b : bench) : res Report * bench :=
  let ipaPath := Join (Join corpusDir "ipa") "fixture.ipa" in
  match MkdirTemp "morf-bench-ipa-*" with
  | Err e => (Err (EWrap ("create ipa extract dir: " +:+ Error e) [e]), b)
  | Ok extractDir =>
      (match (unzipIPA outcome OpenReader ipaPath extractDir).1 with
       | Some e => Err (EWrap ("unzip ipa fixture: " +:+ Error e) [e])
       | None => runPlatform (b_env b) ipaContainerPlatform extractDir labels
       end, remove extractDir b)
  end.

(** The directories of the corpus and of the patterns, and what to remove later. *)
Definition extractCorpus (b : bench) : res (string * string * string) * bench :=
  match MkdirTemp "morf-benchmark-*" with
  | Err e => (Err (EWrap ("create temp dir: " +:+ Error e) [e]), b)
  | Ok base =>
      match (extractTree DecodeString range outcome walk "corpus" base).1 with
      | Some e => (Err e, remove base b)
      | None => match (extractTree DecodeString range outcome walk "benchpatterns" base).1 with
                | Some e => (Err e, remove base b)
                | None => (Ok (Join base "corpus", Join base "benchpatterns", base), b)
                end
      end
  end.

Fixpoint run_platforms (corpusDir : string) (labels : list GroundTruth) (plats : list string) (b : bench)
    : res (list Report) * bench :=
  match plats with
  | [] => (Ok [], b)
  | plat :: plats =>
      match (if decide (plat = ipaContainerPlatform) then runIPAContainerCase corpusDir labels b
             else (runPlatform (b_env b) plat (Join corpusDir plat) labels, b)) with
      | (Err e, b) => (Err (EWrap ("benchmark platform " +:+ plat +:+ ": " +:+ Error e) [e]), b)
      | (Ok rep, b) => match run_platforms corpusDir labels plats b with
                       | (Ok reps, b) => (Ok (rep :: reps), b)
                       | failed => failed
                       end
      end
  end.

(** Whether ripgrep is there, and whether the variable can be set. *)
Context (no_rg setenv_error : option error).

Definition RunBenchmark (b : bench) : res (list Report) * bench :=
  match no_rg with
  | Some e => (Err (EWrap ("ripgrep (rg) not found on PATH; the benchmark needs rg to scan the corpus: " +:+ Error e) [e]), b)
  | None =>
      match extractCorpus b with
      | (Err e, b) => (Err e, b)
      | (Ok (corpusDir, patternsDir, base), b) =>
          let prev := b_env b in
          match setenv_error with
          | Some e => (Err (EWrap ("set MORF_PATTERNS_DIR: " +:+ Error e) [e]), remove base b)
          | None =>
              let b := mk_bench (Some patternsDir) (b_removed b) in
              let '(out, b) := match loadLabels embedded with
                               | Err e => (Err e, b)
                               | Ok labels => run_platforms corpusDir labels benchPlatforms b
                               end in
              (out, remove base (mk_bench prev (b_removed b)))
          end
      end
  end.
End run.

(** ** Reports *)

Definition sum_by (f : Report → Z) (reports : list Report) : Z := foldl (λ n r, n + f r) 0 reports.

Definition aggregate (reports : list Report) : Report :=
  let sum f := sum_by f reports in
  mk_report "ALL" (derived (sum (TP ∘ Before)) (sum (FP ∘ Before)) (sum (FN ∘ Before)))
    (derived (sum (TP ∘ After)) (sum (FP ∘ After)) (sum (FN ∘ After)))
    (sum FalsePositiveDrop) (sum RawFindings) (sum KeptFindings) ∅ [].

Definition formatTiers (counts : gmap string Z) : string :=
  if decide (counts = ∅) then "{}"
  else "{" +:+ GoStr.Join ((λ k, k +:+ ":" +:+ itoa (default 0 (counts !! k))) <$> sort_strings (map_to_list counts).*1) ", " +:+ "}".

Fixpoint ruler (n : nat) : string := match n with O => "" | S n => String "-" (ruler n) end.

Section table.
(** A float with two digits behind the point, and a text padded left or right. *)
Context (fixed2 : spec_float → string) (pad_right pad_left : nat → string → string).

Definition cells (m : Metrics) : string :=
  " | " +:+ GoStr.Join (pad_left 5 <$> [fixed2 (m_Precision m); fixed2 (m_Recall m); fixed2 (F1 m)]) " " +:+
  " | " +:+ GoStr.Join (pad_left 5 <$> [itoa (TP m); itoa (FP m); itoa (FN m)]) " " +:+ " |".

Definition row (platform stage : string) (rest : string) : string := pad_right 9 platform +:+ " | " +:+ pad_right 6 stage +:+ rest.

Definition report_rows (r : Report) : list string :=
  [row (rp_Platform r) "before" (cells (Before r));
   row "" "after" (cells (After r) +:+ " FP drop=" +:+ itoa (FalsePositiveDrop r) +:+ ", raw=" +:+ itoa (RawFindings r) +:+
                   " kept=" +:+ itoa (KeptFindings r) +:+ ", tiers=" +:+ formatTiers (TierCounts r))] ++
  ((λ mm, row "" "" (" | tier mismatch: " +:+ mm)) <$> TierMismatches r).

(** The lines of the table. *)
Definition WriteTable (reports : list Report) : list string :=
  let header := row "platform" "stage" (" | " +:+ GoStr.Join (pad_left 5 <$> ["P"; "R"; "F1"]) " " +:+ " | " +:+
                                        GoStr.Join (pad_left 5 <$> ["TP"; "FP"; "FN"]) " " +:+ " | ") in
  let agg := aggregate reports in
  ["MORF detection precision/recall benchmark (apktool-free, hermetic)"; "Before = raw findings; After = post detect.ApplyPrecision"; "";
   header; ruler (String.length header)] ++ flat_map report_rows reports ++
  [""; "TOTAL after-precision: P=" +:+ fixed2 (m_Precision (After agg)) +:+ " R=" +:+ fixed2 (m_Recall (After agg)) +:+ " F1=" +:+
       fixed2 (F1 (After agg)) +:+ " (TP=" +:+ itoa (TP (After agg)) +:+ " FP=" +:+ itoa (FP (After agg)) +:+ " FN=" +:+
       itoa (FN (After agg)) +:+ "), total FP drop=" +:+ itoa (FalsePositiveDrop agg)].
End table.

(** ** The scores count what they say *)

(** A key of a label that is expected to be found, or of any label. *)
Definition expected (m : gmap key GroundTruth) (k : key) : bool :=
  match m !! k with Some l => Expect l | None => false end.
Definition labelled (m : gmap key GroundTruth) (k : key) : bool := match m !! k with Some _ => true | None => false end.

Lemma attribute_fold m fs matched tp fp :
  foldl (attribute m) (matched, tp, fp) fs =
  (list_to_set (filter (λ k, labelled m k = true) (finding_key <$> fs)) ∪ matched,
   tp + Z.of_nat (length (filter (λ k, expected m k = true) (finding_key <$> fs))),
   fp + Z.of_nat (length (filter (λ k, expected m k = false) (finding_key <$> fs)))).
Proof.
  revert matched tp fp. induction fs as [|f fs IH]; intros matched tp fp.
  { cbn. by rewrite union_empty_l_L, !Z.add_0_r. }
  cbn [foldl fmap list_fmap]. unfold attribute at 2. rewrite !filter_cons.
  assert (He : expected m (finding_key f) = match m !! finding_key f with Some l => Expect l | None => false end) by done.
  assert (Hl : labelled m (finding_key f) = match m !! finding_key f with Some _ => true | None => false end) by done.
  destruct (m !! finding_key f) as [l|]; [destruct (Expect l)|]; rewrite IH; repeat case_decide; try congruence; cbn;
    (apply (f_equal2 pair); [apply (f_equal2 pair); [set_solver|lia]|lia]).
Qed.

Lemma missed_fold matched labels fn :
  foldl (missed matched) fn labels = fn + Z.of_nat (length (filter (λ l, Expect l = true ∧ label_key l ∉ matched) labels)).
Proof.
  revert fn. induction labels as [|l labels IH]; intros fn; [cbn; lia|]. cbn [foldl]. rewrite IH, filter_cons. unfold missed.
  destruct (Expect l) eqn:E; cbn [negb].
  - case_decide as Hm; case_decide as Hd; try (exfalso; tauto); cbn; lia.
  - rewrite decide_False by (by intros [? _]). lia.
Qed.

(** The counts of a score, by the keys of the findings. *)
Lemma score_by_keys fs labels : let m := labels_by_key labels in let keys := finding_key <$> fs in
  TP (score fs labels) = Z.of_nat (length (filter (λ k, expected m k = true) keys)) ∧
  FP (score fs labels) = Z.of_nat (length (filter (λ k, expected m k = false) keys)) ∧
  FN (score fs labels) = Z.of_nat (length (filter (λ l, Expect l = true ∧
                           label_key l ∉ (list_to_set (filter (λ k, labelled m k = true) keys) : gset key)) labels)).
Proof.
  cbv zeta. unfold score. rewrite attribute_fold, union_empty_r_L. cbn. by rewrite missed_fold.
Qed.

Lemma labels_by_key_snoc labels l : labels_by_key (labels ++ [l]) = <[label_key l := l]> (labels_by_key labels).
Proof. unfold labels_by_key. by rewrite foldl_app. Qed.

Lemma labels_by_key_elem labels k l : labels_by_key labels !! k = Some l → l ∈ labels ∧ label_key l = k.
Proof.
  induction labels as [|l' labels IH] using rev_ind; [done|]. rewrite labels_by_key_snoc, elem_of_app, list_elem_of_singleton.
  intros [[<- <-]|[_ Hl]]%lookup_insert_Some; [by auto|]. destruct (IH Hl). auto.
Qed.

Lemma labels_by_key_Some labels l : NoDup (label_key <$> labels) → l ∈ labels → labels_by_key labels !! label_key l = Some l.
Proof.
  induction labels as [|l' labels IH] using rev_ind; [by intros _ ?%not_elem_of_nil|].
  rewrite fmap_app, labels_by_key_snoc. intros (Hnd & Hd & _)%NoDup_app [Hin|Hin]%elem_of_app.
  - rewrite lookup_insert_ne; [auto|]. intros E. apply (Hd (label_key l)); [apply list_elem_of_fmap; eauto|]. rewrite <- E. by left.
  - apply list_elem_of_singleton in Hin as ->. by rewrite lookup_insert_eq.
Qed.

Lemma labels_by_key_is_Some labels l : l ∈ labels → is_Some (labels_by_key labels !! label_key l).
Proof.
  induction labels as [|l' labels IH] using rev_ind; [by intros ?%not_elem_of_nil|].
  rewrite labels_by_key_snoc. intros [Hin|Hin]%elem_of_app; apply lookup_insert_is_Some'; [auto|].
  apply list_elem_of_singleton in Hin as ->. auto.
Qed.

Lemma length_filter_split {A} (f : A → bool) (l : list A) :
  (length (filter (λ x, f x = true) l) + length (filter (λ x, f x = false) l) = length l)%nat.
Proof. induction l as [|x l IH]; [done|]. rewrite !filter_cons. repeat case_decide; cbn; try lia; destruct (f x); congruence. Qed.

(** With labels of different type and file, the score is the confusion matrix: the
    true positives are the findings that an expected label describes, all other findings
    are false positives, and the false negatives are the expected labels no finding has
    the type and file of. *)
Theorem score_counts findings labels : NoDup (label_key <$> labels) →
  let m := score findings labels in
  TP m = Z.of_nat (length (filter (λ f, Exists (λ l, Expect l = true ∧ label_key l = finding_key f) labels) findings)) ∧
  TP m + FP m = Z.of_nat (length findings) ∧
  FN m = Z.of_nat (length (filter (λ l, Expect l = true ∧ label_key l ∉ finding_key <$> findings) labels)).
Proof.
  intros Hnd. cbv zeta. destruct (score_by_keys findings labels) as (-> & -> & ->). set (m := labels_by_key labels).
  split_and!.
  - f_equal. induction findings as [|f fs IH]; [done|]. cbn [fmap list_fmap]. rewrite !filter_cons.
    assert (Hf : expected m (finding_key f) = true ↔ Exists (λ l, Expect l = true ∧ label_key l = finding_key f) labels).
    { unfold expected. rewrite Exists_exists. split.
      - destruct (m !! finding_key f) as [l|] eqn:E; [|done]. intros He. apply labels_by_key_elem in E as [Hin Hk]. eauto.
      - intros (l & Hin & He & <-). unfold m. by rewrite labels_by_key_Some. }
    do 2 case_decide; try (exfalso; tauto); cbn; by rewrite IH.
  - rewrite <- Nat2Z.inj_add, length_filter_split. by rewrite length_fmap.
  - do 2 f_equal. apply filter_ext_in. intros l Hl. rewrite elem_of_list_to_set, list_elem_of_filter.
    pose proof (labels_by_key_is_Some _ _ Hl) as Hs. unfold labelled, m. destruct Hs as [x ->]. naive_solver.
Qed.

(** *** The precision filter only takes findings away *)

Lemma missed_mono matched matched' labels fn fn' : matched' ⊆ matched → fn ≤ fn' →
  foldl (missed matched) fn labels ≤ foldl (missed matched') fn' labels.
Proof.
  intros Hm. revert fn fn'. induction labels as [|l labels IH]; intros fn fn' Hfn; [done|]. cbn. apply IH. unfold missed.
  destruct (negb (Expect l)); [done|]. repeat case_decide; try lia. exfalso. set_solver.
Qed.

Lemma sublist_filter_length {A} (P : A → Prop) `{!∀ x, Decision (P x)} (k l : list A) :
  k `sublist_of` l → (length (filter P k) ≤ length (filter P l))%nat.
Proof. induction 1 as [|x k l _ IH|x k l _ IH]; rewrite ?filter_cons; [done| |]; case_decide; cbn; lia. Qed.

(** Findings taken away lower both kinds of positives, and never find a label. *)
Lemma score_sublist kept raw labels : (finding_key <$> kept) `sublist_of` (finding_key <$> raw) →
  TP (score kept labels) ≤ TP (score raw labels) ∧ FP (score kept labels) ≤ FP (score raw labels) ∧
  FN (score raw labels) ≤ FN (score kept labels).
Proof.
  intros Hs. destruct (score_by_keys kept labels) as (-> & -> & _). destruct (score_by_keys raw labels) as (-> & -> & _).
  split_and!; [apply Nat2Z.inj_le; by apply sublist_filter_length..|].
  unfold score. rewrite !attribute_fold. cbn. apply missed_mono; [|done].
  assert (Hsub : ∀ k, k ∈ finding_key <$> kept → k ∈ finding_key <$> raw) by (intros k Hk; by eapply elem_of_sublist).
  intros k. rewrite !elem_of_union, !elem_of_list_to_set, !list_elem_of_filter. naive_solver.
Qed.

Section filter.
Context {E : RegexEngine} (ReplaceAllString : regexp → string → string → string).
Context (URLDecode RawURLDecode : string → option string) (json_keys : string → option (gset string)).
Context (Log2 : spec_float → spec_float) (map_order : gmap Z Z → list (Z * Z)).

#[local] Notation prec := (precise ReplaceAllString URLDecode RawURLDecode json_keys Log2 map_order).

Lemma precise_keys raw : (finding_key <$> prec raw) `sublist_of` (finding_key <$> raw).
Proof.
  unfold precise, ApplyPrecision. induction raw as [|s raw IH]; [done|]. cbn. unfold apply_one at 1.
  destruct (classifyPrecision _ _ _ _ _ _ s) as [[] sc]; cbn; [by constructor|by constructor 2..].
Qed.

Context `{JsonText} (patterns : option string → string → res PatternCache) (is_dir : string → bool) (pattern_file : res string)
  (rg : list string → list string * rg_exit) (max_filesize : string).

(** A report of the benchmark measures the precision filter: what is kept are
    findings that were there, so the filter can only lower the numbers of true and of
    false positives and never finds a label the raw findings missed; the drop it reports
    is the number of false positives taken away, and the numbers of findings are those
    of the two passes. *)
Theorem platform_report_sound env platform root labels rep :
  runPlatform ReplaceAllString URLDecode RawURLDecode json_keys Log2 map_order patterns is_dir pattern_file rg max_filesize
    env platform root labels = Ok rep →
  TP (After rep) ≤ TP (Before rep) ∧ FP (After rep) ≤ FP (Before rep) ∧ FN (Before rep) ≤ FN (After rep) ∧
  0 ≤ FalsePositiveDrop rep ∧ FP (Before rep) = FP (After rep) + FalsePositiveDrop rep ∧
  TP (Before rep) + FP (Before rep) = RawFindings rep ∧ TP (After rep) + FP (After rep) = KeptFindings rep ∧
  0 ≤ KeptFindings rep ≤ RawFindings rep.
Proof.
  unfold runPlatform. destruct (raw_findings _ _ _ _ _ _ _ _) as [raw|e]; [|done]. intros [= <-]. unfold report_of. cbn.
  pose proof (precise_keys raw) as Hs. destruct (score_sublist _ _ (labelsForPlatform labels platform) Hs) as (H1 & H2 & H3).
  assert (Hsum : ∀ fs ls, TP (score fs ls) + FP (score fs ls) = Z.of_nat (length fs)).
  { intros fs ls. destruct (score_by_keys fs ls) as (-> & -> & _). rewrite <- Nat2Z.inj_add, length_filter_split. by rewrite length_fmap. }
  rewrite !Hsum. apply sublist_length in Hs. rewrite !length_fmap in Hs. split_and!; lia.
Qed.

Context (MkdirTemp : string → res string) (outcome : fsop → option error) (OpenReader : string → res (list zip_file)).
Context (DecodeString : string → option string) (range : list (string * string)) (embedded : string → res string)
  (walk : string → list (string * option (res string))).

#[local] Notation platforms := (run_platforms ReplaceAllString URLDecode RawURLDecode json_keys Log2 map_order patterns is_dir
  pattern_file rg max_filesize MkdirTemp outcome OpenReader).

Lemma run_platforms_env corpusDir labels plats b : b_env (platforms corpusDir labels plats b).2 = b_env b.
Proof.
  revert b. induction plats as [|plat plats IH]; intros b; [done|]. cbn [run_platforms].
  set (r := if decide _ then _ else _). assert (Hr : b_env r.2 = b_env b).
  { unfold r, runIPAContainerCase. case_decide; [|done]. by destruct (MkdirTemp _). }
  destruct r as [[rep|e] b']; cbn in Hr |- *; [|done]. specialize (IH b'). destruct (platforms _ _ _ b') as [[reps|e] b'']; cbn in *; congruence.
Qed.

(** The benchmark leaves the process as it was: however it ends, the variable that
    points to the patterns has its old value again, and is unset if it was. *)
Theorem environment_restored no_rg setenv_error b :
  b_env (RunBenchmark ReplaceAllString URLDecode RawURLDecode json_keys Log2 map_order patterns is_dir pattern_file rg max_filesize
           MkdirTemp outcome OpenReader DecodeString range embedded walk no_rg setenv_error b).2 = b_env b.
Proof.
  unfold RunBenchmark. destruct no_rg; [done|].
  assert (Hx : b_env (extractCorpus MkdirTemp outcome DecodeString range walk b).2 = b_env b).
  { unfold extractCorpus. destruct (MkdirTemp _) as [base|]; [|done]. by repeat case_match. }
  destruct (extractCorpus _ _ _ _ _ b) as [[[[corpusDir patternsDir] base]|e] b']; cbn in Hx; [|done].
  destruct setenv_error; [done|]. destruct (loadLabels embedded) as [labels|e]; [|done]. by destruct (platforms _ _ _ _) as [out b''].
Qed.
End filter.

(** ** The archive reader of the benchmark is the one of the scanner *)

(** The benchmark unpacks an archive as the iOS pipeline does: whatever the archive
    holds and whichever operations fail, the same directories are made and the same files
    written in the same order, and one fails exactly when the other does. *)
Theorem unzip_mirrors_production outcome OpenZip src dst :
  (unzipIPA outcome OpenZip src dst).2 = (unzipTo outcome OpenZip src dst).2 ∧
  ((unzipIPA outcome OpenZip src dst).1 = None ↔ (unzipTo outcome OpenZip src dst).1 = None).
Proof.
  unfold unzipIPA, unzipTo. destruct (OpenZip src) as [fs|e]; [|by cbn]. generalize (Clean dst) as root. intros root.
  induction fs as [|f fs [IH1 IH2]]; [done|]. cbn [unzip_files unzip_entries]. unfold unzip_entry.
  change writeEntry with writeZipEntry.
  destruct (_ || _); [done|]. destruct (_ && _); [done|].
  set (r := if zf_IsDir f then _ else _). destruct r as [[e|] ops]; [done|].
  destruct (unzip_files outcome root fs) as [err ops1]. destruct (unzip_entries outcome root fs) as [err' ops2]. cbn in *.
  by rewrite IH1.
Qed.

(** ** Instances *)

Definition sample_labels : list GroundTruth :=
  [mk_truth "ios" "JWT" "Info.plist" true "keep"; mk_truth "ios" "Key" "a.bin" true ""; mk_truth "ios" "Key" "b.bin" false ""].
Definition found (type file value tier : string) : SecretModel := mk_secret type 1 file type value "high" (S754_zero false) tier "" "".

Example score_of_sample :
  let m := score [found "JWT" "x/Info.plist" "v" "info"; found "Key" "y/b.bin" "w" ""; found "Other" "a.bin" "z" ""] sample_labels in
  (TP m, FP m, FN m) = (1, 2, 1).
Proof. by vm_compute. Qed.

Example mismatch_of_sample :
  tierMismatches [found "JWT" "x/Info.plist" "v" "info"] sample_labels = ["JWT (Info.plist): got tier " +:+ Quote "info" +:+ ", want " +:+ Quote "keep"].
Proof. by vm_compute. Qed.

(** Recall divides findings by labels: two values found for one of two labels count as
    two thirds. *)
Example recall_counts_findings :
  let m := score [found "JWT" "Info.plist" "v" ""; found "JWT" "Info.plist" "w" ""] sample_labels in
  (TP m, FN m) = (2, 1) ∧ m_Recall m = ratio 2 3.
Proof. by vm_compute. Qed.

Lemma score_counts_witness :
  FN (score [found "JWT" "x/Info.plist" "v" ""] sample_labels) = 1.
Proof.
  rewrite (proj2 (proj2 (score_counts [found "JWT" "x/Info.plist" "v" ""] sample_labels
    ltac:(apply (bool_decide_unpack _); vm_compute; exact I)))). vm_compute. reflexivity.
Defined.

Example no_reports : formatTiers ∅ = "{}" ∧ formatTiers {["keep" := 2]} = "{keep:2}" ∧ ruler 3 = "---".
Proof. by vm_compute. Qed.
