(* ===== verification/Router.v ===== *)
(** * The HTTP interface, reading side ([router/routers.go], [router/bodylimit.go])

    The handlers of the result, comparison, export, job, dead-letter, probe and pattern
    routes.  A handler takes what the framework decoded from the request and gives the
    response; logging and metrics are left out.  JSON codecs, the database connection and
    the tools the probe runs are parameters. *)
From Stdlib Require Import Ascii.
From S2P Require Import Prelude GoStr GoErr GoFloat GoTime GoJson GoPath Config Breaker ScanJob Redis Wp Queue JobLife Worker Cache Detect Crypto Sbom Report Export Compare Storage Patterns.

Local Open Scope Z_scope.

(** ** Responses *)

(** The values of a response object; [HRaw] is a [json.RawMessage]. *)
Inductive hval :=
  | HStr (s : string) | HInt (z : Z) | HBool (b : bool) | HRaw (text : string)
  | HTime (t : option gotime) | HPattern (p : Pattern)
  | HList (l : list hval) | HMap (m : list (string * hval)).

Definition H : Type := list (string * hval).

Inductive payload :=
  | PJSON (m : H)
  | PComparison (c : ComparisonResult)
  | PData (contentType data : string).

Record response := mk_response { status : Z; headers : list (string * string); body : payload }.

Definition json (code : Z) (m : H) : response := mk_response code [] (PJSON m).
Definition failure (code : Z) (msg : string) : response := json code [("error", HStr msg)].

(** ** Limits *)

Definition maxUploadSize : Z := 500 * 2 ^ 20.
Definition maxBulkUploadSize : Z := 2 * 2 ^ 30.
Definition maxDLQPageSize : Z := 100.
Definition defaultMaxBodyBytes : Z := 5 * 2 ^ 20.

Definition queueDepthThreshold (LookupEnv : string → option string) : Z :=
  Int LookupEnv "MORF_QUEUE_DEPTH_THRESHOLD" 1000.

Definition maxBodyBytes (LookupEnv : string → option string) : Z :=
  let n := Int LookupEnv "MORF_MAX_BODY_BYTES" defaultMaxBodyBytes in
  if n <=? 0 then defaultMaxBodyBytes else n.

(** What [http.MaxBytesReader] lets through, and whether it then fails. *)
Definition MaxBytesReader (limit : Z) (content : string) : string * bool :=
  if limit <? len content then (take_str (Z.to_nat limit) content, true) else (content, false).

(** A request body with its declared length. *)
Record request := mk_request { ContentLength : Z; Body : string }.

(** The middleware: rejected up front, or handled with a limited body. *)
Definition MaxBodyBytesMiddleware {A} (limit : Z) (next : string * bool → A → response * A) (r : request) (s : A)
    : response * A :=
  if limit <? ContentLength r
  then (json 413 [("error", HStr "request body too large"); ("max_size", HInt limit); ("size", HInt (ContentLength r))], s)
  else next (MaxBytesReader limit (Body r)) s.

(** [strconv.Atoi] with its error dropped: the nearest bound for a number out of range. *)
Definition Atoi_value (s : string) : Z :=
  match Atoi s with
  | Some n => n
  | None => match scan_signed s with
            | Some (n, EmptyString) => if 0 <? n then int64_max else int64_min
            | _ => 0
            end
  end.

(** ** The database connection *)

Record dbconn := mk_conn {
  DatabaseConfigured : bool; DatabaseRequired : bool;
  GormDB : option (option error * option error) (** the errors of [DB()] and of [Ping()] *) }.

Definition checkDatabaseStatus (d : dbconn) : option error :=
  if negb (DatabaseRequired d)
  then Some (ENew "database operations are disabled - please check DATABASE_URL environment variable")
  else match GormDB d with
  | None => Some (ENew "database connection is not initialized - please check your database configuration")
  | Some (Some e, _) => Some (ENew ("failed to get database instance: " +:+ Error e))
  | Some (None, Some e) => Some (ENew ("database connection lost: " +:+ Error e))
  | Some (None, None) => None
  end.

(** ** The external tools *)

Record tools_health := mk_tools { t_status : string; t_checks : list (string * string) }.

(** The memoized result with the time it was taken. *)
Definition tools_cache : Type := option (tools_health * Z).
Definition toolsHealthTTL : Z := seconds 60.

(** [run] is [utils.ExecuteCommandWithTimeout(5s, ...)]. *)
Definition probe_tools {W} (run : list string → W → option error * W) (MORF_TOOLS_DIR : string) (w : W) : tools_health * W :=
  let toolsDir := if decide (MORF_TOOLS_DIR = "") then "/app/tools" else MORF_TOOLS_DIR in
  let check := λ (st : tools_health * W) (c : string * list string),
    let '(h, w) := st in
    let '(err, w) := run c.2 w in
    match err with
    | Some e => (mk_tools "degraded" (t_checks h ++ [(c.1, "unavailable: " +:+ Error e)]), w)
    | None => (mk_tools (t_status h) (t_checks h ++ [(c.1, "available")]), w)
    end in
  foldl check (mk_tools "healthy" [], w)
    [("java", ["java"; "-version"]);
     ("apktool", ["java"; "-jar"; GoPath.Join toolsDir "apktool.jar"; "--version"]);
     ("aapt", ["aapt"; "version"]);
     ("ripgrep", ["rg"; "--version"])].

(** The result, whether it is the memoized one, and its age then. *)
Definition checkExternalToolsHealth {W} (run : list string → W → option error * W) (MORF_TOOLS_DIR : string)
    (now : Z) (cache : tools_cache) (w : W) : tools_health * option Z * tools_cache * W :=
  let probe := let '(h, w) := probe_tools run MORF_TOOLS_DIR w in (h, None, Some (h, now), w) in
  match cache with
  | Some (h, at_) => if now - at_ <? toolsHealthTTL then (h, Some (now - at_), cache, w) else probe
  | None => probe
  end.

(** ** Reading results *)

(** What the handlers use of the program's surroundings. *)
Class Codecs := {
  Getenv : string → string;
  (** [report.MaskResultJSON] and [report.MaskComparisonJSON]: decoding and encoding of an object. *)
  mask_Unmarshal : string → res (option object);
  mask_Marshal : option object → res string;
  (** The envelope of the SARIF branch: file name, package name, findings of both kinds. *)
  Unmarshal_sarif : string → res (string * string * list SecretModel * list PlatformFinding);
  MarshalIndent_sarif : sarifLog → res string;
  (** The other export formats. *)
  MarshalIndent_any : GoJson.json → res string;
  Unmarshal_any : string → res GoJson.json;
  Unmarshal_export : string → res scanResultData;
  tool_version : string;
  (** The comparison. *)
  Unmarshal_object : string → res object;
  Marshal_comparison : ComparisonResult → res string }.

Section handlers.
Context `{S : RedisServer} {codec : MapCodec} {C : Codecs}.
(** [queue.GetQueue() != nil] *)
Context (have_queue : bool).

Definition MaskResult (raw : string) : res string := MaskResultJSON mask_Unmarshal mask_Marshal raw.
Definition MaskComparison (raw : string) : res string := MaskComparisonJSON mask_Unmarshal mask_Marshal raw.

(** [MORF_MASK_RESULTS=false] *)
Definition masking_off : bool := bool_decide (Getenv "MORF_MASK_RESULTS" = "false").

(** A handler that needs the queue. *)
Definition with_queue (f : world → response * world) (w : world) : response * world :=
  if negb have_queue then (failure 503 "Job queue not initialized", w) else f w.

Definition in_progress (job : ScanJob) : bool :=
  bool_decide (Status job = JobStatusQueued) || bool_decide (Status job = JobStatusProcessing).

Definition result_fields (job : ScanJob) : H :=
  [("job_id", HStr (ID job)); ("status", HStr (Status job)); ("created_at", HStr (Format (CreatedAt job)))] ++
  match StartedAt job with Some t => [("started_at", HStr (Format t))] | None => [] end ++
  match CompletedAt job with Some t => [("completed_at", HStr (Format t))] | None => [] end ++
  match FailedAt job with Some t => [("failed_at", HStr (Format t)); ("error", HStr (JobError job))] | None => [] end ++
  (if in_progress job && nonempty (Phase job) then [("phase", HStr (Phase job))] else []) ++
  (if bool_decide (Status job = JobStatusCompleted) && nonempty (Result job) then
     if masking_off then [("result", HRaw (Result job))]
     else match MaskResult (Result job) with
          | Ok masked => [("result", HRaw masked)]
          | Err _ => [("result_error", HStr "result unavailable (masking failed)")]
          end
   else []).

Definition result_status (job : ScanJob) : Z :=
  if in_progress job then 202 else if decide (Status job = JobStatusFailed) then 500 else 200.

(** [GET /results/:jobID] *)
Definition get_results (jobID : string) : world → response * world := with_queue (λ w,
  match GetJob jobID w with
  | (Err _, w) => (failure 404 "Job not found", w)
  | (Ok job, w) => (json (result_status job) (result_fields job), w)
  end).

Definition attachment (jobID ext : string) : list (string * string) :=
  [("Content-Disposition", "attachment; filename=morf-scan-" +:+ jobID +:+ "." +:+ ext)].

Definition export_sarif (jobID : string) (job : ScanJob) : response :=
  match (if decide (Result job = "") then Err (ENew "") else Unmarshal_sarif (Result job)) with
  | Err _ => failure 400 "Job is not completed yet"
  | Ok (fileName, packageName, secrets, platformFindings) =>
      let target := if decide (packageName = "") then fileName else packageName in
      let target := if decide (target = "") then OriginalFilename job else target in
      let platform := if EqualFold (FileType job) "ipa" then "ios" else "android" in
      match EncodeSARIFWithFindings MarshalIndent_sarif target platform secrets platformFindings with
      | Err e => failure 500 ("Failed to export: " +:+ Error e)
      | Ok data => mk_response 200 (attachment jobID "sarif") (PData "application/sarif+json" data)
      end
  end.

Definition with_result (job : ScanJob) (result : string) : ScanJob :=
  mk_job (ID job) (Status job) (APKPath job) (FileType job) (OriginalFilename job) (CreatedAt job)
    (StartedAt job) (CompletedAt job) (FailedAt job) (JobError job) (Phase job) result (WorkerID job)
    (RetryCount job) (WebhookURL job) (WebhookSecret job) (ScanTimeout job) (StorageKey job)
    (RequestID job) (TraceContext job).

Definition export_other (jobID format : string) (now : gotime) (job : ScanJob) : response :=
  let exportJob :=
    if negb masking_off && nonempty (Result job)
    then masked ← MaskResult (Result job); Ok (with_result job masked) else Ok job in
  match exportJob with
  | Err _ => failure 500 "result unavailable (masking failed)"
  | Ok exportJob =>
      match ExportResult MarshalIndent_any Unmarshal_any Unmarshal_export tool_version now exportJob format with
      | Err e => failure 500 ("Failed to export: " +:+ Error e)
      | Ok (data, contentType) => mk_response 200 (attachment jobID format) (PData contentType data)
      end
  end.

(** [GET /results/:jobID/export] *)
Definition get_export (jobID format : string) : world → response * world := with_queue (λ w,
  match GetJob jobID w with
  | (Err _, w) => (failure 404 "Job not found", w)
  | (Ok job, w) =>
      (if decide (Status job ≠ JobStatusCompleted) then failure 400 "Job is not completed yet"
       else if decide (format = "sarif") then export_sarif jobID job
       else export_other jobID format (time_Now w) job, w)
  end).

Definition compare_response (job1 job2 : ScanJob) : response :=
  let unavailable := json 500 [("result_error", HStr "result unavailable (masking failed)")] in
  match CompareScans Unmarshal_object (ID job1, Result job1) (ID job2, Result job2) with
  | Err e => failure 500 ("Failed to compare: " +:+ Error e)
  | Ok comparison =>
      if masking_off then mk_response 200 [] (PComparison comparison)
      else
        match Marshal_comparison comparison with
        | Err _ => unavailable
        | Ok raw =>
            match MaskComparison raw with
            | Err _ => unavailable
            | Ok masked => mk_response 200 [] (PData "application/json; charset=utf-8" masked)
            end
        end
  end.

(** [GET /compare/:jobID1/:jobID2] *)
Definition get_compare (jobID1 jobID2 : string) : world → response * world := with_queue (λ w,
  match GetJob jobID1 w with
  | (Err _, w) => (failure 404 ("Job " +:+ jobID1 +:+ " not found"), w)
  | (Ok job1, w) =>
      match GetJob jobID2 w with
      | (Err _, w) => (failure 404 ("Job " +:+ jobID2 +:+ " not found"), w)
      | (Ok job2, w) =>
          (if decide (Status job1 ≠ JobStatusCompleted ∨ Status job2 ≠ JobStatusCompleted)
           then failure 400 "Both jobs must be completed to compare"
           else compare_response job1 job2, w)
      end
  end).

(** ** Jobs and dead letters *)

(** [POST /jobs/:jobID/cancel] *)
Definition post_cancel (jobID : string) : world → response * world := with_queue (λ w,
  match CancelJob jobID w with
  | (Err e, w) => (failure 400 (Error e), w)
  | (Ok _, w) => (json 200 [("message", HStr "Job cancelled successfully"); ("job_id", HStr jobID)], w)
  end).

(** One entry of a dead-letter page. *)
Definition dlq_entry (job : ScanJob) : hval :=
  HMap [("job_id", HStr (ID job)); ("status", HStr (Status job)); ("error", HStr (JobError job));
        ("retry_count", HInt (RetryCount job)); ("failed_at", HTime (FailedAt job))].

Fixpoint dlq_entries (ids : list string) (w : world) : list hval * world :=
  match ids with
  | [] => ([], w)
  | id :: ids =>
      let '(r, w) := GetJob id w in
      let '(l, w) := dlq_entries ids w in
      (match r with Ok job => dlq_entry job :: l | Err _ => l end, w)
  end.

(** The page a request asks for. *)
Definition dlq_page (offset_q limit_q : string) : Z * Z :=
  let offset := Atoi_value offset_q in
  let offset := if offset <? 0 then 0 else offset in
  let limit := Atoi_value limit_q in
  let limit := if limit <=? 0 then 50 else limit in
  (offset, if maxDLQPageSize <? limit then maxDLQPageSize else limit).

(** [GET /dlq]; the query strings default to "0" and "50". *)
Definition get_dlq (offset_q limit_q : string) : world → response * world := with_queue (λ w,
  let '(offset, limit) := dlq_page offset_q limit_q in
  match GetDLQDepth w with
  | (Err _, w) => (failure 500 "Failed to get DLQ depth", w)
  | (Ok depth, w) =>
      match GetDLQJobsPage offset limit w with
      | (Err _, w) => (failure 500 "Failed to get DLQ jobs", w)
      | (Ok ids, w) =>
          let '(jobs, w) := dlq_entries ids w in
          (json 200 [("depth", HInt depth); ("offset", HInt offset); ("limit", HInt limit); ("jobs", HList jobs)], w)
      end
  end).

(** A query parameter that is used only when it is a number that satisfies [ok]. *)
Definition query_number (ok : Z → bool) (def : Z) (v : string) : Z :=
  match Atoi v with Some n => if ok n then n else def | None => def end.

(** [GET /webhook-dlq] *)
Definition get_webhook_dlq (offset_q limit_q : string) (w : world) : response * world :=
  if negb have_queue then (failure 503 "Queue not available", w) else
  let offset := query_number (λ n, 0 <=? n) 0 offset_q in
  let limit := query_number (λ n, (0 <? n) && (n <=? 500)) 50 limit_q in
  match GetWebhookDLQDepth w with
  | (Err e, w) => (failure 500 ("Failed to read webhook DLQ depth: " +:+ Error e), w)
  | (Ok depth, w) =>
      match GetWebhookDLQPage offset limit w with
      | (Err e, w) => (failure 500 ("Failed to read webhook DLQ: " +:+ Error e), w)
      | (Ok raw, w) =>
          (json 200 [("depth", HInt depth); ("offset", HInt offset); ("limit", HInt limit);
                     ("records", HList (HRaw <$> raw))], w)
      end
  end.

(** [POST /dlq/:jobID/retry] *)
Definition post_retry (jobID : string) : world → response * world := with_queue (λ w,
  match RetryDLQJob jobID w with
  | (Err e, w) => (failure 400 (Error e), w)
  | (Ok _, w) => (json 200 [("message", HStr "Job requeued successfully"); ("job_id", HStr jobID)], w)
  end).

(** ** Probes *)

(** The value of the "redis" field, whether Redis is usable, and the error shown. *)
Definition redis_probe (w : world) : string * bool * option string * world :=
  if negb have_queue then ("unavailable", false, None, w)
  else if IsBreakerOpen (w_reg w) "redis" then ("unhealthy", false, Some "circuit breaker open", w)
  else match GetQueueDepth w with
       | (Err e, w) => ("unhealthy", false, Some (Error e), w)
       | (Ok _, w) => ("healthy", true, None, w)
       end.

Definition opt_entry (k : string) (v : option string) : H :=
  match v with Some s => [(k, HStr s)] | None => [] end.

(** [GET /health]; [tools] is the result of [checkExternalToolsHealth]. *)
Definition get_health (d : dbconn) (tools : tools_health * option Z) (w : world) : response * world :=
  let now := w_now w / ns_per_sec in
  let db_err := Error <$> checkDatabaseStatus d in
  let '(redis, redis_ok, redis_err, w) := redis_probe w in
  let degraded := bool_decide (is_Some db_err) || negb redis_ok || negb (bool_decide (t_status tools.1 = "healthy")) in
  (json (if degraded then 503 else 200)
     ([("message", HStr "ok"); ("timestamp", HInt now);
       ("status", HStr (if degraded then "degraded" else "healthy"));
       ("database", HStr (if bool_decide (is_Some db_err) then "unhealthy" else "healthy"))] ++
      opt_entry "database_error" db_err ++
      [("redis", HStr redis)] ++ opt_entry "redis_error" redis_err ++
      [("tools", HMap ([("status", HStr (t_status tools.1)); ("checks", HMap (prod_map id HStr <$> t_checks tools.1));
                       ("ttl", HStr (Duration_String toolsHealthTTL));
                       ("cached", HBool (bool_decide (is_Some tools.2)))] ++
                      opt_entry "age" (Duration_String <$> tools.2)))]), w).

(** [GET /ready] *)
Definition get_ready (d : dbconn) (w : world) : response * world :=
  let '(redis, redis_ok, w) :=
    if negb have_queue then ("not initialized", false, w)
    else if IsBreakerOpen (w_reg w) "redis" then ("circuit breaker open", false, w)
    else match GetQueueDepth w with
         | (Err _, w) => ("unhealthy", false, w)
         | (Ok _, w) => ("ready", true, w)
         end in
  let db_err := if DatabaseConfigured d then checkDatabaseStatus d else None in
  let checks := [("redis", HStr redis)] ++
    (if DatabaseConfigured d
     then [("database", HStr (match db_err with Some e => "unhealthy: " +:+ Error e | None => "ready" end))] else []) in
  let ready := redis_ok && negb (bool_decide (is_Some (Error <$> db_err))) in
  (if ready then json 200 [("status", HStr "ready"); ("checks", HMap checks)]
   else json 503 [("status", HStr "not ready"); ("checks", HMap checks)], w).

(** [GET /live] *)
Definition get_live (w : world) : response :=
  json 200 [("status", HStr "alive"); ("timestamp", HInt (w_now w / ns_per_sec))].

End handlers.

(** ** Pattern routes *)

Section pattern_routes.
Context `{S : RedisServer} {F : AppFS} {E : RegexEngine} (Getenv : string → string) (wd : res string).
Context (Unmarshal : string → res (list file_entry)) (Marshal : list Pattern → res string).

#[local] Notation reply := (store → response * store).

Definition HPatterns (l : list Pattern) : hval := HList (HPattern <$> l).

(** [GET /patterns] *)
Definition get_patterns : reply := λ s,
  match ListPatternFiles Getenv Unmarshal s with
  | (Err e, s) => (failure 500 ("Failed to list patterns: " +:+ Error e), s)
  | (Ok patternFiles, s) =>
      (json 200 [("files", HList ((λ f, HMap [("filename", HStr (pf_Filename f)); ("patterns", HPatterns (pf_Patterns f))]) <$> patternFiles));
                 ("total", HInt (foldl (λ n f, n + Z.of_nat (length (pf_Patterns f))) 0 patternFiles))], s)
  end.

(** [GET /patterns/:filename] *)
Definition get_pattern_file (filename : string) : reply := λ s,
  match LoadPatternsByFilename Getenv wd Unmarshal filename s with
  | (Err e, s) => (failure 404 ("Pattern file not found: " +:+ Error e), s)
  | (Ok patterns, s) => (json 200 [("filename", HStr filename); ("patterns", HPatterns patterns)], s)
  end.

(** A route with a JSON body: [bind] is [ShouldBindJSON]. *)
Definition with_json {A} (bind : string * bool → res A) (f : A → reply) (content : string * bool) : reply := λ s,
  match bind content with
  | Err e => (failure 400 ("Invalid request: " +:+ Error e), s)
  | Ok a => f a s
  end.

(** [POST /patterns/:filename/test] with a pattern name and a sample *)
Definition post_test (filename : string) (body : string * string) : reply := λ s,
  let '(patternName, sampleText) := body in
  match LoadPatternsByFilename Getenv wd Unmarshal filename s with
  | (Err e, s) => (failure 404 ("Pattern file not found: " +:+ Error e), s)
  | (Ok patterns, s) =>
      (match find (λ p, bool_decide (pt_Name p = patternName)) patterns with
       | None => failure 404 ("Pattern '" +:+ patternName +:+ "' not found")
       | Some pattern =>
           match TestPattern pattern sampleText with
           | Err e => failure 400 ("Failed to test pattern: " +:+ Error e)
           | Ok (matched, matches) =>
               json 200 [("matched", HBool matched); ("matches", HList (HStr <$> matches));
                         ("count", HInt (Z.of_nat (length matches)))]
           end
       end, s)
  end.

(** A mutation followed by the invalidation of the metadata cache, whose failure is only
    logged. *)
Definition mutation (code : Z) (what done_ : string) (m : St unit) : reply := λ s,
  match m s with
  | (Err e, s) => (failure 400 ("Failed to " +:+ what +:+ ": " +:+ Error e), s)
  | (Ok _, s) => let '(_, s) := invalidate s in (json code [("message", HStr done_)], s)
  end.

(** [POST /patterns/:filename] *)
Definition post_pattern_file (filename : string) (patterns : list Pattern) : reply :=
  mutation 200 "update pattern file" "Pattern file updated successfully"
    (UpdatePatternFile Getenv wd Marshal filename patterns).

(** [PUT /patterns/:filename/patterns]; the save has invalidated the cache already. *)
Definition put_pattern (filename : string) (pattern : Pattern) : reply := λ s,
  match AddPatternToFile Getenv wd Unmarshal Marshal filename pattern s with
  | (Err e, s) => (failure 400 ("Failed to add pattern: " +:+ Error e), s)
  | (Ok _, s) => (json 200 [("message", HStr "Pattern added successfully")], s)
  end.

(** [PATCH /patterns/:filename/patterns/:patternName] *)
Definition patch_pattern (filename patternName : string) (pattern : Pattern) : reply :=
  mutation 200 "update pattern" "Pattern updated successfully"
    (UpdatePatternInFile Getenv wd Unmarshal Marshal filename patternName pattern).

(** [DELETE /patterns/:filename/patterns/:patternName] *)
Definition delete_pattern (filename patternName : string) : reply :=
  mutation 200 "delete pattern" "Pattern deleted successfully"
    (DeletePatternFromFile Getenv wd Unmarshal Marshal filename patternName).

(** [PATCH /patterns/:filename/patterns/:patternName/enable] *)
Definition patch_enable (filename patternName : string) (enabled : bool) : reply :=
  mutation 200 "enable/disable pattern" "Pattern status updated successfully"
    (EnableDisablePattern Getenv wd Unmarshal Marshal filename patternName enabled).

(** [POST /patterns] *)
Definition post_patterns (body : string * list Pattern) : reply :=
  mutation 201 "create pattern file" "Pattern file created successfully"
    (CreatePatternFile Getenv wd Marshal body.1 body.2).

(** [DELETE /patterns/:filename] *)
Definition delete_pattern_file (filename : string) : reply :=
  mutation 200 "delete pattern file" "Pattern file deleted successfully"
    (DeletePatternFile Getenv wd filename).

End pattern_routes.

(** ** Secrets do not leave through the reading routes *)

Section confidentiality.
Context `{S : RedisServer} {codec : MapCodec} {C : Codecs}.
Implicit Types w : world.

(** The finding a caller may learn: its value only through the mask. *)
Definition masked_secret (s : SecretModel) : SecretModel :=
  mk_secret (Type_ s) (LineNo s) (FileLocation s) (SecretType s) (maskSecret (SecretString s))
    (SecretConfidence s) (Score s) (Tier s) (VerificationStatus s) (MASVSID s).

(** What the SARIF branch decodes, up to the values. *)
Definition sarif_view (raw : string) : option (string * string * list SecretModel * list PlatformFinding) :=
  match Unmarshal_sarif raw with
  | Ok (fileName, packageName, secrets, pfs) => Some (fileName, packageName, masked_secret <$> secrets, pfs)
  | Err _ => None
  end.

(** Two stored results no caller can tell apart: the masked texts are the same, and so are
    the findings up to their masked values. *)
Definition alike (a b : string) : Prop :=
  nonempty a = nonempty b ∧
  match MaskResult a, MaskResult b with
  | Ok x, Ok y => x = y
  | Err _, Err _ => True
  | _, _ => False
  end ∧ sarif_view a = sarif_view b.

Lemma emit_map {A} (entry_of : A → entry) (result_of : A → result) (f : A → A) l st :
  (∀ a, entry_of (f a) = entry_of a) → (∀ a, result_of a = result_of (f a)) →
  foldl (emit entry_of result_of) st (f <$> l) = foldl (emit entry_of result_of) st l.
Proof.
  intros He Hr. revert st. induction l as [|a l IH]; intros st; [done|]. cbn. rewrite IH. f_equal.
  unfold emit. destruct st as [[r i] rs]. by rewrite He, <- Hr.
Qed.

(** The document masks what it is given, so it shows the masks of the values only. *)
Lemma sarif_masked target platform l l' pfs :
  masked_secret <$> l = masked_secret <$> l' → sarif_doc target platform l pfs = sarif_doc target platform l' pfs.
Proof.
  intros Hl. unfold sarif_doc.
  assert (H : ∀ l, foldl (emit secret_entry secret_result) ([], ∅, []) l =
    foldl (λ st s, emit secret_entry (λ s, mk_result (SecretType s) (levelForTier (Tier s))
      (SecretType s +:+ " (masked: " +:+ SecretString s +:+ ")") (FileLocation s) (Some (LineNo s))
      (props (secret_result s))) st s) ([], ∅, []) (masked_secret <$> l)).
  { clear. intros l. generalize (([], ∅, []) : state) as st. induction l as [|a l IH]; intros st; [done|].
    cbn [foldl fmap list_fmap]. rewrite IH. reflexivity. }
  by rewrite (H l), (H l'), Hl.
Qed.

Lemma with_result_result job r : Result (with_result job r) = r.
Proof. done. Qed.

Lemma result_fields_alike job r : masking_off = false → alike (Result job) r →
  result_fields (with_result job r) = result_fields job.
Proof.
  intros Hm (Hn & Hk & _). unfold result_fields. rewrite Hm. cbn [ID Status CreatedAt StartedAt CompletedAt FailedAt JobError Phase Result with_result].
  rewrite <- Hn. repeat f_equal. unfold in_progress. cbn. destruct (_ && _); [|done]. by destruct (MaskResult (Result job)), (MaskResult r); subst.
Qed.

Lemma export_alike jobID format now job r : masking_off = false → alike (Result job) r →
  export_sarif jobID (with_result job r) = export_sarif jobID job ∧
  export_other jobID format now (with_result job r) = export_other jobID format now job.
Proof.
  intros Hm (Hn & Hk & Hv). split.
  - unfold export_sarif, EncodeSARIFWithFindings, sarif_view, nonempty in *. cbn [OriginalFilename FileType Result with_result].
    destruct (decide (Result job = "")), (decide (r = "")); [done|by repeat case_bool_decide..|].
    destruct (Unmarshal_sarif (Result job)) as [[[[f p] l] pfs]|], (Unmarshal_sarif r) as [[[[f' p'] l'] pfs']|]; simplify_eq; [|done].
    cbv zeta. by erewrite sarif_masked.
  - unfold export_other. rewrite Hm. cbn [Result with_result negb andb]. rewrite <- Hn.
    destruct (nonempty (Result job)) eqn:E.
    + destruct (MaskResult (Result job)), (MaskResult r); subst; done.
    + rewrite Hn in E. unfold nonempty in *. repeat case_bool_decide; try done. f_equal. destruct job. cbn in *. by subst.
Qed.

(** The clock is not the connection's. *)
Lemma command_clock c w : time_Now (command c w).2 = time_Now w.
Proof. unfold command, roundtrip. destruct (next_fault w); cbn; by destruct (exec c (w_db w)). Qed.

Lemma GetJob_clock jobID w : time_Now (GetJob jobID w).2 = time_Now w.
Proof.
  unfold GetJob, mbind, M_bind, errorf.
  assert (Hr : time_Now (redisDo (command (HGETALL (jobKey jobID))) w).2 = time_Now w).
  { destruct (redisDo_spec (command (HGETALL (jobKey jobID))) w) as [[reg ->]|[reg ->]]; [done|].
    cbn. rewrite <- (command_clock (HGETALL (jobKey jobID)) w). done. }
  destruct (redisDo _ w) as [[p|e] w1]; cbn in *; [|done]. destruct p; try done. by case_decide.
Qed.


End confidentiality.

(** ** Comparisons, dead letters and readiness *)

Section pages.
Context `{S : RedisServer} `{!RedisLaws S} {codec : MapCodec} {C : Codecs}.
Implicit Types w : world.

(** With masking on, the only data a comparison gives back is an object whose three lists
    hold masked values, every other position being the comparison's. *)
Lemma comparison_masked job1 job2 ct data : masking_off = false →
  body (compare_response job1 job2) = PData ct data →
  ∃ cmp raw env, CompareScans Unmarshal_object (ID job1, Result job1) (ID job2, Result job2) = Ok cmp ∧
    Marshal_comparison cmp = Ok raw ∧ mask_Unmarshal raw = Ok env ∧ mask_Marshal (mask_comparison <$> env) = Ok data ∧
    ∀ e p, env = Some e → node_at (JObject (mask_comparison e)) p = masked_node (comparison_secret p) <$> node_at (JObject e) p.
Proof.
  intros Hm. unfold compare_response. rewrite Hm. destruct (CompareScans _ _ _) as [cmp|]; [|done].
  destruct (Marshal_comparison cmp) as [raw|] eqn:Er; [|done]. unfold MaskComparison, MaskComparisonJSON.
  destruct (mask_Unmarshal raw) as [env|] eqn:Eu; [|done].
  destruct (mask_Marshal (mask_comparison <$> env)) as [masked|] eqn:Em; [|done]. intros [= _ <-].
  exists cmp, raw, env. split_and!; try done. intros e p _. apply masks_comparison.
Qed.

(** How many round trips a computation made. *)
Definition trips (n : nat) (w w' : world) : Prop := ∃ k, (k ≤ n)%nat ∧ w_net w' = drop k (w_net w).

Lemma trips_trans a b w w1 w2 : trips a w w1 → trips b w1 w2 → trips (a + b) w w2.
Proof. intros (i & Hi & E) (j & Hj & E'). exists (i + j)%nat. split; [lia|]. by rewrite E', E, drop_drop. Qed.

Lemma trips_le a b w w' : (a ≤ b)%nat → trips a w w' → trips b w w'.
Proof. intros H (i & Hi & E). exists i. split; [lia|done]. Qed.

Lemma command_trips c w : trips 1 w (command c w).2.
Proof.
  exists 1%nat. split; [lia|]. unfold command, roundtrip.
  destruct (next_fault w); cbn; destruct (exec c (w_db w)); cbn; by destruct (w_net w).
Qed.

Lemma redisDo_command_trips c w : trips 1 w (redisDo (command c) w).2.
Proof.
  destruct (redisDo_spec (command c) w) as [[reg ->]|[reg ->]]; [exists 0%nat; split; [lia|done]|].
  exact (command_trips c w).
Qed.

Lemma GetJob_trips id w : trips 1 w (GetJob id w).2.
Proof.
  pose proof (redisDo_command_trips (HGETALL (jobKey id)) w) as H. unfold GetJob, mbind, M_bind, errorf.
  destruct (redisDo _ w) as [[p|e] w1]; cbn in *; [|done]. destruct p; try done. by case_decide.
Qed.

Lemma dlq_entries_trips ids w : trips (length ids) w (dlq_entries ids w).2 ∧
  (length (dlq_entries ids w).1 ≤ length ids)%nat.
Proof.
  revert w. induction ids as [|id ids IH]; intros w; cbn.
  - split; [|lia]. by exists 0%nat.
  - pose proof (GetJob_trips id w) as H. destruct (GetJob id w) as [r w1]. destruct (IH w1) as [Ht Hl].
    destruct (dlq_entries ids w1) as [l w2]. cbn in *. split; [|destruct r; cbn; lia].
    exact (trips_trans 1 _ w w1 w2 H Ht).
Qed.

(** A page is never longer than its limit, also when the sum of its bounds wraps around. *)
Lemma lrange_page l offset limit : 0 ≤ offset ≤ int64_max → 1 ≤ limit ≤ 100 → Z.of_nat (length l) < 2 ^ 62 →
  Z.of_nat (length (lrange l offset (wrap64 (offset + limit - 1)))) ≤ limit.
Proof.
  intros Ho Hl Hn. unfold lrange. cbv zeta. rewrite (proj2 (Z.ltb_ge offset 0)) by lia. rewrite Z.max_r by lia.
  set (n := Z.of_nat (length l)) in *. unfold int64_max in Ho.
  destruct (Z.le_gt_cases (offset + limit - 1) 9223372036854775807) as [Hs|Hs].
  - rewrite wrap64_id by (unfold in_int64, int64_min, int64_max; lia).
    rewrite (proj2 (Z.ltb_ge (offset + limit - 1) 0)) by lia.
    destruct (_ <? offset) eqn:E; cbn; [lia|]. rewrite length_take. lia.
  - assert (Hw : wrap64 (offset + limit - 1) = offset + limit - 1 - two64).
    { unfold wrap64, two64. Z.to_euclidean_division_equations. lia. }
    rewrite Hw. unfold two64. rewrite (proj2 (Z.ltb_lt _ 0)) by lia.
    rewrite (proj2 (Z.ltb_lt _ offset)) by lia. cbn. lia.
Qed.

Lemma scan_range s n : Atoi s = Some n → in_int64 n.
Proof.
  unfold Atoi. destruct (scan_signed s) as [[m [|]]|]; try done. destruct (fits_int64 m) eqn:E; [|done]. intros [= <-].
  unfold fits_int64 in E. unfold in_int64. lia.
Qed.

Lemma Atoi_value_range s : in_int64 (Atoi_value s).
Proof.
  unfold Atoi_value. destruct (Atoi s) eqn:E; [by eapply scan_range|].
  unfold in_int64, int64_min, int64_max. destruct (scan_signed s) as [[m [|]]|]; [case_match| |]; lia.
Qed.

Lemma dlq_page_range o l : let '(offset, limit) := dlq_page o l in 0 ≤ offset ≤ int64_max ∧ 1 ≤ limit ≤ 100.
Proof.
  unfold dlq_page, maxDLQPageSize. pose proof (Atoi_value_range o) as Ho. pose proof (Atoi_value_range l) as Hl.
  unfold in_int64, int64_min, int64_max in *. repeat case_match; lia.
Qed.

Lemma errorf_snd {A} p (m : M A) w : (errorf p m w).2 = (m w).2.
Proof. unfold errorf. by destruct (m w) as [[a|e] w']. Qed.

(** Reading a page: on a reply, no more ids than its limit. *)
Lemma GetDLQJobsPage_page offset limit w : 0 ≤ offset ≤ int64_max → 1 ≤ limit ≤ 100 →
  Z.of_nat (length (rlist (db w) dlqKey)) < 2 ^ 62 →
  trips 1 w (GetDLQJobsPage offset limit w).2 ∧
  ∀ ids, (GetDLQJobsPage offset limit w).1 = Ok ids → Z.of_nat (length ids) ≤ limit.
Proof.
  intros Ho Hl Hsmall. unfold GetDLQJobsPage. cbv zeta.
  rewrite (proj2 (Z.ltb_ge offset 0)), (proj2 (Z.leb_gt limit 0)) by lia. unfold mbind, M_bind.
  set (c := LRANGE dlqKey offset (wrap64 (offset + limit - 1))).
  pose proof (redisDo_command_trips c w) as Ht. destruct (redisDo (command c) w) as [[p|e] w1] eqn:E; cbn in *; [|done].
  split; [done|]. intros ids [= <-].
  destruct (redisDo_spec (command c) w) as [[reg E']|[reg E']]; rewrite E in E'; [done|]. injection E' as E1 _.
  unfold command, roundtrip in E1. pose proof (exec_reply c (w_db w)) as Hr.
  destruct (next_fault w); destruct (exec c (w_db w)) as [a r]; cbn in E1, Hr; try done. simplify_eq. cbn.
  by apply lrange_page.
Qed.

Lemma GetDLQDepth_read w : trips 1 w (GetDLQDepth w).2 ∧ db (GetDLQDepth w).2 = db w.
Proof.
  unfold GetDLQDepth, mbind, M_bind. pose proof (redisDo_command_trips (LLEN dlqKey) w) as Ht.
  assert (Hdb : db (redisDo (command (LLEN dlqKey)) w).2 = db w) by by apply redisDo_read, command_read.
  by destruct (redisDo _ w) as [[p|e] w1].
Qed.

(** A dead-letter listing is bounded, whatever the request asks for.  The offset is
    never negative and the limit between 1 and 100; the response lists no more jobs than
    that; and answering it takes at most 102 round trips to Redis, however long the list
    is and whatever the network does.  (A list holds fewer than 2^62 entries; the server's
    own limit is 2^32.) *)
Theorem dlq_listing_bounded (have_queue : bool) (offset_q limit_q : string) (w : world)
    (Hsmall : Z.of_nat (length (rlist (db w) dlqKey)) < 2 ^ 62) :
  trips 102 w (get_dlq have_queue offset_q limit_q w).2 ∧
  ∀ m, (get_dlq have_queue offset_q limit_q w).1 = json 200 m →
    ∃ depth offset limit jobs, m = [("depth", HInt depth); ("offset", HInt offset); ("limit", HInt limit); ("jobs", HList jobs)] ∧
      0 ≤ offset ∧ 1 ≤ limit ≤ 100 ∧ Z.of_nat (length jobs) ≤ limit.
Proof.
  unfold get_dlq, with_queue. destruct have_queue; cbn [negb]; [|split; [by exists 0%nat; split; [lia|]|by intros m [=]]].
  pose proof (dlq_page_range offset_q limit_q) as Hr. destruct (dlq_page offset_q limit_q) as [offset limit]. destruct Hr as [Ho Hl].
  destruct (GetDLQDepth_read w) as [Ht Hdb].
  destruct (GetDLQDepth w) as [[p|e] w1]; cbn [snd fst] in *; [|split; [by apply (trips_le 1); [lia|]|by intros m [=]]].
  rewrite <- Hdb in Hsmall. destruct (GetDLQJobsPage_page offset limit w1 Ho Hl Hsmall) as [Ht1 Hids].
  destruct (GetDLQJobsPage offset limit w1) as [[ids|e] w2]; cbn [snd fst] in *;
    [|split; [by apply (trips_le (1 + 1)); [lia|]; eapply trips_trans|done]].
  specialize (Hids ids eq_refl). destruct (dlq_entries_trips ids w2) as [Ht2 Hlen].
  destruct (dlq_entries ids w2) as [jobs w3]. cbn [snd fst] in *. split.
  - apply (trips_le (1 + 1 + length ids)); [lia|]. eapply trips_trans; [by eapply trips_trans|done].
  - intros m [= <-]. eexists _, offset, limit, jobs. split; [done|]. lia.
Qed.

(** A pod says it is ready exactly when Redis answers behind a closed breaker and the
    database, if one was configured, does too. *)
Lemma ready_iff have_queue d w :
  status (get_ready have_queue d w).1 = 200 ↔
  have_queue = true ∧ IsBreakerOpen (w_reg w) "redis" = false ∧ is_ok (GetQueueDepth w).1 = true ∧
  (DatabaseConfigured d = true → checkDatabaseStatus d = None).
Proof.
  unfold get_ready. destruct have_queue; cbn [negb]; [|cbn; split; [done|by intros [? _]]].
  destruct (IsBreakerOpen _ _); [cbn; split; [done|by intros (_ & ? & _)]|].
  destruct (GetQueueDepth w) as [[n|e] w1]; [|cbn; split; [done|by intros (_ & _ & ? & _)]].
  destruct (DatabaseConfigured d), (checkDatabaseStatus d) as [err|]; cbn; naive_solver.
Qed.

End pages.

(** ** Two results that differ in a secret *)

Definition value_of (env : option object) : string :=
  match env with
  | Some e => match get e "data" with
              | JObject d => match get d "secrets" with
                             | JArray [JObject s] => match get s "secretString" with JString v => v | _ => "" end
                             | _ => "" end
              | _ => "" end
  | None => ""
  end.

Definition envelope_of (v : string) : object :=
  [("data", JObject [("secrets", JArray [JObject [("secretString", JString v)]])])].

#[local] Instance sample_codecs : Codecs := {|
  Getenv _ := "";
  mask_Unmarshal raw := Ok (Some (envelope_of raw));
  mask_Marshal env := Ok (value_of env);
  Unmarshal_sarif raw := Ok ("a.apk", "com.a", [mk_secret "" 3 "R.java" "AWS" raw "" (S754_zero false) "" "" ""], []);
  MarshalIndent_sarif l := Ok (concat_str (message <$> log_results l));
  MarshalIndent_any _ := Err (ENew ""); Unmarshal_any _ := Err (ENew ""); Unmarshal_export _ := Err (ENew "");
  tool_version := "1"; Unmarshal_object _ := Err (ENew ""); Marshal_comparison _ := Err (ENew "") |}.

Definition scanned_world (r : string) : world :=
  mem_world (set_hash (jobKey "j1") (hash_of (with_result (job_with "completed") r)) empty_rdb) [] 0.

Definition scanned_job (r : string) : ScanJob :=
  read_hash (hash_of (with_result (job_with "completed") r)).


(** A dead-letter list of three ids, one of them without a record, asked for from an
    absurd offset and limit. *)
Definition dlq_world : world :=
  mem_world (set_list dlqKey ["j1"; "gone"; "j1"] (set_hash (jobKey "j1") (hash_of (job_with "failed")) empty_rdb)) [NetOk; NetOk] 0.

Lemma dlq_listing_bounded_witness :
  trips 102 dlq_world (get_dlq true "-4" "99999999999999999999" dlq_world).2 ∧
  ∃ jobs, (get_dlq true "-4" "99999999999999999999" dlq_world).1 =
    json 200 [("depth", HInt 3); ("offset", HInt 0); ("limit", HInt 100); ("jobs", HList jobs)] ∧ length jobs = 2%nat.
Proof.
  destruct (dlq_listing_bounded true "-4" "99999999999999999999" dlq_world) as [H1 _]; [by vm_compute|].
  split; [exact H1|]. eexists. split; [by vm_compute|done].
Defined.
