(* ===== verification/Notify.v ===== *)
(** * Slack and Jira ([utils/slack.go], [utils/database.go], [apk/analysis.go], the
    [/jira] and [/slackscan] routes)

    Downloading the package a message refers to, and reporting the secrets back in chunks.
    What a process does outside is a list of events; a panic ends it.  The clients of the
    two services, URL parsing, name resolution, the clock and the files are parameters. *)
From Stdlib Require Import ZArith Ascii.
From S2P Require Import Prelude Trace GoStr GoErr GoPath GoJson JsonText Redis Crypto Webhook Artifact Detect Badging Response Pipeline Router.

Local Open Scope Z_scope.

#[local] Notation response := Router.response.

(** ** Chunks *)

Definition nl : string := String (byte_of 10) "".
Definition backslash_ : string := String (byte_of 92) "".
Definition rule_line : string := "----------------" +:+ nl.
Definition entries_of (secrets : Secrets) : list SecretModel := s_SecretModel secrets.

(** One entry: it starts a new chunk when it does not fit. *)
Definition pack_step (limit : Z) (st : list string * string) (entry : string) : list string * string :=
  let '(messages, current) := st in
  if limit <? len current + len entry then (messages ++ [current], entry) else (messages, current +:+ entry).

Definition slack_header (secrets : Secrets) : string :=
  "APK Name: " +:+ s_FileName secrets +:+ nl +:+
  "App Version: " +:+ VersionName (s_PackageDataModel secrets) +:+ nl +:+
  "Package Name: " +:+ PackageName (s_PackageDataModel secrets) +:+ nl +:+
  "SHA1: " +:+ s_APKHash secrets +:+ nl +:+ nl +:+ "Secrets in APK: " +:+ nl +:+ rule_line +:+
  itoa (Z.of_nat (length (entries_of secrets))) +:+ " secrets found" +:+ nl +:+ rule_line.

Definition slack_entry (value : SecretModel) : string :=
  "Secret Type: " +:+ Type_ value +:+ nl +:+ "Secret Value: " +:+ SecretString value +:+ nl +:+
  "Secret Type: " +:+ SecretType value +:+ nl +:+ "Line No: " +:+ itoa (LineNo value) +:+ nl +:+
  "File Location: " +:+ FileLocation value +:+ nl +:+ rule_line.

Definition slackLimit : Z := 4000.

Definition parseSecretModel (secrets : Secrets) : list string :=
  let '(messages, current) := foldl (pack_step slackLimit) ([], slack_header secrets) (slack_entry <$> entries_of secrets) in
  if decide (current = "") then messages else messages ++ [current].

Definition jira_header (secrets : Secrets) : string :=
  "h2. MORF - Mobile Reconnisance Framework" +:+ nl +:+ "h4. APK Name: " +:+ s_FileName secrets +:+ nl +:+
  "h4. App Version: " +:+ VersionName (s_PackageDataModel secrets) +:+ nl +:+
  "h4. Package Name: " +:+ PackageName (s_PackageDataModel secrets) +:+ nl +:+
  "h4. SHA1: " +:+ s_APKHash secrets +:+ nl +:+ "h4. Secrets in APK:" +:+ nl +:+ rule_line +:+
  itoa (Z.of_nat (length (entries_of secrets))) +:+ " secrets found" +:+ nl +:+ rule_line.

Definition noformat : string := "{noformat}".

Definition jira_entry (value : SecretModel) : string :=
  noformat +:+ nl +:+ " === " +:+ Type_ value +:+ " ===" +:+ nl +:+ "Secret Value: " +:+ SecretString value +:+ nl +:+
  "Line No: " +:+ itoa (LineNo value) +:+ nl +:+ "File Location: " +:+ FileLocation value +:+ nl +:+ noformat.

Definition jiraLimit : Z := 32767.

Definition parseJiraMessage (secrets : Secrets) : list string :=
  let '(messages, current) := foldl (pack_step jiraLimit) ([], jira_header secrets) (jira_entry <$> entries_of secrets) in
  if decide (current = noformat) then messages else messages ++ [current].

(** ** Addresses *)

(** A domain, or a true subdomain of it. *)
Definition within_domain (host domain : string) : bool := bool_decide (host = domain) || HasSuffix host ("." +:+ domain).

Definition isAllowedSlackHost (host : string) : bool :=
  let h := ToLower host in
  within_domain h "slack.com" || within_domain h "slack-edge.com" || within_domain h "slack-files.com".

Definition isAllowedJiraHost (host : string) : bool := within_domain (ToLower host) "atlassian.net".

Definition isInternalSlackIP (ip : IP) : bool :=
  IsPrivate ip || IsLoopback ip || IsLinkLocalUnicast ip || IsLinkLocalMulticast ip || IsUnspecified ip.

(** [a] to [z], [A] to [Z], digits, hyphen and underscore. *)
Definition ticket_rune (r : Z) : bool :=
  (97 <=? r) && (r <=? 122) || (65 <=? r) && (r <=? 90) || (48 <=? r) && (r <=? 57) || (r =? 45) || (r =? 95).

Definition drop_all (old s : string) : string := replace_all (String.length s) s old "".

Definition sanitizeTicketID (ticketID : string) : string :=
  let id := TrimSpace (drop_all backslash_ (drop_all "/" (drop_all ".." ticketID))) in
  if (len id =? 0) || (50 <? len id) then "" else if forallb ticket_rune (to_runes id) then id else "".


(** [strings.Split(url, "/")], its last part. *)
Definition last_segment (url : string) : string := List.last (Split url "/"%char) "".

(** ** The limited writer *)

Record limitedWriter := mk_writer { lw_file : string; lw_n : Z; lw_limit : Z }.

Section writer.
(** [os.File.Write] after what the file holds: the bytes taken, and why no more. *)
Context (file_Write : string → string → nat * option error).

Definition too_large (limit : Z) : error := ENew ("download exceeds maximum allowed size of " +:+ itoa limit +:+ " bytes").

Definition put (lw : limitedWriter) (p : string) : Z * option error * limitedWriter :=
  let '(n, err) := file_Write (lw_file lw) p in
  (Z.of_nat n, err, mk_writer (lw_file lw +:+ take_str n p) (lw_n lw + Z.of_nat n) (lw_limit lw)).

Definition Write (lw : limitedWriter) (p : string) : Z * option error * limitedWriter :=
  if lw_limit lw <=? lw_n lw then (0, Some (too_large (lw_limit lw)), lw)
  else
    let remaining := lw_limit lw - lw_n lw in
    if remaining <? len p then
      let '(n, err, lw') := put lw (take_str (Z.to_nat remaining) p) in
      match err with Some e => (n, Some e, lw') | None => (n, Some (too_large (lw_limit lw)), lw') end
    else put lw p.

(** [io.Copy] of a body that arrives in pieces and may end in an error. *)
Fixpoint Copy (lw : limitedWriter) (pieces : list string) (last : option error) : option error * limitedWriter :=
  match pieces with
  | [] => (last, lw)
  | p :: pieces =>
      let '(n, err, lw) := Write lw p in
      match err with
      | Some e => (Some e, lw)
      | None => if n <? len p then (Some (ENew "short write"), lw) else Copy lw pieces last
      end
  end.
End writer.

Definition MaxAPKDownloadSize : Z := 500 * 2 ^ 20.

(** ** Messages *)

Record JiraModel := mk_jira { JiraHost : string; FileUrl : string; j_SlackToken : string; Ticket_id : string; JiraToken : string }.
Record SlackData := mk_slack { SlackToken : string; SlackChannel : string; TimeStamp : string }.
Record slack_file := mk_file { URLPrivateDownload : string; sf_Name : string }.
Record slack_message := mk_message { m_Timestamp : string; m_Files : list slack_file }.

(** What a request, or the goroutine it detaches, does outside. *)
Inductive event :=
  | EAnswer (r : response)
  | ECreate (path : string)
  | EFetch (token url path content : string)
  | ERemove (path : string)
  | EMessage (token channel text thread : string)
  | EComment (r : Webhook.request)
  | EAct (a : act).

(** [gin.Context]: the one of a request, or a copy of it. *)
Inductive context := Live | Copied.

Definition noSecrets : string := "** No secrets found **".
Definition fence : string := "```".
Definition chunk_text (total i : nat) (msg : string) : string :=
  if (1 <? total)%nat
  then "[" +:+ itoa (Z.of_nat (i + 1)) +:+ "/" +:+ itoa (Z.of_nat total) +:+ "]" +:+ nl +:+ msg else msg.

Section notify.
Context `{RS : RedisServer} `{Machine} `{T : JsonText} `{Pr : Primitives} {W : Type}.
(** The two services, name resolution, addresses, the clock and the files. *)
Context (AuthTest : string → W → option error * W)
  (GetConversationHistory : string → string → W → res (list slack_message) * W)
  (GetFile : string → string → W → list string * option error * W)
  (client_Do : Webhook.request → W → res (Z * string) * W)
  (http_NewRequest_err : string → option error)
  (parse_url : string → res (string * string)) (ParseIP : string → option IP)
  (LookupIP : string → W → res (list IP) * W)
  (UnixNano : W → Z) (os_Create : string → option error) (file_Write : string → string → nat * option error).
(** What [json.Unmarshal] leaves in a [models.Secrets], failing or not; the order in
    which concurrent posts reach the service; whether writing the answer of a copied
    context panics. *)
Context (fill_Secrets : string → Secrets) (schedule : list event → list event) (copy_panics : bool).

Definition state : Type := Redis.world * W.

(** A panic stops the goroutine. *)
#[local] Notation N := (Trace event state).

Definition panic {A} : N A := stop [].

(** A call that touches the world outside only. *)
Definition call {A} (f : W → A * W) : N A := outside (λ '(r, w), let '(a, w') := f w in (a, (r, w'))).

(** [ctx.JSON] *)
Definition answer (ctx : context) (r : response) : N unit :=
  match ctx with Copied => if copy_panics then panic else emit [EAnswer r] | Live => emit [EAnswer r] end.

(** [defer recover()] at the end of a goroutine. *)
Definition detached {A} (m : N A) (w : state) : list event * state := ((m w).1.2, (m w).2).

(** ** Slack ([utils/slack.go]) *)

Definition refused : error := ENew "file URL resolves to a disallowed IP (SSRF protection)".

Definition validateSlackFileURL (fileURL : string) : N (option error) :=
  match parse_url fileURL with
  | Err e => mret (Some (wrap "invalid file URL" e))
  | Ok (_, host) =>
      if negb (isAllowedSlackHost host) then mret (Some (ENew "file URL must be from an approved slack.com domain"))
      else match ParseIP host with
      | Some ip => mret (if isInternalSlackIP ip then Some refused else None)
      | None =>
          r ← call (LookupIP host);
          mret match r with
               | Err e => Some (wrap "failed to resolve file URL host" e)
               | Ok ips => if existsb isInternalSlackIP ips then Some refused else None
               end
      end
  end.

Definition generateUniqueFileName (originalName : string) (timestamp : Z) : string :=
  let ext := Ext originalName in
  let name := if HasSuffix originalName ext then take_str (String.length originalName - String.length ext) originalName else originalName in
  name +:+ "_" +:+ itoa timestamp +:+ ext.

Definition not_apk : response := json 400 [("status", HInt 400); ("message", HStr "Only APK files are allowed")].

(** What both downloads do once the address and the name are accepted. *)
Definition download (token url file_name : string) : N (option string) :=
  now ← call (λ w, (UnixNano w, w));
  let uniqueFileName := generateUniqueFileName file_name now in
  match os_Create uniqueFileName with
  | Some _ => mret None
  | None =>
      body ← call (GetFile token url);
      let '(pieces, last) := body in
      let '(err, lw) := Copy file_Write (mk_writer "" 0 MaxAPKDownloadSize) pieces last in
      _ ← emit [ECreate uniqueFileName; EFetch token url uniqueFileName (lw_file lw)];
      match err with
      | Some _ => _ ← emit [ERemove uniqueFileName]; mret None
      | None => mret (Some uniqueFileName)
      end
  end.

(** The checks between the session and the download. *)
Definition guarded_download (ctx : context) (token url file_name : string) : N (option string) :=
  bad ← validateSlackFileURL url;
  match bad with
  | Some e => _ ← answer ctx (failure 400 (Error e)); mret None
  | None =>
      if negb (HasSuffix (ToLower file_name) ".apk") then _ ← answer ctx not_apk; mret None
      else download token url file_name
  end.

(** The last file of the last message with the time stamp. *)
Definition attached (ts : string) (messages : list slack_message) : string * string :=
  foldl (λ acc m, if decide (m_Timestamp m = ts)
                  then foldl (λ _ f, (URLPrivateDownload f, sf_Name f)) acc (m_Files m) else acc) ("", "") messages.

Definition GetDownloadUrlFromSlack (slackData : SlackData) (ctx : context) : N (option string) :=
  err ← call (AuthTest (SlackToken slackData));
  match err with
  | Some _ => _ ← answer ctx (failure 400 "Slack authentication failed"); mret None
  | None =>
      history ← call (GetConversationHistory (SlackToken slackData) (SlackChannel slackData));
      match history with
      | Err e => _ ← answer ctx (failure 400 (Error e)); mret None
      | Ok messages =>
          let '(file_url, file_name) := attached (TimeStamp slackData) messages in
          if bool_decide (file_url = "") || bool_decide (file_name = "")
          then _ ← answer ctx (failure 404 "File not found in Slack message"); mret None
          else guarded_download ctx (SlackToken slackData) file_url file_name
      end
  end.

Definition DownloadFileUsingSlack (jiraModel : JiraModel) (ctx : context) : N (option string) :=
  err ← call (AuthTest (j_SlackToken jiraModel));
  match err with
  | Some _ => _ ← answer ctx (failure 400 "Slack authentication failed"); mret None
  | None =>
      r ← guarded_download ctx (j_SlackToken jiraModel) (FileUrl jiraModel) (last_segment (FileUrl jiraModel));
      match r with
      | None => mret None
      | Some path =>
          _ ← answer ctx (json 200 [("status", HInt 200); ("message", HStr "Downloading of APK successful")]);
          mret (Some path)
      end
  end.

Definition parseSlackData (data : string) : list string :=
  let secrets := fill_Secrets data in
  if decide (entries_of secrets = []) then [noSecrets] else parseSecretModel secrets.

Definition slack_posts (slackData : SlackData) (chunks : list string) : list event :=
  imap (λ i msg, EMessage (SlackToken slackData) (SlackChannel slackData)
                   (fence +:+ chunk_text (length chunks) i msg +:+ fence) (TimeStamp slackData)) chunks.

(** The chunks are posted side by side; a failed post is only logged. *)
Definition RespondSecretsToSlack (slackData : SlackData) (data : string) : N unit :=
  emit (schedule (slack_posts slackData (parseSlackData data))).

Definition SlackRespond (slackData : SlackData) : N unit :=
  _ ← call (AuthTest (SlackToken slackData));
  emit [EMessage (SlackToken slackData) (SlackChannel slackData) (fence +:+ "MORF Scan has been completed successfully" +:+ fence) ""].

(** ** Jira ([utils/database.go]) *)

Definition refused_jira : error := ENew "JIRA URL resolves to a disallowed IP (SSRF protection)".

Definition validateJiraURL (jiraURL : string) : N (option error) :=
  match parse_url jiraURL with
  | Err e => mret (Some (wrap "invalid JIRA URL" e))
  | Ok (scheme, host) =>
      if decide (scheme ≠ "https") then mret (Some (ENew "JIRA URL must use https scheme"))
      else if negb (isAllowedJiraHost host) then mret (Some (ENew "JIRA URL is not from an approved atlassian.net domain"))
      else match ParseIP host with
      | Some ip => mret (if isDisallowedIP (Some ip) then Some refused_jira else None)
      | None =>
          r ← call (LookupIP host);
          mret match r with
               | Err e => Some (wrap "failed to resolve JIRA host" e)
               | Ok [] => Some (ENew "JIRA host did not resolve to any address")
               | Ok ips => if existsb (λ ip, isDisallowedIP (Some ip)) ips then Some refused_jira else None
               end
      end
  end.

Definition isBase64Encoded (s : string) : bool := bool_decide (is_Some (b64_decode s)).

Definition jira_base (jiraModel : JiraModel) : string :=
  let env := Pipeline.Getenv "JIRA_LINK" in
  if bool_decide (env = "") && negb (bool_decide (JiraHost jiraModel = "")) then JiraHost jiraModel else env.

Definition jira_headers (token : string) : list (string * string) :=
  [("Content-Type", "application/json");
   ("Authorization", "Basic " +:+ (if isBase64Encoded token then token else b64_encode token))].

Definition commentToJira (jiraModel : JiraModel) (message : string) : N string :=
  let jiraBaseURL := jira_base jiraModel in
  if decide (jiraBaseURL = "") then mret "JIRA_LINK not configured"
  else match parse_url jiraBaseURL with
  | Err _ => mret "Invalid JIRA URL"
  | Ok _ =>
      let ticketID := sanitizeTicketID (Ticket_id jiraModel) in
      if decide (ticketID = "") then mret "Invalid ticket ID"
      else
        let jiraURL := jiraBaseURL +:+ "/rest/api/2/issue/" +:+ ticketID +:+ "/comment" in
        bad ← validateJiraURL jiraURL;
        match bad, Marshal (JObject [("body", JString message)]) with
        | Some _, _ => mret "JIRA URL not from allowed domain"
        | None, Err _ => mret "Failed to prepare comment"
        | None, Ok finalBodyJSON =>
            match http_NewRequest_err jiraURL with
            | Some _ => mret "Failed to create request"
            | None =>
                if decide (JiraToken jiraModel = "") then mret "JIRA token required"
                else
                  let req := Webhook.mk_request jiraURL (jira_headers (JiraToken jiraModel)) finalBodyJSON in
                  _ ← emit [EComment req];
                  resp ← call (client_Do req);
                  match resp with
                  | Err _ => mret "Request failed"
                  | Ok (code, status) =>
                      if code =? 201
                      then _ ← SlackRespond (mk_slack (j_SlackToken jiraModel) (Pipeline.Getenv "SLACK_CHANNEL") ""); mret status
                      else mret status
                  end
            end
        end
  end.

(** The answers of the comments are dropped. *)
Definition CookJiraComment (jiraModel : JiraModel) (secret : Secrets) : N unit :=
  foldr (λ message rest, _ ← commentToJira jiraModel message; rest) (mret tt) (parseJiraMessage secret).

(** ** The flows ([apk/analysis.go], [router/routers.go]) *)

Definition lift {A} (m : X A) : N A := λ '(r, w), let '(a, tr, r') := m r in (Some a, EAct <$> tr, (r', w)).

Definition process_jira (jiramodel : JiraModel) (jobCtx : JobContext) (apk_path : string) : N unit :=
  match duplicate_row (ExtractHash files apk_path) with
  | Some json_data => CookJiraComment jiramodel (fill_Secrets json_data)
  | None =>
      match safety files apk_path with
      | Some _ => mret tt
      | None =>
          mp ← lift (ExtractMetadataAndPackageData files apk_path jobCtx);
          match mp with
          | (Err _, _) => mret tt
          | (Ok metadata, packageModel) =>
              r ← lift (StartSecScanE files apk_path jobCtx);
              match r with
              | Err _ => mret tt
              | Ok scanner_data =>
                  let secret := Response.CreateSecretModel apk_path packageModel metadata scanner_data in
                  _ ← emit [EAct (AInsert secret)];
                  CookJiraComment jiramodel secret
              end
          end
      end
  end.

Definition StartJiraProcess (jiramodel : JiraModel) (ctx : context) : N unit :=
  r ← DownloadFileUsingSlack jiramodel ctx;
  match r with
  | None => mret tt
  | Some apk_path =>
      let jobCtx := NewJobContextForID uuid "" in
      match CreateWorkspace jobCtx with
      | Some _ => mret tt
      | None => _ ← process_jira jiramodel jobCtx apk_path; emit [EAct (ACleanup (Workspace jobCtx))]
      end
  end.

Definition relax : response := json 200 [("message", HStr "Sit Back and Relax! We are working on it!")].

(** A route: what it answers, and what the goroutine it leaves behind does. *)
Definition route : Type := state → response * (list event * state).

Definition jira (bind : string * bool → res JiraModel) (body : string * bool) : route := λ w,
  match bind body with
  | Err e => (failure 400 (Error e), ([], w))
  | Ok requestBody =>
      if negb database then (failure 400 "Database is required for JIRA integration", ([], w))
      else (relax, detached (StartJiraProcess requestBody Copied) w)
  end.

(** A message of the extraction is the chunked report. *)
Definition perform (slackData : SlackData) (tr : list act) : list event :=
  tr ≫= λ a, match a with
             | ASlack text => schedule (slack_posts slackData (parseSlackData text))
             | _ => [EAct a]
             end.

Definition extract (slackData : SlackData) (alive : option error) (path : string) : N unit := λ '(rw, w),
  let '(_, tr, rw) := StartExtractProcess true true alive path rw in (Some tt, perform slackData tr, (rw, w)).

Definition process_slack (slackData : SlackData) (alive : option error) : N unit :=
  r ← GetDownloadUrlFromSlack slackData Copied;
  match r with
  | None => mret tt
  | Some path => extract slackData alive path
  end.

Definition slackscan (bind : string * bool → res SlackData) (conn : dbconn) (alive : option error) (body : string * bool) : route := λ w,
  match bind body with
  | Err e => (failure 400 (Error e), ([], w))
  | Ok requestBody =>
      match checkDatabaseStatus conn with
      | Some e => (failure 503 (Error e), ([], w))
      | None => (relax, detached (process_slack requestBody alive) w)
      end
  end.

Definition limited_route (handler : string * bool → route) (r : Router.request) (w : state) : response * (list event * state) :=
  MaxBodyBytesMiddleware (maxBodyBytes Pipeline.LookupEnv) (λ body '(_, w), handler body w) r ([], w).
End notify.
