(* ===== verification/NotifySpec.v ===== *)
(** * What notifications send, and where

    Reports are cut into chunks without loss.  Whatever the routes [/jira] and
    [/slackscan] leave running fetches files from Slack hosts only, within the size cap,
    and comments on tickets of Atlassian hosts only. *)
From Stdlib Require Import ZArith Ascii.
From S2P Require Import Prelude Trace GoStr GoErr GoPath GoFloat GoJson JsonText Redis Crypto Webhook Artifact Detect Badging Response Pipeline PipelineSpec Router Notify.

Local Open Scope Z_scope.

(** ** Chunks *)

Lemma len_text_app a b : len (a +:+ b) = len a + len b.
Proof. unfold len. rewrite string_length_app. lia. Qed.

Lemma len_nonneg s : 0 ≤ len s.
Proof. unfold len. lia. Qed.

Lemma concat_str_one s : concat_str [s] = s.
Proof. cbn. apply string_app_nil_r. Qed.

(** Packing keeps the text, and closes no chunk above the limit but one that is a
    single piece. *)
Lemma pack_spec limit entries messages current :
  let '(ms, c) := foldl (pack_step limit) (messages, current) entries in
  concat_str (ms ++ [c]) = concat_str (messages ++ [current]) +:+ concat_str entries ∧
  ∃ added, ms = messages ++ added ∧ Forall (λ m, len m ≤ limit ∨ m = current ∨ m ∈ entries) (added ++ [c]).
Proof.
  revert messages current. induction entries as [|e entries IH]; intros messages current; cbn [foldl].
  - split; [by cbn [concat_str foldr]; rewrite string_app_nil_r|]. exists []. rewrite app_nil_r. split; [done|].
    constructor; [by right; left|constructor].
  - unfold pack_step at 2. destruct (Z.ltb_spec limit (len current + len e)) as [Hl|Hl].
    + specialize (IH (messages ++ [current]) e). destruct (foldl _ _ entries) as [ms c].
      destruct IH as (Hc & added & -> & Hf). split.
      * rewrite Hc, !concat_str_app, !concat_str_one. cbn. by rewrite !string_app_assoc.
      * exists (current :: added). rewrite <- app_assoc. split; [done|]. cbn. constructor; [by right; left|].
        eapply Forall_impl; [exact Hf|]. cbn. intros m Hm. rewrite elem_of_cons. tauto.
    + specialize (IH messages (current +:+ e)). destruct (foldl _ _ entries) as [ms c].
      destruct IH as (Hc & added & -> & Hf). split.
      * rewrite Hc, !concat_str_app, !concat_str_one. cbn. by rewrite !string_app_assoc.
      * exists added. split; [done|]. eapply Forall_impl; [exact Hf|]. cbn. intros m [Hm|[->|Hm]]; [by left| |].
        { left. rewrite len_text_app. lia. }
        { rewrite elem_of_cons. tauto. }
Qed.

(** Every chunk holds text, when the first piece and the entries do. *)
Lemma pack_long n limit entries messages current :
  n ≤ len current → Forall (λ e, n ≤ len e) entries → Forall (λ m, n ≤ len m) messages →
  let '(ms, c) := foldl (pack_step limit) (messages, current) entries in Forall (λ m, n ≤ len m) (ms ++ [c]).
Proof.
  intros Hc He. revert messages current Hc. induction He as [|e entries He _ IH]; intros messages current Hc Hm; cbn [foldl].
  - apply Forall_app. by repeat constructor.
  - unfold pack_step at 2. destruct (limit <? len current + len e); apply IH; try done.
    + apply Forall_app. by repeat constructor.
    + rewrite len_text_app. pose proof (len_nonneg e). lia.
Qed.

Definition fits (limit : Z) (header : string) (entries : list string) (m : string) : Prop :=
  len m ≤ limit ∨ m = header ∨ m ∈ entries.

Lemma pack_all limit header entries n : 0 < n → n ≤ len header → Forall (λ e, n ≤ len e) entries →
  let '(ms, c) := foldl (pack_step limit) ([], header) entries in
  concat_str (ms ++ [c]) = header +:+ concat_str entries ∧ Forall (fits limit header entries) (ms ++ [c]) ∧ n ≤ len c.
Proof.
  intros H0 Hh He. pose proof (pack_spec limit entries [] header) as Hs. pose proof (pack_long n limit entries [] header Hh He (List.Forall_nil _)) as Hn.
  destruct (foldl _ _ entries) as [ms c]. destruct Hs as (Hc & added & -> & Hf).
  split; [|split; [exact Hf|]].
  - by rewrite Hc; cbn [app]; rewrite concat_str_one.
  - apply Forall_app in Hn as [_ Hn]. by inversion Hn.
Qed.

Lemma long_string n a b : n ≤ len a → n ≤ len (a +:+ b).
Proof. rewrite len_text_app. pose proof (len_nonneg b). lia. Qed.

(** The reports for Slack and for Jira are cut without loss: the chunks, joined in
    order, are the header followed by the entry of every finding, in the findings' order;
    no chunk is longer than the limit, unless it is the header or one entry on its own. *)
Theorem chunks_lossless secrets :
  let report header entry limit messages :=
    concat_str messages = header +:+ concat_str (entry <$> entries_of secrets) ∧
    Forall (fits limit header (entry <$> entries_of secrets)) messages in
  report (slack_header secrets) slack_entry slackLimit (parseSecretModel secrets) ∧
  report (jira_header secrets) jira_entry jiraLimit (parseJiraMessage secrets).
Proof.
  cbv zeta. split.
  - pose proof (pack_all slackLimit (slack_header secrets) (slack_entry <$> entries_of secrets) 10) as Hp.
    unfold parseSecretModel. destruct (foldl _ _ _) as [ms c]. destruct Hp as (Hc & Hf & Hn); [lia|by apply long_string| |].
    { apply Forall_fmap, Forall_true. intros s. by apply long_string. }
    rewrite decide_False; [done|]. intros ->. by cbn in Hn.
  - pose proof (pack_all jiraLimit (jira_header secrets) (jira_entry <$> entries_of secrets) 12) as Hp.
    unfold parseJiraMessage. destruct (foldl _ _ _) as [ms c]. destruct Hp as (Hc & Hf & Hn); [lia|by apply long_string| |].
    { apply Forall_fmap, Forall_true. intros s. unfold jira_entry, compose. rewrite !len_text_app. 
      pose proof (len_nonneg (Type_ s)). pose proof (len_nonneg (SecretString s)).
      pose proof (len_nonneg (itoa (LineNo s))). pose proof (len_nonneg (FileLocation s)).
      change (len noformat) with 10. change (len nl) with 1. change (len " === ") with 5. 
      repeat match goal with |- context [len ?x] => lazymatch goal with H : 0 ≤ len x |- _ => fail | _ => pose proof (len_nonneg x) end end. lia. }
    rewrite decide_False; [done|]. intros ->. by cbn in Hn.
Qed.

(** ** Tickets *)

Definition ticket_char (c : ascii) : bool := ticket_rune (byte c).

Lemma decode_rune_ticket b s : ticket_rune (decode_rune b s).1 = true → decode_rune b s = (byte b, 0%nat) ∧ ticket_char b = true.
Proof.
  pose proof (byte_range b). unfold decode_rune, ticket_char, rune_error. cbv zeta.
  destruct (Z.ltb_spec (byte b) 128); [done|].
  destruct s as [|b1 s]; [done|]. pose proof (byte_range b1).
  destruct ((194 <=? byte b) && (byte b <=? 223) && is_cont (byte b1)) eqn:E1.
  { unfold is_cont in E1. unfold ticket_rune. cbn. lia. }
  destruct s as [|b2 s]; [done|]. pose proof (byte_range b2).
  destruct ((224 <=? byte b) && (byte b <=? 239) && second3 (byte b) (byte b1) && is_cont (byte b2)) eqn:E2.
  { unfold second3, is_cont in E2. unfold ticket_rune. cbn. repeat case_match; lia. }
  destruct s as [|b3 s]; [done|]. pose proof (byte_range b3).
  destruct ((240 <=? byte b) && (byte b <=? 244) && second4 (byte b) (byte b1) && is_cont (byte b2) && is_cont (byte b3)) eqn:E3.
  { unfold second4, is_cont in E3. unfold ticket_rune. cbn. repeat case_match; lia. }
  done.
Qed.

Lemma ticket_runes s : forallb ticket_rune (to_runes s) = true → forall_chars ticket_char s = true.
Proof.
  unfold to_runes, runes. induction s as [|c s IH]; [done|]. cbn [runes_go].
  destruct (decode_rune c s) as [r w] eqn:E. cbn. intros [Hr Hs]%andb_true_iff.
  pose proof (decode_rune_ticket c s) as Hd. rewrite E in Hd. destruct (Hd Hr) as [[= -> ->] Hc].
  apply andb_true_iff. split; [done|by apply IH].
Qed.

(** A ticket that survives is one path segment of at most fifty plain characters. *)
Lemma sanitized_ticket t : let id := sanitizeTicketID t in id ≠ "" → len id ≤ 50 ∧ forall_chars ticket_char id = true.
Proof.
  cbv zeta. unfold sanitizeTicketID. generalize (TrimSpace (drop_all backslash_ (drop_all "/" (drop_all ".." t)))) as id. intros id.
  destruct ((len id =? 0) || (50 <? len id)) eqn:E; [done|].
  destruct (forallb ticket_rune (to_runes id)) eqn:Er; [|done]. intros _. split; [lia|by apply ticket_runes].
Qed.

(** ** The limited writer *)

Lemma len_take n s : len (take_str n s) ≤ Z.of_nat n ∧ len (take_str n s) ≤ len s.
Proof.
  unfold len. revert s. induction n as [|n IH]; intros [|c s]; cbn; try lia. specialize (IH s). lia.
Qed.

Definition bounded (lw : limitedWriter) : Prop := len (lw_file lw) ≤ lw_n lw ∧ len (lw_file lw) ≤ lw_limit lw.

Lemma put_bounded fw lw p : bounded lw → lw_n lw + len p ≤ lw_limit lw → bounded (put fw lw p).2 ∧ lw_limit (put fw lw p).2 = lw_limit lw.
Proof.
  intros [H1 H2] Hp. unfold put, bounded. destruct (fw (lw_file lw) p) as [n err]. cbn. rewrite len_text_app.
  pose proof (len_take n p). lia.
Qed.

Lemma Write_bounded fw lw p : bounded lw → bounded (Write fw lw p).2 ∧ lw_limit (Write fw lw p).2 = lw_limit lw.
Proof.
  intros Hb. unfold Write. destruct (Z.leb_spec (lw_limit lw) (lw_n lw)); [done|].
  destruct (Z.ltb_spec (lw_limit lw - lw_n lw) (len p)).
  - pose proof (put_bounded fw lw (take_str (Z.to_nat (lw_limit lw - lw_n lw)) p) Hb) as Hp.
    destruct (put fw lw _) as [[n err] lw']. pose proof (len_take (Z.to_nat (lw_limit lw - lw_n lw)) p).
    destruct err; apply Hp; lia.
  - apply put_bounded; [done|lia].
Qed.

(** However the body arrives, and whatever the disk takes of it, the file keeps the cap. *)
Lemma Copy_bounded fw lw pieces last : bounded lw → bounded (Copy fw lw pieces last).2 ∧ lw_limit (Copy fw lw pieces last).2 = lw_limit lw.
Proof.
  revert lw. induction pieces as [|p pieces IH]; intros lw Hb; [done|]. cbn [Copy].
  pose proof (Write_bounded fw lw p Hb) as [Hw Hl]. destruct (Write fw lw p) as [[n err] lw']. cbn in Hw, Hl.
  destruct err; [done|]. destruct (n <? len p); [done|]. rewrite <- Hl. by apply IH.
Qed.

(** ** What a flow may do *)

Section flows.
Context `{RS : RedisServer} `{Machine} `{T : JsonText} `{Pr : Primitives} {W : Type}.
Context (AuthTest : string → W → option error * W)
  (GetConversationHistory : string → string → W → res (list slack_message) * W)
  (GetFile : string → string → W → list string * option error * W)
  (client_Do : Webhook.request → W → res (Z * string) * W)
  (http_NewRequest_err : string → option error)
  (parse_url : string → res (string * string)) (ParseIP : string → option IP)
  (LookupIP : string → W → res (list IP) * W)
  (UnixNano : W → Z) (os_Create : string → option error) (file_Write : string → string → nat * option error).
Context (fill_Secrets : string → Secrets) (schedule : list event → list event) (copy_panics : bool).

#[local] Notation N := (Trace event (state (W := W))).

Lemma obeys_call {A} P (f : W → A * W) : obeys P (λ a, ∃ w, a = (f w).1) (call f).
Proof.
  apply (obeys_weaken _ (λ a, ∃ s : state (W := W), a = ((λ '(r, w), let '(a, w') := f w in (a, (r, w'))) s).1)); [|apply obeys_outside].
  intros a [[r w] ->]. exists w. by destruct (f w).
Qed.

Lemma obeys_lift {A} P (m : X A) : (∀ a, P (EAct a)) → obeys P (λ _, True) (lift (W := W) m).
Proof.
  intros HP [r w]. unfold events, result, lift. destruct (m r) as [[a tr] r']. cbn. split; [|done].
  apply Forall_fmap, Forall_true. done.
Qed.

(** ** Addresses that pass the checks *)

(** The name was resolved, and no address it stands for is of the kind [bad]. *)
Definition resolves_outside (bad : IP → bool) (host : string) : Prop :=
  (∃ ip, ParseIP host = Some ip ∧ bad ip = false) ∨
  (ParseIP host = None ∧ ∃ w ips, (LookupIP host w).1 = Ok ips ∧ Forall (λ ip, bad ip = false) ips).

Definition slack_address (url : string) : Prop :=
  ∃ scheme host, parse_url url = Ok (scheme, host) ∧ isAllowedSlackHost host = true ∧ resolves_outside isInternalSlackIP host.

Definition jira_address (url : string) : Prop :=
  ∃ host, parse_url url = Ok ("https", host) ∧ isAllowedJiraHost host = true ∧ resolves_outside (λ ip, isDisallowedIP (Some ip)) host.

Lemma existsb_none {A} (f : A → bool) l : existsb f l = false → Forall (λ x, f x = false) l.
Proof. induction l as [|x l IH]; [constructor|]. cbn. intros [Hx Hl]%orb_false_iff. constructor; auto. Qed.

Lemma slack_checked P url :
  obeys P (λ bad, bad = None → slack_address url) (validateSlackFileURL parse_url ParseIP LookupIP url).
Proof.
  unfold validateSlackFileURL, slack_address, resolves_outside.
  destruct (parse_url url) as [[scheme host]|e]; [|by apply obeys_ret].
  destruct (isAllowedSlackHost host) eqn:Eh; cbn [negb]; [|by apply obeys_ret].
  destruct (ParseIP host) as [ip|] eqn:Ei.
  - apply obeys_ret. destruct (isInternalSlackIP ip) eqn:Ep; [done|]. intros _. exists scheme, host. naive_solver.
  - eapply obeys_bind; [apply obeys_call|]. intros r [w ->]. apply obeys_ret.
    destruct (LookupIP host w).1 as [ips|e] eqn:El; [|done]. destruct (existsb isInternalSlackIP ips) eqn:Ex; [done|].
    intros _. exists scheme, host. split_and!; try done. right. split; [done|]. exists w, ips. split; [done|by apply existsb_none].
Qed.

Lemma jira_checked P url :
  obeys P (λ bad, bad = None → jira_address url) (validateJiraURL parse_url ParseIP LookupIP url).
Proof.
  unfold validateJiraURL, jira_address, resolves_outside.
  destruct (parse_url url) as [[scheme host]|e]; [|by apply obeys_ret].
  case_decide as Es; [by apply obeys_ret|]. subst scheme.
  destruct (isAllowedJiraHost host) eqn:Eh; cbn [negb]; [|by apply obeys_ret].
  destruct (ParseIP host) as [ip|] eqn:Ei.
  - apply obeys_ret. destruct (isDisallowedIP (Some ip)) eqn:Ep; [done|]. intros _. exists host. naive_solver.
  - eapply obeys_bind; [apply obeys_call|]. intros r [w ->]. apply obeys_ret.
    destruct (LookupIP host w).1 as [ips|e] eqn:El; [|done]. destruct ips as [|ip ips]; [done|].
    destruct (existsb (λ ip, isDisallowedIP (Some ip)) (ip :: ips)) eqn:Ex; [done|].
    intros _. exists host. split_and!; try done. right. split; [done|]. exists w, (ip :: ips). split; [done|by apply existsb_none in Ex].
Qed.

(** ** Events within the rules *)

(** A fetched file comes from Slack, is named as a package and keeps the size cap; a
    comment goes, with encoded credentials, to a ticket of an Atlassian host. *)
Definition within (base : string) (e : event) : Prop :=
  match e with
  | EFetch _ url path content =>
      slack_address url ∧ len content ≤ MaxAPKDownloadSize ∧
      ∃ name now, HasSuffix (ToLower name) ".apk" = true ∧ path = generateUniqueFileName name now
  | EComment r => ∃ ticket token,
      r_url r = base +:+ "/rest/api/2/issue/" +:+ ticket +:+ "/comment" ∧
      ticket ≠ "" ∧ len ticket ≤ 50 ∧ forall_chars ticket_char ticket = true ∧ jira_address (r_url r) ∧
      r_headers r = [("Content-Type", "application/json"); ("Authorization", "Basic " +:+ token)] ∧ isBase64Encoded token = true
  | _ => True
  end.

Lemma answer_within base ctx r : obeys (within base) (λ _, True) (answer (W := W) copy_panics ctx r).
Proof. destruct ctx; cbn; [|destruct copy_panics]; try (apply obeys_emit; by repeat constructor). apply obeys_stop. constructor. Qed.

Ltac flow :=
  repeat lazymatch goal with
  | |- obeys _ _ (mret _) => apply obeys_ret; done
  | |- obeys _ _ (@mbind _ _ _ _ _ (answer _ _ _)) => eapply obeys_bind; [apply answer_within|]; intros ? _
  | |- obeys _ _ (@mbind _ _ _ _ _ (call _)) => eapply obeys_bind; [apply obeys_call|]; intros ? [? ->]
  | |- obeys _ _ (@mbind _ _ _ _ _ (emit [_])) => eapply obeys_bind; [apply obeys_emit; by repeat constructor|]; intros ? _
  | |- obeys _ _ (match ?x with _ => _ end) => destruct x eqn:?
  end.

Lemma download_within base token url name : slack_address url → HasSuffix (ToLower name) ".apk" = true →
  obeys (within base) (λ _, True) (download GetFile UnixNano os_Create file_Write token url name).
Proof.
  intros Hu Hn. unfold download. flow; (eapply obeys_bind; [|intros; flow]); apply obeys_emit.
  all: match goal with E : Copy _ ?lw0 ?ps ?la = _ |- _ => pose proof (Copy_bounded file_Write lw0 ps la) as Hc; rewrite E in Hc end.
  all: destruct Hc as [[_ Hl] El]; [done|]; cbn in Hl, El; repeat constructor; [done|lia|eauto].
Qed.

Lemma guarded_within base ctx token url name :
  obeys (within base) (λ _, True)
    (guarded_download GetFile parse_url ParseIP LookupIP UnixNano os_Create file_Write copy_panics ctx token url name).
Proof.
  unfold guarded_download. eapply obeys_bind; [apply slack_checked|]. intros bad Hb.
  flow. apply download_within; [by apply Hb|by apply negb_false_iff].
Qed.

Lemma slack_download_within base d ctx :
  obeys (within base) (λ _, True)
    (GetDownloadUrlFromSlack AuthTest GetConversationHistory GetFile parse_url ParseIP LookupIP UnixNano os_Create file_Write copy_panics d ctx).
Proof.
  unfold GetDownloadUrlFromSlack. flow. apply guarded_within.
Qed.

Lemma jira_download_within base j ctx :
  obeys (within base) (λ _, True)
    (DownloadFileUsingSlack AuthTest GetFile parse_url ParseIP LookupIP UnixNano os_Create file_Write copy_panics j ctx).
Proof.
  unfold DownloadFileUsingSlack. flow.
  eapply obeys_bind; [apply guarded_within|]. intros r _. destruct r; flow.
Qed.

Context {Laws : PrimitiveLaws Pr}.

Lemma encoded token : isBase64Encoded (if isBase64Encoded token then token else b64_encode token) = true.
Proof.
  destruct (isBase64Encoded token) eqn:E; [done|]. unfold isBase64Encoded. rewrite b64_decode_encode. by apply bool_decide_eq_true_2.
Qed.

Lemma comment_within j message :
  obeys (within (jira_base j)) (λ _, True)
    (commentToJira AuthTest client_Do http_NewRequest_err parse_url ParseIP LookupIP j message).
Proof.
  unfold commentToJira. flow. pose proof (sanitized_ticket (Ticket_id j)) as Ht. cbv zeta in Ht. specialize (Ht ltac:(done)).
  eapply obeys_bind; [apply jira_checked|]. intros bad Hb. flow. eapply obeys_bind.
  - apply obeys_emit, Forall_singleton. cbn [within r_url r_headers].
    eexists _, _. repeat (split; [try reflexivity; try done; first [apply Ht|by apply Hb]|]). apply encoded.
  - intros ? _. flow. eapply obeys_bind; [|intros; by apply obeys_ret]. unfold SlackRespond. flow. apply obeys_emit. by repeat constructor.
Qed.

Lemma comments_within j secrets :
  obeys (within (jira_base j)) (λ _, True)
    (CookJiraComment AuthTest client_Do http_NewRequest_err parse_url ParseIP LookupIP j secrets).
Proof.
  unfold CookJiraComment. induction (parseJiraMessage secrets) as [|m ms IH]; [by apply obeys_ret|].
  cbn [foldr]. eapply obeys_bind; [apply comment_within|]. intros ? _. apply IH.
Qed.

#[local] Notation StartJira := (StartJiraProcess AuthTest GetFile client_Do http_NewRequest_err parse_url ParseIP LookupIP
  UnixNano os_Create file_Write fill_Secrets copy_panics).

Lemma jira_process_within j ctx : obeys (within (jira_base j)) (λ _, True) (StartJira j ctx).
Proof.
  unfold StartJiraProcess. eapply obeys_bind; [apply jira_download_within|]. intros r _. flow.
  apply (obeys_bind _ (λ _, True)); [|intros ? _; apply obeys_emit; by repeat constructor]. unfold process_jira. flow.
  - apply comments_within.
  - eapply obeys_bind; [apply obeys_lift; intros; exact I|]. intros [[md|e] pd] _; flow.
    eapply obeys_bind; [apply obeys_lift; intros; exact I|]. intros [found|e] _; flow. apply comments_within.
Qed.

Hypothesis schedule_perm : ∀ l, schedule l ≡ₚ l.

Lemma posts_within base d chunks : Forall (within base) (schedule (slack_posts d chunks)).
Proof.
  rewrite (schedule_perm (slack_posts d chunks)). unfold slack_posts. apply Forall_forall. intros e He.
  apply elem_of_lookup_imap in He as (i & m & -> & _). done.
Qed.

#[local] Notation slack_process := (process_slack AuthTest GetConversationHistory GetFile parse_url ParseIP LookupIP
  UnixNano os_Create file_Write fill_Secrets schedule copy_panics).

Lemma slack_process_within base d alive : obeys (within base) (λ _, True) (slack_process d alive).
Proof.
  unfold process_slack. eapply obeys_bind; [apply slack_download_within|]. intros r _. flow.
  intros [rw w]. unfold events, result, extract. destruct (StartExtractProcess _ _ _ _ rw) as [[h tr] rw']. cbn. split; [|done].
  unfold perform. induction tr as [|a tr IH]; [constructor|]. cbn. apply Forall_app. split; [|exact IH].
  destruct a; try (by repeat constructor). apply posts_within.
Qed.

Lemma detached_obeys {A} P (Q : A → Prop) (m : N A) w : obeys P Q m → Forall P (detached m w).1.
Proof. intros Hm. apply (Hm w). Qed.

#[local] Notation jira_route := (jira AuthTest GetFile client_Do http_NewRequest_err parse_url ParseIP LookupIP UnixNano os_Create
  file_Write fill_Secrets copy_panics).
#[local] Notation slack_route := (slackscan AuthTest GetConversationHistory GetFile parse_url ParseIP LookupIP UnixNano os_Create
  file_Write fill_Secrets schedule copy_panics).

(** *** What modelling showed *)

Definition silent (e : event) : Prop :=
  match e with EComment _ | EMessage _ _ _ _ | EAct _ | EAnswer _ => False | _ => True end.

Lemma answer_panics (P : event → Prop) (Q : unit → Prop) r : copy_panics = true → obeys P Q (answer (W := W) copy_panics Copied r).
Proof. intros Hc w. unfold answer, events, result. rewrite Hc. by split. Qed.

Ltac quiet Hc :=
  repeat lazymatch goal with
  | |- obeys _ _ (mret _) => apply obeys_ret; done
  | |- obeys _ _ (@mbind _ _ _ _ _ (answer _ _ _)) => eapply (obeys_bind _ (λ _, False)); [by apply answer_panics|]; intros ? []
  | |- obeys _ _ (@mbind _ _ _ _ _ (call _)) => eapply obeys_bind; [apply obeys_call|]; intros ? [? ->]
  | |- obeys _ _ (@mbind _ _ _ _ _ (emit _)) => eapply obeys_bind; [apply obeys_emit; by repeat constructor|]; intros ? _
  | |- obeys _ _ (match ?x with _ => _ end) => destruct x eqn:?
  end.

Lemma slack_checked_quietly url : obeys silent (λ _, True) (validateSlackFileURL parse_url ParseIP LookupIP url).
Proof. eapply obeys_weaken; [|apply slack_checked]. done. Qed.

(** When writing on a copied context panics, as it does in the version of gin the module
    requires, the work [/jira] leaves behind ends with the download: it scans nothing,
    stores nothing and comments on nothing, whatever the request. *)
Lemma jira_never_comments bind_jira r w : copy_panics = true →
  Forall silent (limited_route (jira_route bind_jira) r w).2.1.
Proof.
  intros Hc. unfold limited_route, MaxBodyBytesMiddleware. destruct (_ <? _); [constructor|].
  unfold jira. destruct (bind_jira _) as [j|]; [|constructor]. destruct (negb database); [constructor|].
  apply (detached_obeys _ (λ _, True)). unfold StartJiraProcess. apply (obeys_bind _ (λ r, r = None)); [|intros ? ->; by apply obeys_ret].
  unfold DownloadFileUsingSlack. quiet Hc. apply (obeys_bind _ (λ _, True)).
  - unfold guarded_download. eapply obeys_bind; [apply slack_checked_quietly|]. intros bad _. quiet Hc. unfold download. quiet Hc.
  - intros p _. quiet Hc.
Qed.

End flows.

(** ** Instances *)

#[local] Instance station : Machine := bench_on {["app_7.apk" := "bytes"]} None [].

Definition slack_url : string := "https://files.slack.com/x/app.apk".
Definition sample_parse (u : string) : res (string * string) :=
  if HasPrefix u "https://files.slack.com/" then Ok ("https", "files.slack.com")
  else if HasPrefix u "https://acme.atlassian.net" then Ok ("https", "acme.atlassian.net") else Err (ENew "parse").
Definition sample_ticket : JiraModel := mk_jira "https://acme.atlassian.net" slack_url "xoxb" "../SEC-1" "user:token".
Definition no_findings : Secrets :=
  mk_secrets "" "" "" [] (mk_package "" "" "" "" "" "" "" "" [] [] []) empty_metadata [] [] [] [].

Definition one_finding : Secrets :=
  mk_secrets "" "" "" [mk_secret "AWS" 7 "a.smali" "AWS" "AKIA" "high" (S754_zero false) "keep" "active" ""]
    (mk_package "" "" "" "" "" "" "" "" [] [] []) empty_metadata [] [] [] [].

(** What the text of an object leaves in a report, and any other text. *)
Definition sample_fill (text : string) : Secrets := if HasPrefix text "{" then one_finding else no_findings.

(** A workspace: the package arrives in two pieces, the service says [201 Created]. *)
#[local] Notation sample_jira panics := (limited_route (jira (T := Binary.format) (W := unit) (λ _ w, (None, w)) (λ _ _ w, (["PK"; "rest"], None, w))
  (λ _ w, (Ok (201, "201 Created"), w)) (λ _, None) sample_parse (λ _, None) (λ _ w, (Ok [[104; 192; 0; 1]], w)) (λ _, 7) (λ _, None)
  (λ _ p, (String.length p, None)) sample_fill panics (λ _, Ok sample_ticket))
  (Router.mk_request 10 "{}") (bench_world, tt)).

Definition is_comment (e : event) : bool := match e with EComment _ => true | _ => false end.


(** The same request with the context gin copies: the file is fetched and nothing follows. *)
Example jira_stops_after_download : length (sample_jira true).2.1 = 2%nat ∧ existsb is_comment (sample_jira true).2.1 = false.
Proof. by vm_compute. Qed.

#[local] Notation sample_slack name := (limited_route (slackscan (W := unit) (λ _ w, (None, w))
  (λ _ _ w, (Ok [mk_message "1" [mk_file slack_url name]], w)) (λ _ _ w, (["PK"; "rest"], None, w))
  sample_parse (λ _, None) (λ _ w, (Ok [[104; 192; 0; 1]], w)) (λ _, 7) (λ _, None) (λ _ p, (String.length p, None))
  sample_fill (@rev event) false (λ _, Ok (mk_slack "xoxb" "C1" "1")) (mk_conn true true (Some (None, None))) None)
  (Router.mk_request 10 "{}") (bench_world, tt)).

Definition stored_secrets (e : event) : list SecretModel := match e with EAct (AInsert s) => s_SecretModel s | _ => [] end.
Definition messages (e : event) : list string := match e with EMessage _ _ text _ => [text] | _ => [] end.

(** A fresh scan finds a secret and stores it; the text handed to the message is the
    list of findings, which does not decode into a report, so the channel is told that
    there are none. *)
Example fresh_scan_reported_clean :
  length ((sample_slack "app.apk").2.1 ≫= stored_secrets) = 1%nat ∧
  (sample_slack "app.apk").2.1 ≫= messages = [fence +:+ noSecrets +:+ fence].
Proof. by vm_compute. Qed.

(** The name of a Slack file is a path of the sender's choosing. *)
Example file_name_is_a_path :
  hd (EAct (AMetric "")) (sample_slack "../../srv/app.apk").2.1 = ECreate "../../srv/app_7.apk".
Proof. by vm_compute. Qed.

(** The number and the fence come on top of a chunk that fills the limit. *)
Example message_over_limit :
  ∃ chunk, len chunk = slackLimit ∧ slackLimit < len (fence +:+ chunk_text 2 0 chunk +:+ fence).
Proof. exists (concat_str (replicate 4000 "x")). by vm_compute. Qed.
