(* ===== verification/RateLimit.v ===== *)
(** * Per-address rate limiting ([router/middleware.go])

    The token-bucket limiter of the data routes: its configuration with the clamps, the
    map of visitors in 32 shards, and the reaper of idle ones.  The bucket itself
    ([golang.org/x/time/rate]) is a parameter. *)
From Stdlib Require Import Ascii.
From S2P Require Import Prelude GoStr GoErr GoFloat Config Router.

Local Open Scope Z_scope.

Definition rlShardCount : Z := 32.

Section limiter.
Context {L : Type} (NewLimiter : spec_float → Z → L) (Allow : Z → L → bool * L).

(** A visitor: the bucket and when it was last seen. *)
Record rateVisitor := mk_visitor { limiter : L; lastSeen : Z }.

Record RateLimiter := mk_limiter {
  shards : list (gmap string rateVisitor); rps : spec_float; burst : Z; idle : Z }.

(** [f <= 0] *)
Definition disabled (f : spec_float) : bool := SFleb f (S754_zero false).

Definition NewRateLimiter (LookupEnv : string → option string) (ParseFloat : string → option spec_float)
    (ParseDuration : string → option Z) : RateLimiter :=
  let rps := Float LookupEnv ParseFloat "MORF_RATE_LIMIT_RPS" (float_of_Z 5) in
  let burst := Int LookupEnv "MORF_RATE_LIMIT_BURST" 10 in
  let idle := Duration LookupEnv ParseDuration "MORF_RATE_LIMIT_IDLE" (minutes 10) in
  mk_limiter (replicate (Z.to_nat rlShardCount) ∅) rps
    (if burst <? 1 then 10 else burst) (if idle <=? 0 then minutes 10 else idle).

(** FNV-1a on 32 bits, and the shard of an address. *)
Definition fnv_step (h : Z) (c : ascii) : Z := (Z.lxor h (byte c) * 16777619) mod 2 ^ 32.

Fixpoint fnv (h : Z) (s : string) : Z :=
  match s with "" => h | String c s => fnv (fnv_step h c) s end.

Definition shardFor (ip : string) : nat := Z.to_nat (Z.land (fnv 2166136261 ip) (rlShardCount - 1)).

Definition with_shards (s : list (gmap string rateVisitor)) (rl : RateLimiter) : RateLimiter :=
  mk_limiter s (rps rl) (burst rl) (idle rl).

(** The bucket of an address, created when it is new. *)
Definition visit (rl : RateLimiter) (now : Z) (v : option rateVisitor) : rateVisitor :=
  mk_visitor (match v with Some v => limiter v | None => NewLimiter (rps rl) (burst rl) end) now.

(** [get] and [Allow] on the bucket it returns, which the map shares. *)
Definition request (now : Z) (ip : string) (rl : RateLimiter) : bool * RateLimiter :=
  let i := shardFor ip in
  match shards rl !! i with
  | None => (true, rl)
  | Some m =>
      let v := visit rl now (m !! ip) in
      let '(ok, l) := Allow now (limiter v) in
      (ok, with_shards (<[i := <[ip := mk_visitor l (lastSeen v)]> m]> (shards rl)) rl)
  end.

Definition fresh (cutoff : Z) (v : rateVisitor) : bool := cutoff <=? lastSeen v.

(** One tick of [reaper]. *)
Definition reap (now : Z) (rl : RateLimiter) : RateLimiter :=
  with_shards (filter (λ iv, fresh (now - idle rl) iv.2 = true) <$> shards rl) rl.

(** [Middleware]: [None] lets the request through. *)
Definition Middleware (now : Z) (ip : string) (rl : RateLimiter) : option response * RateLimiter :=
  if disabled (rps rl) then (None, rl)
  else
    let '(ok, rl) := request now ip rl in
    (if ok then None
     else Some (mk_response 429 [("Retry-After", "1")]
                  (PJSON [("error", HStr "rate limit exceeded"); ("retry_after", HInt 1)])), rl).

(** ** The limiter the shards stand for: one map *)

Record flat := mk_flat { f_map : gmap string rateVisitor; f_of : RateLimiter }.

Definition flat_request (now : Z) (ip : string) (f : flat) : bool * flat :=
  let v := visit (f_of f) now (f_map f !! ip) in
  let '(ok, l) := Allow now (limiter v) in
  (ok, mk_flat (<[ip := mk_visitor l (lastSeen v)]> (f_map f)) (f_of f)).

Definition flat_reap (now : Z) (f : flat) : flat :=
  mk_flat (filter (λ iv, fresh (now - idle (f_of f)) iv.2 = true) (f_map f)) (f_of f).

(** What happens to a limiter: a request of an address, or a tick of the reaper. *)
Inductive event := Arrives (now : Z) (ip : string) | Ticks (now : Z).

Fixpoint decisions (rl : RateLimiter) (l : list event) : list (string * bool) :=
  match l with
  | [] => []
  | Arrives now ip :: l =>
      let '(r, rl) := Middleware now ip rl in (ip, match r with None => true | Some _ => false end) :: decisions rl l
  | Ticks now :: l => decisions (reap now rl) l
  end.

Fixpoint flat_decisions (f : flat) (l : list event) : list (string * bool) :=
  match l with
  | [] => []
  | Arrives now ip :: l =>
      if disabled (rps (f_of f)) then (ip, true) :: flat_decisions f l
      else let '(ok, f) := flat_request now ip f in (ip, ok) :: flat_decisions f l
  | Ticks now :: l => flat_decisions (flat_reap now f) l
  end.

(** ** Facts *)

Lemma shardFor_bound ip : (shardFor ip < 32)%nat.
Proof.
  unfold shardFor, rlShardCount. change (32 - 1) with (Z.ones 5). rewrite Z.land_ones by lia.
  pose proof (Z.mod_pos_bound (fnv 2166136261 ip) (2 ^ 5)). lia.
Qed.

Definition stands_for (rl : RateLimiter) (f : flat) : Prop :=
  rps (f_of f) = rps rl ∧ burst (f_of f) = burst rl ∧ idle (f_of f) = idle rl ∧
  ∀ ip, ∃ m, shards rl !! shardFor ip = Some m ∧ m !! ip = f_map f !! ip.

Lemma request_stands rl f now ip : stands_for rl f →
  (request now ip rl).1 = (flat_request now ip f).1 ∧ stands_for (request now ip rl).2 (flat_request now ip f).2.
Proof.
  intros (Hr & Hb & Hi & Hm). destruct (Hm ip) as (m & Hs & Hv). unfold request, flat_request. rewrite Hs.
  assert (E : visit (f_of f) now (f_map f !! ip) = visit rl now (m !! ip)) by (unfold visit; by rewrite Hv, Hr, Hb).
  rewrite E. destruct (Allow now _) as [ok l]. split; [done|]. split_and!; try done. cbn. intros ip'.
  destruct (Hm ip') as (m' & Hs' & Hv'). destruct (decide (ip' = ip)) as [->|Hne].
  - eexists. rewrite list_lookup_insert_eq by (by eapply lookup_lt_Some). split; [done|]. by rewrite !lookup_insert_eq.
  - rewrite lookup_insert_ne by done. destruct (decide (shardFor ip = shardFor ip')) as [Es|Es].
    + rewrite <- Es, Hs in *. injection Hs' as <-. eexists. rewrite list_lookup_insert_eq by (by eapply lookup_lt_Some).
      split; [done|]. by rewrite lookup_insert_ne.
    + exists m'. by rewrite list_lookup_insert_ne.
Qed.

Lemma filter_lookup_eq (m1 m2 : gmap string rateVisitor) (P : string * rateVisitor → Prop) `{!∀ x, Decision (P x)} ip :
  m1 !! ip = m2 !! ip → filter P m1 !! ip = filter P m2 !! ip.
Proof. intros H. apply option_eq. intros v. by rewrite !map_lookup_filter_Some, H. Qed.

Lemma reap_stands rl f now : stands_for rl f → stands_for (reap now rl) (flat_reap now f).
Proof.
  intros (Hr & Hb & Hi & Hm). unfold reap, flat_reap. split_and!; try done. cbn. intros ip. destruct (Hm ip) as (m & Hs & Hv).
  rewrite list_lookup_fmap, Hs. eexists. split; [done|]. rewrite Hi. by apply filter_lookup_eq.
Qed.

Lemma decisions_flat l rl f : stands_for rl f → decisions rl l = flat_decisions f l.
Proof.
  revert rl f. induction l as [|[now ip|now] l IH]; intros rl f H; [done|..]; cbn [decisions flat_decisions].
  - unfold Middleware. destruct H as (Hr & H'). rewrite Hr. destruct (disabled (rps rl)); [by rewrite (IH rl f)|].
    destruct (request_stands rl f now ip (conj Hr H')) as [E Hs].
    destruct (request now ip rl) as [ok rl'], (flat_request now ip f) as [ok' f']. cbn in E, Hs. subst ok'.
    rewrite (IH rl' f' Hs). by destruct ok.
  - by apply IH, reap_stands.
Qed.

(** The events an address can notice. *)
Definition concerns (ip : string) (e : event) : Prop :=
  match e with Arrives _ ip' => ip' = ip | Ticks _ => True end.
#[export] Instance concerns_dec ip e : Decision (concerns ip e).
Proof. destruct e; unfold concerns; apply _. Defined.

Lemma flat_isolated ip l f g : f_of f = f_of g → f_map f !! ip = f_map g !! ip →
  filter (λ d, d.1 = ip) (flat_decisions f l) = flat_decisions g (filter (concerns ip) l).
Proof.
  revert f g. induction l as [|[now ip'|now] l IH]; intros f g Hof Hm; [done|..]; cbn [flat_decisions].
  - rewrite (filter_cons (concerns ip)). destruct (decide (concerns ip (Arrives now ip'))) as [Hc|Hc]; cbn in Hc.
    + subst ip'. cbn [flat_decisions]. rewrite <- Hof. destruct (disabled _).
      { rewrite filter_cons_True by done. by rewrite (IH f g). }
      unfold flat_request. rewrite <- Hof, <- Hm. destruct (Allow now _) as [ok b].
      rewrite filter_cons_True by done. f_equal. apply IH; [done|]. cbn. by rewrite !lookup_insert_eq.
    + destruct (disabled _); [rewrite filter_cons_False by done; by apply IH|].
      unfold flat_request. destruct (Allow now _) as [ok b]. rewrite filter_cons_False by done.
      apply IH; [done|]. cbn. by rewrite lookup_insert_ne.
  - rewrite (filter_cons_True (concerns ip)) by done. cbn [flat_decisions]. apply IH; [done|]. cbn. rewrite Hof.
    by apply filter_lookup_eq.
Qed.

(** C34: rate limiting is per address.  The limiter the environment configures has room for
    at least one request and a positive idle time, whatever the variables say; its shards
    decide every sequence of requests and reaper ticks exactly as one map of buckets
    would; and what an address is told does not depend on the requests of any other. *)
Theorem rate_limit_per_address (LookupEnv : string → option string) (ParseFloat : string → option spec_float)
    (ParseDuration : string → option Z) (l : list event) (ip : string) :
  let rl := NewRateLimiter LookupEnv ParseFloat ParseDuration in
  1 ≤ burst rl ∧ 0 < idle rl ∧
  decisions rl l = flat_decisions (mk_flat ∅ rl) l ∧
  filter (λ d, d.1 = ip) (decisions rl l) = decisions rl (filter (concerns ip) l).
Proof.
  cbv zeta. set (rl := NewRateLimiter _ _ _).
  assert (Hs : stands_for rl (mk_flat ∅ rl)).
  { split_and!; try done. intros ip'. exists ∅. split; [|done]. cbn [shards rl NewRateLimiter].
    apply lookup_replicate. split; [done|]. apply (shardFor_bound ip'). }
  split_and!.
  - cbn. case_match; lia.
  - cbn. case_match; [done|lia].
  - by apply decisions_flat.
  - rewrite !(decisions_flat _ rl (mk_flat ∅ rl)) by done. by apply flat_isolated.
Qed.

End limiter.
