(* ===== verification/Upload.v ===== *)
(** * Uploads ([router/routers.go]: [/upload] and [/bulk-upload])

    From a request to a stored artifact and a published job: the checks in the order the
    handlers make them, the write to the store, the guarded publication, and the clean-up
    after a failed one.  A handler is a computation that may stop with a response. *)
From Stdlib Require Import Ascii.
From S2P Require Import Prelude GoStr GoErr GoTime GoPath ScanJob Redis Wp Queue QueueSpec JobLife Storage Artifact Webhook Compare Router.

Local Open Scope Z_scope.

#[local] Notation request := Router.request.
#[local] Notation ContentLength := Router.ContentLength.
#[local] Notation Body := Router.Body.
#[local] Notation body := Router.body.

(** ** The artifact store, with its writing operation *)

Class UploadStore := {
  up_ops :: StorageOps;
  up_Put : string → string → Z → filesys → res unit * filesys }.

(** A completed write makes the object readable with the bytes of the declared length, a
    failed one changes nothing, and deleting a new object undoes its write. *)
Class UploadStoreLaws (U : UploadStore) : Prop := {
  up_put_Ok k c n f f' : up_Put k c n f = (Ok tt, f') → ∃ data, copied c n = Some data ∧ st_Open k f' = Ok data;
  up_put_Err k c n f e f' : up_Put k c n f = (Err e, f') → f' = f;
  up_put_undone k c n f f1 f2 : is_ok (st_Open k f) = false →
    up_Put k c n f = (Ok tt, f1) → st_Delete k f1 = (Ok tt, f2) → f2 = f;
  up_deleted k f f' : st_Delete k f = (Ok tt, f') → is_ok (st_Open k f') = false }.

(** The local back end; [tmp_of] names the temporary file. *)
Definition local_uploads (base : string) (fault : option put_fault) (tmp_of : filesys → string) : UploadStore := {|
  up_ops := local_ops base;
  up_Put k c n f := Put base fault (tmp_of f) k c n f |}.

(** ** Names *)

Definition isSupportedPackageExt (filename : string) : bool :=
  bool_decide (ToLower (Ext filename) ∈ [".apk"; ".ipa"]).

Definition packageFileType (filename : string) : string :=
  if decide (ToLower (Ext filename) = ".ipa") then "ipa" else "apk".

Definition backslash : string := String (byte_of 92) "".

Definition has_traversal (filename : string) : bool :=
  Contains filename ".." || Contains filename "/" || Contains filename backslash.

(** ** Handlers *)

Record upload_file := mk_upload { Filename : string; Size : Z; Content : string; OpenErr : option error }.

(** A parsed form: the file under "file", the files under "files", and the values. *)
Record form := mk_form { form_file : option upload_file; form_files : list upload_file; form_values : list (string * string) }.

Definition PostForm (f : form) (key : string) : string :=
  default "" (snd <$> find (λ kv, bool_decide (kv.1 = key)) (form_values f)).

Section uploads.
Context `{S : RedisServer} {codec : MapCodec} {U : UploadStore}.
Context (LookupEnv : string → option string).
(** [queue.GetQueue() != nil], [getUploadStore() != nil] and the database connection. *)
Context (have_queue have_store : bool) (conn : dbconn).
(** Name resolution, as for [ValidateWebhookURL]. *)
Context (url_Parse : string → res (string * string)) (ParseIP : string → option IP) (IP_String : IP → string).
Context {W : Type} (LookupIPAddr : string → W → res (list IP) * W).
(** [uuid.New().String()]: the identifiers in the order they are drawn. *)
Context (uuid : nat → string).
(** The multipart parser, on what [MaxBytesReader] lets through. *)
Context (ParseMultipartForm : string * bool → res form).
(** The request's correlation id and the trace carrier injected into its job. *)
Context (requestID : string) (traceCarrier : gmap string string).

Record site := mk_site { s_world : world; s_files : filesys; s_drawn : nat; s_net : W }.

(** A computation that may stop with the response. *)
Definition Hd (A : Type) : Type := site → (response + A) * site.

#[export] Instance Hd_ret : MRet Hd := λ A a s, (inr a, s).
#[export] Instance Hd_bind : MBind Hd := λ A B f m s,
  match m s with
  | (inr a, s') => f a s'
  | (inl r, s') => (inl r, s')
  end.

Definition stop {A} (r : response) : Hd A := λ s, (inl r, s).
Definition guard_ (bad : bool) (r : response) : Hd unit := if bad then stop r else mret tt.

Definition on_queue {A} (m : M A) : Hd (res A) := λ s,
  let '(r, w) := m (s_world s) in (inr r, mk_site w (s_files s) (s_drawn s) (s_net s)).
Definition on_store {A} (m : filesys → res A * filesys) : Hd (res A) := λ s,
  let '(r, f) := m (s_files s) in (inr r, mk_site (s_world s) f (s_drawn s) (s_net s)).
Definition new_uuid : Hd string := λ s,
  (inr (uuid (s_drawn s)), mk_site (s_world s) (s_files s) (Datatypes.S (s_drawn s)) (s_net s)).
Definition time_now : Hd gotime := λ s, (inr (time_Now (s_world s)), s).

(** The optional webhook of a form is checked at intake. *)
Definition check_webhook (webhookURL : string) : Hd unit := λ s,
  if decide (webhookURL = "") then (inr tt, s)
  else
    let '(err, n) := ValidateWebhookURL url_Parse ParseIP IP_String LookupIPAddr webhookURL (s_net s) in
    let s := mk_site (s_world s) (s_files s) (s_drawn s) n in
    match err with
    | Some e => (inl (failure 400 ("Invalid webhook_url: " +:+ Error e)), s)
    | None => (inr tt, s)
    end.

Definition check_database : Hd unit :=
  match checkDatabaseStatus conn with
  | Some e => stop (failure 503 (Error e))
  | None => mret tt
  end.

Definition busy (msg : string) : response := json 429 [("error", HStr msg); ("retry_after", HInt 60)].

Definition threshold : Z := queueDepthThreshold LookupEnv.

(** The early look at the queue's depth: an unreadable depth is a refusal. *)
Definition probe_depth : Hd Z :=
  r ← on_queue GetQueueDepth;
  match r with
  | Err _ => stop (busy "Queue backpressure check unavailable, please try again later")
  | Ok depth => mret depth
  end.

Definition too_large (what : string) (limit size : Z) : response :=
  json 413 [("error", HStr what); ("max_size", HInt limit); ("size", HInt size)].

(** The job of a stored file. *)
Definition upload_job (jobID storageKey filename : string) (now : gotime) (scanTimeout : Z)
    (webhookURL webhookSecret : string) (trace : gmap string string) : ScanJob :=
  mk_job jobID JobStatusQueued storageKey (packageFileType filename) filename now None None None "" "" "" "" 0
    webhookURL webhookSecret scanTimeout storageKey requestID trace.

(** [POST /upload] *)
Definition upload (r : request) : Hd response :=
  _ ← guard_ (maxUploadSize <? ContentLength r) (too_large "File too large" maxUploadSize (ContentLength r));
  form ← match ParseMultipartForm (MaxBytesReader maxUploadSize (Body r)) with
         | Err e => stop (failure 400 ("File upload error: " +:+ Error e))
         | Ok f => mret f
         end;
  file ← match form_file form with
         | None => stop (failure 400 "File upload error: http: no such file")
         | Some f => mret f
         end;
  _ ← guard_ (maxUploadSize <? Size file) (too_large "File too large" maxUploadSize (Size file));
  _ ← guard_ (negb (isSupportedPackageExt (Filename file))) (failure 400 "Only APK or IPA files are allowed");
  _ ← guard_ (has_traversal (Filename file)) (failure 400 "Invalid filename: path traversal detected");
  _ ← check_database;
  _ ← guard_ (negb have_queue) (failure 503 "Job queue not available");
  queueDepth ← probe_depth;
  _ ← guard_ (threshold <? queueDepth) (busy "Queue is full, please try again later");
  let webhookURL := PostForm form "webhook_url" in
  let webhookSecret := PostForm form "webhook_secret" in
  _ ← check_webhook webhookURL;
  let scanTimeout := match Atoi (PostForm form "scan_timeout") with
                     | Some n => if 0 <? n then n else 0 | None => 0 end in
  _ ← guard_ (negb have_store) (failure 500 "Storage backend not available");
  id ← new_uuid;
  let storageKey := id +:+ Ext (Filename file) in
  _ ← guard_ (bool_decide (is_Some (Error <$> OpenErr file))) (failure 500 "Failed to read uploaded file");
  put ← on_store (up_Put storageKey (Content file) (Size file));
  _ ← guard_ (negb (is_ok put)) (failure 500 "Failed to store uploaded file");
  jobID ← new_uuid;
  now ← time_now;
  let job := upload_job jobID storageKey (Filename file) now scanTimeout webhookURL webhookSecret traceCarrier in
  queued ← on_queue (EnqueueJobAtomicWithLimit job threshold 1);
  match queued with
  | Err e =>
      _ ← on_store (st_Delete storageKey);
      if errors_Is e ErrQueueFull then mret (busy "Queue is full, please try again later")
      else mret (failure 500 "Failed to queue job")
  | Ok _ =>
      mret (json 202 [("message", HStr "File uploaded successfully. Processing started."); ("job_id", HStr jobID)])
  end.

(** One file of a bulk upload: the id of its job, or the error reported for it. *)
Definition bulk_file (webhookURL webhookSecret : string) (file : upload_file) : Hd (string + string) :=
  let bad := λ msg, mret (inr (Filename file +:+ ": " +:+ msg)) : Hd (string + string) in
  if negb (isSupportedPackageExt (Filename file)) then bad "Only APK or IPA files are allowed"
  else if maxUploadSize <? Size file then bad ("File too large (max " +:+ itoa maxUploadSize +:+ " bytes)")
  else if has_traversal (Filename file) then bad "Invalid filename: path traversal detected"
  else
    id ← new_uuid;
    let storageKey := id +:+ Ext (Filename file) in
    match OpenErr file with
    | Some e => bad ("Failed to read file: " +:+ Error e)
    | None =>
        put ← on_store (up_Put storageKey (Content file) (Size file));
        match put with
        | Err e => bad ("Failed to store file: " +:+ Error e)
        | Ok _ =>
            jobID ← new_uuid;
            now ← time_now;
            let job := upload_job jobID storageKey (Filename file) now 0 webhookURL webhookSecret ∅ in
            queued ← on_queue (EnqueueJobAtomicWithLimit job threshold 1);
            match queued with
            | Err e =>
                _ ← on_store (st_Delete storageKey);
                if errors_Is e ErrQueueFull then bad "Queue is full, rejected"
                else bad ("Failed to queue job: " +:+ Error e)
            | Ok _ => mret (inl jobID)
            end
        end
    end.

Fixpoint bulk_files (webhookURL webhookSecret : string) (l : list upload_file) : Hd (list string * list string) :=
  match l with
  | [] => mret ([], [])
  | file :: l =>
      r ← bulk_file webhookURL webhookSecret file;
      rest ← bulk_files webhookURL webhookSecret l;
      mret (match r with inl id => (id :: rest.1, rest.2) | inr e => (rest.1, e :: rest.2) end)
  end.

Definition bulk_report (n : nat) (ids errs : list string) : response :=
  json (if decide (ids = []) then 400 else 202)
    ([("message", HStr ("Processed " +:+ itoa (Z.of_nat n) +:+ " files")); ("total_files", HInt (Z.of_nat n));
      ("successful", HInt (zlen ids)); ("failed", HInt (zlen errs)); ("job_ids", HList (HStr <$> ids))] ++
     (if decide (errs = []) then [] else [("errors", HList (HStr <$> errs))])).

(** [POST /bulk-upload] *)
Definition bulk_upload (r : request) : Hd response :=
  _ ← guard_ (maxBulkUploadSize <? ContentLength r) (too_large "Bulk upload too large" maxBulkUploadSize (ContentLength r));
  form ← match ParseMultipartForm (MaxBytesReader maxBulkUploadSize (Body r)) with
         | Err e => stop (failure 400 ("Failed to parse form: " +:+ Error e))
         | Ok f => mret f
         end;
  let files := form_files form in
  _ ← guard_ (bool_decide (files = [])) (failure 400 "No files provided");
  _ ← guard_ (50 <? zlen files) (failure 400 "Maximum 50 files allowed per bulk upload");
  let webhookURL := PostForm form "webhook_url" in
  let webhookSecret := PostForm form "webhook_secret" in
  _ ← check_webhook webhookURL;
  _ ← check_database;
  _ ← guard_ (negb have_queue) (failure 503 "Job queue not available");
  queueDepth ← probe_depth;
  _ ← guard_ (threshold <? queueDepth + zlen files) (busy "Queue is too full for bulk upload, please try again later");
  _ ← guard_ (negb have_store) (failure 500 "Storage backend not available");
  result ← bulk_files webhookURL webhookSecret files;
  mret (bulk_report (length files) result.1 result.2).

(** The response of a handler, however it ended. *)
Definition serve (h : Hd response) (s : site) : response * site :=
  let '(r, s') := h s in (match r with inl r => r | inr r => r end, s').

End uploads.

(** ** Stepping through a handler *)

Section rules.
Context `{S : RedisServer} `{!RedisLaws S} {codec : MapCodec} {U : UploadStore} {W : Type}.
#[local] Notation site := (@site S W).

Definition hwp {A} (m : @Hd S W A) (Q : response + A → site → Prop) (s : site) : Prop :=
  let '(r, s') := m s in Q r s'.

Lemma hwp_bind {A B} (m : @Hd S W A) (f : A → @Hd S W B) Q s :
  hwp m (λ r s', match r with inl r => Q (inl r) s' | inr a => hwp (f a) Q s' end) s → hwp (m ≫= f) Q s.
Proof. unfold hwp, mbind, Hd_bind. by destruct (m s) as [[r|a] s']. Qed.

Lemma hwp_ret {A} (a : A) (Q : response + A → site → Prop) s : Q (inr a) s → hwp (mret a) Q s.
Proof. done. Qed.

Lemma hwp_stop {A} (r : response) (Q : response + A → site → Prop) s : Q (inl r) s → hwp (stop r) Q s.
Proof. done. Qed.

Lemma hwp_guard bad r (Q : response + unit → site → Prop) s :
  (bad = true → Q (inl r) s) → (bad = false → Q (inr tt) s) → hwp (guard_ bad r) Q s.
Proof. destruct bad; cbn; auto. Qed.

(** Nothing published and nothing stored. *)
Definition untouched (s s' : site) : Prop := db (s_world s') = db (s_world s) ∧ s_files s' = s_files s ∧ s_drawn s' = s_drawn s.

Lemma hwp_check_webhook url_Parse ParseIP IP_String LookupIPAddr url (Q : response + unit → site → Prop) s :
  (∀ r s', untouched s s' → status r = 400 → Q (inl r) s') → (∀ s', untouched s s' → Q (inr tt) s') →
  hwp (check_webhook url_Parse ParseIP IP_String LookupIPAddr url) Q s.
Proof.
  intros Hl Hr. unfold hwp, check_webhook. case_decide; [by apply Hr|].
  destruct (ValidateWebhookURL _ _ _ _ _ _) as [[e|] n]; [by apply Hl|by apply Hr].
Qed.

Lemma hwp_check_database conn (Q : response + unit → site → Prop) s :
  (∀ r, status r = 503 → Q (inl r) s) → Q (inr tt) s → hwp (check_database conn) Q s.
Proof. unfold check_database. destruct (checkDatabaseStatus conn); intros Hl Hr; [by apply Hl|done]. Qed.

Lemma GetQueueDepth_db w : db (GetQueueDepth w).2 = db w.
Proof.
  unfold GetQueueDepth, mbind, M_bind.
  assert (Hd : db (redisDo (command (LLEN jobQueueKey)) w).2 = db w) by by apply Cache.redisDo_read, Cache.command_read.
  by destruct (redisDo _ w) as [[p|e] w1].
Qed.

Lemma hwp_probe_depth (Q : response + Z → site → Prop) s :
  (∀ r s', untouched s s' → status r = 429 → Q (inl r) s') → (∀ n s', untouched s s' → Q (inr n) s') →
  hwp probe_depth Q s.
Proof.
  intros Hl Hr. unfold probe_depth. apply hwp_bind. unfold hwp, on_queue.
  pose proof (GetQueueDepth_db (s_world s)) as Hd. destruct (GetQueueDepth (s_world s)) as [[n|e] w].
  - by apply Hr.
  - by apply Hl.
Qed.

(** The outcome of the guarded publication in a handler. *)
Lemma hwp_publish job limit (Q : response + res unit → site → Prop) s :
  (∀ s', s_files s' = s_files s → db (s_world s') = published job (db (s_world s)) →
     (0 < limit → depth (db (s_world s)) + 1 ≤ limit) → Q (inr (Ok tt)) s') →
  (∀ e s', s_files s' = s_files s → db (s_world s') = db (s_world s) → Q (inr (Err e)) s') →
  (∀ e s', s_files s' = s_files s → db (s_world s') = published job (db (s_world s)) →
     (0 < limit → depth (db (s_world s)) + 1 ≤ limit) → Q (inr (Err e)) s') →
  hwp (on_queue (EnqueueJobAtomicWithLimit job limit 1)) Q s.
Proof.
  intros Hok Herr Hlost. unfold hwp, on_queue.
  pose proof (EnqueueJobAtomicWithLimit_outcome job limit 1 (s_world s)) as Ho. unfold wp in Ho.
  assert (Hlim : (0 <? limit) && (limit <? depth (db (s_world s)) + 1) = false →
    0 < limit → depth (db (s_world s)) + 1 ≤ limit) by (destruct (Z.ltb_spec 0 limit); cbn; lia).
  destruct (EnqueueJobAtomicWithLimit job limit 1 (s_world s)) as [r w].
  unfold admission_outcome in Ho. cbn [fst snd] in Ho. cbv zeta in Ho.
  destruct Ho as [(Hr & _ & Hd)|[(Hr & Hn & Hd)|(Hf & _ & [Hd|[Hn Hd]])]].
  - subst r. by apply Herr.
  - subst r. apply Hok; [done|done|exact (Hlim Hn)].
  - destruct r as [u|e]; [by unfold failed in Hf|]. by apply Herr.
  - destruct r as [u|e]; [by unfold failed in Hf|]. apply Hlost; [done|done|by apply Hlim].
Qed.

Lemma hwp_serve (h : @Hd S W response) (Q : response → site → Prop) s :
  hwp h (λ r s', Q (match r with inl r => r | inr r => r end) s') s → let '(r, s') := serve h s in Q r s'.
Proof. unfold hwp, serve. by destruct (h s) as [r s']. Qed.

End rules.

(** ** What an upload leaves behind *)

Section outcomes.
Context `{S : RedisServer} `{!RedisLaws S} {codec : MapCodec} {U : UploadStore} `{!UploadStoreLaws U}.
Context (LookupEnv : string → option string) (have_queue have_store : bool) (conn : dbconn).
Context (url_Parse : string → res (string * string)) (ParseIP : string → option IP) (IP_String : IP → string).
Context {W : Type} (LookupIPAddr : string → W → res (list IP) * W) (uuid : nat → string).
Context (ParseMultipartForm : string * bool → res form) (requestID : string) (traceCarrier : gmap string string).

#[local] Notation site := (@site S W).
#[local] Notation upload := (upload LookupEnv have_queue have_store conn url_Parse ParseIP IP_String LookupIPAddr uuid
  ParseMultipartForm requestID traceCarrier).
#[local] Notation limit := (threshold LookupEnv).

Definition admissible (file : upload_file) : Prop :=
  Size file ≤ maxUploadSize ∧ isSupportedPackageExt (Filename file) = true ∧ has_traversal (Filename file) = false.

(** The file is stored under the next identifier, its job published under the one after. *)
Definition accepted (file : upload_file) (job : ScanJob) (s s' : site) : Prop :=
  admissible file ∧ ID job = uuid (Datatypes.S (s_drawn s)) ∧ Status job = JobStatusQueued ∧
  StorageKey job = uuid (s_drawn s) +:+ Ext (Filename file) ∧ FileType job = packageFileType (Filename file) ∧
  db (s_world s') = published job (db (s_world s)) ∧ (0 < limit → depth (db (s_world s')) ≤ limit) ∧
  ∃ data, copied (Content file) (Size file) = Some data ∧ st_Open (StorageKey job) (s_files s') = Ok data.

(** What was stored has been deleted again, as far as the store did it. *)
Definition withdrawn (key : string) (file : upload_file) (s s' : site) : Prop :=
  key = uuid (s_drawn s) +:+ Ext (Filename file) ∧
  ∃ f1 r, up_Put key (Content file) (Size file) (s_files s) = (Ok tt, f1) ∧ st_Delete key f1 = (r, s_files s').

(** The file of a request, as the parser finds it in the limited body. *)
Definition submitted (r : request) (file : upload_file) : Prop :=
  ∃ form, ParseMultipartForm (MaxBytesReader maxUploadSize (Body r)) = Ok form ∧ form_file form = Some file.

Definition upload_result (r : request) (resp : response) (s s' : site) : Prop :=
  (status resp = 202 ∧ ∃ file job, submitted r file ∧ accepted file job s s' ∧
     body resp = PJSON [("message", HStr "File uploaded successfully. Processing started."); ("job_id", HStr (ID job))]) ∨
  (status resp ≠ 202 ∧ db (s_world s') = db (s_world s) ∧
     (s_files s' = s_files s ∨ ∃ key file, submitted r file ∧ withdrawn key file s s')) ∨
  (status resp ≠ 202 ∧ ∃ file job, submitted r file ∧ db (s_world s') = published job (db (s_world s)) ∧
     (0 < limit → depth (db (s_world s')) ≤ limit) ∧ withdrawn (StorageKey job) file s s').

Ltac refused := right; left; split; [by cbn|]; split; [congruence|left; congruence].

Lemma upload_result_holds r s : let '(resp, s') := serve (upload r) s in upload_result r resp s s'.
Proof.
  apply (hwp_serve _ (λ resp s', upload_result r resp s s')). unfold upload.
  apply hwp_bind, hwp_guard; intros _; [refused|]. apply hwp_bind.
  destruct (ParseMultipartForm _) as [form|e] eqn:Hform; [|apply hwp_stop; refused]. apply hwp_ret, hwp_bind.
  destruct (form_file form) as [file|] eqn:Hfile; [|apply hwp_stop; refused]. apply hwp_ret.
  assert (Hsub : submitted r file) by (by exists form).
  apply hwp_bind, hwp_guard; intros Hsize; [refused|]. apply hwp_bind, hwp_guard; intros Hext; [refused|].
  apply hwp_bind, hwp_guard; intros Htr; [refused|].
  apply hwp_bind, hwp_check_database; [intros resp Hst; right; left; rewrite Hst; split; [done|by split; [|left]]|].
  apply hwp_bind, hwp_guard; intros _; [refused|]. apply hwp_bind, hwp_probe_depth.
  { intros resp s1 (Hd & Hf & _) Hst. right; left. rewrite Hst. split; [done|]. by split; [|left]. }
  intros n s1 (Hd1 & Hf1 & Hu1). apply hwp_bind, hwp_guard; intros _; [refused|]. cbv zeta.
  apply hwp_bind, hwp_check_webhook.
  { intros resp s2 (Hd & Hf & _) Hst. right; left. rewrite Hst. split; [done|]. split; [congruence|left; congruence]. }
  intros s2 (Hd2 & Hf2 & Hu2). apply hwp_bind, hwp_guard; intros _; [refused|].
  apply hwp_bind. unfold hwp at 1, new_uuid. apply hwp_bind, hwp_guard; intros _; [right; left; split; [done|]; cbn; split; [congruence|left; congruence]|].
  apply hwp_bind. unfold hwp at 1, on_store. cbn [s_files s_world s_drawn s_net].
  rewrite Hf2, Hf1, Hu2, Hu1.
  destruct (up_Put _ (Content file) (Size file) (s_files s)) as [put f1] eqn:Hput.
  apply hwp_bind, hwp_guard; intros Hok.
  { destruct put as [u|e]; [done|]. apply up_put_Err in Hput as ->. right; left. split; [done|]. cbn. split; [congruence|by left]. }
  destruct put as [[]|e]; [|done]. apply hwp_bind. unfold hwp at 1, new_uuid. apply hwp_bind. unfold hwp at 1, time_now.
  cbn [s_files s_world s_drawn s_net]. apply hwp_bind, hwp_publish; cbn [s_files s_world s_drawn s_net]; rewrite ?Hd2, ?Hd1.
  - intros s3 Hf3 Hd3 Hlim. apply hwp_ret. left. split; [done|]. exists file. refine (ex_intro _ (upload_job _ _ _ _ _ _ _ _ _) _). split; [done|]. split; [|done].
    destruct (up_put_Ok _ _ _ _ _ Hput) as (data & Hc & Ho).
    unfold accepted, admissible. cbn [ID Status StorageKey FileType upload_job]. split_and!; try done.
    + lia.
    + by apply negb_false_iff.
    + rewrite Hd3, published_depth. done.
    + exists data. by rewrite Hf3.
  - intros e s3 Hf3 Hd3. apply hwp_bind. unfold hwp at 1, on_store.
    destruct (st_Delete _ (s_files s3)) as [dr f2] eqn:Hdel. rewrite Hf3 in Hdel.
    destruct (errors_Is e ErrQueueFull); apply hwp_ret; right; left; split; try done; (split; [done|]); right;
      eexists _, file; (split; [done|]); (split; [done|]); exists f1, dr; split; done.
  - intros e s3 Hf3 Hd3 Hlim. apply hwp_bind. unfold hwp at 1, on_store.
    destruct (st_Delete _ (s_files s3)) as [dr f2] eqn:Hdel. rewrite Hf3 in Hdel.
    destruct (errors_Is e ErrQueueFull); apply hwp_ret; right; right; split; try done; exists file; eexists;
      (split; [done|]); (split; [done|]); (split; [cbn; rewrite Hd3, published_depth; done|]); (split; [done|]); exists f1, dr; split; done.
Qed.



(** ** Bulk uploads *)

#[local] Notation bulk_file := (bulk_file LookupEnv uuid requestID).
#[local] Notation bulk_files := (bulk_files LookupEnv uuid requestID).
#[local] Notation bulk_upload := (bulk_upload LookupEnv have_queue have_store conn url_Parse ParseIP IP_String LookupIPAddr uuid
  ParseMultipartForm requestID).
#[local] Notation queue s := (rlist (db (s_world s)) jobQueueKey).

(** The queue grew at its end by the jobs of [ids], and by no more than [n] in all. *)
Definition queued (ids : list string) (n : nat) (s s' : site) : Prop :=
  ∃ added, queue s' = queue s ++ added ∧ ids `sublist_of` added ∧ (length added ≤ n)%nat ∧
    (0 < limit → depth (db (s_world s')) ≤ Z.max limit (depth (db (s_world s)))).

Lemma queued_none n s s' : db (s_world s') = db (s_world s) → queued [] n s s'.
Proof. intros H. exists []. rewrite H, app_nil_r. split_and!; [done..|cbn; lia|lia]. Qed.

Lemma queued_one job ids n s s' : db (s_world s') = published job (db (s_world s)) →
  (0 < limit → depth (db (s_world s)) + 1 ≤ limit) → ids `sublist_of` [ID job] → (0 < n)%nat → queued ids n s s'.
Proof.
  intros H Hl Hs Hn. exists [ID job]. rewrite H. destruct (published_obs job (db (s_world s))) as (_ & -> & _).
  rewrite published_depth. split_and!; [done..|cbn; lia|lia].
Qed.

Lemma queued_trans ids1 ids2 n1 n2 s s1 s2 : queued ids1 n1 s s1 → queued ids2 n2 s1 s2 → queued (ids1 ++ ids2) (n1 + n2) s s2.
Proof.
  intros (a & Ha & Hs & Hn & Hd) (b & Hb & Hs' & Hn' & Hd'). exists (a ++ b).
  rewrite Hb, Ha, app_assoc. split_and!; [done|by apply sublist_app|rewrite length_app; lia|lia].
Qed.

Lemma bulk_file_result url secret file s :
  hwp (bulk_file url secret file) (λ r s', ∃ o, r = inr o ∧
    queued (match o with inl id => [id] | inr _ => [] end) 1 s s') s.
Proof.
  unfold bulk_file. cbv zeta. destruct (negb _); [apply hwp_ret; eexists; split; [done|by apply queued_none]|].
  destruct (_ <? _); [apply hwp_ret; eexists; split; [done|by apply queued_none]|].
  destruct (has_traversal _); [apply hwp_ret; eexists; split; [done|by apply queued_none]|].
  apply hwp_bind. unfold hwp at 1, new_uuid. destruct (OpenErr file); [apply hwp_ret; eexists; split; [done|by apply queued_none]|].
  apply hwp_bind. unfold hwp at 1, on_store. cbn [s_files s_world s_drawn s_net].
  destruct (up_Put _ _ _ _) as [[u|e] f1]; [|apply hwp_ret; eexists; split; [done|by apply queued_none]].
  apply hwp_bind. unfold hwp at 1, new_uuid. apply hwp_bind. unfold hwp at 1, time_now. cbn [s_files s_world s_drawn s_net].
  apply hwp_bind, hwp_publish; cbn [s_files s_world s_drawn s_net].
  - intros s3 _ Hd Hl. apply hwp_ret. eexists. split; [done|]. by eapply queued_one; [done..|constructor].
  - intros e s3 _ Hd. apply hwp_bind. unfold hwp at 1, on_store. destruct (st_Delete _ _) as [dr f2].
    destruct (errors_Is e ErrQueueFull); apply hwp_ret; eexists; (split; [done|by apply queued_none]).
  - intros e s3 _ Hd Hl. apply hwp_bind. unfold hwp at 1, on_store. destruct (st_Delete _ _) as [dr f2].
    destruct (errors_Is e ErrQueueFull); apply hwp_ret; eexists; (split; [done|]);
      (eapply queued_one; [done|done|apply sublist_nil_l|lia]).
Qed.

Lemma bulk_files_result url secret l s :
  hwp (bulk_files url secret l) (λ r s', ∃ ids errs, r = inr (ids, errs) ∧
    (length ids + length errs = length l)%nat ∧ queued ids (length l) s s') s.
Proof.
  revert s. induction l as [|file l IH]; intros s; cbn [bulk_files Upload.bulk_files].
  { apply hwp_ret. exists [], []. split_and!; [done..|by apply queued_none]. }
  apply hwp_bind. pose proof (bulk_file_result url secret file s) as H1. unfold hwp in H1 |- * at 1.
  destruct (bulk_file url secret file s) as [r s1]. destruct H1 as (o & -> & H1).
  apply hwp_bind. specialize (IH s1). unfold hwp in IH |- * at 1.
  destruct (bulk_files url secret l s1) as [r s2]. destruct IH as (ids & errs & -> & Hn & H2).
  apply hwp_ret. pose proof (queued_trans _ _ _ _ _ _ _ H1 H2) as H.
  destruct o as [id|e]; eexists _, _; (split; [done|]); cbn; (split; [lia|done]).
Qed.

(** A bulk upload accounts for every file and overfills nothing.  Either the request is
    refused before its files are looked at, and then nothing was published or stored; or
    it had between 1 and 50 files and is answered with exactly one entry for each, a job
    id or an error.  Every id it returns was appended to the main queue, in the order of
    the files, and the queue has only grown at its end, by no more jobs than files and not
    past the configured depth. *)
Theorem bulk_upload_accounts (r : request) (s : site) :
  let '(resp, s') := serve (bulk_upload r) s in
  (status resp ≠ 202 ∧ db (s_world s') = db (s_world s) ∧ s_files s' = s_files s) ∨
  ∃ form ids errs, ParseMultipartForm (MaxBytesReader maxBulkUploadSize (Body r)) = Ok form ∧
    (1 ≤ length (form_files form) ≤ 50)%nat ∧ (length ids + length errs = length (form_files form))%nat ∧
    resp = bulk_report (length (form_files form)) ids errs ∧ queued ids (length (form_files form)) s s'.
Proof.
  apply (hwp_serve _ (λ resp s', _ ∨ _)). unfold Upload.bulk_upload.
  apply hwp_bind, hwp_guard; intros _; [by left|]. apply hwp_bind.
  destruct (ParseMultipartForm _) as [form|e] eqn:Hform; [|apply hwp_stop; by left]. apply hwp_ret. cbv zeta.
  apply hwp_bind, hwp_guard; intros Hne; [by left|]. apply hwp_bind, hwp_guard; intros H50; [by left|].
  apply hwp_bind, hwp_check_webhook; [intros resp s1 (Hd & Hf & _) Hst; left; by rewrite Hst|].
  intros s1 (Hd1 & Hf1 & _). apply hwp_bind, hwp_check_database; [intros resp Hst; left; by rewrite Hst|].
  apply hwp_bind, hwp_guard; intros _; [by left|].
  apply hwp_bind, hwp_probe_depth; [intros resp s2 (Hd & Hf & _) Hst; left; rewrite Hst; split; [done|split; congruence]|].
  intros n s2 (Hd2 & Hf2 & _). apply hwp_bind, hwp_guard; intros _; [left; split; [done|split; congruence]|].
  apply hwp_bind, hwp_guard; intros _; [left; split; [done|split; congruence]|].
  apply hwp_bind. pose proof (bulk_files_result (PostForm form "webhook_url") (PostForm form "webhook_secret") (form_files form) s2) as H.
  unfold hwp in H |- * at 1. destruct (bulk_files _ _ (form_files form) s2) as [res s3]. destruct H as (ids & errs & -> & Hn & Hq).
  apply hwp_ret. right. exists form, ids, errs. apply bool_decide_eq_false in Hne. unfold zlen in H50. split_and!; try done.
  - destruct (form_files form); [done|cbn; lia].
  - lia.
  - unfold queued in *. by rewrite Hd2, Hd1 in Hq.
Qed.

End outcomes.

(** ** From the request to the worker *)

Lemma put_local base fault tmp_of key c n f : (∀ g, g !! tmp_of g = None) →
  let '(r, f') := Put base fault (tmp_of f) key c n f in
  match r with
  | Ok _ => ∃ full data, resolve base key = Ok full ∧ copied c n = Some data ∧ f' = <[full := data]> f
  | Err _ => f' = f
  end.
Proof.
  intros Htmp. unfold Put. destruct (match fault with Some FailCtx => true | _ => false end) eqn:Ec.
  { by destruct fault as [[]|]. }
  assert (Hback : ∀ v g, g = <[tmp_of f := v]> (<[tmp_of f := ""]> f) → delete (tmp_of f) g = f).
  { intros v g ->. rewrite insert_insert_eq. by rewrite delete_insert_id. }
  destruct (resolve base key) as [full|e] eqn:Er; destruct fault as [[]|]; try done;
    destruct (copied c n) as [data|] eqn:Ed; cbn in *; try done; try by eapply Hback.
  exists full, data. split_and!; try done. f_equal. by eapply Hback.
Qed.

#[export] Instance local_uploads_laws base fault tmp_of (Htmp : ∀ g, g !! tmp_of g = None) :
  UploadStoreLaws (local_uploads base fault tmp_of).
Proof.
  split; cbn [up_Put up_ops local_uploads st_Open st_Delete local_ops].
  - intros k c n f f' H. pose proof (put_local base fault tmp_of k c n f Htmp) as Hp. rewrite H in Hp.
    destruct Hp as (full & data & Hr & Hc & ->). exists data. split; [done|]. unfold Open. cbn [negb]. rewrite Hr.
    cbn [mbind res_bind]. by rewrite lookup_insert_eq.
  - intros k c n f e f' H. pose proof (put_local base fault tmp_of k c n f Htmp) as Hp. by rewrite H in Hp.
  - intros k c n f f1 f2 Hno H Hd. pose proof (put_local base fault tmp_of k c n f Htmp) as Hp. rewrite H in Hp.
    destruct Hp as (full & data & Hr & Hc & ->). unfold Open, Delete in *. cbn [negb] in *. rewrite Hr in *.
    cbn [mbind res_bind] in *. injection Hd as <-. rewrite delete_insert_eq.
    destruct (f !! full) eqn:E; [done|]. by rewrite delete_id.
  - intros k f f' Hd. unfold Open, Delete in *. cbn [negb] in *. destruct (resolve base k) as [full|e]; cbn [mbind res_bind]; [|done].
    injection Hd as <-. by rewrite lookup_delete_eq.
Qed.

(** What a worker reads back of a published job. *)
Lemma published_read `{S : RedisServer} {codec : MapCodec} job d : FileType job ≠ "" →
  let h := hash (published job d) (jobKey (ID job)) in
  h ≠ ∅ ∧ ID (read_hash h) = ID job ∧ StorageKey (read_hash h) = StorageKey job ∧
  FileType (read_hash h) = FileType job ∧ Status (read_hash h) = Status job.
Proof.
  intros Hft. cbv zeta. destruct (published_obs job d) as (_ & _ & _ & ->). rewrite decide_True by done.
  set (h := hash d _). split; [apply stored_nonempty|].
  destruct (stored_fields h job) as (E1%lookup_VStr & E2%lookup_VStr & _ & _ & _ & E6%lookup_VStr & _).
  assert (Ef : stored h job !! "file_type" = Some (FileType job)).
  { rewrite lookup_stored. unfold ToMap.
    repeat first [rewrite lookup_insert_if_ne by discriminate | rewrite lookup_insert_if_eq].
    unfold nonempty. by rewrite bool_decide_eq_false_2. }
  apply lookup_VStr in Ef. unfold read_hash, FromMap; cbn. unfold get_str. by simplify_map_eq.
Qed.

Section end_to_end.
Context `{S : RedisServer} `{!RedisLaws S} {codec : MapCodec}.
Context (LookupEnv : string → option string) (have_queue have_store : bool) (conn : dbconn).
Context (url_Parse : string → res (string * string)) (ParseIP : string → option IP) (IP_String : IP → string).
Context {W : Type} (LookupIPAddr : string → W → res (list IP) * W) (uuid : nat → string).
Context (ParseMultipartForm : string * bool → res form) (requestID : string) (traceCarrier : gmap string string).
Context (base : string) (fault : option put_fault) (tmp_of : filesys → string) (Htmp : ∀ g, g !! tmp_of g = None).

#[local] Instance store_used : UploadStore := local_uploads base fault tmp_of.


End end_to_end.

(** ** One upload *)

Definition apk_file (name : string) : upload_file := mk_upload name 5 "PK.34" None.
Definition one_form (name url : string) : form := mk_form (Some (apk_file name)) [apk_file name; apk_file "notes.txt"] [("webhook_url", url); ("scan_timeout", "90")].
Definition online : dbconn := mk_conn true true (Some (None, None)).
(** A name longer than every name in use. *)
Definition upload_tmp (f : filesys) : string := "/up/.tmp" +:+ concat_str (map_to_list f).*1.
Definition sample_site (net : list fault) : @site mem_server unit := mk_site (mem_world empty_rdb net 0) ∅ 0 tt.
Definition sample_uuid (n : nat) : string := "u" +:+ itoa (Z.of_nat n).

Lemma upload_tmp_fresh f : f !! upload_tmp f = None.
Proof.
  destruct (f !! upload_tmp f) as [v|] eqn:E; [|done]. exfalso.
  assert (Hlen : ∀ l k, k ∈ l → (String.length k ≤ String.length (concat_str l))%nat).
  { induction l as [|x l IH]; intros k; [by intros ?%elem_of_nil|]. cbn [concat_str foldr]. rewrite string_length_app.
    intros [->|Hk]%elem_of_cons; [lia|]. apply IH in Hk. unfold concat_str in Hk. lia. }
  assert (Hin : upload_tmp f ∈ (map_to_list f).*1).
  { apply list_elem_of_fmap. exists (upload_tmp f, v). split; [done|]. by apply elem_of_map_to_list. }
  apply Hlen in Hin. unfold upload_tmp in Hin. rewrite string_length_app in Hin. cbn in Hin. lia.
Qed.

#[local] Instance sample_uploads : UploadStore := local_uploads "/up" None upload_tmp.
#[local] Instance sample_uploads_laws : UploadStoreLaws sample_uploads := local_uploads_laws "/up" None upload_tmp upload_tmp_fresh.

Definition resolve_name (url : string) : res (string * string) :=
  Ok ("https", if decide (url = "https://hooks.example") then "203.0.113.7" else "10.0.0.7").
Definition dotted (s : string) : option IP :=
  if decide (s = "203.0.113.7") then Some (v4_prefix ++ [203; 0; 113; 7]) else Some (v4_prefix ++ [10; 0; 0; 7]).

#[local] Notation sample_upload parse := (upload (λ _, None) true true online resolve_name dotted (λ _, "") (λ _ w, (Ok [], w))
  sample_uuid parse "req-1" ∅).
#[local] Notation sample_bulk parse := (bulk_upload (λ _, None) true true online resolve_name dotted (λ _, "") (λ _ w, (Ok [], w))
  sample_uuid parse "req-1").
#[local] Notation get_form name url := (λ _, Ok (one_form name url)).


(** A lost reply: the client is told that nothing was queued, the job is in the queue, and
    its object is gone. *)
Example lost_reply_orphans_job :
  let '(resp, s') := serve (sample_upload (get_form "App.APK" "https://hooks.example") (mk_request 9 "body"))
    (sample_site [NetOk; ReplyLost]) in
  resp = failure 500 "Failed to queue job" ∧ rlist (db (s_world s')) jobQueueKey = ["u1"] ∧ s_files s' = ∅.
Proof. by vm_compute. Qed.


Lemma bulk_upload_accounts_witness :
  let '(resp, s') := serve (sample_bulk (get_form "App.ipa" "") (mk_request 9 "body")) (sample_site []) in
  status resp = 202 ∧ rlist (db (s_world s')) jobQueueKey = ["u1"] ∧
  ∃ ids errs, (length ids + length errs)%nat = 2%nat ∧ resp = bulk_report 2 ids errs.
Proof.
  pose proof (bulk_upload_accounts (λ _, None) true true online resolve_name dotted (λ _, "") (λ _ w, (Ok [], w))
    sample_uuid (get_form "App.ipa" "") "req-1" (mk_request 9 "body") (sample_site [])) as H.
  assert (E : status (serve (sample_bulk (get_form "App.ipa" "") (mk_request 9 "body")) (sample_site [])).1 = 202) by by vm_compute.
  assert (Eq : rlist (db (s_world (serve (sample_bulk (get_form "App.ipa" "") (mk_request 9 "body")) (sample_site [])).2)) jobQueueKey = ["u1"])
    by by vm_compute.
  destruct (serve _ _) as [resp s']. cbn [fst snd] in *. split; [done|]. split; [done|].
  destruct H as [(Hne & _)|(f & ids & errs & [= <-] & _ & Hn & Hr & _)]; [done|]. exists ids, errs. split; [exact Hn|exact Hr].
Defined.
