(* ===== verification/Apikey.v ===== *)
(** * The life of an API key ([cmd/apikey.go], key generation in [auth/middleware.go])

    Creating, listing and revoking keys in the table that [Auth] looks keys up in.  The
    digest, the random source and the outcome of queries are parameters. *)
From Stdlib Require Import ZArith Ascii.
From S2P Require Import Prelude GoStr GoErr Auth.

Local Open Scope Z_scope.

(** A row: the digest that stands for the key, and the rest; and the next identifier. *)
Record key_row := mk_row { kr_Key : string; kr_row : APIKey }.
Record key_table := mk_table { rows : list key_row; next_id : Z }.

(** A command prints lines or ends the process with a message. *)
Inductive ended := Printed (lines : list string) | Fatal (msg : string).

(** ** Generating *)

Section apikey.
(** The digest in hexadecimal. *)
Context (sha256 : string → string).

(** The random bytes, or the low bytes of the clock at 32 moments. *)
Definition generateRandomKey (rand_Read : res string) (UnixNano : nat → Z) : string :=
  sha256 (match rand_Read with
          | Ok b => b
          | Err _ => concat_str ((λ i, String (byte_of (UnixNano i mod 256)) "") <$> seq 0 32)
          end).

Definition GenerateAPIKey (rand_Read : res string) (UnixNano : nat → Z) : string * string :=
  let plainKey := generateRandomKey rand_Read UnixNano in (plainKey, sha256 plainKey).

(** ** Commands *)

Definition parseScopes (csv : string) : list string := filter (λ t, t ≠ "") (TrimSpace <$> Split csv comma).

Definition needs_db (have_db : bool) (k : ended * key_table) (t : key_table) : ended * key_table :=
  if have_db then k else (Fatal "Database not available. Set DATABASE_URL.", t).

(** [Create]: a zero rate limit takes the default of its column; the digest is unique. *)
Definition insert_key (create_error : option error) (hashed name : string) (scopes : list string) (rateLimit : Z) (t : key_table)
    : res Z * key_table :=
  match create_error with
  | Some e => (Err e, t)
  | None =>
      if existsb (λ r, bool_decide (kr_Key r = hashed)) (rows t) then (Err (ENew "Duplicate entry"), t)
      else (Ok (next_id t),
            mk_table (rows t ++ [mk_row hashed (mk_key (next_id t) name scopes (if decide (rateLimit = 0) then 100 else rateLimit) None true)])
              (next_id t + 1))
  end.

Definition apiKeyCreate (have_db : bool) (create_error : option error) (rand_Read : res string) (UnixNano : nat → Z)
    (name scopesCSV : string) (rateLimit : Z) (t : key_table) : ended * key_table :=
  if decide (TrimSpace name = "") then (Fatal "--name is required", t)
  else needs_db have_db
    (let '(plain, hashed) := GenerateAPIKey rand_Read UnixNano in
     let scopes := parseScopes scopesCSV in
     match insert_key create_error hashed name scopes rateLimit t with
     | (Err e, t) => (Fatal ("Failed to create API key: " +:+ Error e), t)
     | (Ok id, t) =>
         (Printed ["API key created. Store this secret NOW — it will not be shown again:"; "  key:    " +:+ plain;
                   "  id:     " +:+ itoa id; "  name:   " +:+ name; "  scopes: " +:+ Join scopes ","], t)
     end) t.

Fixpoint spaces (n : nat) : string := match n with O => "" | S n => String " " (spaces n) end.
(** [%-ns] *)
Definition pad (n : nat) (s : string) : string := s +:+ spaces (n - length (to_runes s)).

Definition list_line (k : APIKey) : string :=
  Join [pad 5 (itoa (k_ID k)); pad 24 (k_Name k); pad 7 (if k_IsActive k then "true" else "false"); pad 8 (itoa (k_RateLimit k));
        Join (k_Scopes k) ","] " ".

Definition apiKeyList (have_db : bool) (find_error : option error) (t : key_table) : ended * key_table :=
  needs_db have_db
    (match find_error, rows t with
     | Some e, _ => (Fatal ("Failed to list API keys: " +:+ Error e), t)
     | None, [] => (Printed ["No API keys."], t)
     | None, rs => (Printed (Join [pad 5 "ID"; pad 24 "NAME"; pad 7 "ACTIVE"; pad 8 "RATE/HR"; "SCOPES"] " " ::
                             (list_line ∘ kr_row <$> rs)), t)
     end) t.

Definition deactivate (k : APIKey) : APIKey := mk_key (k_ID k) (k_Name k) (k_Scopes k) (k_RateLimit k) (k_ExpiresAt k) false.

Definition revoke_row (id : Z) (r : key_row) : key_row :=
  if decide (k_ID (kr_row r) = id) then mk_row (kr_Key r) (deactivate (kr_row r)) else r.

(** The server counts the rows it changed, or the rows it found: [affected]. *)
Definition apiKeyRevoke (have_db : bool) (update_error : option error) (affected : key_table → Z → Z) (id : Z) (t : key_table)
    : ended * key_table :=
  if decide (id = 0) then (Fatal "--id is required", t)
  else needs_db have_db
    (match update_error with
     | Some e => (Fatal ("Failed to revoke API key: " +:+ Error e), t)
     | None =>
         let t' := mk_table (revoke_row id <$> rows t) (next_id t) in
         if affected t id =? 0 then (Fatal ("No API key with id " +:+ itoa id), t')
         else (Printed ["API key " +:+ itoa id +:+ " deactivated. Cached validations expire within the auth cache TTL."], t')
     end) t.

(** The row [Auth] finds. *)
Definition lookup_key (t : key_table) (hashed : string) : res APIKey :=
  match filter (λ r, kr_Key r = hashed) (rows t) with
  | r :: _ => Ok (kr_row r)
  | [] => Err (ENew "record not found")
  end.

(** ** Facts *)

(** Digests and identifiers are unique. *)
Definition table_ok (t : key_table) : Prop :=
  NoDup (kr_Key <$> rows t) ∧ NoDup ((k_ID ∘ kr_row) <$> rows t) ∧ Forall (λ r, 0 < k_ID (kr_row r) < next_id t) (rows t) ∧ 0 < next_id t.

Lemma insert_ok create_error hashed name scopes rateLimit t : table_ok t → table_ok (insert_key create_error hashed name scopes rateLimit t).2.
Proof.
  intros (Hk & Hi & Hr & Hn). unfold insert_key. destruct create_error; [done|]. destruct (existsb _ _) eqn:E; [done|]. cbn.
  assert (Hnew : hashed ∉ kr_Key <$> rows t).
  { intros (r & -> & Hin)%list_elem_of_fmap. apply not_true_iff_false in E. apply E, existsb_exists. exists r.
    split; [by apply list_elem_of_In|by apply bool_decide_eq_true]. }
  split_and!; cbn [rows next_id]; [| | |lia].
  - rewrite fmap_app. apply NoDup_app. split_and!; [done| |apply NoDup_singleton]. by intros x Hx ->%list_elem_of_singleton.
  - rewrite fmap_app. apply NoDup_app. split_and!; [done| |apply NoDup_singleton]. intros x (r & -> & Hin)%list_elem_of_fmap Hx%list_elem_of_singleton.
    rewrite Forall_forall in Hr. specialize (Hr r Hin). change (k_ID (kr_row r) = next_id t) in Hx. destruct Hr as [_ Hr]. rewrite Hx in Hr. by apply Z.lt_irrefl in Hr.
  - apply Forall_app. split; [|constructor; [cbn; lia|done]]. eapply Forall_impl; [exact Hr|]. intros r Hrr. cbn in Hrr |- *. lia.
Qed.

Lemma revoke_keys id (l : list key_row) : kr_Key <$> (revoke_row id <$> l) = kr_Key <$> l.
Proof. rewrite <- list_fmap_compose. apply list_fmap_ext. intros i r _. cbn. unfold revoke_row. by case_decide. Qed.

Lemma revoke_ids id (l : list key_row) : (k_ID ∘ kr_row) <$> (revoke_row id <$> l) = (k_ID ∘ kr_row) <$> l.
Proof. rewrite <- list_fmap_compose. apply list_fmap_ext. intros i r _. cbn. unfold revoke_row. by case_decide. Qed.

Lemma lookup_revoked id t hashed : lookup_key (mk_table (revoke_row id <$> rows t) (next_id t)) hashed =
  match lookup_key t hashed with Ok k => Ok (if decide (k_ID k = id) then deactivate k else k) | Err e => Err e end.
Proof.
  unfold lookup_key. cbn. induction (rows t) as [|r l IH]; [done|]. cbn [fmap list_fmap]. rewrite !filter_cons.
  assert (Hk : kr_Key (revoke_row id r) = kr_Key r) by (unfold revoke_row; by case_decide). rewrite Hk. case_decide; [|exact IH].
  unfold revoke_row. by case_decide.
Qed.

Lemma lookup_inserted hashed name scopes rateLimit t id t' : insert_key None hashed name scopes rateLimit t = (Ok id, t') →
  id = next_id t ∧ lookup_key t' hashed = Ok (mk_key id name scopes (if decide (rateLimit = 0) then 100 else rateLimit) None true) ∧
  ∀ h, h ≠ hashed → lookup_key t' h = lookup_key t h.
Proof.
  unfold insert_key. destruct (existsb _ _) eqn:E; [done|]. intros [= <- <-]. split; [done|]. unfold lookup_key. cbn [rows]. split.
  - assert (Hnone : ∀ l, l ⊆ rows t → filter (λ r, kr_Key r = hashed) l = []).
    { induction l as [|r l IH]; intros Hl; [done|]. rewrite filter_cons_False; [apply IH; set_solver|].
      intros Hr. apply not_true_iff_false in E. apply E, existsb_exists. exists r.
      split; [apply list_elem_of_In, Hl; left|by apply bool_decide_eq_true]. }
    rewrite filter_app, Hnone by done. cbn [app]. by rewrite filter_cons_True.
  - intros h Hh. by rewrite filter_app, (filter_cons_False _ _ []), app_nil_r by (cbn; congruence).
Qed.

(** What a process that has just started answers to a request with a key. *)
Definition first_answer (t : key_table) (ttl now : Z) (key : string) : decision :=
  (APIKeyAuth sha256 (lookup_key t) now (mk_request "/api/results" "GET" key "") no_context (mk_auth ∅ ttl ∅)).1.

Lemma first_answer_lookup t ttl now key : key ≠ "" → first_answer t ttl now key =
  match lookup_key t (sha256 key) with
  | Ok k => if IsValid now k then Next (mk_context (Some (k_ID k)) (Some (k_Name k)) (Some (ScopesArray (k_Scopes k))) (Some (k_RateLimit k)))
            else Abort_ 401
  | Err _ => Abort_ 401
  end.
Proof.
  intros Hk. unfold first_answer, APIKeyAuth, presented_key. cbn [X_API_Key]. rewrite !(decide_False (P := key = "")) by done.
  unfold validateAPIKeyCached, ValidateAPIKey. cbn [s_ttl s_cache]. rewrite lookup_empty.
  destruct (0 <? ttl), (lookup_key t (sha256 key)) as [k|e]; cbn; try done; by destruct (IsValid now k).
Qed.

Lemma revoke_ok id t : table_ok t → table_ok (mk_table (revoke_row id <$> rows t) (next_id t)).
Proof.
  intros (Hk & Hi & Hr & Hn). split_and!; cbn [rows next_id]; [by rewrite revoke_keys|by rewrite revoke_ids| |done].
  apply Forall_fmap. eapply Forall_impl; [exact Hr|]. intros r Hrr. cbn. unfold revoke_row. by case_decide.
Qed.

Lemma revoked_table have_db update_error affected id t said t' :
  apiKeyRevoke have_db update_error affected id t = (Printed said, t') → t' = mk_table (revoke_row id <$> rows t) (next_id t).
Proof.
  unfold apiKeyRevoke, needs_db. case_decide; [done|]. destruct have_db; [|done]. destruct update_error; [done|]. cbn.
  destruct (_ =? 0); [done|]. by intros [= _ <-].
Qed.

Lemma lookup_row t h k : lookup_key t h = Ok k → ∃ r, r ∈ rows t ∧ kr_Key r = h ∧ kr_row r = k.
Proof.
  unfold lookup_key. destruct (filter _ _) as [|r l] eqn:E; [done|]. intros [= <-].
  assert (r ∈ filter (λ r, kr_Key r = h) (rows t)) as [Hh Hin]%list_elem_of_filter by (rewrite E; left). by exists r.
Qed.

(** Revoking one key leaves the others. *)
Lemma lookup_other id t h h' k : table_ok t → lookup_key t h' = Ok k → k_ID k = id → h ≠ h' →
  lookup_key (mk_table (revoke_row id <$> rows t) (next_id t)) h = lookup_key t h.
Proof.
  intros (Hk & Hi & _) Hl Hid Hh. rewrite lookup_revoked. destruct (lookup_key t h) as [k2|e] eqn:E; [|done]. case_decide as Hd; [|done].
  exfalso. destruct (lookup_row _ _ _ Hl) as (r & (i & Hr)%list_elem_of_lookup_1 & Hrh & Hrk).
  destruct (lookup_row _ _ _ E) as (r2 & (j & Hr2)%list_elem_of_lookup_1 & Hrh2 & Hrk2).
  assert (i = j); [|congruence].
  apply (NoDup_lookup _ _ _ (k_ID k) Hi); rewrite list_lookup_fmap; [rewrite Hr|rewrite Hr2]; cbn; congruence.
Qed.

(** A row that stays inactive is refused once every cached row is younger than the change. *)
Lemma refused history revoked ttl later s r c k :
  (∀ u, revoked ≤ u → history u (sha256 (presented_key r)) = Ok k) → k_IsActive k = false →
  cache_ok history ttl later s → revoked + Z.max 0 ttl ≤ later → (APIKeyAuth sha256 (history later) later r c s).1 = Abort_ 401.
Proof.
  intros Hh Hk Hs Hl. unfold APIKeyAuth. case_decide; [done|].
  pose proof (validate_cached_ok sha256 history ttl later (presented_key r) s Hs) as Hv.
  destruct (validateAPIKeyCached _ _ _ _ _) as [[k'|e] s']; [|done]. destruct Hv as [_ Hv]. destruct (Hv k' eq_refl) as (u & Hu & Hk').
  rewrite Hh in Hk' by lia. injection Hk' as <-. unfold IsValid. by rewrite Hk.
Qed.

(** What the listing shows does not depend on the digests. *)
Lemma list_without_digests have_db find_error t u :
  kr_row <$> rows t = kr_row <$> rows u → (apiKeyList have_db find_error t).1 = (apiKeyList have_db find_error u).1.
Proof.
  intros H. unfold apiKeyList, needs_db. destruct have_db; [|done]. destruct find_error; [done|].
  assert (Hl : ∀ l : list key_row, list_line ∘ kr_row <$> l = list_line <$> (kr_row <$> l)) by (intros; by rewrite <- list_fmap_compose).
  pose proof (Hl (rows t)) as Ht. rewrite H, <- Hl in Ht. destruct (rows t), (rows u); cbn in *; congruence.
Qed.

(** C26: The life of a key.  A key that the command prints is accepted at once by any
    process that has just started, with the identifier, the name and the scopes that
    were given, and no other key of the table is touched; and once the key is revoked,
    whatever a process has cached and served before, it refuses the key from one cache
    lifetime on, still without touching another key. *)
Theorem key_lifecycle have_db create_error rand_Read UnixNano name scopesCSV rateLimit t lines t' :
  let plain := generateRandomKey rand_Read UnixNano in
  plain ≠ "" → table_ok t →
  apiKeyCreate have_db create_error rand_Read UnixNano name scopesCSV rateLimit t = (Printed lines, t') →
  table_ok t' ∧ (∀ h, h ≠ sha256 plain → lookup_key t' h = lookup_key t h) ∧ ("  key:    " +:+ plain) ∈ lines ∧
  ∃ id rate, ("  id:     " +:+ itoa id) ∈ lines ∧ (rateLimit ≠ 0 → rate = rateLimit) ∧
    (∀ ttl now, first_answer t' ttl now plain =
       Next (mk_context (Some id) (Some name) (Some (ScopesArray (parseScopes scopesCSV))) (Some rate))) ∧
    ∀ update_error affected said t'', apiKeyRevoke have_db update_error affected id t' = (Printed said, t'') →
      table_ok t'' ∧ (∀ h, h ≠ sha256 plain → lookup_key t'' h = lookup_key t' h) ∧
      ∀ history revoked ttl later s r c, (∀ u, revoked ≤ u → history u = lookup_key t'') →
        cache_ok history ttl later s → revoked + Z.max 0 ttl ≤ later → presented_key r = plain →
        (APIKeyAuth sha256 (history later) later r c s).1 = Abort_ 401.
Proof.
  intros plain Hp Ht. unfold apiKeyCreate, needs_db, GenerateAPIKey. fold plain. case_decide; [done|]. destruct have_db; [|done].
  pose proof (insert_ok create_error (sha256 plain) name (parseScopes scopesCSV) rateLimit t Ht) as Hok.
  destruct (insert_key _ _ _ _ _ _) as [[id|e] t1] eqn:E; [|done]. intros [= <- <-]. destruct create_error; [done|].
  destruct (lookup_inserted _ _ _ _ _ _ _ E) as (Hid & Hl & Ho). split_and!; [exact Hok|exact Ho|set_solver|].
  eexists id, _. split_and!; [set_solver| |intros ttl now; rewrite first_answer_lookup, Hl by done; reflexivity|].
  { intros Hz. cbn. by case_decide. }
  intros update_error affected said t'' Hr. apply revoked_table in Hr as ->. split_and!; [by apply revoke_ok| |].
  - intros h Hh. by apply (lookup_other _ _ _ (sha256 plain) _ Hok Hl).
  - intros history revoked ttl later s r c Hh Hs Hl' Hr. eapply refused; [| |exact Hs|exact Hl'].
    + intros u Hu. rewrite (Hh u Hu), lookup_revoked, Hr, Hl. cbn [k_ID]. by rewrite decide_True.
    + done.
Qed.
End apikey.

(** A digest that keeps its argument, and bytes that are a name. *)
Definition demo_digest (s : string) : string := "h:" +:+ s.

Lemma key_lifecycle_witness :
  let t := mk_table [mk_row "h:h:old" (mk_key 1 "old" ["*"] 100 None true)] 2 in
  ∃ lines t', apiKeyCreate demo_digest true None (Ok "new") (λ _, 0) "ci" "scan:write, ,jira" 0 t = (Printed lines, t') ∧
    length (rows t') = 2%nat ∧ table_ok t'.
Proof.
  intros t. assert (Hok : table_ok t).
  { split_and!; [apply NoDup_singleton|apply NoDup_singleton|constructor; [cbn; lia|done]|done]. }
  eexists _, _. split; [reflexivity|]. split; [reflexivity|].
  exact (proj1 (key_lifecycle demo_digest true None (Ok "new") (λ _, 0) "ci" "scan:write, ,jira" 0 t _ _ ltac:(done) Hok eq_refl)).
Defined.

(** No limit cannot be asked for: the zero is replaced by the default of the column. *)
Example zero_limit_is_hundred :
  (λ r, k_RateLimit (kr_row r)) <$> rows (apiKeyCreate demo_digest true None (Ok "new") (λ _, 0) "ci" "" 0 (mk_table [] 1)).2 = [100].
Proof. reflexivity. Qed.

(** When the random source fails, two processes whose clocks agree make the same key. *)
Lemma clock_makes_the_key sha256 e e' UnixNano :
  GenerateAPIKey sha256 (Err e) UnixNano = GenerateAPIKey sha256 (Err e') UnixNano.
Proof. reflexivity. Qed.
