(* ===== verification/Columns.v ===== *)
(** * JSON columns and their repair ([models/manifest_types.go], [models/SecretModel.go],
      [models/Secrets.go], [db/db.go])

    How lists are written to the JSON columns of the legacy table and read from them,
    where a nil slice differs from an empty one, and the pass that repairs old rows in
    batches.  The JSON codec and the table are parameters. *)
From Stdlib Require Import ZArith.
From S2P Require Import Prelude GoStr GoErr Manifest.

Local Open Scope Z_scope.

(** What the driver hands over for a column. *)
Inductive column := CNull | CBytes (text : string) | COther.

Section columns.
Context {T : Type} (Unmarshal : string → res (list T)) (Marshal : list T → res string).

(** The slice afterwards, [None] when it is nil, and the error.  The error text leaves out
    the quoted byte. *)
Definition JSONComponentArray_Scan (value : column) (a : option (list T)) : option (list T) * option error :=
  match value with
  | CNull => (Some [], None)
  | COther => (a, Some (ENew "failed to unmarshal JSONComponentArray value"))
  | CBytes text =>
      if decide (text = "") then (Some [], None)
      else if HasPrefix text "[" then
        match Unmarshal text with Ok l => (Some l, None) | Err e => (Some [], Some e) end
      else (Some [], Some (ENew "failed to unmarshal JSONComponentArray: unexpected non-array value"))
  end.

Definition JSONComponentArray_Value (a : option (list T)) : res string :=
  match a with
  | None => Marshal []
  | Some l => match Marshal l with
              | Err _ => Marshal []
              | Ok text => if decide (text = "null") then Marshal [] else Ok text
              end
  end.

(** The codec of an array. *)
Definition array_codec : Prop := ∀ l text, Marshal l = Ok text → HasPrefix text "[" = true ∧ Unmarshal text = Ok l.

(** A column is read back as it was written, a nil slice as an empty one. *)
Lemma component_column_roundtrip a text old : array_codec → (∀ l, is_ok (Marshal l) = true) → JSONComponentArray_Value a = Ok text →
  JSONComponentArray_Scan (CBytes text) old = (Some (default [] a), None).
Proof.
  intros Hc Hok. unfold JSONComponentArray_Value, JSONComponentArray_Scan.
  assert (Hread : ∀ l, Marshal l = Ok text → (if decide (text = "") then (Some [], None)
    else if HasPrefix text "[" then match Unmarshal text with Ok l => (Some l, None) | Err e => (Some [], Some e) end
    else (Some [], Some (ENew "failed to unmarshal JSONComponentArray: unexpected non-array value"))) = (Some l, None)).
  { intros l Hl. destruct (Hc _ _ Hl) as [Hp ->]. rewrite Hp, decide_False; [done|]. by intros ->. }
  destruct a as [l|]; [|intros Hm; by apply Hread]. specialize (Hok l). destruct (Marshal l) as [t|e] eqn:E; [|done].
  destruct (Hc _ _ E) as [Hp _]. rewrite decide_False by (by intros ->). intros [= ->]. by apply Hread.
Qed.
End columns.

(** ** The rows of the legacy table *)

(** A manifest with the slices that may be nil. *)
Record legacy_filter := mk_lfilter {
  f_Actions : list string; f_Categories : list string; f_Data : option (list ManifestFilterData); f_Priority : Z; f_AutoVerify : bool }.
Record legacy_activity := mk_lactivity {
  a_Name : string; a_Exported : bool; a_Permission : string; a_IntentFilters : option (list legacy_filter) }.
Record legacy_manifest := mk_lmanifest {
  UsesPermissions : option (list string); UsesLibrary : option (list string); UsesFeature : option (list string);
  Permissions : option (list string); PermissionsProtectionLevel : option (list string);
  l_Activities : option (list legacy_activity); l_Services : option (list legacy_activity);
  l_ContentProviders : option (list ManifestProviderInfo); l_BroadcastReceivers : option (list legacy_activity) }.

(** A nil slice is made an empty one, which makes the row dirty. *)
Definition fill {A} (a : option (list A)) : option (list A) * bool := match a with Some _ => (a, false) | None => (Some [], true) end.

Definition normalize_filter (f : legacy_filter) : legacy_filter * bool :=
  let '(data, d) := fill (f_Data f) in (mk_lfilter (f_Actions f) (f_Categories f) data (f_Priority f) (f_AutoVerify f), d).

(** Every element, and whether one changed. *)
Definition each {A} (f : A → A * bool) (l : list A) : list A * bool := ((f <$> l).*1, existsb id (f <$> l).*2).

#[local] Arguments each : simpl never.

Definition normalize_activity (a : legacy_activity) : legacy_activity * bool :=
  match a_IntentFilters a with
  | None => (mk_lactivity (a_Name a) (a_Exported a) (a_Permission a) (Some []), true)
  | Some fs => let '(fs, d) := each normalize_filter fs in (mk_lactivity (a_Name a) (a_Exported a) (a_Permission a) (Some fs), d)
  end.

Definition normalizeSecretJSON (m : legacy_manifest) : legacy_manifest * bool :=
  let '(up, d1) := fill (UsesPermissions m) in
  let '(ul, d2) := fill (UsesLibrary m) in
  let '(uf, d3) := fill (UsesFeature m) in
  let '(pe, d4) := fill (Permissions m) in
  let '(pl, d5) := fill (PermissionsProtectionLevel m) in
  let '(ac, d6) := fill (l_Activities m) in
  let '(se, d7) := fill (l_Services m) in
  let '(cp, d8) := fill (l_ContentProviders m) in
  let '(br, d9) := fill (l_BroadcastReceivers m) in
  let '(ac, d10) := match ac with Some l => let '(l, d) := each normalize_activity l in (Some l, d) | None => (None, false) end in
  (mk_lmanifest up ul uf pe pl ac se cp br, d1 || d2 || d3 || d4 || d5 || d6 || d7 || d8 || d9 || d10).

(** *** The pass *)

(** A row: its identifier and what reading its columns gives.  A batch is read before any
    row of it is repaired. *)
Definition row : Type := Z * res legacy_manifest.

Fixpoint read_batch (rows : list row) : res (list (Z * legacy_manifest)) :=
  match rows with
  | [] => Ok []
  | (_, Err e) :: _ => Err e
  | (id, Ok m) :: rows => match read_batch rows with Ok l => Ok ((id, m) :: l) | Err e => Err e end
  end.

Section repair.
(** Why a row cannot be saved. *)
Context (save_error : Z → option error).

(** The rows written. *)
Definition repair_row (r : Z * legacy_manifest) : list (Z * legacy_manifest) :=
  match normalizeSecretJSON r.2 with
  | (_, false) => []
  | (m, true) => match save_error r.1 with Some _ => [] | None => [(r.1, m)] end
  end.

Fixpoint batches (fuel size : nat) (rows : list row) : list (list row) :=
  match fuel, rows with
  | S fuel, _ :: _ => take size rows :: batches fuel size (drop size rows)
  | _, _ => []
  end.

(** Batch after batch, until one cannot be read: the rows written, and the error. *)
Fixpoint repair_batches (bs : list (list row)) : list (Z * legacy_manifest) * option error :=
  match bs with
  | [] => ([], None)
  | b :: bs => match read_batch b with
               | Err e => ([], Some (ENew ("failed to fetch records for repair: " +:+ Error e)))
               | Ok l => let '(w, err) := repair_batches bs in (flat_map repair_row l ++ w, err)
               end
  end.

Definition repairInvalidJSONData (Getenv : string → string) (rows : list row) : list (Z * legacy_manifest) * option error :=
  if decide (Getenv "MORF_REPAIR_JSON" ≠ "true") then ([], None) else repair_batches (batches (length rows) 200 rows).
End repair.

(** ** What the pass does *)

(** A repair that says truthfully whether it changed anything, and leaves nothing to do. *)
Definition exact {A} (f : A → A * bool) : Prop := ∀ x, let '(x', d) := f x in (if d then x' ≠ x else x' = x) ∧ f x' = (x', false).

Lemma fill_exact {A} : exact (fill (A := A)).
Proof. by intros [l|]. Qed.

Lemma each_exact {A} (f : A → A * bool) : exact f → exact (each f).
Proof.
  intros Hf l. unfold each. induction l as [|x l [IH1 IH2]]; [done|]. cbn. specialize (Hf x).
  destruct (f x) as [x' d] eqn:E. destruct Hf as [Hd Hid]. cbn. rewrite Hid. cbn. injection IH2 as IH2 IH3. split.
  - destruct d; cbn; [congruence|]. subst x'. destruct (existsb id _); congruence.
  - by rewrite IH2, IH3.
Qed.

Lemma normalize_filter_exact : exact normalize_filter.
Proof. by intros [a c [data|] p v]. Qed.

Lemma normalize_activity_exact : exact normalize_activity.
Proof.
  intros [n e p [fs|]]; [|done]. pose proof (each_exact _ normalize_filter_exact fs) as H. unfold normalize_activity. cbn.
  destruct (each normalize_filter fs) as [fs' d]. destruct H as [Hd Hid]. cbn. rewrite Hid. split; [|done]. destruct d; congruence.
Qed.

(** The activities, first the slice and then its elements. *)
Definition normalize_activities (ac : option (list legacy_activity)) : option (list legacy_activity) * bool :=
  let '(ac, d) := fill ac in
  match ac with Some l => let '(l, d') := each normalize_activity l in (Some l, d || d') | None => (None, d) end.

Lemma normalize_activities_exact : exact normalize_activities.
Proof.
  intros [l|]; [|done]. pose proof (each_exact _ normalize_activity_exact l) as H. unfold normalize_activities. cbn.
  destruct (each normalize_activity l) as [l' d]. destruct H as [Hd Hid]. cbn. rewrite Hid. split; [|done]. destruct d; cbn; congruence.
Qed.

Lemma normalizeSecretJSON_parts m : normalizeSecretJSON m =
  let '(up, d1) := fill (UsesPermissions m) in let '(ul, d2) := fill (UsesLibrary m) in
  let '(uf, d3) := fill (UsesFeature m) in let '(pe, d4) := fill (Permissions m) in
  let '(pl, d5) := fill (PermissionsProtectionLevel m) in let '(ac, d6) := normalize_activities (l_Activities m) in
  let '(se, d7) := fill (l_Services m) in let '(cp, d8) := fill (l_ContentProviders m) in
  let '(br, d9) := fill (l_BroadcastReceivers m) in
  (mk_lmanifest up ul uf pe pl ac se cp br, d1 || d2 || d3 || d4 || d5 || d6 || d7 || d8 || d9).
Proof.
  unfold normalizeSecretJSON, normalize_activities. destruct (fill (UsesPermissions m)), (fill (UsesLibrary m)), (fill (UsesFeature m)),
    (fill (Permissions m)), (fill (PermissionsProtectionLevel m)), (fill (l_Activities m)) as [[l|] d6], (fill (l_Services m)),
    (fill (l_ContentProviders m)), (fill (l_BroadcastReceivers m)); [destruct (each normalize_activity l) as [l' d10]|]; f_equal;
    rewrite ?orb_false_r, <- ?orb_assoc; [|done]. do 5 f_equal. by rewrite !(orb_comm d10), !orb_assoc.
Qed.

(** Repairing a row is idempotent, and a row counts as dirty exactly if it changes. *)
Lemma normalize_exact : exact normalizeSecretJSON.
Proof.
  intros [up ul uf pe pl ac se cp br]. rewrite normalizeSecretJSON_parts. cbn.
  pose proof (fill_exact up) as H1. pose proof (fill_exact ul) as H2. pose proof (fill_exact uf) as H3. pose proof (fill_exact pe) as H4.
  pose proof (fill_exact pl) as H5. pose proof (normalize_activities_exact ac) as H6. pose proof (fill_exact se) as H7.
  pose proof (fill_exact cp) as H8. pose proof (fill_exact br) as H9.
  destruct (fill up) as [up' d1], (fill ul) as [ul' d2], (fill uf) as [uf' d3], (fill pe) as [pe' d4], (fill pl) as [pl' d5],
    (normalize_activities ac) as [ac' d6], (fill se) as [se' d7], (fill cp) as [cp' d8], (fill br) as [br' d9].
  destruct H1 as [H1 I1], H2 as [H2 I2], H3 as [H3 I3], H4 as [H4 I4], H5 as [H5 I5], H6 as [H6 I6], H7 as [H7 I7], H8 as [H8 I8], H9 as [H9 I9].
  split; [|rewrite normalizeSecretJSON_parts; cbn; by rewrite I1, I2, I3, I4, I5, I6, I7, I8, I9].
  destruct d1; [cbn; congruence|]. destruct d2; [cbn; congruence|]. destruct d3; [cbn; congruence|]. destruct d4; [cbn; congruence|].
  destruct d5; [cbn; congruence|]. destruct d6; [cbn; congruence|]. destruct d7; [cbn; congruence|]. destruct d8; [cbn; congruence|].
  destruct d9; cbn; congruence.
Qed.

(** A row that was read has no nil slice but inside its activities: [Scan] makes an empty
    slice of a missing value. *)
Definition scanned_row (m : legacy_manifest) : Prop :=
  is_Some (UsesPermissions m) ∧ is_Some (UsesLibrary m) ∧ is_Some (UsesFeature m) ∧ is_Some (Permissions m) ∧
  is_Some (PermissionsProtectionLevel m) ∧ is_Some (l_Activities m) ∧ is_Some (l_Services m) ∧ is_Some (l_ContentProviders m) ∧
  is_Some (l_BroadcastReceivers m).

Lemma scan_not_nil {T} (Unmarshal : string → res (list T)) value old : value ≠ COther → is_Some (JSONComponentArray_Scan Unmarshal value old).1.
Proof. unfold JSONComponentArray_Scan. intros Hv. repeat case_match; eauto; done. Qed.

Lemma scanned_rows_repair_activities m : scanned_row m →
  normalizeSecretJSON m = let '(ac, d) := normalize_activities (l_Activities m) in
    (mk_lmanifest (UsesPermissions m) (UsesLibrary m) (UsesFeature m) (Permissions m) (PermissionsProtectionLevel m) ac
       (l_Services m) (l_ContentProviders m) (l_BroadcastReceivers m), d).
Proof.
  intros ([? H1] & [? H2] & [? H3] & [? H4] & [? H5] & _ & [? H7] & [? H8] & [? H9]). rewrite normalizeSecretJSON_parts, H1, H2, H3, H4, H5, H7, H8, H9.
  cbn. destruct (normalize_activities _). by rewrite !orb_false_r.
Qed.

(** *** What is stored

    Empty slices of these fields are left out of the text, and are nil when it is read. *)
Definition omitempty {A} (a : option (list A)) : option (list A) := match a with Some [] => None | _ => a end.

Definition stored_filter (f : legacy_filter) : legacy_filter :=
  mk_lfilter (f_Actions f) (f_Categories f) (omitempty (f_Data f)) (f_Priority f) (f_AutoVerify f).
Definition stored_activity (a : legacy_activity) : legacy_activity :=
  mk_lactivity (a_Name a) (a_Exported a) (a_Permission a) (omitempty (fmap (M := list) stored_filter <$> a_IntentFilters a)).
Definition stored_activities (ac : option (list legacy_activity)) : option (list legacy_activity) := fmap (M := list) stored_activity <$> ac.

Lemma each_stored {A} (f : A → A * bool) (g : A → A) : (∀ x, g (f x).1 = g x) → ∀ l, g <$> (each f l).1 = g <$> l.
Proof. intros H l. unfold each. cbn. rewrite <- !list_fmap_compose. apply list_fmap_ext. intros i x _. apply H. Qed.

Lemma stored_filter_normalized f : stored_filter (normalize_filter f).1 = stored_filter f.
Proof. by destruct f as [a c [d|] p v]. Qed.

Lemma stored_activity_normalized a : stored_activity (normalize_activity a).1 = stored_activity a.
Proof.
  destruct a as [n e p [fs|]]; [|done]. unfold normalize_activity. cbn. pose proof (each_stored _ _ stored_filter_normalized fs) as H.
  destruct (each normalize_filter fs) as [fs' d]. unfold stored_activity. cbn in *. by rewrite H.
Qed.

(** The repair does not last: the row that is written is stored as it was, so the next
    pass repairs and writes it again. *)
Lemma repair_does_not_last m : scanned_row m →
  stored_activities (l_Activities (normalizeSecretJSON m).1) = stored_activities (l_Activities m).
Proof.
  intros Hm. pose proof Hm as (_ & _ & _ & _ & _ & [l Hl] & _). rewrite scanned_rows_repair_activities by done.
  unfold normalize_activities. rewrite Hl. cbn. pose proof (each_stored _ _ stored_activity_normalized l) as H.
  destruct (each normalize_activity l) as [l' d]. cbn in *. by rewrite H.
Qed.

Lemma batches_concat size fuel rows : (0 < size)%nat → (length rows ≤ fuel)%nat → concat (batches fuel size rows) = rows.
Proof.
  intros Hs. revert rows. induction fuel as [|fuel IH]; intros [|r rows] Hl; try done; [cbn in Hl; lia|]. cbn [batches concat].
  rewrite IH; [by rewrite take_drop|]. rewrite length_drop. cbn in *. lia.
Qed.

Lemma read_batch_ok b l : read_batch b = Ok l → b = (λ r, (r.1, Ok r.2)) <$> l.
Proof.
  revert l. induction b as [|[id [m|e]] b IH]; intros l; cbn; [by intros [= <-]| |done].
  destruct (read_batch b) as [k|e]; [|done]. intros [= <-]. cbn. by rewrite <- (IH k).
Qed.

(** The repair pass is faithful when it is wanted: without an error every row was read,
    and the rows written are the ones that change and can be saved, each once, repaired
    and in order; a row that cannot be read ends the pass with an error; and a row that is
    written did change, to one that needs no repair as long as it is in memory. *)
Theorem repair_exact save_error Getenv rows w err : repairInvalidJSONData save_error Getenv rows = (w, err) →
  (Getenv "MORF_REPAIR_JSON" ≠ "true" → w = [] ∧ err = None) ∧
  (Getenv "MORF_REPAIR_JSON" = "true" →
   (err = None ↔ ∀ r, r ∈ rows → is_ok r.2 = true) ∧
   (err = None → ∃ l, rows = (λ r, (r.1, Ok r.2)) <$> l ∧ w = flat_map (repair_row save_error) l) ∧
   ∀ r, r ∈ w → ∃ m, (r.1, Ok m) ∈ rows ∧ normalizeSecretJSON m = (r.2, true) ∧ r.2 ≠ m ∧ normalizeSecretJSON r.2 = (r.2, false)).
Proof.
  unfold repairInvalidJSONData. case_decide as He; [intros [= <- <-]; by split|].
  intros Hr. split; [done|]. intros _. rewrite <- (batches_concat 200 (length rows) rows) by lia.
  revert w err Hr. induction (batches (length rows) 200 rows) as [|b bs IH]; intros w err; cbn [repair_batches concat].
  - intros [= <- <-]. split; [split; [by intros _ r ?%not_elem_of_nil|done]|]. split; [by exists []|by intros r ?%not_elem_of_nil].
  - destruct (read_batch b) as [l|e] eqn:Eb.
    + apply read_batch_ok in Eb as ->. destruct (repair_batches save_error bs) as [w' err'] eqn:Er. intros [= <- <-].
      destruct (IH w' err' eq_refl) as (H1 & H2 & H3). split_and!.
      * rewrite H1. setoid_rewrite elem_of_app. split; [|auto]. intros H r [Hin|Hin]; [|auto].
        apply list_elem_of_fmap in Hin as (x & -> & _). done.
      * intros ->. destruct (H2 eq_refl) as (l' & -> & ->). exists (l ++ l'). by rewrite fmap_app, flat_map_app.
      * intros r [Hin|Hin]%elem_of_app.
        -- apply list_elem_of_In, in_flat_map in Hin as ([id m] & Hm & Hin). apply list_elem_of_In in Hm, Hin.
           unfold repair_row in Hin. cbn in Hin. pose proof (normalize_exact m) as Hx.
           destruct (normalizeSecretJSON m) as [m' [|]] eqn:En; [|by apply not_elem_of_nil in Hin].
           destruct (save_error id); [by apply not_elem_of_nil in Hin|]. apply list_elem_of_singleton in Hin as ->. cbn.
           exists m. split_and!; [|done|apply Hx|apply Hx]. apply elem_of_app. left. apply list_elem_of_fmap. by exists (id, m).
        -- destruct (H3 r Hin) as (m & Hm & Hrest). exists m. split; [|done]. apply elem_of_app. by right.
    + intros [= <- <-]. split_and!; [|done|by intros r ?%not_elem_of_nil]. split; [done|]. intros H. exfalso.
      assert (Hb : ∀ r, r ∈ b → is_ok r.2 = true) by (intros r Hr; apply H, elem_of_app; by left). clear -Eb Hb.
      revert Hb Eb. induction b as [|[id [m|e']] b IH]; intros Hb; cbn; [done| |].
      * destruct (read_batch b) as [k|]; [done|]. intros Hx. apply IH; [|exact Hx]. intros r Hr. apply Hb. by right.
      * by specialize (Hb _ (list_elem_of_here _ _)).
Qed.

(** ** Instances *)

Definition whole : legacy_manifest := mk_lmanifest (Some []) (Some []) (Some []) (Some []) (Some [])
  (Some [mk_lactivity "A" false "" None]) (Some []) (Some []) (Some []).

(** The pass that repairs invalid JSON cannot read it: one such row ends it before the
    rows that could be repaired. *)
Example invalid_row_stops_repair :
  repairInvalidJSONData (λ _, None) (λ _, "true") [(1, Ok whole); (2, Err (ENew "invalid character"))] =
    ([], Some (ENew "failed to fetch records for repair: invalid character")).
Proof. reflexivity. Qed.

Example null_column_is_invalid :
  (JSONComponentArray_Scan (λ _, Ok (@nil Z)) (CBytes "null") None).2 =
    Some (ENew "failed to unmarshal JSONComponentArray: unexpected non-array value").
Proof. reflexivity. Qed.

Lemma repair_exact_witness :
  ∃ m, normalizeSecretJSON m.2 = (m.2, false) ∧ (repairInvalidJSONData (λ _, None) (λ _, "true") [(1, Ok whole)]).1 = [m].
Proof.
  destruct (repairInvalidJSONData (λ _, None) (λ _, "true") [(1, Ok whole)]) as [w err] eqn:E.
  pose proof (proj2 (repair_exact (λ _, None) (λ _, "true") [(1, Ok whole)] w err E) eq_refl) as (_ & _ & H).
  cbn in E. injection E as <- <-. eexists. split; [|reflexivity]. destruct (H _ (list_elem_of_here _ _)) as (m & _ & _ & _ & Hm). exact Hm.
Defined.
