(* ===== verification/Db.v ===== *)
(** * The database layer ([db/db.go], [utils/database.go], [models/Secret.go], ...)

    The normalized tables, the transaction that stores a scan, and the readers: the
    duplicate lookup of a scan and the listings behind GET /secrets.  A session is the
    client's side of one server: its tables, the numbers the server gives out, and for
    every round trip whether it is refused or its reply is lost.  What a column holds of
    a text, or that it rejects it, is the server's ([MySQL]); JSON codecs and the
    cryptographic primitives are parameters.  Statements of one session are not
    interleaved with another's.  Hashes are compared as bytes. *)
From Stdlib Require Import Ascii ZArith SpecFloat.
From S2P Require Import Prelude GoStr GoErr GoFloat GoTime Breaker Detect Crypto Manifest Badging Ipa Response.

Local Open Scope Z_scope.

(** ** Rows *)

Record PackageData := mk_pdata {
  pd_ID : Z; pd_APKHash : string; pd_PackageName : string; pd_VersionCode : string; pd_VersionName : string;
  pd_CompileSdkVersion : string; pd_SdkVersion : string; pd_TargetSdk : string; pd_MinSDK : string;
  pd_SupportScreens : string; pd_Densities : string; pd_NativeCode : string }.

Record Secret := mk_srow {
  sr_ID : Z; sr_CreatedAt : Z; sr_PackageDataID : Z; sr_FileName : string; sr_APKHash : string;
  sr_APKVersion : string; sr_SecretCount : Z; sr_Platform : string; sr_Metadata : string }.

Record SecretFinding := mk_finding {
  sf_SecretID : Z; sf_Type : string; sf_LineNo : Z; sf_FileLocation : string; sf_SecretType : string;
  sf_SecretString : string; sf_Fingerprint : string; sf_SecretConfidence : string;
  sf_Score : option spec_float; sf_Tier : string; sf_VerificationStatus : string; sf_MASVSID : string }.

(** [Activity], [Service] and [BroadcastReceiver] have the same fields. *)
Record Activity := mk_arow { ar_SecretID : Z; ar_Name : string; ar_Exported : bool; ar_IntentFilters : string }.

Record ContentProvider := mk_crow {
  cp_SecretID : Z; cp_Name : string; cp_Exported : bool; cp_IntentFilters : string;
  cp_Authorities : string; cp_GrantUriPermissions : bool }.

(** Each table lists its rows in the order of their primary keys. *)
Record tables := mk_tables {
  package_data : list PackageData; secrets_new : list Secret; secret_findings : list SecretFinding;
  activities : list Activity; services : list Activity; content_providers : list ContentProvider;
  broadcast_receivers : list Activity; ios_metadata : list (Z * IOSMetadata) }.

Definition no_tables : tables := mk_tables [] [] [] [] [] [] [] [].

Definition add_packages (l : list PackageData) (t : tables) : tables :=
  mk_tables (package_data t ++ l) (secrets_new t) (secret_findings t) (activities t) (services t)
    (content_providers t) (broadcast_receivers t) (ios_metadata t).
Definition add_secrets (l : list Secret) (t : tables) : tables :=
  mk_tables (package_data t) (secrets_new t ++ l) (secret_findings t) (activities t) (services t)
    (content_providers t) (broadcast_receivers t) (ios_metadata t).
Definition add_findings (l : list SecretFinding) (t : tables) : tables :=
  mk_tables (package_data t) (secrets_new t) (secret_findings t ++ l) (activities t) (services t)
    (content_providers t) (broadcast_receivers t) (ios_metadata t).
Definition add_activities (l : list Activity) (t : tables) : tables :=
  mk_tables (package_data t) (secrets_new t) (secret_findings t) (activities t ++ l) (services t)
    (content_providers t) (broadcast_receivers t) (ios_metadata t).
Definition add_services (l : list Activity) (t : tables) : tables :=
  mk_tables (package_data t) (secrets_new t) (secret_findings t) (activities t) (services t ++ l)
    (content_providers t) (broadcast_receivers t) (ios_metadata t).
Definition add_providers (l : list ContentProvider) (t : tables) : tables :=
  mk_tables (package_data t) (secrets_new t) (secret_findings t) (activities t) (services t)
    (content_providers t ++ l) (broadcast_receivers t) (ios_metadata t).
Definition add_receivers (l : list Activity) (t : tables) : tables :=
  mk_tables (package_data t) (secrets_new t) (secret_findings t) (activities t) (services t)
    (content_providers t) (broadcast_receivers t ++ l) (ios_metadata t).
Definition add_ios (l : list (Z * IOSMetadata)) (t : tables) : tables :=
  mk_tables (package_data t) (secrets_new t) (secret_findings t) (activities t) (services t)
    (content_providers t) (broadcast_receivers t) (ios_metadata t ++ l).

(** ** The server and the codecs *)

Class MySQL := {
  (** What a column of a table holds of a text: the text, its normal form in a JSON or
      ENUM column, or an error. *)
  column : string → string → string → res string;
  (** [ORDER BY created_at DESC], which says nothing of rows of the same time. *)
  newest_first : list Secret → list Secret;
  (** The message of a duplicate key. *)
  duplicate_entry : string → error }.

Class DbCodec := {
  Marshal_metadata : MetaDataModel → res string;
  Unmarshal_metadata : string → res MetaDataModel;
  Marshal_filters : list ManifestFilter → string;
  Unmarshal_filters : string → res (list ManifestFilter);
  Marshal_strings : list string → string;
  (** The same for a slice that may be nil, which gives "null". *)
  Marshal_authorities : list string → string;
  Unmarshal_strings : string → res (list string);
  Unmarshal_string : string → option string;
  json_Valid : string → bool;
  Marshal_secrets : Secrets → res string }.

(** ** Sessions *)

(** A round trip that is not answered: refused before, or answered to nobody after. *)
Inductive fault := Fine | Refused (e : error) | Lost (e : error).

Record session := mk_session {
  ss_tables : tables; ss_packages : Z; ss_secrets : Z (** the numbers given out next *);
  ss_faults : list fault; ss_now : Z; ss_drawn : nat (** nonces drawn *) }.

Definition with_tables (t : tables) (s : session) : session :=
  mk_session t (ss_packages s) (ss_secrets s) (ss_faults s) (ss_now s) (ss_drawn s).
Definition with_faults (l : list fault) (s : session) : session :=
  mk_session (ss_tables s) (ss_packages s) (ss_secrets s) l (ss_now s) (ss_drawn s).
Definition draw (n : nat) (s : session) : session :=
  mk_session (ss_tables s) (ss_packages s) (ss_secrets s) (ss_faults s) (ss_now s) (ss_drawn s + n)%nat.

Definition St (A : Type) : Type := session → res A * session.

#[export] Instance St_ret : MRet St := λ A a s, (Ok a, s).
#[export] Instance St_bind : MBind St := λ A B f m s,
  match m s with
  | (Ok a, s') => f a s'
  | (Err e, s') => (Err e, s')
  end.

Definition fail {A} (e : error) : St A := λ s, (Err e, s).

(** [fmt.Errorf("prefix: %w", err)] around a call. *)
Definition wrapping {A} (prefix : string) (m : St A) : St A := λ s,
  match m s with
  | (Err e, s') => (Err (EWrap (prefix +:+ ": " +:+ Error e) [e]), s')
  | r => r
  end.

(** One round trip. *)
Definition trip {A} (f : St A) : St A := λ s,
  match ss_faults s with
  | [] => f s
  | Fine :: l => f (with_faults l s)
  | Refused e :: l => (Err e, with_faults l s)
  | Lost e :: l => (Err e, (f (with_faults l s)).2)
  end.

(** [DB.Transaction]: an error undoes the tables; the numbers given out stay given out.
    A commit whose reply is lost has happened. *)
Definition Transaction (m : St unit) : St unit := λ s0,
  let undo s := with_tables (ss_tables s0) s in
  match trip (mret tt) s0 with
  | (Err e, s) => (Err e, s)
  | (Ok _, s) =>
      match m s with
      | (Err e, s) => (Err e, undo (trip (mret tt) s).2)
      | (Ok _, s) =>
          match ss_faults s with
          | Refused e :: l => (Err e, undo (with_faults l s))
          | Lost e :: l => (Err e, with_faults l s)
          | f => (Ok tt, with_faults (tail f) s)
          end
      end
  end.

Section statements.
Context {D : MySQL} {K : DbCodec}.

(** An INSERT of several rows: all of them as their columns hold them, or none. *)
Definition insert_rows {R} (hold : R → res R) (add : list R → tables → tables) (rows : list R) : St unit :=
  trip (λ s, match mapM hold rows with
             | Ok held => (Ok tt, with_tables (add held (ss_tables s)) s)
             | Err e => (Err e, s)
             end).

(** The rows in groups of [n]; [fuel] is at least their number. *)
Fixpoint groups {A} (n fuel : nat) (l : list A) : list (list A) :=
  match fuel, l with
  | O, _ | _, [] => []
  | Datatypes.S fuel, l => take n l :: groups n fuel (drop n l)
  end.

Fixpoint each {A} (f : A → St unit) (l : list A) : St unit :=
  match l with [] => mret tt | a :: l => _ ← f a; each f l end.

(** [CreateInBatches]: more than one batch runs behind a savepoint. *)
Definition CreateInBatches {R} (hold : R → res R) (add : list R → tables → tables) (rows : list R) (n : nat) : St unit :=
  _ ← (if Nat.ltb n (length rows) then trip (mret tt) else mret tt);
  each (insert_rows hold add) (groups n (length rows) rows).

(** *** What the tables hold of a row *)

Definition int_column (z : Z) : res Z :=
  if (-2147483648 <=? z) && (z <=? 2147483647) then Ok z else Err (ENew "Out of range value for column").

(** A zero value takes the column's default. *)
Definition or_default (d : string) (table col v : string) : res string :=
  if decide (v = "") then Ok d else column table col v.

Definition hold_package (p : PackageData) : res PackageData :=
  let c := column "package_data" in
  h ← c "apk_hash" (pd_APKHash p); n ← c "package_name" (pd_PackageName p); vc ← c "version_code" (pd_VersionCode p);
  vn ← c "version_name" (pd_VersionName p); cs ← c "compile_sdk_version" (pd_CompileSdkVersion p);
  sv ← c "sdk_version" (pd_SdkVersion p); ts ← c "target_sdk" (pd_TargetSdk p); ms ← c "min_sdk" (pd_MinSDK p);
  ss ← c "support_screens" (pd_SupportScreens p); ds ← c "densities" (pd_Densities p); nc ← c "native_code" (pd_NativeCode p);
  Ok (mk_pdata (pd_ID p) h n vc vn cs sv ts ms ss ds nc).

Definition hold_secret (r : Secret) : res Secret :=
  let c := column "secrets_new" in
  f ← c "file_name" (sr_FileName r); h ← c "apk_hash" (sr_APKHash r); v ← c "apk_version" (sr_APKVersion r);
  n ← int_column (sr_SecretCount r); p ← or_default "android" "secrets_new" "platform" (sr_Platform r);
  m ← c "metadata" (sr_Metadata r);
  Ok (mk_srow (sr_ID r) (sr_CreatedAt r) (sr_PackageDataID r) f h v n p m).

Definition hold_finding (f : SecretFinding) : res SecretFinding :=
  let c := column "secret_findings" in
  t ← c "type" (sf_Type f); n ← int_column (sf_LineNo f); l ← c "file_location" (sf_FileLocation f);
  st ← c "secret_type" (sf_SecretType f); ss ← c "secret_string" (sf_SecretString f);
  fp ← c "fingerprint" (sf_Fingerprint f);
  sc ← or_default "low" "secret_findings" "secret_confidence" (sf_SecretConfidence f);
  ti ← c "tier" (sf_Tier f); vs ← c "verification_status" (sf_VerificationStatus f); ma ← c "masvs_id" (sf_MASVSID f);
  Ok (mk_finding (sf_SecretID f) t n l st ss fp sc (sf_Score f) ti vs ma).

Definition hold_component (table : string) (a : Activity) : res Activity :=
  n ← column table "name" (ar_Name a); i ← column table "intent_filters" (ar_IntentFilters a);
  Ok (mk_arow (ar_SecretID a) n (ar_Exported a) i).

Definition hold_provider (p : ContentProvider) : res ContentProvider :=
  let c := column "content_providers" in
  n ← c "name" (cp_Name p); i ← c "intent_filters" (cp_IntentFilters p); a ← c "authorities" (cp_Authorities p);
  Ok (mk_crow (cp_SecretID p) n (cp_Exported p) i a (cp_GrantUriPermissions p)).

Definition ensureJSON (s fallback : string) : string :=
  let s := TrimSpace s in
  if decide (s = "") then fallback else if json_Valid s then s else fallback.

(** The columns, after [BeforeSave]. *)
Definition hold_ios (r : Z * IOSMetadata) : res (Z * IOSMetadata) :=
  let '(id, m) := r in
  let c := column "ios_metadata" in
  bi ← c "bundle_identifier" (im_BundleIdentifier m); bv ← c "bundle_version" (im_BundleVersion m);
  dt ← c "deployment_target" (im_DeploymentTarget m); en ← c "executable_name" (im_ExecutableName m);
  ar ← c "architectures" (ensureJSON (im_Architectures m) "[]"); us ← c "url_schemes" (ensureJSON (im_URLSchemes m) "[]");
  et ← c "entitlements" (ensureJSON (im_Entitlements m) "{}"); fr ← c "frameworks" (ensureJSON (im_Frameworks m) "[]");
  at_ ← c "ats_exceptions" (ensureJSON (im_ATSExceptions m) "{}");
  Ok (id, mk_meta bi bv dt en ar (im_IsEncrypted m) us et fr at_).

(** ** String arrays ([models.JSONStringArray]) *)

Definition clean (l : list string) : list string := filter (λ s, s ≠ "") (TrimSpace <$> l).

Definition array_Value (l : list string) : string := Marshal_strings (clean l).

Definition array_Scan (text : string) : res (list string) :=
  if decide (text = "") then Ok []
  else if HasPrefix text "[" then
    match Unmarshal_strings text with
    | Ok l => Ok l
    | Err e => Err (EWrap ("JSONStringArray.Scan: unmarshal array: " +:+ Error e) [e])
    end
  else match Unmarshal_string text with
  | Some v => Ok [v]
  | None => Ok (if Contains text "," then TrimSpace <$> Split text "," else [])
  end.

(** ** Storing a scan *)

(** [FirstOrCreate] with the conditions of a struct: a zero value is no condition, so an
    empty hash matches the first row there is. *)
Definition matches_hash (h : string) (p : PackageData) : bool := bool_decide (h = "" ∨ pd_APKHash p = h).

Definition new_package (h : string) (m : PackageDataModel) (id : Z) : PackageData :=
  mk_pdata id h (PackageName m) (VersionCode m) (VersionName m) (CompileSdkVersion m) (SdkVersion m) (TargetSdk m)
    (MinSDK m) (array_Value (SupportScreens m)) (array_Value (Densities m)) (array_Value (NativeCode m)).

Definition create_package (row : Z → PackageData) : St Z := trip (λ s,
  let id := ss_packages s in
  let s := mk_session (ss_tables s) (id + 1) (ss_secrets s) (ss_faults s) (ss_now s) (ss_drawn s) in
  match hold_package (row id) with
  | Err e => (Err e, s)
  | Ok p => if existsb (λ q, bool_decide (pd_APKHash q = pd_APKHash p)) (package_data (ss_tables s))
            then (Err (duplicate_entry (pd_APKHash p)), s)
            else (Ok id, with_tables (add_packages [p] (ss_tables s)) s)
  end).

Definition FirstOrCreate (h : string) (m : PackageDataModel) : St Z :=
  found ← trip (λ s, (Ok (find (matches_hash h) (package_data (ss_tables s))), s));
  match found with
  | Some p => mret (pd_ID p)
  | None => create_package (new_package h m)
  end.

Definition secret_exists (h : string) : St bool :=
  trip (λ s, (Ok (existsb (λ r, bool_decide (sr_APKHash r = h)) (secrets_new (ss_tables s))), s)).

(** [Create] of a secret row, with the time of the client. *)
Definition create_secret (row : Z → Z → Secret) : St Z := trip (λ s,
  let id := ss_secrets s in
  let s := mk_session (ss_tables s) (ss_packages s) (id + 1) (ss_faults s) (ss_now s) (ss_drawn s) in
  match hold_secret (row id (ss_now s)) with
  | Err e => (Err e, s)
  | Ok r => if existsb (λ q, bool_decide (sr_APKHash q = sr_APKHash r)) (secrets_new (ss_tables s))
            then (Err (duplicate_entry (sr_APKHash r)), s)
            else (Ok id, with_tables (add_secrets [r] (ss_tables s)) s)
  end).

Definition jsonColumnValue (s : string) : string :=
  let t := TrimSpace s in
  if decide (t ≠ "" ∧ t ≠ "null") then t else "[]".

End statements.

Section storing.
Context {D : MySQL} {K : DbCodec} {Pr : Primitives}.
(** The two environment variables of package crypto, and its random source. *)
Context (salt_env key_env : string) (random : nat → option string).

Definition buildSecretFinding (nonce : option string) (secretID : Z) (m : SecretModel) : SecretFinding :=
  mk_finding secretID (Type_ m) (LineNo m) (FileLocation m) (SecretType m)
    (ProtectAtRest key_env nonce (SecretString m)) (Fingerprint salt_env (SecretString m)) (SecretConfidence m)
    (if SFeqb (Score m) (S754_zero false) then None else Some (Score m))
    (Tier m) (VerificationStatus m) (MASVSID m).

(** One nonce per value. *)
Definition build_findings (secretID : Z) (drawn : nat) (l : list SecretModel) : list SecretFinding :=
  imap (λ i m, buildSecretFinding (random (drawn + i)%nat) secretID m) l.

Definition component_row (secretID : Z) (a : ManifestActivityInfo) : Activity :=
  mk_arow secretID (Name a) (Exported a) (jsonColumnValue (Marshal_filters (IntentFilters a))).

Definition provider_row (secretID : Z) (p : ManifestProviderInfo) : ContentProvider :=
  mk_crow secretID (p_Name p) (p_Exported p) "[]" (jsonColumnValue (Marshal_authorities (Authorities p)))
    (GrantUriPermissions p).

(** A list of children, when it is not empty. *)
Definition children {R} (what hash : string) (hold : R → res R) (add : list R → tables → tables) (rows : list R) : St unit :=
  if decide (rows = []) then mret tt
  else wrapping ("failed to create " +:+ what +:+ " for " +:+ hash) (CreateInBatches hold add rows 100).

Definition create_findings (secretID : Z) (hash : string) (l : list SecretModel) : St unit := λ s,
  children "secret findings" hash hold_finding add_findings (build_findings secretID (ss_drawn s) l)
    (draw (length l) s).

Definition create_components (id : Z) (secret : Secrets) : St unit :=
  let hash := s_APKHash secret in
  _ ← children "activities" hash (hold_component "activities") add_activities (component_row id <$> s_Activities secret);
  _ ← children "services" hash (hold_component "services") add_services (component_row id <$> s_Services secret);
  _ ← children "content providers" hash hold_provider add_providers (provider_row id <$> s_ContentProviders secret);
  children "broadcast receivers" hash (hold_component "broadcast_receivers") add_receivers
    (component_row id <$> s_BroadcastReceivers secret).

Definition create_ios (id : Z) (hash : string) (iosMeta : option IOSMetadata) : St unit :=
  match iosMeta with
  | None => mret tt
  | Some m => wrapping ("failed to create ios_metadata for " +:+ hash) (insert_rows hold_ios add_ios [(id, m)])
  end.

Definition metadata_text (secret : Secrets) : string :=
  match Marshal_metadata (s_Metadata secret) with Ok text => text | Err _ => "{}" end.

Definition secret_row (secret : Secrets) (platform : string) (packageID id now : Z) : Secret :=
  mk_srow id now packageID (s_FileName secret) (s_APKHash secret) (APKVersion secret)
    (Z.of_nat (length (s_SecretModel secret))) platform (metadata_text secret).

(** The body of the transaction. *)
Definition store_scan (secret : Secrets) (platform : string) (iosMeta : option IOSMetadata) : St unit :=
  let hash := s_APKHash secret in
  packageID ← wrapping ("failed to get or create package_data for " +:+ hash) (FirstOrCreate hash (s_PackageDataModel secret));
  present ← wrapping ("failed to check for existing secret " +:+ hash) (secret_exists hash);
  if (present : bool) then mret tt
  else
    id ← wrapping ("failed to create secret " +:+ hash) (create_secret (secret_row secret platform packageID));
    _ ← create_findings id hash (s_SecretModel secret);
    if decide (platform = "ios") then create_ios id hash iosMeta else create_components id secret.

(** The database of the process: the breakers, and the session when it is connected. *)
Record database := mk_database { d_breakers : registry; d_session : session }.

(** [utils.Do("db", ...)] *)
Definition guarded {A} (m : St A) (d : database) : res A * database :=
  let run := λ (c : option (res A) * session), let '(r, s) := m c.2 in
               (match r with Ok _ => None | Err e => Some e end, (Some r, s)) in
  let '(err, reg, c) := Do (λ c, ss_now c.2) "db" run (d_breakers d) (None, d_session d) in
  let d := mk_database reg c.2 in
  match err, c.1 with
  | None, Some r => (r, d)
  | Some e, _ => (Err e, d)
  | None, None => (Err (ENew ""), d)
  end.

(** The error is logged only; it is given here for the statements about it. *)
Definition insertSecretsSync (secret : Secrets) (platform : string) (iosMeta : option IOSMetadata) (d : database)
    : option error * database :=
  let platform := if decide (platform = "") then "android" else platform in
  match guarded (Transaction (store_scan secret platform iosMeta)) d with
  | (Ok _, d) => (None, d)
  | (Err e, d) => (Some e, d)
  end.

(** [None] is the nil connection.  [InsertSecretsAsync] runs the same in a goroutine. *)
Definition InsertSecrets (secret : Secrets) (d : option database) : option database :=
  d ← d; Some (insertSecretsSync secret "android" None d).2.
Definition InsertSecretsIOS (secret : Secrets) (iosMeta : IOSMetadata) (d : option database) : option database :=
  d ← d; Some (insertSecretsSync secret "ios" (Some iosMeta) d).2.
Definition InsertSecretsAsync (secret : Secrets) (d : option database) : option database := InsertSecrets secret d.

End storing.

(** ** Reading *)

(** A secret row with its relations. *)
Record loaded := mk_loaded {
  l_Secret : Secret; l_PackageData : PackageDataModel; l_SecretFindings : list SecretFinding;
  l_Activities : list Activity; l_Services : list Activity; l_ContentProviders : list ContentProvider;
  l_BroadcastReceivers : list Activity }.

Section reading.
Context {D : MySQL} {K : DbCodec}.

Definition scan_package (p : PackageData) : res PackageDataModel :=
  ss ← array_Scan (pd_SupportScreens p); ds ← array_Scan (pd_Densities p); nc ← array_Scan (pd_NativeCode p);
  Ok (mk_package (pd_APKHash p) (pd_PackageName p) (pd_VersionCode p) (pd_VersionName p) (pd_CompileSdkVersion p)
        (pd_SdkVersion p) (pd_TargetSdk p) (pd_MinSDK p) ss ds nc).

(** One query of a preload. *)
Definition select {A} (f : tables → A) : St A := trip (λ s, (Ok (f (ss_tables s)), s)).

(** The packages of some secrets, decoded. *)
Definition decoded (ids : list Z) (l : list PackageData) : res (list (Z * PackageDataModel)) :=
  mapM (λ p, m ← scan_package p; Ok (pd_ID p, m)) (filter (λ p, pd_ID p ∈ ids) l).
Definition packages_of (ids : list Z) : St (list (Z * PackageDataModel)) :=
  trip (λ s, (decoded ids (package_data (ss_tables s)), s)).

Definition children_of {A} (key : A → Z) (id : Z) (l : list A) : list A := filter (λ a, key a = id) l.

Definition attach (pk : list (Z * PackageDataModel)) (f : list SecretFinding) (a s : list Activity) (c : list ContentProvider)
    (b : list Activity) (r : Secret) : loaded :=
  let id := sr_ID r in
  mk_loaded r (default empty_package (snd <$> find (λ p, bool_decide (p.1 = sr_PackageDataID r)) pk))
    (children_of sf_SecretID id f) (children_of ar_SecretID id a) (children_of ar_SecretID id s)
    (children_of cp_SecretID id c) (children_of ar_SecretID id b).

(** The six [Preload]s: one query each, none when there is no row. *)
Definition preload (rows : list Secret) : St (list loaded) :=
  if decide (rows = []) then mret []
  else
    pk ← packages_of (sr_PackageDataID <$> rows);
    f ← select secret_findings; a ← select activities; s ← select services;
    c ← select content_providers; b ← select broadcast_receivers;
    mret (attach pk f a s c b <$> rows).

Definition querySecrets (limit offset : Z) : database → res (list loaded) * database := guarded (
  rows ← select (λ t, take (Z.to_nat limit) (drop (Z.to_nat offset) (newest_first (secrets_new t))));
  preload rows).

Definition defaultSecretsLimit : Z := 100.
Definition maxSecretsLimit : Z := 1000.

(** A decoder whose error is dropped leaves the zero value. *)
Definition value_or {A} (zero : A) (r : res A) : A := match r with Ok a => a | Err _ => zero end.

Definition filters_of (text : string) : list ManifestFilter :=
  if decide (text = "") then [] else value_or [] (Unmarshal_filters text).

Definition component_info (a : Activity) : ManifestActivityInfo :=
  mk_activity (ar_Name a) (ar_Exported a) "" (filters_of (ar_IntentFilters a)).

Definition provider_info (p : ContentProvider) : ManifestProviderInfo :=
  mk_provider_info (cp_Name p) (cp_Exported p) "" "" ""
    (if decide (cp_Authorities p = "") then [] else value_or [] (Unmarshal_strings (cp_Authorities p)))
    (cp_GrantUriPermissions p).

(** The finding of the listings, without the enrichment, and that of the duplicate lookup. *)
Definition listed_finding (f : SecretFinding) : SecretModel :=
  mk_secret (sf_Type f) (sf_LineNo f) (sf_FileLocation f) (sf_SecretType f) (sf_SecretString f) (sf_SecretConfidence f)
    (S754_zero false) "" "" "".

Definition cached_finding (f : SecretFinding) : SecretModel :=
  mk_secret (sf_Type f) (sf_LineNo f) (sf_FileLocation f) (sf_SecretType f) (sf_SecretString f) (sf_SecretConfidence f)
    (default (S754_zero false) (sf_Score f)) (sf_Tier f) (sf_VerificationStatus f) (sf_MASVSID f).

Definition old_format (finding : SecretFinding → SecretModel) (l : loaded) : Secrets :=
  let r := l_Secret l in
  mk_secrets (sr_FileName r) (sr_APKHash r) (sr_APKVersion r) (finding <$> l_SecretFindings l) (l_PackageData l)
    (value_or empty_metadata (Unmarshal_metadata (sr_Metadata r)))
    (component_info <$> l_Activities l) (component_info <$> l_Services l) (provider_info <$> l_ContentProviders l)
    (component_info <$> l_BroadcastReceivers l).

Definition convertSecretToOldFormat : loaded → Secrets := old_format listed_finding.

(** A failed query is logged and gives nothing. *)
Definition secrets_page (limit offset : Z) (d : database) : list Secrets * database :=
  match querySecrets limit offset d with
  | (Ok l, d) => (convertSecretToOldFormat <$> l, d)
  | (Err _, d) => ([], d)
  end.

Definition GetSecrets (d : database) : list Secrets * database := secrets_page maxSecretsLimit 0 d.

Definition page_limit (limit : Z) : Z :=
  let limit := if limit <=? 0 then defaultSecretsLimit else limit in
  if maxSecretsLimit <? limit then maxSecretsLimit else limit.

Definition GetSecretsPage (limit offset : Z) (d : database) : list Secrets * database :=
  secrets_page (page_limit limit) (if offset <? 0 then 0 else offset) d.

(** [Order("created_at DESC").First]: among rows of the same time the smallest key. *)
Definition newer (r q : Secret) : bool :=
  (sr_CreatedAt q <? sr_CreatedAt r) || ((sr_CreatedAt q =? sr_CreatedAt r) && (sr_ID r <? sr_ID q)).
Definition newest (l : list Secret) : option Secret :=
  foldl (λ best r, match best with Some q => if newer r q then Some r else best | None => Some r end) None l.

(** The newest row that satisfies a condition, with its relations. *)
Definition first_secret (P : Secret → bool) : St loaded :=
  row ← select (λ t, newest (filter (λ r, P r = true) (secrets_new t)));
  match row with
  | None => fail (ESentinel ErrRecordNotFound)
  | Some r => l ← preload [r];
              match l with x :: _ => mret x | [] => fail (ESentinel ErrRecordNotFound) end
  end.

Definition GetLastSecret (s : session) : option Secrets * session :=
  match first_secret (λ _, true) s with
  | (Ok l, s) => (Some (convertSecretToOldFormat l), s)
  | (Err _, s) => (None, s)
  end.

(** [utils.CheckDuplicateInDB] of a file with this hash; [Some text] is found. *)
Definition CheckDuplicateInDB (hash : string) (s : session) : option string * session :=
  match first_secret (λ r, bool_decide (sr_APKHash r = hash)) s with
  | (Err _, s) => (None, s)
  | (Ok l, s) => (Some (value_or "" (Marshal_secrets (old_format cached_finding l))), s)
  end.

End reading.
