(* ===== verification/Api.v ===== *)
(** * The request pipeline ([router/routers.go], InitRouters)

    The order in which a request passes the per-address limiter, authentication, the
    per-key limiter, the scope check and the body limit before a handler sees it, and the
    listing of stored scans.  The handler of a route is a parameter here; the handlers
    themselves are in [Router], [Upload] and below. *)
From Stdlib Require Import Ascii ZArith SpecFloat.
From S2P Require Import Prelude GoStr GoErr GoTime GoFloat Config Response Db Auth Router RateLimit.

Local Open Scope Z_scope.

(** ** GET /secrets *)

Section listing.
Context {D : MySQL} {K : DbCodec} (Marshal_list : list Secrets → string).

Definition get_secrets (conn : dbconn) (limit_q offset_q : string) (d : database) : response * database :=
  let limit := query_number (λ _, true) 0 limit_q in
  let offset := query_number (λ n, 0 <? n) 0 offset_q in
  match checkDatabaseStatus conn with
  | Some e => (failure 503 (Error e), d)
  | None =>
      let '(secrets, d) := GetSecretsPage limit offset d in
      (json 200 [("secrets", HRaw (Marshal_list secrets)); ("count", HInt (Z.of_nat (length secrets)));
                 ("limit", HInt limit); ("offset", HInt offset)], d)
  end.

End listing.

(** ** The middlewares *)

(** What the middlewares read of a request. *)
Record http := mk_http { ClientIP : string; h_route : Auth.request; h_body : Router.request }.

Section stack.
Context {L limiter : Type}.
(** The token buckets of the two limiters. *)
Context (NewLimiter : spec_float → Z → L) (Allow : Z → L → bool * L).
Context (NewKeyLimiter : Z → Z → limiter) (AllowKey : Z → limiter → bool * limiter).
Context (hashAPIKey : string → string).
Context (LookupEnv : string → option string).
(** The state the handlers work on. *)
Context {A : Type}.

Record server := mk_server {
  s_visitors : RateLimiter (L := L); s_auth : auth_state; s_keys : gmap Z limiter; s_app : A }.

Definition env (k : string) : string := default "" (LookupEnv k).

Definition requireAPIKey : bool := negb (bool_decide (env "MORF_REQUIRE_API_KEY" = "false")).
Definition enforceScopes : bool := bool_decide (env "MORF_ENFORCE_SCOPES" = "true").

(** The routes registered before the limiter. *)
Definition public (r : Auth.request) : bool :=
  bool_decide (FullPath r ∈ ["/api/metrics"; "/api/health"; "/api/ready"; "/api/live"]).

(** The routes with a limited body are the pattern mutations and the two integrations. *)
Definition body_limited : Auth.request → bool := isSensitiveAPIPath.

(** Answered by a middleware, with a status, or by the handler. *)
Inductive answer := Answered (status : Z) | Handled (r : response).

(** [lookup_key] is the database's answer for a key at this time. *)
Definition handle (lookup_key : string → res APIKey) (now : Z) (x : http)
    (handler : context → string * bool → A → response * A) (s : server) : answer * server :=
  let run c content s :=
    let '(resp, a) := handler c content (s_app s) in
    (Handled resp, mk_server (s_visitors s) (s_auth s) (s_keys s) a) in
  let whole := (Body (h_body x), false) in
  if public (h_route x) then run no_context whole s
  else
    match Middleware NewLimiter Allow now (ClientIP x) (s_visitors s) with
    | (Some resp, v) => (Answered (status resp), mk_server v (s_auth s) (s_keys s) (s_app s))
    | (None, v) =>
        match APIKeyAuthSelective hashAPIKey lookup_key requireAPIKey now (h_route x) no_context (s_auth s) with
        | (Abort_ code, au) => (Answered code, mk_server v au (s_keys s) (s_app s))
        | (Next c, au) =>
            match RateLimitMiddleware NewKeyLimiter AllowKey now c (s_keys s) with
            | (Abort_ code, ks) => (Answered code, mk_server v au ks (s_app s))
            | (Next c, ks) =>
                let s := mk_server v au ks (s_app s) in
                match (if enforceScopes then RequireScopeForSensitive "scan:write" (h_route x) c else Next c) with
                | Abort_ code => (Answered code, s)
                | Next c =>
                    if body_limited (h_route x) then
                      if maxBodyBytes LookupEnv <? ContentLength (h_body x) then (Answered 413, s)
                      else run c (MaxBytesReader (maxBodyBytes LookupEnv) (Body (h_body x))) s
                    else run c whole s
                end
            end
        end
    end.

(** ** Facts *)

Lemma MaxBytesReader_bound limit content : 0 ≤ limit → len (MaxBytesReader limit content).1 ≤ limit.
Proof.
  intros Hl. unfold MaxBytesReader. destruct (Z.ltb_spec limit (len content)); cbn [fst]; [|lia].
  unfold len in *. rewrite take_str_length by lia. lia.
Qed.

Lemma maxBodyBytes_pos : 0 < maxBodyBytes LookupEnv.
Proof.
  unfold maxBodyBytes. destruct (Z.leb_spec (Int LookupEnv "MORF_MAX_BODY_BYTES" defaultMaxBodyBytes) 0); [unfold defaultMaxBodyBytes|]; lia.
Qed.

Lemma RateLimitMiddleware_next now c c' m m' :
  RateLimitMiddleware NewKeyLimiter AllowKey now c m = (Next c', m') → c' = c.
Proof.
  unfold RateLimitMiddleware. destruct (c_key_id c); [|by intros [= <- <-]].
  destruct (GetLimiter _ _ _ _) as [l m1]. destruct (AllowKey now l) as [[] l']; [|done]. by intros [= <- <-].
Qed.

(** A scope that is required is among the request's. *)
Definition in_scope (scope : string) (c : context) : Prop :=
  ∃ raw s, c_scopes c = Some raw ∧ s ∈ normalizeScopes raw ∧ (s = "*" ∨ s = scope).

Lemma RequireScopeForSensitive_next scope r c c' : scope ≠ "" → RequireScopeForSensitive scope r c = Next c' →
  c' = c ∧ (isSensitiveAPIPath r = true → in_scope scope c).
Proof.
  unfold RequireScopeForSensitive, RequireScope. intros Hs. destruct (isSensitiveAPIPath r); [|by intros [= <-]].
  rewrite decide_False by done. destruct (c_scopes c) as [raw|] eqn:E; [|done].
  destruct (existsb _ _) eqn:Ex; [|done]. intros [= <-]. split; [done|]. intros _.
  apply existsb_exists in Ex as (s & Hin%list_elem_of_In & Hsc). exists raw, s. split; [done|]. split; [done|].
  apply orb_true_iff in Hsc as [H%bool_decide_eq_true|H%bool_decide_eq_true]; auto.
Qed.

(** How a key is accepted: it was in the database within the last cache lifetime, active,
    has not expired, and lends the request its identity and scopes. *)
Definition authenticated (history : Z → string → res APIKey) (ttl now : Z) (r : Auth.request) (c : context) : Prop :=
  presented_key r ≠ "" ∧ ∃ t k, now - Z.max 0 ttl ≤ t ≤ now ∧ history t (hashAPIKey (presented_key r)) = Ok k ∧
    k_IsActive k = true ∧ IsExpired now k = false ∧ c_key_id c = Some (k_ID k) ∧ c_scopes c = Some (ScopesArray (k_Scopes k)).

Context (history : Z → string → res APIKey).

Lemma selective_authenticated ttl now enforceAll r c s : cache_ok history ttl now s →
  enforceAll || isSensitiveAPIPath r || isProtectedDataPath r = true →
  ∀ c', (APIKeyAuthSelective hashAPIKey (history now) enforceAll now r c s).1 = Next c' → authenticated history ttl now r c'.
Proof.
  intros Hs Hp c'. unfold APIKeyAuthSelective, APIKeyAuth. rewrite Hp. case_decide as Hk; [done|].
  pose proof (validate_cached_ok hashAPIKey history ttl now (presented_key r) s Hs) as Hv.
  destruct (validateAPIKeyCached _ _ _ _ _) as [[k|e] s']; [|done].
  destruct Hv as [_ Hv]. destruct (Hv k eq_refl) as (t & Ht & Hh). destruct (IsValid now k) eqn:Hval; [|done].
  cbn. intros [= <-]. apply andb_true_iff in Hval as [Ha He%negb_true_iff].
  split; [done|]. exists t, k. split; [lia|done].
Qed.

(** C7: no handler runs unguarded, and a refused request changes nothing.  At any point of
    any history of the key cache, for every request to a route other than the four probes:
    either a middleware answers and the state the handlers work on is untouched, or the
    handler ran, and then the address had a token left; when keys are required, or the
    route is an integration, changes patterns or shows findings, the request presented a
    key that was in the database within the last cache lifetime, active, and has not
    expired; when scopes are enforced, that key has the scope to change things on the
    sensitive routes; and on these the handler saw no more of the body than the limit,
    whatever length was declared. *)
Theorem handlers_guarded (ttl now0 now : Z) (x : http) (handler : context → string * bool → A → response * A) (s : server)
    (Hserved : served hashAPIKey history ttl now0 (s_auth s)) (Htime : now0 ≤ now) (Hpublic : public (h_route x) = false) :
  match handle (history now) now x handler s with
  | (Answered _, s') => s_app s' = s_app s
  | (Handled resp, s') =>
      (Middleware NewLimiter Allow now (ClientIP x) (s_visitors s)).1 = None ∧
      ∃ c content, handler c content (s_app s) = (resp, s_app s') ∧
        (requireAPIKey || isSensitiveAPIPath (h_route x) || isProtectedDataPath (h_route x) = true →
           authenticated history ttl now (h_route x) c) ∧
        (enforceScopes = true → isSensitiveAPIPath (h_route x) = true → in_scope "scan:write" c) ∧
        (isSensitiveAPIPath (h_route x) = true → len content.1 ≤ maxBodyBytes LookupEnv)
  end.
Proof.
  apply served_cache_ok in Hserved. apply (cache_ok_later _ _ _ now) in Hserved; [|done].
  unfold handle. rewrite Hpublic. destruct (Middleware _ _ _ _ _) as [[resp|] v]; [done|].
  pose proof (selective_authenticated ttl now requireAPIKey (h_route x) no_context _ Hserved) as Hauth.
  destruct (APIKeyAuthSelective _ _ _ _ _ _ _) as [[c|code] au]; [|done].
  destruct (RateLimitMiddleware _ _ _ _ _) as [[c1|code] ks] eqn:Er; [|done]. apply RateLimitMiddleware_next in Er as ->.
  assert (∀ c2, (if enforceScopes then RequireScopeForSensitive "scan:write" (h_route x) c else Next c) = Next c2 →
    c2 = c ∧ (enforceScopes = true → isSensitiveAPIPath (h_route x) = true → in_scope "scan:write" c)) as Hsc.
  { intros c2 H. destruct enforceScopes; [|by injection H as <-]. apply RequireScopeForSensitive_next in H as [-> H]; [|done]. done. }
  destruct (if enforceScopes then _ else _) as [c2|code]; [|done]. destruct (Hsc c2 eq_refl) as [-> Hin].
  unfold body_limited. destruct (isSensitiveAPIPath (h_route x)) eqn:Es.
  - destruct (_ <? _); [done|]. cbn [s_app]. destruct (handler c _ (s_app s)) as [resp a] eqn:Eh. cbn. split; [done|].
    eexists c, _. split; [exact Eh|]. split; [intros H; by apply Hauth|]. split; [done|]. intros _.
    apply MaxBytesReader_bound. pose proof maxBodyBytes_pos. lia.
  - cbn [s_app]. destruct (handler c _ (s_app s)) as [resp a] eqn:Eh. cbn. split; [done|].
    eexists c, _. split; [exact Eh|]. split; [intros H; by apply Hauth|]. done.
Qed.

End stack.

(** ** Instances *)

Definition bucket (now : Z) (n : Z) : bool * Z := (0 <? n, n - 1).
Definition default_env (k : string) : option string := if bool_decide (k = "MORF_ENFORCE_SCOPES") then Some "true" else None.
Definition writer_history (t : Z) (h : string) : res APIKey :=
  if decide (h = "h:secret") then Ok (mk_key 7 "ci" ["scan:write"] 100 None true) else Err (ESentinel ErrRecordNotFound).
Definition sample_server : server (A := nat) :=
  mk_server (NewRateLimiter (L := Z) default_env (λ _, None) (λ _, None)) fresh_state (∅ : gmap Z Z) 0%nat.
Definition counting (c : context) (content : string * bool) (n : nat) : response * nat :=
  (json 200 [("read", HInt (len content.1))], Datatypes.S n).
Definition edit_request (key : string) : http :=
  mk_http "10.0.0.1" (Auth.mk_request "/api/patterns" "POST" key "") (Router.mk_request 2 "{}").

#[local] Notation sample_handle key := (handle (λ _ burst, burst) bucket (λ _ n, n) bucket (String.append "h:") default_env
  (writer_history 50) 50 (edit_request key) counting sample_server).

Lemma handlers_guarded_witness :
  (sample_handle "secret").1 = Handled (json 200 [("read", HInt 2)]) ∧ (sample_handle "other").1 = Answered 401 ∧
  ∃ c, authenticated (String.append "h:") writer_history (seconds 60) 50 (h_route (edit_request "secret")) c ∧ in_scope "scan:write" c.
Proof.
  pose proof (handlers_guarded (λ _ burst, burst) bucket (λ _ n, n) bucket (String.append "h:") default_env writer_history
    (seconds 60) 0 50 (edit_request "secret") counting sample_server
    (served_init (String.append "h:") writer_history (seconds 60) fresh_state 0 eq_refl eq_refl) ltac:(done) eq_refl) as H.
  assert (E : (sample_handle "secret").1 = Handled (json 200 [("read", HInt 2)])) by (vm_compute; reflexivity).
  split; [exact E|]. split; [vm_compute; reflexivity|].
  destruct (sample_handle "secret") as [[code|resp] s']; [discriminate E|].
  destruct H as (_ & c & content & _ & Ha & Hs & _). exists c. split; [exact (Ha eq_refl)|exact (Hs eq_refl eq_refl)].
Defined.
