(* ===== verification/Routes.v ===== *)
(** * The route table ([router/routers.go], InitRouters)

    The order of registration, from which gin makes the chain of a route: the middlewares
    in use when the route is registered, then its own.  The chains are run one middleware
    after the other, and come out as the pipeline of [Api]. *)
From Stdlib Require Import Ascii ZArith SpecFloat.
From S2P Require Import Prelude GoStr GoErr Config Response Auth Router RateLimit Api.

Local Open Scope Z_scope.

Inductive middleware := MCorrelation | MMetrics | MLimiter | MAuth | MKeyLimiter | MScope | MBody.
#[export] Instance middleware_eq_dec : EqDecision middleware.
Proof. solve_decision. Defined.

(** [router.Use], or a route with the middlewares of its own. *)
Inductive registration := Use (m : middleware) | On (method path : string) (own : list middleware).

Definition InitRouters (enforce : bool) : list registration :=
  [Use MCorrelation; Use MMetrics;
   On "GET" "/metrics" []; On "GET" "/health" []; On "GET" "/ready" []; On "GET" "/live" [];
   Use MLimiter; Use MAuth; Use MKeyLimiter] ++
  (if enforce then [Use MScope] else []) ++
  [On "GET" "/results/:jobID" []; On "GET" "/results/:jobID/export" []; On "GET" "/compare/:jobID1/:jobID2" [];
   On "POST" "/jobs/:jobID/cancel" []; On "GET" "/dlq" []; On "GET" "/webhook-dlq" []; On "POST" "/dlq/:jobID/retry" [];
   On "GET" "/secrets" []; On "POST" "/upload" []; On "POST" "/bulk-upload" [];
   On "POST" "/jira" [MBody]; On "POST" "/slackscan" [MBody];
   On "GET" "/patterns" []; On "GET" "/patterns/:filename" []; On "POST" "/patterns/:filename/test" [MBody];
   On "POST" "/patterns/:filename" [MBody]; On "PUT" "/patterns/:filename/patterns" [MBody];
   On "PATCH" "/patterns/:filename/patterns/:patternName" [MBody];
   On "DELETE" "/patterns/:filename/patterns/:patternName" [MBody];
   On "PATCH" "/patterns/:filename/patterns/:patternName/enable" [MBody];
   On "POST" "/patterns" [MBody]; On "DELETE" "/patterns/:filename" [MBody]].

(** The routes of a group with their chains. *)
Fixpoint chains (prefix : string) (used : list middleware) (rs : list registration) : list (string * string * list middleware) :=
  match rs with
  | [] => []
  | Use m :: rs => chains prefix (used ++ [m]) rs
  | On method path own :: rs => (method, prefix +:+ path, used ++ own) :: chains prefix used rs
  end.

Definition table (enforce : bool) : list (string * string * list middleware) := chains "/api" [] (InitRouters enforce).

Definition as_request (e : string * string * list middleware) : Auth.request := Auth.mk_request e.1.2 e.1.1 "" "".

Definition open_to_all : list (string * string) :=
  [("GET", "/api/metrics"); ("GET", "/api/health"); ("GET", "/api/ready"); ("GET", "/api/live");
   ("POST", "/api/jobs/:jobID/cancel"); ("GET", "/api/dlq"); ("GET", "/api/webhook-dlq"); ("POST", "/api/dlq/:jobID/retry");
   ("POST", "/api/upload"); ("POST", "/api/bulk-upload"); ("GET", "/api/patterns"); ("GET", "/api/patterns/:filename")].

(** A fact of every route, by computation. *)
Lemma table_forall (P : bool → string * string * list middleware → bool) :
  forallb (λ b, forallb (P b) (table b)) [true; false] = true → ∀ b e, e ∈ table b → P b e = true.
Proof.
  intros H b e He. rewrite forallb_forall in H. specialize (H b ltac:(destruct b; cbn; auto)).
  rewrite forallb_forall in H. by apply H, list_elem_of_In.
Qed.

Lemma open_routes b e : e ∈ table b → isSensitiveAPIPath (as_request e) || isProtectedDataPath (as_request e) = false → e.1 ∈ open_to_all.
Proof.
  intros He Ho. pose proof (table_forall (λ _ e, isSensitiveAPIPath (as_request e) || isProtectedDataPath (as_request e) || bool_decide (e.1 ∈ open_to_all))
    ltac:(by vm_compute) b e He) as H. cbn beta in H. rewrite Ho in H. by apply bool_decide_eq_true in H.
Qed.

Section serve.
Context {L limiter : Type}.
Context (NewLimiter : spec_float → Z → L) (Allow : Z → L → bool * L).
Context (NewKeyLimiter : Z → Z → limiter) (AllowKey : Z → limiter → bool * limiter).
Context (hashAPIKey : string → string) (LookupEnv : string → option string).
Context {A : Type}.
#[local] Notation server := (server (L := L) (limiter := limiter) (A := A)).

(** What the next one in the chain works on: the context, the body and the server. *)
Definition in_chain : Type := context * (string * bool) * server.

(** One middleware: it answers, or passes on.  Correlation and metrics only log and count. *)
Definition pass (lookup_key : string → res APIKey) (now : Z) (x : http) (m : middleware) (st : in_chain) : answer * server + in_chain :=
  let '(c, content, s) := st in
  match m with
  | MCorrelation | MMetrics => inr st
  | MLimiter =>
      match Middleware NewLimiter Allow now (ClientIP x) (s_visitors s) with
      | (Some resp, v) => inl (Answered (status resp), mk_server v (s_auth s) (s_keys s) (s_app s))
      | (None, v) => inr (c, content, mk_server v (s_auth s) (s_keys s) (s_app s))
      end
  | MAuth =>
      match APIKeyAuthSelective hashAPIKey lookup_key (requireAPIKey LookupEnv) now (h_route x) c (s_auth s) with
      | (Abort_ code, au) => inl (Answered code, mk_server (s_visitors s) au (s_keys s) (s_app s))
      | (Next c, au) => inr (c, content, mk_server (s_visitors s) au (s_keys s) (s_app s))
      end
  | MKeyLimiter =>
      match RateLimitMiddleware NewKeyLimiter AllowKey now c (s_keys s) with
      | (Abort_ code, ks) => inl (Answered code, mk_server (s_visitors s) (s_auth s) ks (s_app s))
      | (Next c, ks) => inr (c, content, mk_server (s_visitors s) (s_auth s) ks (s_app s))
      end
  | MScope =>
      match RequireScopeForSensitive "scan:write" (h_route x) c with
      | Abort_ code => inl (Answered code, s)
      | Next c => inr (c, content, s)
      end
  | MBody =>
      if maxBodyBytes LookupEnv <? ContentLength (h_body x) then inl (Answered 413, s)
      else inr (c, MaxBytesReader (maxBodyBytes LookupEnv) content.1, s)
  end.

(** The chain, and the handler at its end. *)
Fixpoint serve (lookup_key : string → res APIKey) (now : Z) (x : http) (chain : list middleware)
    (handler : context → string * bool → A → response * A) (st : in_chain) : answer * server :=
  match chain with
  | [] => let '(c, content, s) := st in
          let '(resp, a) := handler c content (s_app s) in (Handled resp, mk_server (s_visitors s) (s_auth s) (s_keys s) a)
  | m :: chain => match pass lookup_key now x m st with
                  | inl r => r
                  | inr st => serve lookup_key now x chain handler st
                  end
  end.

(** The chain of a route, by what [Api] and [Auth] decide from its path and method. *)
Definition expected_chain (enforce : bool) (r : Auth.request) : list middleware :=
  [MCorrelation; MMetrics] ++
  (if public r then [] else [MLimiter; MAuth; MKeyLimiter] ++ (if enforce then [MScope] else []) ++ (if body_limited r then [MBody] else [])).

Lemma table_as_expected enforce e : e ∈ table enforce → e.2 = expected_chain enforce (as_request e).
Proof.
  intros He. pose proof (table_forall (λ b e, bool_decide (e.2 = expected_chain b (as_request e))) ltac:(by vm_compute) enforce e He) as H.
  by apply bool_decide_eq_true in H.
Qed.

Lemma expected_chain_served lookup_key now x handler s :
  serve lookup_key now x (expected_chain (enforceScopes LookupEnv) (h_route x)) handler (no_context, (Body (h_body x), false), s) =
  handle NewLimiter Allow NewKeyLimiter AllowKey hashAPIKey LookupEnv lookup_key now x handler s.
Proof.
  unfold expected_chain, handle. destruct s as [v au ks a]. destruct (public (h_route x)); [done|].
  cbn [serve app pass s_visitors s_auth s_keys s_app].
  destruct (Middleware _ _ _ _ _) as [[resp|] v']; [done|]. cbn [pass s_visitors s_auth s_keys s_app].
  destruct (APIKeyAuthSelective _ _ _ _ _ _ _) as [[c|code] au']; [|done]. cbn [pass s_visitors s_auth s_keys s_app].
  destruct (RateLimitMiddleware _ _ _ _ _) as [[c'|code] ks']; [|done]. cbn [pass s_visitors s_auth s_keys s_app].
  destruct (enforceScopes LookupEnv); cbn [app serve pass]; [destruct (RequireScopeForSensitive _ _ _) as [c2|code]; [|done]|];
    (destruct (body_limited (h_route x)); [|done]); cbn [serve pass fst]; by destruct (_ <? _).
Qed.

(** C8: Every route is served as the pipeline says.  For each route of the table and each
    request gin routes to it, whatever the environment, the chain of middlewares that
    registration gives the route, run one after the other, answers as [Api.handle] does
    and leaves the server in the same state; so what is proved of the pipeline holds of
    every route that is registered.  No method and path are registered twice, and the only
    routes a request can use without a key when authentication is opted out of are the
    four probes, admission, and reading the queues and patterns. *)
Theorem routes_served lookup_key now x handler s e :
  e ∈ table (enforceScopes LookupEnv) → Method (h_route x) = e.1.1 → FullPath (h_route x) = e.1.2 →
  serve lookup_key now x e.2 handler (no_context, (Body (h_body x), false), s) =
    handle NewLimiter Allow NewKeyLimiter AllowKey hashAPIKey LookupEnv lookup_key now x handler s ∧
  NoDup (table (enforceScopes LookupEnv)).*1 ∧
  (isSensitiveAPIPath (h_route x) || isProtectedDataPath (h_route x) = false →
   e.1 ∈ open_to_all).
Proof.
  intros He Hm Hp. split_and!.
  - rewrite (table_as_expected _ _ He). rewrite <- expected_chain_served. f_equal.
    unfold expected_chain, public, body_limited, isSensitiveAPIPath, as_request. cbn. by rewrite Hm, Hp.
  - destruct (enforceScopes LookupEnv); apply (bool_decide_unpack _); by vm_compute.
  - intros Ho. assert (Ho' : isSensitiveAPIPath (as_request e) || isProtectedDataPath (as_request e) = false).
    { unfold isSensitiveAPIPath, isProtectedDataPath, as_request in *. cbn in *. by rewrite Hm, Hp in Ho. }
    clear Ho. apply (open_routes _ _ He Ho').
Qed.
End serve.

(** ** Instances *)

Definition upload_request (key : string) : http :=
  mk_http "10.0.0.1" (Auth.mk_request "/api/upload" "POST" key "") (Router.mk_request 2 "{}").

#[local] Notation sample_serve key := (serve (λ _ burst, burst) bucket (λ _ n, n) bucket (String.append "h:") default_env
  (writer_history 50) 50 (upload_request key) [MCorrelation; MMetrics; MLimiter; MAuth; MKeyLimiter; MScope] counting
  (no_context, ("{}", false), sample_server)).

Lemma routes_served_witness :
  sample_serve "secret" = handle (λ _ burst, burst) bucket (λ _ n, n) bucket (String.append "h:") default_env
    (writer_history 50) 50 (upload_request "secret") counting sample_server ∧
  (sample_serve "secret").1 = Handled (json 200 [("read", HInt 2)]) ∧ (sample_serve "other").1 = Answered 401.
Proof.
  split; [|by split; vm_compute].
  refine (proj1 (routes_served (λ _ burst, burst) bucket (λ _ n, n) bucket (String.append "h:") default_env (writer_history 50) 50
    (upload_request "secret") counting sample_server
    ("POST", "/api/upload", [MCorrelation; MMetrics; MLimiter; MAuth; MKeyLimiter; MScope]) _ eq_refl eq_refl)).
  apply (bool_decide_unpack _). by vm_compute.
Defined.

(** Scopes guard the sensitive routes only: with scopes enforced, a key without any scope
    may still queue scans, cancel jobs and retry them. *)
Example unscoped_routes : (λ e, e.1) <$> filter (λ e, negb (bool_decide (e.1.1 = "GET")) && negb (isSensitiveAPIPath (as_request e))) (table true) =
  [("POST", "/api/jobs/:jobID/cancel"); ("POST", "/api/dlq/:jobID/retry"); ("POST", "/api/upload"); ("POST", "/api/bulk-upload")].
Proof. by vm_compute. Qed.
