(* ===== verification/Main.v ===== *)
(** * Start-up and shutdown ([main.go])

    The three long-running modes, from the checks that stop a process at once to the
    order in which it lets go of what it holds, and the migration command.  A mode is a
    computation with a trace: what it starts and stops, in order.  The connection is
    [Migrate]'s, the pool [Pool]'s, the settings [Config]'s; the outcomes of the other
    initialisations are parameters, and the wait for a signal is an event. *)
From Stdlib Require Import ZArith Ascii Sorted.
From S2P Require Import Prelude Trace GoStr GoErr GoPath Config Storage Artifact Pool Migrate.

Local Open Scope Z_scope.

#[local] Notation Join := GoPath.Join.

(** What the engine is given: the mode, the proxies it trusts, the origins it allows. *)
Record engine := mk_engine { e_release : bool; e_proxies : list string; e_origins : list string }.

Inductive action :=
  | AMaxProcs (n : Z)
  | AInitTracing
  | AInitDB
  | AInitCache (url : string)
  | ASubscriber
  | APatternRefresher
  | AUsageFlusher
  | AInitBreakers
  | ACacheFromQueue
  | ARemoveAll (path : string)
  | AStartPool (workers : list Z)
  | ATunePool (n : Z)
  | APoolStats
  | ADepthReporter
  | AReaper
  | AServe (port : Z) (e : engine)
  | AAwait
  | ADrainHTTP
  | ACancelBackground
  | AStopPool
  | ACloseDB
  | AFlushTracing.

Definition jobs_dir : string := "/tmp/morf/jobs".

(** The trimmed, non-empty parts of a comma-separated list. *)
Definition comma_list (raw : string) : list string := filter (λ t, t ≠ "") (TrimSpace <$> Split raw ","%char).

Section main.
Context {V : Driver} (Executable : res string) (is_dir : string → bool) (ReadFile : string → res string).
Context (LookupEnv : string → option string).
(** The backends of the artifact store. *)
Context {B : Type} (newLocal newS3 : res B).
(** What [MaxProcs] leaves, the pool's size, and the outcomes of [InitTracing] and [InitQueue]. *)
Context (max_procs size : Z) (tracing_ok : bool) (InitQueue : option error).
(** Whether the queue is set afterwards, and whether it has a client. *)
Context (queue_set client_set : bool).
(** [os.ReadDir] of the workspaces. *)
Context (workspaces : option (list string)).

Definition state : Type := globals * W.
#[local] Notation boot := (Trace action state).

(** [log.Fatal]: the process exits, and the deferred calls do not run. *)
Definition fatal {A} : boot A := stop [].

(** [os.Setenv("DATABASE_URL", dbURL)], when the flag is given. *)
Definition env_with (dbURL : string) (k : string) : option string :=
  if negb (bool_decide (dbURL = "")) && bool_decide (k = "DATABASE_URL") then Some dbURL else LookupEnv k.
Definition getenv (dbURL : string) : string → string := Config.Getenv (env_with dbURL).

Definition gin_release : bool := negb (bool_decide (Config.Getenv LookupEnv "MORF_GIN_MODE" = "debug")).

(** What [SetTrustedProxies] is given; [nil] trusts none. *)
Definition trustedProxies : list string :=
  let raw := Config.Getenv LookupEnv "MORF_TRUSTED_PROXIES" in
  if decide (TrimSpace raw = "") then [] else comma_list raw.

Definition allowedOrigins : list string :=
  match LookupEnv "MORF_CORS_ALLOWED_ORIGINS" with
  | Some v => if decide (comma_list v = []) then ["http://localhost:4200"] else comma_list v
  | None => ["http://localhost:4200"]
  end.

Definition validateStorageOrExit : boot unit :=
  match ValidateConfiguredBackend (Config.Getenv LookupEnv "MORF_STORAGE_BACKEND") newLocal newS3 with
  | Some _ => fatal
  | None => mret tt
  end.

Definition sweepJobWorkspaces : boot unit :=
  match workspaces with
  | None => mret tt
  | Some entries => emit ((λ name, ARemoveAll (Join jobs_dir name)) <$> entries)
  end.

Definition init_db (dbURL : string) : boot globals :=
  _ ← emit [AInitDB];
  outside (λ '(g, w), let '(g, w) := InitDB (getenv dbURL) Executable is_dir ReadFile g w in (g, (g, w))).

Definition startDBPoolStatsReporter (g : globals) : boot unit :=
  if negb (DatabaseRequired g) || negb (GormDB g) then mret tt
  else err ← outside (λ '(g, w), let '(err, w) := gorm_DB w in (err, (g, w)));
       match err with Some _ => mret tt | None => emit [APoolStats] end.

Definition tune (dbURL : string) (g : globals) (n : Z) : boot unit :=
  if DatabaseRequired g && GormDB g
  then _ ← emit [ATunePool n];
       outside (λ '(g, w), let '(g, w) := TuneConnectionPool (getenv dbURL) n g w in (tt, (g, w)))
  else mret tt.

Definition tracing : boot unit := _ ← emit [AMaxProcs max_procs]; emit (if tracing_ok then [AInitTracing] else []).

(** From the flags to the circuit breakers: the same in the three modes, but for what
    the configuration must hold. *)
Definition prepare (dbURL : string) (requireQueue : bool) : boot globals :=
  _ ← validateStorageOrExit;
  _ ← tracing;
  let cfg := Load (env_with dbURL) in
  if requireQueue && negb (bool_decide (Validate cfg false requireQueue = [])) then fatal
  else
    g ← init_db dbURL;
    let redisURL := if decide (RedisURL cfg = "") then "redis://localhost:6379" else RedisURL cfg in
    _ ← emit [AInitCache redisURL; ASubscriber; APatternRefresher; AUsageFlusher; AInitBreakers];
    mret g.

Definition share_client : boot unit := emit (if queue_set && client_set then [ACacheFromQueue] else []).

Definition reporters : boot unit := _ ← emit [ADepthReporter]; emit (if queue_set then [AReaper] else []).

(** The pool, started. *)
Definition start_pool (p : WorkerPool) : boot WorkerPool :=
  let p := Start p in _ ← emit [AStartPool (workers p)]; mret p.

Definition serve (port : Z) : boot unit := emit [AServe port (mk_engine gin_release trustedProxies allowedOrigins)].

Definition close_db : boot unit :=
  g ← outside (λ '(g, w), (g, (g, w)));
  if GormDB g
  then err ← outside (λ '(g, w), let '(err, w) := gorm_DB w in (err, (g, w)));
       match err with Some _ => mret tt | None => emit [ACloseDB] end
  else mret tt.

(** The deferred calls. *)
Definition flush_tracing : boot unit := emit (if tracing_ok then [AFlushTracing] else []).

Definition stop_pool (p : WorkerPool) : boot unit := emit (if started p then [AStopPool] else []).

Definition runServer (port : Z) (dbURL : string) : boot unit :=
  g ← prepare dbURL false;
  wp ← match InitQueue with
       | Some _ => mret None
       | None =>
           _ ← share_client;
           _ ← sweepJobWorkspaces;
           p ← start_pool (NewWorkerPool size);
           _ ← tune dbURL g (workerCount p);
           _ ← startDBPoolStatsReporter g;
           _ ← reporters;
           mret (Some p)
       end;
  _ ← serve port;
  _ ← emit [AAwait; ADrainHTTP; ACancelBackground];
  _ ← match wp with Some p => stop_pool p | None => mret tt end;
  _ ← close_db;
  flush_tracing.

Definition runAPIOnly (port : Z) (dbURL : string) : boot unit :=
  g ← prepare dbURL true;
  match InitQueue with
  | Some _ => fatal
  | None =>
      _ ← share_client;
      _ ← (if DatabaseRequired g && GormDB g then _ ← tune dbURL g 8; startDBPoolStatsReporter g else mret tt);
      _ ← serve port;
      _ ← emit [AAwait; ADrainHTTP; ACancelBackground];
      _ ← close_db;
      flush_tracing
  end.

Definition runWorkerOnly (poolSize : Z) (dbURL : string) : boot unit :=
  g ← prepare dbURL true;
  match InitQueue with
  | Some _ => fatal
  | None =>
      _ ← share_client;
      _ ← sweepJobWorkspaces;
      let p := NewWorkerPool size in
      p ← start_pool (if 0 <? poolSize then SetWorkerCount poolSize p else p);
      _ ← (if DatabaseRequired g && GormDB g then _ ← tune dbURL g (workerCount p); startDBPoolStatsReporter g else mret tt);
      _ ← reporters;
      _ ← emit [AAwait; ACancelBackground];
      _ ← stop_pool p;
      _ ← close_db;
      flush_tracing
  end.

(** [morf migrate]: the switch that disables migrations is cleared first. *)
Definition migrate_env (k : string) : string :=
  if decide (k = "MORF_DISABLE_AUTO_MIGRATE") then "" else Config.Getenv LookupEnv k.

Definition migrate (backfill : bool) (BackfillNormalized : W → option error * W) : boot unit :=
  _ ← emit [AInitDB];
  g ← outside (λ '(g, w), let '(g, w) := InitDB migrate_env Executable is_dir ReadFile g w in (g, (g, w)));
  if negb (DatabaseRequired g) || negb (GormDB g) then fatal
  else if negb backfill then mret tt
  else err ← outside (λ '(g, w), let '(err, w) := BackfillNormalized w in (err, (g, w)));
       match err with Some _ => fatal | None => mret tt end.

(** ** The order of things *)

Definition rank (a : action) : nat :=
  match a with
  | AMaxProcs _ => 0
  | AInitTracing => 1
  | AInitDB => 2
  | AInitCache _ | ASubscriber | APatternRefresher | AUsageFlusher | AInitBreakers => 3
  | ACacheFromQueue => 4
  | ARemoveAll _ => 5
  | AStartPool _ => 6
  | ATunePool _ | APoolStats => 7
  | ADepthReporter | AReaper => 8
  | AServe _ _ => 9
  | AAwait => 10
  | ADrainHTTP => 11
  | ACancelBackground => 12
  | AStopPool => 13
  | ACloseDB => 14
  | AFlushTracing => 15
  end.

Ltac placed :=
  lazymatch goal with
  | |- ordered _ _ _ (mret _) => apply ordered_ret
  | |- ordered _ _ _ (outside _) => apply ordered_outside
  | |- ordered _ _ _ (emit _) => apply ordered_emit
  | |- ordered _ _ _ (stop _) => apply ordered_stop
  end; cbn; repeat constructor; lia.

Ltac placed_by L := eapply ordered_weaken; [apply L|lia|lia].

(** The next step of a mode keeps the rank below [mid]. *)
Ltac step mid := eapply (ordered_bind _ _ mid); [try placed|intros ?|lia].

Lemma storage_ordered : ordered rank 0 0 validateStorageOrExit.
Proof. unfold validateStorageOrExit, fatal. destruct (ValidateConfiguredBackend _ _ _); placed. Qed.

Lemma tracing_ordered : ordered rank 0 1 tracing.
Proof. unfold tracing. step 0%nat. destruct tracing_ok; placed. Qed.

Lemma prepare_ordered dbURL q : ordered rank 0 3 (prepare dbURL q).
Proof.
  unfold prepare, init_db, fatal. step 0%nat; [apply storage_ordered|]. step 1%nat; [apply tracing_ordered|].
  destruct (q && _); [placed|]. step 2%nat; [step 2%nat; placed|]. step 3%nat. placed.
Qed.

Lemma share_ordered : ordered rank 4 4 share_client.
Proof. unfold share_client. destruct (queue_set && client_set); placed. Qed.

Lemma sweep_ordered : ordered rank 5 5 sweepJobWorkspaces.
Proof.
  unfold sweepJobWorkspaces. destruct workspaces as [l|]; [|placed]. apply ordered_emit; [lia| |].
  - induction l as [|x l IH]; cbn; constructor; [done|]. apply Forall_fmap, Forall_fmap, Forall_true. cbn. lia.
  - apply Forall_fmap, Forall_fmap, Forall_true. cbn. lia.
Qed.

Lemma tune_ordered dbURL g n : ordered rank 7 7 (tune dbURL g n).
Proof. unfold tune. destruct (DatabaseRequired g && GormDB g); [|placed]. step 7%nat. placed. Qed.

Lemma stats_ordered g : ordered rank 7 7 (startDBPoolStatsReporter g).
Proof. unfold startDBPoolStatsReporter. destruct (_ || _); [placed|]. step 7%nat. case_match; placed. Qed.

Lemma tuned_ordered dbURL g n :
  ordered rank 7 7 (if DatabaseRequired g && GormDB g then _ ← tune dbURL g n; startDBPoolStatsReporter g else mret tt).
Proof. destruct (DatabaseRequired g && GormDB g); [|placed]. step 7%nat; [apply tune_ordered|apply stats_ordered]. Qed.

Lemma reporters_ordered : ordered rank 8 8 reporters.
Proof. unfold reporters. step 8%nat. destruct queue_set; placed. Qed.

Lemma start_ordered p : ordered rank 6 6 (start_pool p).
Proof. unfold start_pool. step 6%nat. placed. Qed.

Lemma close_ordered : ordered rank 14 14 close_db.
Proof. unfold close_db. step 14%nat. destruct (GormDB _); [|placed]. step 14%nat. case_match; placed. Qed.

Lemma end_ordered : ordered rank 14 15 (_ ← close_db; flush_tracing).
Proof. unfold flush_tracing. step 14%nat; [apply close_ordered|]. destruct tracing_ok; placed. Qed.

Lemma stop_ordered p : ordered rank 13 13 (stop_pool p).
Proof. unfold stop_pool. destruct (started p); placed. Qed.

Lemma server_ordered port dbURL : ordered rank 0 15 (runServer port dbURL).
Proof.
  unfold runServer. step 3%nat; [apply prepare_ordered|]. step 8%nat.
  - destruct InitQueue; [placed|]. step 4%nat; [placed_by share_ordered|].
    step 5%nat; [placed_by sweep_ordered|].
    step 6%nat; [placed_by start_ordered|].
    step 7%nat; [placed_by tune_ordered|].
    step 7%nat; [apply stats_ordered|]. step 8%nat; [placed_by reporters_ordered|]. placed.
  - unfold serve. step 9%nat. step 12%nat. step 13%nat.
    + case_match; [placed_by stop_ordered|placed].
    + placed_by end_ordered.
Qed.

Lemma api_ordered port dbURL : ordered rank 0 15 (runAPIOnly port dbURL).
Proof.
  unfold runAPIOnly, fatal. step 3%nat; [apply prepare_ordered|]. destruct InitQueue; [placed|].
  step 4%nat; [placed_by share_ordered|].
  step 7%nat; [placed_by tuned_ordered|].
  unfold serve. step 9%nat. step 12%nat. placed_by end_ordered.
Qed.

Lemma worker_ordered poolSize dbURL : ordered rank 0 15 (runWorkerOnly poolSize dbURL).
Proof.
  unfold runWorkerOnly, fatal. step 3%nat; [apply prepare_ordered|]. destruct InitQueue; [placed|].
  step 4%nat; [placed_by share_ordered|].
  step 5%nat; [placed_by sweep_ordered|].
  step 6%nat; [placed_by start_ordered|].
  step 7%nat; [placed_by tuned_ordered|].
  step 8%nat; [placed_by reporters_ordered|].
  step 12%nat. step 13%nat; [placed_by stop_ordered|].
  placed_by end_ordered.
Qed.

(** ** What a mode starts and stops *)

Definition is_await (a : action) : bool := match a with AAwait => true | _ => false end.
Definition is_drain (a : action) : bool := match a with ADrainHTTP => true | _ => false end.
Definition is_cancel (a : action) : bool := match a with ACancelBackground => true | _ => false end.
Definition is_serve (a : action) : bool := match a with AServe _ _ => true | _ => false end.
Definition is_start (a : action) : bool := match a with AStartPool _ => true | _ => false end.
Definition is_stop (a : action) : bool := match a with AStopPool => true | _ => false end.

(** A kind that only the pool and the end of a mode decide. *)
Definition late (p : action → bool) : Prop := ∀ a, p a = true → (9 ≤ rank a ≤ 13)%nat ∨ rank a = 6%nat.

(** Events apart from those of the pool, the server and the shutdown are not of a late kind. *)
Lemma silent {A} p lo hi (m : boot A) : late p → ordered rank lo hi m → (hi < 6 ∨ 6 < lo ∧ hi < 9 ∨ 13 < lo)%nat →
  shows p (λ _, True) false m.
Proof.
  intros Hp [_ Hm] Hb s a _. split; [done|]. destruct (Hm s) as [_ Hr]. apply not_true_iff_false.
  intros (e & He & Hpe)%existsb_exists. apply list_elem_of_In in He.
  assert (Hre : (lo ≤ rank e ≤ hi)%nat).
  { rewrite Forall_forall in Hr. apply Hr, list_elem_of_fmap. eauto. }
  destruct (Hp e Hpe); lia.
Qed.

Lemma shows_start p wp : shows p (λ wp', started wp' = true) (p (AStartPool (workers (Start wp)))) (start_pool wp).
Proof.
  unfold start_pool. rewrite <- (orb_false_r (p _)), <- (orb_false_r (p _)). eapply shows_bind; [apply shows_emit|].
  intros _ _. apply shows_ret. unfold Start. by destruct (started wp) eqn:E.
Qed.

Lemma shows_stop_pool p wp : started wp = true → shows p (λ _, True) (p AStopPool) (stop_pool wp).
Proof. intros Hs. unfold stop_pool. rewrite Hs, <- (orb_false_r (p _)). apply shows_emit. Qed.

Ltac booleans p := cbn; repeat match goal with |- context [p ?x] => destruct (p x) end; done.
Ltac hush L := eapply shows_bind; [eapply silent; [done|apply L|lia]|intros ? _].

Lemma shows_end p : late p → shows p (λ _, True) false (_ ← close_db; flush_tracing).
Proof. intros Hp. eapply silent; [done|apply end_ordered|lia]. Qed.

Definition has_queue : bool := match InitQueue with None => true | Some _ => false end.
Definition sized (poolSize : Z) : WorkerPool :=
  if 0 <? poolSize then SetWorkerCount poolSize (NewWorkerPool size) else NewWorkerPool size.

Lemma server_shows p port dbURL : late p →
  shows p (λ _, True)
    (has_queue && (p (AStartPool (workers (Start (NewWorkerPool size)))) || p AStopPool) ||
     (p (AServe port (mk_engine gin_release trustedProxies allowedOrigins)) || p AAwait || p ADrainHTTP || p ACancelBackground))
    (runServer port dbURL).
Proof.
  intros Hp. unfold runServer, has_queue.
  apply (shows_cong _ _ (false || ((if InitQueue then false else p (AStartPool (workers (Start (NewWorkerPool size))))) ||
    ((p (AServe port (mk_engine gin_release trustedProxies allowedOrigins)) || false) || ((p AAwait || (p ADrainHTTP || (p ACancelBackground || false))) ||
    ((if InitQueue then false else p AStopPool) || false)))))).
  { destruct InitQueue; booleans p. }
  hush prepare_ordered. apply (shows_bind _ (λ wp, if InitQueue then wp = None else ∃ q, wp = Some q ∧ started q = true)).
  - destruct InitQueue; [by apply shows_ret|]. apply (shows_cong _ _ (false || (false || (p (AStartPool (workers (Start (NewWorkerPool size)))) || (false || (false || (false || false))))))).
    { booleans p. }
    hush share_ordered. hush sweep_ordered. eapply shows_bind; [apply shows_start|]. intros q Hq.
    hush tune_ordered. hush stats_ordered. hush reporters_ordered. apply shows_ret. eauto.
  - intros wp Hwp. eapply shows_bind; [apply shows_emit|]. intros _ _. eapply shows_bind; [apply shows_emit|]. intros _ _.
    apply (shows_bind _ (λ _, True)); [|intros ? _; by apply shows_end]. destruct InitQueue; [subst wp; by apply shows_ret|].
    destruct Hwp as (q & -> & Hq). by apply shows_stop_pool.
Qed.

Lemma api_shows p port dbURL : late p →
  shows p (λ _, True)
    (p (AServe port (mk_engine gin_release trustedProxies allowedOrigins)) || p AAwait || p ADrainHTTP || p ACancelBackground)
    (runAPIOnly port dbURL).
Proof.
  intros Hp. unfold runAPIOnly, fatal.
  apply (shows_cong _ _ (false || (false || (false || ((p (AServe port (mk_engine gin_release trustedProxies allowedOrigins)) || false) ||
     ((p AAwait || (p ADrainHTTP || (p ACancelBackground || false))) || false)))))).
  { booleans p. }
  hush prepare_ordered. destruct InitQueue; [apply shows_stop|]. hush share_ordered. hush tuned_ordered.
  eapply shows_bind; [apply shows_emit|]. intros _ _. eapply shows_bind; [apply shows_emit|]. intros _ _. by apply shows_end.
Qed.

Lemma worker_shows p poolSize dbURL : late p →
  shows p (λ _, True) (p (AStartPool (workers (Start (sized poolSize)))) || p AStopPool || p AAwait || p ACancelBackground)
    (runWorkerOnly poolSize dbURL).
Proof.
  intros Hp. unfold runWorkerOnly, fatal. fold (sized poolSize).
  apply (shows_cong _ _ (false || (false || (false || (p (AStartPool (workers (Start (sized poolSize)))) || (false || (false ||
     ((p AAwait || (p ACancelBackground || false)) || (p AStopPool || false))))))))).
  { booleans p. }
  hush prepare_ordered. destruct InitQueue; [apply shows_stop|]. hush share_ordered. hush sweep_ordered.
  eapply shows_bind; [apply shows_start|]. intros q Hq. hush tuned_ordered. hush reporters_ordered.
  eapply shows_bind; [apply shows_emit|]. intros _ _. eapply shows_bind; [by apply shows_stop_pool|]. intros _ _. by apply shows_end.
Qed.

(** C25: The three modes start and stop things in one order, whatever fails on the way:
    tracing, the database, the caches, the sweep of old workspaces, the worker pool, its
    tuning, the reporters, the server; and after the signal the drain of HTTP, the
    background context, the pool, the connection, the traces.  A mode that is not stopped
    by a fatal error waits for the signal, cancels the background work, drains HTTP if it
    serves, and stops the pool if it started one; the API mode starts no pool. *)
Theorem modes_in_order port poolSize dbURL s :
  let orderly m serves pool :=
    StronglySorted le (rank <$> events m s) ∧
    (result m s = Some tt → let has p := existsb p (events m s) in
       has is_await = true ∧ has is_cancel = true ∧ has is_serve = serves ∧ has is_drain = serves ∧
       has is_start = pool ∧ has is_stop = pool) in
  orderly (runServer port dbURL) true has_queue ∧
  orderly (runAPIOnly port dbURL) true false ∧
  orderly (runWorkerOnly poolSize dbURL) false true.
Proof.
  assert (Hl : late is_await ∧ late is_cancel ∧ late is_serve ∧ late is_drain ∧ late is_start ∧ late is_stop).
  { split_and!; intros [] Ha; try discriminate Ha; cbn; lia. }
  destruct Hl as (? & ? & ? & ? & ? & ?). cbv zeta. split_and!.
  - apply server_ordered.
  - intros Hr. split_and!; (etrans; [eapply server_shows; done|]; unfold has_queue; clear Hr; by destruct InitQueue).
  - apply api_ordered.
  - intros Hr. split_and!; (etrans; [eapply api_shows; done|]; done).
  - apply worker_ordered.
  - intros Hr. split_and!; (etrans; [eapply worker_shows; done|]; done).
Qed.

(** ** When a mode exits at once *)

Ltac completing :=
  repeat lazymatch goal with
  | |- completes (mret _) => apply completes_ret
  | |- completes (emit _) => apply completes_emit
  | |- completes (outside _) => apply completes_outside
  | |- completes (mbind _ _) => apply completes_bind; [|intros ?]
  | |- completes (match ?x with _ => _ end) => destruct x
  end.

Ltac finishing :=
  unfold share_client, sweepJobWorkspaces, start_pool, tune, startDBPoolStatsReporter, reporters, serve, stop_pool, close_db, flush_tracing;
  completing.

Definition storage_refused : Prop :=
  is_Some (ValidateConfiguredBackend (Config.Getenv LookupEnv "MORF_STORAGE_BACKEND") newLocal newS3).
Definition settings_refused (dbURL : string) : Prop := Validate (Load (env_with dbURL)) false true ≠ [].

Lemma prepare_stops dbURL q s : result (prepare dbURL q) s = None ↔ storage_refused ∨ (q = true ∧ settings_refused dbURL).
Proof.
  unfold prepare, validateStorageOrExit, storage_refused, settings_refused.
  destruct (ValidateConfiguredBackend _ _ _) as [e|].
  - split; [by left; eexists|done].
  - transitivity (q = true ∧ Validate (Load (env_with dbURL)) false true ≠ []); [|split; [by right|by intros [[? [=]]|]]].
    destruct q; cbn [andb].
    + destruct (bool_decide (Validate _ _ _ = [])) eqn:Ev; cbn [negb].
      * apply bool_decide_eq_true in Ev. split; [|by intros [_ []]]. intros Hn. exfalso. revert Hn. apply not_eq_None_Some.
        revert s. apply (completes_bind (mret tt) (λ _ : unit, _)); [apply completes_ret|intros _].
        unfold tracing, init_db. completing.
      * apply bool_decide_eq_false in Ev. split; [done|]. intros _.
        unfold tracing, fatal. by destruct s.
    + split; [|by intros [[=] _]]. intros Hn. exfalso. revert Hn. apply not_eq_None_Some. revert s.
      apply (completes_bind (mret tt) (λ _ : unit, _)); [apply completes_ret|intros _]. unfold tracing, init_db. completing.
Qed.

(** A mode of the shape [prepare; if the queue is missing then exit else ...]. *)
Lemma guarded_mode {A} dbURL q (f : globals → boot A) s : (∀ g, completes (f g)) →
  let m := g ← prepare dbURL q; match InitQueue with Some _ => fatal | None => f g end in
  (result m s = None ↔ storage_refused ∨ (q = true ∧ settings_refused dbURL) ∨ is_Some InitQueue) ∧
  (result m s = None → events m s = events (prepare dbURL q) s).
Proof.
  intros Hf. cbv zeta. destruct InitQueue as [e|].
  - split; [split; [intros _; right; right; by eexists|intros _]|intros _];
      destruct (bind_cases (B := A) (prepare dbURL q) (λ _, fatal) s) as [(tr & s1 & Em & Eb)|(a & tr & s1 & Em & Er & Ee)];
      unfold result, events in *; rewrite ?Eb, ?Em, ?Ee, ?app_nil_r; done.
  - destruct (stopped_by_first (prepare dbURL q) f s Hf) as [Hr He]. split; [|exact He].
    rewrite Hr, prepare_stops. split; [tauto|]. intros [?|[?|[? [=]]]]; tauto.
Qed.

Lemma rank_below dbURL q s : Forall (λ a, rank a ≤ 3)%nat (events (prepare dbURL q) s).
Proof.
  destruct (prepare_ordered dbURL q) as [_ Hp]. destruct (Hp s) as [_ Hb]. rewrite Forall_fmap in Hb.
  eapply Forall_impl; [exact Hb|]. cbn. lia.
Qed.

(** A mode exits at start-up exactly when it must: the server only when the configured
    artifact store cannot be built; the API and the workers also when no Redis URL is set
    or the queue cannot be reached.  It has then shared no client, swept no workspace,
    started no pool and served no request. *)
Theorem exits_exactly port poolSize dbURL s :
  let nothing_started m := result m s = None → Forall (λ a, rank a ≤ 3)%nat (events m s) in
  let refused := storage_refused ∨ settings_refused dbURL ∨ is_Some InitQueue in
  ((result (runServer port dbURL) s = None ↔ storage_refused) ∧ nothing_started (runServer port dbURL)) ∧
  ((result (runAPIOnly port dbURL) s = None ↔ refused) ∧ nothing_started (runAPIOnly port dbURL)) ∧
  ((result (runWorkerOnly poolSize dbURL) s = None ↔ refused) ∧ nothing_started (runWorkerOnly poolSize dbURL)).
Proof.
  cbv zeta.
  assert (Hserver : ∀ f : globals → boot unit, (∀ g, completes (f g)) → let m := prepare dbURL false ≫= f in
    (result m s = None ↔ storage_refused) ∧ (result m s = None → Forall (λ a, rank a ≤ 3)%nat (events m s))).
  { intros f Hf. destruct (stopped_by_first (prepare dbURL false) f s Hf) as [Hr He]. cbv zeta. split.
    - rewrite Hr, prepare_stops. split; [by intros [?|[[=] _]]|tauto].
    - intros Hn. rewrite (He Hn). apply rank_below. }
  assert (Hother : ∀ f : globals → boot unit, (∀ g, completes (f g)) →
    let m := g ← prepare dbURL true; match InitQueue with Some _ => fatal | None => f g end in
    (result m s = None ↔ storage_refused ∨ settings_refused dbURL ∨ is_Some InitQueue) ∧
    (result m s = None → Forall (λ a, rank a ≤ 3)%nat (events m s))).
  { intros f Hf. destruct (guarded_mode dbURL true f s Hf) as [Hr He]. cbv zeta. split; [rewrite Hr; tauto|].
    intros Hn. rewrite (He Hn). apply rank_below. }
  split; [|split]; [apply Hserver|apply Hother|apply Hother]; intros g; finishing.
Qed.
End main.

(** ** What modelling showed *)

(** Every workspace named in the directory is removed, whoever works in it: the sweep
    cannot tell a crashed process from one that is running beside this one. *)
Lemma sweep_covers_live_workspaces {V : Driver} uuid id entries s : TrimSpace id ≠ "" → id ∈ entries →
  ARemoveAll (Workspace (NewJobContextForID uuid id)) ∈ events (sweepJobWorkspaces (V := V) (Some entries)) s.
Proof.
  intros Hid Hin. cbn. apply list_elem_of_fmap. exists id. split; [|done].
  unfold NewJobContextForID. by rewrite decide_False.
Qed.

Definition is_stats (a : action) : bool := match a with APoolStats => true | _ => false end.
#[local] Instance steady : Driver := recording (λ _ _, None) (λ _, None) None None.
Definition db_env (k : string) : option string :=
  if decide (k = "DATABASE_URL") then Some "u:p@tcp(db)/morf" else if decide (k = "MORF_DISABLE_AUTO_MIGRATE") then Some "true" else None.
Definition boots (queue : option error) : list action :=
  events (runServer (B := unit) (Err (ENew "")) (λ _, false) (λ _, Ok "") db_env (Ok tt) (Ok tt) 4 2 true queue true true
    (Some ["left"]) 9092 "") (mk_globals false false false None, mk_recorder [] 0).

(** The whole life of a server on a healthy host. *)
Example server_life : boots None =
  [AMaxProcs 4; AInitTracing; AInitDB; AInitCache "redis://localhost:6379"; ASubscriber; APatternRefresher; AUsageFlusher; AInitBreakers;
   ACacheFromQueue; ARemoveAll "/tmp/morf/jobs/left"; AStartPool [1; 2]; ATunePool 2; APoolStats; ADepthReporter; AReaper;
   AServe 9092 (mk_engine true [] ["http://localhost:4200"]);
   AAwait; ADrainHTTP; ACancelBackground; AStopPool; ACloseDB; AFlushTracing].
Proof. by vm_compute. Qed.

(** Without a queue the connection is used, and its gauges are never fed. *)
Example no_stats_without_queue : existsb is_stats (boots (Some (ENew "redis"))) = false ∧ ACloseDB ∈ boots (Some (ENew "redis")).
Proof. vm_compute. split; [reflexivity|]. do 13 (apply list_elem_of_here || apply list_elem_of_further). Qed.
